(* ===== verification/_CoqProject ===== *)
-Q . S2P
Prelude.v
Status.v
Utf8.v
Bytes.v
Ids.v
Types.v
Registry.v
Hash.v
Time.v
Canonical.v
Terms.v
Policy.v
Decision.v
Engine.v
Fencing.v
Mutation.v
Files.v
Wal.v
Snapshot.v
DurableStore.v
Recovery.v
Frame.v
Messages.v
Connection.v
Reactor.v
Effects.v
Logic.v
EventLoop.v
Agent.v
AgentHandlers.v
Enforcement.v
AgentGuarantees.v
Coordinator.v
Handlers.v
Admin.v
Protocol.v
CoordinatorLogic.v
Refinement.v
Reachability.v
Guarantees.v
Sample.v
StoreSample.v
FabricRun.v
System.v
ConfigFile.v
Rng.v
Log.v
AppSupport.v
Daemons.v
Sockets.v
Client.v
Serve.v
Ctl.v
CtlRun.v
Programs.v
Directories.v
Handles.v
