(* ===== verification/Prelude.v ===== *)
(** * A verification library for the Inter-Cluster Fabric

    The program (sources under [src/src] and [src/include/icf]) runs a coordinator that decides
    whether two endpoints of different clusters may be connected.  Cluster agents register their
    clusters and endpoints, two authority domains consent to identical contract terms, the
    coordinator issues a grant that both sides acknowledge, and every change that supersedes the
    evidence behind a grant (a reincarnation, a withdrawal, a policy change, a restart of the
    coordinator) fences it.  The state is kept in a registry, encoded canonically, digested, and
    made durable by a snapshot and a write-ahead log.

    ** Files

    - [Prelude] (this file): byte strings, ordered maps as the sources iterate them, C
      enumerations with their codes (class [CEnum]), shared lemmas and tactics.
    - [Status]: [core/status], [core/limits], [core/checked].  [Outcome], [Status] and
      [Result A] (a value or a failed status) with the error monad, the state-and-error monad
      [ST], the limits and the checked 64-bit operations.
    - [Utf8]: [core/utf8].
    - [Bytes]: [core/bytes].  A [ByteWriter] operation is the bytes it appends; a [ByteReader]
      operation is a parser that returns the rest of the input.  The class [Codec enc dec dom]
      is the interface every encoder/decoder pair of the later files implements.
    - [Ids]: [core/ids] and the hexadecimal part of [core/hash].
    - [Types]: [model/types] and [model/records].
    - [Registry]: [model/registry].  The maps are [gmap]s iterated in key order; [registry_ok]
      is the invariant every operation preserves.
    - [Hash]: [core/hash].  CRC-32C, SHA-256, HMAC.
    - [Time]: [core/time].
    - [Canonical]: [model/canonical].  The encoders, the decoders, their [Codec] instances and
      the round trip of a whole registry.
    - [Terms]: [model/terms].
    - [Policy]: [model/policy].
    - [Decision]: [model/decision].
    - [Engine]: [runtime/engine].  [decide] and the fence planners, against a declarative
      specification of connectivity.
    - [Fencing]: [runtime/fencing] and [runtime/audit].  Plans are applied to the registry in the
      [ST] monad, so that the registry left behind by an error is part of the model.
    - [Mutation]: [store/mutation].  The tagged union of state changes, its codec and its application.
    - [Files]: the POSIX branch of [store/file_util] over a map from paths to contents; what the
      system calls answer is an argument.
    - [Wal]: [store/wal].  The log format, the recovery scan, append and reset.
    - [Snapshot]: [store/snapshot].
    - [DurableStore]: [store/durable_store], against an abstract store ([Durable]) that only keeps the
      state the accepted mutations build.
    - [Frame]: [wire/frame] and the receive loop of [net/reactor].
    - [Messages]: [wire/messages].  A record per message, its encoder and its decoder.
    - [Connection]: a connection of [net/reactor] and its outbound queue.
    - [Reactor]: the event loop's connections, timers and sleep time.
    - [Effects]: the statements both daemons are written in: state passing with errors, the environment,
      and [Host], the interface of an object that owns a registry, a store and connections.
    - [Logic]: the rules and the tactic by which methods over such a state are followed.
    - [EventLoop]: dispatch, sweep and the turn of one connection, for the handlers of any host.
    - [Agent], [AgentHandlers]: [runtime/agent].  Incarnation, enforcement, local control; its handlers.
    - [Enforcement]: the protocol of local enforcement as an abstract transition relation, and its
      refinement by every method of the agent.
    - [AgentGuarantees]: the reachable states of an agent and what holds in them.
    - [Recovery]: the invariant of every registry that is read from files.
    - [Coordinator]: state, persistence, fencing and the grant flow of [runtime/coordinator].
    - [Handlers], [Admin]: its message handlers, queries, administration and housekeeping.
    - [Protocol]: the authority protocol as an abstract transition relation on the registry, with its
      invariants by rule induction.
    - [CoordinatorLogic]: the rules for the members and guards of the coordinator.
    - [Refinement]: every method performs only protocol transitions.
    - [Reachability], [Guarantees]: the states after a start and any events, and what holds in them.
    - [FabricRun]: a coordinator driven by encoded frames from an empty directory to a committed grant.
    - [System]: one coordinator and two agents that exchange signed bytes through their event loops.
    - [ConfigFile]: [core/config].  The parser of configuration files and its accessors.
    - [Rng]: [core/rng] and [Uuid::random].  [Log]: [core/log].
    - [AppSupport], [Daemons]: [apps/common], [apps/icfd] and [apps/icfclusterd], from the command line to the configuration
      of a daemon and its exit code.
    - [Sockets]: [net/platform], [net/poller] and [net/socket] on the answers of the system calls.
    - [Client]: [client/client], the blocking client over such a socket.
    - [Serve]: listeners, [pump] and [run] of [net/reactor], and the daemons serving in them.
    - [Ctl], [CtlRun]: [apps/icfctl].  The commands as functions from the command line to a request and from the reply to
      lines and an exit code; the tool and the coordinator together.
    - [Programs]: the two programs under [examples].
    - [Directories]: the rest of [store/file_util], over any file system that satisfies the class [DirectoryLaws].
    - [Handles]: who owns the handle of a socket.
    - [Sample], [StoreSample]: a concrete deployment (two clusters, a link, a contract, a grant, a store) at which the
      theorems with hypotheses are applied.

    ** How the code is represented

    Machine integers are [Z] with the width checks of the source written out; identifiers, uuids
    and digests are [string]s of bytes.  A function that returns [Status] or [Result] returns
    [Result]; a function that mutates its argument runs in [ST], whose error case keeps the
    state as the source leaves it.  [std::map] is [gmap string] iterated through [entries], which
    sorts by key as the source does.  An enumeration read from a byte is [enum_cast]; the
    decoders check the range first, as the source does.  [.value()] on a failed result throws in
    the source and is the outcome [Throw] of the model ([value_or_throw]).  The SHA-256 round
    constants are computed in the source with double-precision cube roots; the model computes the
    same fractions exactly.

    The coordinator and the agent are state monads [M] and [AM] over the records of their members.  The clock, the random
    source and the system calls below the store are a [World] of answers that is read in order; a
    pointer into a map is the key it was found under, and a write through it changes the map, so
    that a mutation left behind by an early return is part of the model.

    ** What the theorems show

    - The engine: [decide] answers an authorized outcome exactly when the declarative conditions
      hold; a fence plan names everything it has to.
    - Fencing: applying a plan does what it says, is idempotent, returns capacity, and afterwards
      nothing of the fenced cluster, or of recovered state, is authorized.
    - Policy, terms, registry: declarative specifications of the evaluations, and invariants.
    - Encodings: every codec round-trips, the canonical encoding and the terms encoding are
      injective, so equal digest inputs mean equal state.
    - Hashes, time: equivalence with reference definitions, saturation, round trips.
    - Store: from every state reachable by appends, compactions and restarts, with the last append
      interrupted at any byte, opening the store recovers exactly the accepted state; the log scan
      trusts exactly the intact prefix; a snapshot with a changed byte is refused.
    - Frames: a stream of frames survives any chunking; accepted frames are authentic and intact.
    - Messages: every message survives its encoding and a decoder returns only well-formed messages.
    - Connections: the outbound queue is a bounded FIFO under partial writes.
    - The coordinator: it implements the abstract protocol; acknowledgements and consents come from
      the authenticated agent of the party; the invariants hold in every reachable state; a start
      leaves no authority; frames without a valid session change nothing.
    - The agent: a grant is installed in two checked phases; what is enforced is current and consented in
      every reachable state; a restart enforces nothing and supersedes; revocation is immediate.
    - The event loop: its turns are steps of the daemons; it does not sleep past a deadline.
    - The whole fabric: a grant is installed end to end, and four ways of taking it away reach everyone.
    - Serving: the main loops of both daemons stay within the reachable states whatever poll and accept answer, and the
      housekeeping of the coordinator recurs.
    - The programs: the configuration grammar is decided exactly and round-trips; endpoints are sorted, distinct and
      bounded; log lines cannot be forged; the exit codes of the tool say what the peer answered to that very request;
      what the tool sends decodes at the peer.
    - Below: connecting and receiving end; handles are closed exactly once; directories are created.
    - Findings (in [Sample], [StoreSample], [FabricRun], [System], [Client], [Daemons], [CtlRun], [Programs] and others): behaviours of the code that the comments or the
      documents do not describe, each on a concrete state.

    ** Fuel

    Recursion that is not structural carries fuel that its callers set from the length of the
    input: [utf8_loop] and [sha_absorb] consume at least one byte per step, [make_k] has to pass
    the first 64 primes (311 is the last), [dec_loop] prints numbers of at most 20 digits.
    [scan_records] has the length of the file, and a record takes at least 36 bytes; [drain]
    has one more than the length of the buffer.
    The theorems about these are stated on the callers, without fuel.  The waits on sockets ([wait_loop], [connect_loop],
    [receive_loop], [query_loop]) and the event loop take fuel as an argument and answer [None] when it is spent; the
    theorems [connect_terminates] and [receive_frame_terminates] show that with an advancing clock some fuel is enough,
    [pings_starve_requests] that none is for [query], and the event loop is meant to run for ever, so that its theorems
    are about any number of turns.  [ensure_directory] needs one more than the length of the path.

    ** Not modelled

    The Windows branches; what the operating system does below the system calls, whose answers are arguments (the
    clock, entropy, sockets, poll, files, directories); the mutex of the logger; the reference count of [NetworkScope];
    the text formatting of the standard library beyond what is printed here; the benchmarks, the tests and the build
    files.  The destructors of the daemons and of the event loop, and the hash functions of the identifiers, have no
    effect that the other parts observe. *)
From Stdlib Require Export ZArith Ascii String Lia.
From stdpp Require Export base gmap strings list sorting fin_maps.

#[export] Set Default Goal Selector "!".
Open Scope Z_scope.

(** * Bytes and byte strings

    [std::byte] and [char] are both 8-bit: one type, [ascii], stands for both, so that a
    [std::string] and a [std::vector<std::byte>] convert without a range condition. *)
Abbreviation byte := ascii (only parsing).
Abbreviation bytes := (list ascii) (only parsing).

Definition byte_val (b : byte) : Z := Z.of_N (N_of_ascii b).
Definition byte_of (z : Z) : byte := ascii_of_N (Z.to_N (Z.land z 255)).
Definition str_bytes (s : string) : bytes := list_ascii_of_string s.
Definition bytes_str (l : bytes) : string := string_of_list_ascii l.
Definition slen (s : string) : Z := Z.of_nat (String.length s).
Definition zlen {A} (l : list A) : Z := Z.of_nat (length l).

(** [std::string::resize] to at most [n] bytes, as the code uses it to bound a text. *)
Definition str_take (n : Z) (s : string) : string :=
  bytes_str (take (Z.to_nat n) (str_bytes s)).

(** * Ordered maps

    [std::map] iterates in key order; every key of the program is a byte string (a name or a
    16-byte identifier), compared byte by byte. [entries] is that iteration order. *)
Definition key_le {V} (p q : string * V) : Prop := String.le p.1 q.1.
#[export] Instance key_le_dec {V} : RelDecision (@key_le V).
Proof. intros p q. unfold key_le. apply _. Defined.
Definition entries {V} (m : gmap string V) : list (string * V) := merge_sort key_le (map_to_list m).
Definition values {V} (m : gmap string V) : list V := (entries m).*2.

(** [a < b] on strings, as the comparators of the code write it. *)
Definition str_ltb (a b : string) : bool := bool_decide (String.le a b) && negb (bool_decide (a = b)).

(** * Tactics

    [crush_if] splits on every boolean test of the goal and turns the result into the
    proposition it decides; [inv_eqs] is the usual clean-up after a case split. *)
Ltac bool_prop :=
  repeat match goal with
  | H : (_ && _)%bool = true |- _ => apply andb_true_iff in H; destruct H
  | H : (_ || _)%bool = false |- _ => apply orb_false_iff in H; destruct H
  | H : negb _ = true |- _ => apply negb_true_iff in H
  | H : negb _ = false |- _ => apply negb_false_iff in H
  | H : (_ <=? _) = true |- _ => apply Z.leb_le in H
  | H : (_ <=? _) = false |- _ => apply Z.leb_gt in H
  | H : (_ <? _) = true |- _ => apply Z.ltb_lt in H
  | H : (_ <? _) = false |- _ => apply Z.ltb_ge in H
  | H : (_ =? _) = true |- _ => apply Z.eqb_eq in H
  | H : (_ =? _) = false |- _ => apply Z.eqb_neq in H
  | H : bool_decide _ = true |- _ => apply bool_decide_eq_true_1 in H
  | H : bool_decide _ = false |- _ => apply bool_decide_eq_false_1 in H
  end.
Ltac crush_if :=
  repeat match goal with
  | |- context [if ?b then _ else _] => destruct b eqn:?
  | |- context [match ?x with _ => _ end] => destruct x eqn:?
  end; bool_prop; simplify_eq/=.
Ltac split_if H :=
  repeat (match type of H with
  | context [if ?b then _ else _] => destruct b eqn:?
  | context [match ?x with _ => _ end] => destruct x eqn:?
  end; try discriminate H); bool_prop; simplify_eq/=.

(** [lia] with division and remainder by constants. *)
Ltac dlia := Z.to_euclidean_division_equations; lia.

Create HintDb icf.
Create Rewrite HintDb icf.

(** * Bytes *)
Lemma byte_val_range b : 0 <= byte_val b < 256.
Proof.
  unfold byte_val. pose proof (N_ascii_bounded b). lia.
Qed.

Lemma byte_of_val b : byte_of (byte_val b) = b.
Proof.
  unfold byte_of. change 255 with (Z.ones 8). rewrite Z.land_ones by lia.
  rewrite Z.mod_small by (pose proof (byte_val_range b); lia).
  unfold byte_val. rewrite N2Z.id. apply ascii_N_embedding.
Qed.

Lemma byte_val_of z : byte_val (byte_of z) = z mod 256.
Proof.
  unfold byte_of, byte_val. change 255 with (Z.ones 8). rewrite Z.land_ones by lia.
  change (2 ^ 8) with 256.
  pose proof (Z.mod_pos_bound z 256 ltac:(lia)).
  rewrite N_ascii_embedding by lia. lia.
Qed.

Lemma byte_val_inj a b : byte_val a = byte_val b -> a = b.
Proof. intros H. rewrite <- (byte_of_val a), <- (byte_of_val b). by rewrite H. Qed.

Lemma str_bytes_str l : str_bytes (bytes_str l) = l.
Proof. apply list_ascii_of_string_of_list_ascii. Qed.

Lemma bytes_str_bytes s : bytes_str (str_bytes s) = s.
Proof. apply string_of_list_ascii_of_string. Qed.

Lemma length_str_bytes s : length (str_bytes s) = String.length s.
Proof. induction s as [|c s IH]; simpl; [done | by f_equal]. Qed.

Lemma length_bytes_str l : String.length (bytes_str l) = length l.
Proof. by rewrite <- length_str_bytes, str_bytes_str. Qed.

Lemma str_bytes_inj s t : str_bytes s = str_bytes t -> s = t.
Proof. intros H. by rewrite <- (bytes_str_bytes s), <- (bytes_str_bytes t), H. Qed.

Lemma zlen_nonneg {A} (l : list A) : 0 <= zlen l.
Proof. unfold zlen. lia. Qed.

Lemma zlen_cons {A} (x : A) l : zlen (x :: l) = 1 + zlen l.
Proof. unfold zlen. cbn [length]. lia. Qed.

Lemma zlen_app {A} (l k : list A) : zlen (l ++ k) = zlen l + zlen k.
Proof. unfold zlen. rewrite length_app. lia. Qed.

#[export] Hint Rewrite str_bytes_str bytes_str_bytes length_str_bytes length_bytes_str byte_of_val : icf.
#[export] Hint Resolve zlen_nonneg byte_val_range : icf.

(** * Ordered maps *)
Section ordered_map.
Context {V : Type}.
Implicit Types (m : gmap string V).

#[export] Instance key_le_total : Total (@key_le V).
Proof. intros p q. unfold key_le. apply String.le_total. Qed.

#[export] Instance key_le_trans : Transitive (@key_le V).
Proof. intros p q r. unfold key_le. apply String.le_po. Qed.

Lemma entries_perm m : entries m ≡ₚ map_to_list m.
Proof. apply merge_sort_Permutation. Qed.

Lemma elem_of_entries m k v : (k, v) ∈ entries m <-> m !! k = Some v.
Proof. rewrite entries_perm. apply elem_of_map_to_list. Qed.

Lemma elem_of_values m v : v ∈ values m <-> exists k, m !! k = Some v.
Proof.
  unfold values. rewrite list_elem_of_fmap. setoid_rewrite <- elem_of_entries.
  split; [intros ([k w] & -> & H); eauto | intros [k H]; by exists (k, v)].
Qed.

Lemma entries_keys_NoDup m : NoDup (entries m).*1.
Proof. rewrite entries_perm. apply NoDup_fst_map_to_list. Qed.

Lemma entries_NoDup m : NoDup (entries m).
Proof. rewrite entries_perm. apply NoDup_map_to_list. Qed.

Lemma entries_sorted m : StronglySorted key_le (entries m).
Proof. apply StronglySorted_merge_sort; apply _. Qed.

Lemma list_to_map_entries m : list_to_map (entries m) = m.
Proof.
  rewrite (list_to_map_proper (entries m) (map_to_list m)).
  - apply list_to_map_to_list.
  - apply entries_keys_NoDup.
  - apply entries_perm.
Qed.

Lemma length_entries m : length (entries m) = size m.
Proof. rewrite entries_perm. apply length_map_to_list. Qed.

Lemma length_values m : length (values m) = size m.
Proof. unfold values. by rewrite length_fmap, length_entries. Qed.

(** Inserting the entries in order rebuilds the map. *)
Lemma foldl_insert_entries (l : list (string * V)) m :
  NoDup l.*1 -> foldl (fun acc p => <[p.1 := p.2]> acc) m l = list_to_map l ∪ m.
Proof.
  revert m. induction l as [|[k v] l IH]; intros m Hnd; simpl; [by rewrite map_empty_union|].
  apply NoDup_cons in Hnd as [Hk Hnd]. simpl in *. rewrite IH by done.
  rewrite <- insert_union_r by (by apply not_elem_of_list_to_map_1).
  by rewrite insert_union_l.
Qed.
End ordered_map.

(** A bound on the number of records that [insert] cannot exceed. *)
Lemma map_size_insert_le {V} (m : gmap string V) k v (n : nat) :
  (is_Some (m !! k) -> size m <= n)%nat -> (m !! k = None -> size m < n)%nat ->
  (size (<[k := v]> m) <= n)%nat.
Proof.
  intros H1 H2. destruct (m !! k) as [w|] eqn:E.
  - rewrite map_size_insert_Some by eauto. apply H1. eauto.
  - rewrite map_size_insert_None by done. specialize (H2 eq_refl). lia.
Qed.

(** * Bit arithmetic

    A claim about one byte is decided by evaluating it on the 256 values. *)
Lemma byte_forall (P : Z -> bool) :
  forallb P (Z.of_nat <$> seq 0 256) = true -> forall z, 0 <= z < 256 -> P z = true.
Proof.
  intros H z Hz. rewrite forallb_forall in H. apply H.
  apply list_elem_of_In, list_elem_of_fmap. exists (Z.to_nat z).
  rewrite elem_of_seq. lia.
Qed.

Lemma lor_shiftl_add a b n :
  0 <= n -> 0 <= b < 2 ^ n -> Z.lor (Z.shiftl a n) b = a * 2 ^ n + b.
Proof.
  intros Hn Hb. rewrite <- Z.shiftl_mul_pow2 by lia.
  assert (Hz : Z.land (Z.shiftl a n) b = 0).
  { apply Z.bits_inj'. intros i Hi. rewrite Z.land_spec, Z.bits_0.
    destruct (decide (i < n)).
    - by rewrite Z.shiftl_spec_low.
    - replace b with (b mod 2 ^ n) by (by apply Z.mod_small).
      rewrite Z.mod_pow2_bits_high by lia. apply andb_false_r. }
  rewrite <- Z.lxor_lor by done. by rewrite Z.add_nocarry_lxor.
Qed.

Lemma shiftr_land_byte v k : 0 <= k -> Z.land (Z.shiftr v k) 255 = v / 2 ^ k mod 256.
Proof. intros. change 255 with (Z.ones 8). rewrite Z.land_ones, Z.shiftr_div_pow2 by lia. done. Qed.

(** * Enumerations

    Every [enum class] of the program numbers its enumerators from 0 without gaps, in the order
    of declaration; an instance lists them in that order. *)
Class CEnum (E : Type) `{EqDecision E} := {
  enumerators : list E;
  enum_first : E;
  enumerators_NoDup : NoDup enumerators;
  enumerators_all : forall e, e ∈ enumerators;
}.

Definition enum_code `{CEnum E} (e : E) : Z :=
  match list_find (fun x => x = e) enumerators with
  | Some (i, _) => Z.of_nat i
  | None => 0
  end.

(** [static_cast<Enum>(raw)]; outside the enumerators the result is never used. *)
Definition enum_cast `{CEnum E} (z : Z) : E := default enum_first (enumerators !! Z.to_nat z).
Definition enum_max `{CEnum E} : Z := zlen (enumerators (E := E)) - 1.

Section enum_facts.
Context `{CEnum E}.

Lemma enum_code_lookup (e : E) :
  exists i, enumerators !! i = Some e /\ enum_code e = Z.of_nat i.
Proof.
  unfold enum_code. destruct (list_find _ _) as [[i x]|] eqn:F.
  - apply list_find_Some in F as (Hi & -> & _). eauto.
  - apply list_find_None in F. rewrite Forall_forall in F.
    by destruct (F e (enumerators_all e)).
Qed.

Lemma enum_cast_code (e : E) : enum_cast (enum_code e) = e.
Proof.
  destruct (enum_code_lookup e) as (i & Hi & ->). unfold enum_cast. by rewrite Nat2Z.id, Hi.
Qed.

Lemma enum_code_range (e : E) : 0 <= enum_code e <= enum_max (E := E).
Proof.
  destruct (enum_code_lookup e) as (i & Hi & ->). apply lookup_lt_Some in Hi.
  unfold enum_max, zlen. lia.
Qed.

Lemma enum_code_cast z : 0 <= z <= enum_max (E := E) -> enum_code (enum_cast z : E) = z.
Proof.
  intros Hz. unfold enum_max, zlen in Hz.
  destruct (lookup_lt_is_Some_2 (enumerators (E := E)) (Z.to_nat z)) as [e He]; [lia|].
  unfold enum_cast. rewrite He. simpl. destruct (enum_code_lookup e) as (i & Hi & ->).
  rewrite (NoDup_lookup _ _ _ _ enumerators_NoDup Hi He). lia.
Qed.
End enum_facts.

(** Proves the laws of an enumeration whose enumerators are listed. *)
Ltac solve_enum :=
  match goal with
  | |- NoDup _ => apply (bool_decide_unpack _); vm_compute; exact I
  | |- forall e, e ∈ _ => intros []; repeat constructor
  end.

(** * Filters that keep everything or nothing *)
Lemma filter_all {A} (P : A -> Prop) `{!forall x, Decision (P x)} (l : list A) : Forall P l -> filter P l = l.
Proof. induction 1; [done|]. rewrite filter_cons_True by done. by f_equal. Qed.
Lemma filter_none {A} (P : A -> Prop) `{!forall x, Decision (P x)} (l : list A) :
  Forall (fun x => ~ P x) l -> filter P l = [].
Proof. induction 1; [done|]. by rewrite filter_cons_False. Qed.
