(* ===== verification/Status.v ===== *)
(** * Typed outcomes, results and checked arithmetic

    Models include/icf/core/status.hpp, src/core/status.cpp, include/icf/core/limits.hpp,
    src/core/checked.cpp and include/icf/core/byte_limits.hpp.

    [Status] keeps the outcome and the message. A function of the code that returns [Status] is
    modelled by [Result unit]: [Val tt] is [Status::ok()]. [Throw] is an uncaught C++ exception
    (the code calls [Result::value()] on a failed result in one place). [ST] is the code's way
    of mutating an object and returning a result: the state survives an error. *)
From S2P Require Import Prelude.

Inductive Outcome :=
  | Outcome_Ok
  | Outcome_Unknown
  | Outcome_Unsupported
  | Outcome_Stale
  | Outcome_Conflicting
  | Outcome_Incomplete
  | Outcome_Indeterminate
  | Outcome_Refused
  | Outcome_Cancelled
  | Outcome_Invalid
  | Outcome_Unreachable
  | Outcome_Partitioned
  | Outcome_DegradedAuthorized
  | Outcome_Fenced
  | Outcome_Expired
  | Outcome_Unauthorized
  | Outcome_NotFound
  | Outcome_CapacityExceeded
  | Outcome_Replayed
  | Outcome_Reincarnated
  | Outcome_Corrupt
  | Outcome_Incompatible
  | Outcome_Overflow
  | Outcome_Busy
  | Outcome_AlreadyExists
  | Outcome_Internal.

#[export] Instance Outcome_eq_dec : EqDecision Outcome.
Proof. solve_decision. Defined.

(** [kOutcomeNames], in the order of the table. *)
Definition kOutcomeNames : list (Outcome * string) :=
  [ (Outcome_Ok, "OK"); (Outcome_Unknown, "UNKNOWN"); (Outcome_Unsupported, "UNSUPPORTED");
    (Outcome_Stale, "STALE"); (Outcome_Conflicting, "CONFLICTING");
    (Outcome_Incomplete, "INCOMPLETE"); (Outcome_Indeterminate, "INDETERMINATE");
    (Outcome_Refused, "REFUSED"); (Outcome_Cancelled, "CANCELLED"); (Outcome_Invalid, "INVALID");
    (Outcome_Unreachable, "UNREACHABLE"); (Outcome_Partitioned, "PARTITIONED");
    (Outcome_DegradedAuthorized, "DEGRADED_AUTHORIZED"); (Outcome_Fenced, "FENCED");
    (Outcome_Expired, "EXPIRED"); (Outcome_Unauthorized, "UNAUTHORIZED");
    (Outcome_NotFound, "NOT_FOUND"); (Outcome_CapacityExceeded, "CAPACITY_EXCEEDED");
    (Outcome_Replayed, "REPLAYED"); (Outcome_Reincarnated, "REINCARNATED");
    (Outcome_Corrupt, "CORRUPT"); (Outcome_Incompatible, "INCOMPATIBLE");
    (Outcome_Overflow, "OVERFLOW"); (Outcome_Busy, "BUSY");
    (Outcome_AlreadyExists, "ALREADY_EXISTS"); (Outcome_Internal, "INTERNAL") ]%string.

Definition outcome_to_string (o : Outcome) : string :=
  match list_find (fun e => e.1 = o) kOutcomeNames with
  | Some (_, e) => e.2
  | None => "INVALID"
  end.

Definition outcome_from_string (text : string) : option Outcome :=
  match list_find (fun e => e.2 = text) kOutcomeNames with
  | Some (_, e) => Some e.1
  | None => None
  end.

#[export] Program Instance Outcome_enum : CEnum Outcome :=
  {| enumerators := kOutcomeNames.*1; enum_first := Outcome_Ok |}.
Solve All Obligations with solve_enum.

Definition is_ok (o : Outcome) : bool := bool_decide (o = Outcome_Ok).

Definition is_authorized (o : Outcome) : bool :=
  bool_decide (o = Outcome_Ok) || bool_decide (o = Outcome_DegradedAuthorized).

Definition is_indeterminate_family (o : Outcome) : bool :=
  match o with
  | Outcome_Unknown | Outcome_Incomplete | Outcome_Indeterminate | Outcome_Unreachable
  | Outcome_Partitioned | Outcome_Stale | Outcome_Busy | Outcome_Cancelled => true
  | _ => false
  end.

(** * Limits (include/icf/core/limits.hpp) *)
Module limits.
Definition kMaxNameLength : Z := 96.
Definition kMaxScopeLength : Z := 192.
Definition kProtocolVersionMin : Z := 1.
Definition kProtocolVersionMax : Z := 1.
Definition kFrameHeaderSize : Z := 20.
Definition kFrameTrailerSize : Z := 4.
Definition kMaxFramePayload : Z := 2 ^ 20.
Definition kMaxStringField : Z := 512.
Definition kMaxClusters : Z := 1024.
Definition kMaxEndpointsPerCluster : Z := 4096.
Definition kMaxEndpointsTotal : Z := 65536.
Definition kMaxEdges : Z := 65536.
Definition kMaxPathHops : Z := 16.
Definition kMaxPaths : Z := 65536.
Definition kMaxPolicyRules : Z := 4096.
Definition kMaxContracts : Z := 65536.
Definition kMaxGrants : Z := 131072.
Definition kMaxReservations : Z := 131072.
Definition kMaxQueryResults : Z := 4096.
Definition kMaxAuditRecords : Z := 65536.
Definition kMaxFencePlanEntries : Z := 65536.
Definition kMaxCapacity : Z := 2 ^ 48.
Definition kMaxDurationNanos : Z := 365 * 24 * 3600 * 1000000000.
Definition kMaxGeneration : Z := 2 ^ 62.
Definition kMaxStoreRecordPayload : Z := 2 ^ 20.
Definition kMaxStoreBytes : Z := 512 * 2 ^ 20.
Definition kMaxStoreRecords : Z := 2 ^ 22.
Definition kMaxRevalidateAttempts : Z := 64.
Definition kMaxPendingSends : Z := 256.
Definition kDefaultReadDeadlineMillis : Z := 15000.
Definition kMaxSendQueueBytes : Z := 8 * 2 ^ 20.
Definition kMaxConnections : Z := 512.
Definition kMaxAcceptBurst : Z := 64.
Definition kMaxDecisionReasons : Z := 32.
Definition kMaxDecisionPaths : Z := 8.
End limits.

Definition u16_max : Z := 2 ^ 16 - 1.
Definition u32_max : Z := 2 ^ 32 - 1.
Definition u64_max : Z := 2 ^ 64 - 1.
Definition i64_min : Z := - 2 ^ 63.
Definition i64_max : Z := 2 ^ 63 - 1.

(** * Status and Result *)
Record Status := mkStatus { st_outcome : Outcome; st_message : string }.

#[export] Instance Status_eq_dec : EqDecision Status.
Proof. solve_decision. Defined.

(** [Status::make] bounds the message. *)
Definition status_make (o : Outcome) (message : string) : Status :=
  mkStatus o (if limits.kMaxStringField <? slen message
              then str_take limits.kMaxStringField message else message).

Inductive Result (A : Type) :=
  | Val (a : A)
  | Err (s : Status)
  | Throw.
Arguments Val {A} a.
Arguments Err {A} s.
Arguments Throw {A}.

Definition fail {A} (o : Outcome) (message : string) : Result A := Err (status_make o message).
Definition invalid {A} (message : string) : Result A := fail Outcome_Invalid message.
Definition not_found {A} (message : string) : Result A := fail Outcome_NotFound message.

#[export] Instance Result_ret : MRet Result := fun A a => Val a.
#[export] Instance Result_bind : MBind Result := fun A B f r =>
  match r with Val a => f a | Err s => Err s | Throw => Throw end.

Definition is_val {A} (r : Result A) : bool := match r with Val _ => true | _ => false end.

(** [if (cond) return error;] *)
Definition reject_if (cond : bool) (o : Outcome) (message : string) : Result unit :=
  if cond then fail o message else Val tt.

(** * State passing with errors *)
Definition ST (S A : Type) : Type := S -> Result A * S.

#[export] Instance ST_ret S : MRet (ST S) := fun A a s => (Val a, s).
#[export] Instance ST_bind S : MBind (ST S) := fun A B f m s =>
  match m s with
  | (Val a, s') => f a s'
  | (Err e, s') => (Err e, s')
  | (Throw, s') => (Throw, s')
  end.

Definition st_get {S} : ST S S := fun s => (Val s, s).
Definition st_put {S} (s : S) : ST S unit := fun _ => (Val tt, s).
Definition st_lift {S A} (r : Result A) : ST S A := fun s => (r, s).

(** * Checked arithmetic (src/core/checked.cpp); [None] is [false], with the output unset. *)
Definition add_u64 (a b : Z) : option Z := if u64_max - b <? a then None else Some (a + b).
Definition sub_u64 (a b : Z) : option Z := if a <? b then None else Some (a - b).
Definition mul_u64 (a b : Z) : option Z :=
  if negb (a =? 0) && (u64_max / a <? b) then None else Some (a * b).
Definition to_u32 (v : Z) : option Z := if u32_max <? v then None else Some v.
Definition to_u16 (v : Z) : option Z := if u16_max <? v then None else Some v.

(** [checked_sum] (include/icf/core/byte_limits.hpp), on a 64-bit [std::size_t]. *)
Definition checked_sum (a b : Z) : Result Z :=
  match add_u64 a b with
  | Some out => Val out
  | None => fail Outcome_Overflow "size computation overflow"
  end.

Definition is_u64 (v : Z) : Prop := 0 <= v <= u64_max.
Definition is_i64 (v : Z) : Prop := i64_min <= v <= i64_max.

(** * Lemmas *)
Lemma bind_Val {A B} (f : A -> Result B) r b :
  r ≫= f = Val b -> exists a, r = Val a /\ f a = Val b.
Proof. destruct r; cbn; intros; try discriminate; eauto. Qed.

Lemma Val_inj {A} (a b : A) : Val a = Val b -> a = b.
Proof. by intros [=]. Qed.

Lemma reject_if_Val c o msg u : reject_if c o msg = Val u -> c = false.
Proof. unfold reject_if. by destruct c. Qed.

Lemma bind_reject {B} c o msg (f : unit -> Result B) res :
  c = false -> f tt = res -> reject_if c o msg ≫= f = res.
Proof. by intros -> <-. Qed.

Lemma bind_value {A B} (r : Result A) a (f : A -> Result B) res :
  r = Val a -> f a = res -> r ≫= f = res.
Proof. by intros -> <-. Qed.

(** [inv_bind H] takes a successful monadic computation apart. *)
Ltac inv_bind H :=
  lazymatch type of H with
  | mbind ?f ?r = Val _ =>
      let a := fresh "a" in let Ha := fresh "Ha" in
      apply (bind_Val f r) in H; destruct H as (a & Ha & H); cbn beta in H
  end.

Lemma outcome_names_roundtrip o : outcome_from_string (outcome_to_string o) = Some o.
Proof. by destruct o. Qed.

Lemma add_u64_spec a b :
  is_u64 a -> is_u64 b ->
  add_u64 a b = (if decide (a + b <= u64_max) then Some (a + b) else None).
Proof.
  unfold add_u64, is_u64. intros. destruct (Z.ltb_spec (u64_max - b) a); case_decide; try done; lia.
Qed.

Lemma mul_u64_spec a b :
  is_u64 a -> is_u64 b ->
  mul_u64 a b = (if decide (a * b <= u64_max) then Some (a * b) else None).
Proof.
  unfold mul_u64, is_u64. intros Ha Hb.
  destruct (Z.eqb_spec a 0) as [->|Hz]; cbn [negb andb]; [case_decide; [done|lia]|].
  destruct (Z.ltb_spec (u64_max / a) b) as [Hlt|Hge]; case_decide; try done; exfalso.
  - apply Z.lt_nge in Hlt. apply Hlt. apply Z.div_le_lower_bound; lia.
  - pose proof (Z.mul_div_le u64_max a ltac:(lia)). nia.
Qed.
