(* ===== verification/Utf8.v ===== *)
(** * UTF-8 validation

    Models src/core/utf8.cpp. The byte loop is a function of the bytes not yet consumed; the
    declarative counterpart is the list of Unicode scalar values whose encodings make up the
    text. *)
From S2P Require Import Prelude Status.

(** The lead byte of a multi-byte sequence: number of continuation bytes, initial bits of the
    code point and the smallest code point the form may carry. *)
Definition utf8_lead (c0 : Z) : option (nat * Z * Z) :=
  if Z.land c0 0xE0 =? 0xC0 then Some (1%nat, Z.land c0 0x1F, 0x80)
  else if Z.land c0 0xF0 =? 0xE0 then Some (2%nat, Z.land c0 0x0F, 0x800)
  else if Z.land c0 0xF8 =? 0xF0 then Some (3%nat, Z.land c0 0x07, 0x10000)
  else None.

(** The loop over the continuation bytes: code point and remaining text. *)
Fixpoint utf8_continue (extra : nat) (code_point : Z) (text : bytes) : option (Z * bytes) :=
  match extra with
  | O => Some (code_point, text)
  | S extra =>
      match text with
      | [] => None
      | c :: text =>
          if Z.land (byte_val c) 0xC0 =? 0x80
          then utf8_continue extra (Z.lor (Z.shiftl code_point 6) (Z.land (byte_val c) 0x3F)) text
          else None
      end
  end.

(** One iteration of the loop of [is_valid_utf8]: [None] is [return false]. *)
Definition utf8_step (text : bytes) : option bytes :=
  match text with
  | [] => None
  | c :: rest =>
      let c0 := byte_val c in
      if c0 <? 0x80 then Some rest
      else
        match utf8_lead c0 with
        | None => None
        | Some (extra, code_point, minimum) =>
            if (length rest <? extra)%nat then None
            else
              match utf8_continue extra code_point rest with
              | None => None
              | Some (cp, rest') =>
                  if cp <? minimum then None
                  else if 0x10FFFF <? cp then None
                  else if (0xD800 <=? cp) && (cp <=? 0xDFFF) then None
                  else Some rest'
              end
        end
  end.

Fixpoint utf8_loop (fuel : nat) (text : bytes) : bool :=
  match text with
  | [] => true
  | _ =>
      match fuel with
      | O => false
      | S fuel => match utf8_step text with Some rest => utf8_loop fuel rest | None => false end
      end
  end.

(** Every iteration consumes at least one byte: the length of the text is enough fuel. *)
Definition is_valid_utf8 (text : bytes) : bool := utf8_loop (length text) text.

Definition is_continuation (c : byte) : bool := Z.land (byte_val c) 0xC0 =? 0x80.

(** The walk back of [utf8_prefix_length], from the index [e]. *)
Fixpoint utf8_walk_back (text : bytes) (e : nat) : nat :=
  match e with
  | O => O
  | S e' =>
      match text !! e with
      | Some c => if is_continuation c then utf8_walk_back text e' else e
      | None => e
      end
  end.

Definition utf8_prefix_length (text : bytes) (max_bytes : nat) : nat :=
  if (length text <=? max_bytes)%nat then length text else utf8_walk_back text max_bytes.

(** ** The declarative side *)
Definition scalar_value (cp : Z) : Prop := 0 <= cp <= 0x10FFFF /\ ~ (0xD800 <= cp <= 0xDFFF).

Definition utf8_encode (cp : Z) : bytes :=
  byte_of <$>
  (if cp <? 0x80 then [cp]
   else if cp <? 0x800 then [0xC0 + cp / 64; 0x80 + cp mod 64]
   else if cp <? 0x10000 then [0xE0 + cp / 4096; 0x80 + cp / 64 mod 64; 0x80 + cp mod 64]
   else [0xF0 + cp / 262144; 0x80 + cp / 4096 mod 64; 0x80 + cp / 64 mod 64; 0x80 + cp mod 64]).

Definition utf8_text (text : bytes) : Prop :=
  exists cps, Forall scalar_value cps /\ text = concat (utf8_encode <$> cps).

(** ** Lemmas *)
Lemma byte_of_small z b : byte_val b = z -> byte_of z = b.
Proof. intros <-. apply byte_of_val. Qed.

Lemma byte_mask (m v lo hi low : Z) :
  forallb (fun z => Bool.eqb (Z.land z m =? v) ((lo <=? z) && (z <? hi)) &&
                    implb ((lo <=? z) && (z <? hi)) (Z.land z low =? z - lo))
    (Z.of_nat <$> seq 0 256) = true ->
  forall z, 0 <= z < 256 ->
  (Z.land z m = v <-> lo <= z < hi) /\ (lo <= z < hi -> Z.land z low = z - lo).
Proof.
  intros H z Hz. apply (byte_forall _ H) in Hz. apply andb_true_iff in Hz as [H1 H2].
  apply Bool.eqb_prop in H1. rewrite <- !H1 in H2.
  assert (Hr : ((lo <=? z) && (z <? hi)) = true <-> lo <= z < hi).
  { rewrite andb_true_iff, Z.leb_le, Z.ltb_lt. done. }
  rewrite <- Hr, <- H1, Z.eqb_eq. split; [done|]. intros Hv.
  apply Z.eqb_eq in Hv. rewrite Hv in H2. by apply Z.eqb_eq in H2.
Qed.

Lemma lead_masks z :
  0 <= z < 256 ->
  ((Z.land z 0xE0 = 0xC0 <-> 0xC0 <= z < 0xE0) /\ (0xC0 <= z < 0xE0 -> Z.land z 0x1F = z - 0xC0)) /\
  ((Z.land z 0xF0 = 0xE0 <-> 0xE0 <= z < 0xF0) /\ (0xE0 <= z < 0xF0 -> Z.land z 0x0F = z - 0xE0)) /\
  ((Z.land z 0xF8 = 0xF0 <-> 0xF0 <= z < 0xF8) /\ (0xF0 <= z < 0xF8 -> Z.land z 0x07 = z - 0xF0)) /\
  ((Z.land z 0xC0 = 0x80 <-> 0x80 <= z < 0xC0) /\ (0x80 <= z < 0xC0 -> Z.land z 0x3F = z - 0x80)).
Proof. intros Hz. repeat (split; [apply byte_mask; [by vm_compute | done]|]).
  apply byte_mask; [by vm_compute | done].
Qed.

Lemma utf8_continue_spec extra cp c rest :
  utf8_continue (S extra) cp (c :: rest) =
  if decide (0x80 <= byte_val c < 0xC0)
  then utf8_continue extra (cp * 64 + (byte_val c - 0x80)) rest else None.
Proof.
  cbn [utf8_continue]. pose proof (lead_masks _ (byte_val_range c)) as (_&_&_&[HA HB]).
  destruct (Z.eqb_spec (Z.land (byte_val c) 0xC0) 0x80); case_decide; try tauto.
  rewrite HB by done. by rewrite lor_shiftl_add by lia.
Qed.

Lemma utf8_lead_spec c0 :
  0 <= c0 < 256 ->
  utf8_lead c0 =
  if decide (0xC0 <= c0 < 0xE0) then Some (1%nat, c0 - 0xC0, 0x80)
  else if decide (0xE0 <= c0 < 0xF0) then Some (2%nat, c0 - 0xE0, 0x800)
  else if decide (0xF0 <= c0 < 0xF8) then Some (3%nat, c0 - 0xF0, 0x10000) else None.
Proof.
  intros Hc. pose proof (lead_masks _ Hc) as ([H1 H2]&[H3 H4]&[H5 H6]&_). unfold utf8_lead.
  destruct (Z.eqb_spec (Z.land c0 0xE0) 0xC0); [rewrite H2 by tauto; by case_decide; [|tauto]|].
  case_decide; [tauto|].
  destruct (Z.eqb_spec (Z.land c0 0xF0) 0xE0); [rewrite H4 by tauto; by case_decide; [|tauto]|].
  case_decide; [tauto|].
  destruct (Z.eqb_spec (Z.land c0 0xF8) 0xF0); [rewrite H6 by tauto; by case_decide; [|tauto]|].
  by case_decide; [tauto|].
Qed.

Lemma utf8_encode_1 c : 0 <= c < 0x80 -> utf8_encode c = [byte_of c].
Proof. intros. unfold utf8_encode. destruct (Z.ltb_spec c 0x80); [done|lia]. Qed.

Lemma utf8_encode_2 a b :
  0 <= a < 32 -> 0 <= b < 64 -> 0x80 <= a * 64 + b ->
  utf8_encode (a * 64 + b) = [byte_of (0xC0 + a); byte_of (0x80 + b)].
Proof.
  intros. unfold utf8_encode. remember (a * 64 + b) as cp eqn:Ecp.
  destruct (Z.ltb_spec cp 0x80); [lia|]. destruct (Z.ltb_spec cp 0x800); [|lia].
  simpl. by replace (cp / 64) with a by dlia; replace (cp mod 64) with b by dlia.
Qed.

Lemma utf8_encode_3 a b c :
  0 <= a < 16 -> 0 <= b < 64 -> 0 <= c < 64 -> 0x800 <= (a * 64 + b) * 64 + c ->
  utf8_encode ((a * 64 + b) * 64 + c) = [byte_of (0xE0 + a); byte_of (0x80 + b); byte_of (0x80 + c)].
Proof.
  intros. unfold utf8_encode. remember ((a * 64 + b) * 64 + c) as cp eqn:Ecp.
  destruct (Z.ltb_spec cp 0x80); [lia|]. destruct (Z.ltb_spec cp 0x800); [lia|].
  destruct (Z.ltb_spec cp 0x10000); [|lia]. simpl.
  by replace (cp / 4096) with a by dlia; replace (cp / 64 mod 64) with b by dlia;
    replace (cp mod 64) with c by dlia.
Qed.

Lemma utf8_encode_4 a b c d :
  0 <= a < 8 -> 0 <= b < 64 -> 0 <= c < 64 -> 0 <= d < 64 ->
  0x10000 <= ((a * 64 + b) * 64 + c) * 64 + d ->
  utf8_encode (((a * 64 + b) * 64 + c) * 64 + d) =
  [byte_of (0xF0 + a); byte_of (0x80 + b); byte_of (0x80 + c); byte_of (0x80 + d)].
Proof.
  intros. unfold utf8_encode. remember (((a * 64 + b) * 64 + c) * 64 + d) as cp eqn:Ecp.
  destruct (Z.ltb_spec cp 0x80); [lia|]. destruct (Z.ltb_spec cp 0x800); [lia|].
  destruct (Z.ltb_spec cp 0x10000); [lia|]. simpl.
  by replace (cp / 262144) with a by dlia; replace (cp / 4096 mod 64) with b by dlia;
    replace (cp / 64 mod 64) with c by dlia; replace (cp mod 64) with d by dlia.
Qed.

(** The tests after the continuation loop. *)
Lemma utf8_range_tests (cp minimum : Z) (rest rest' : bytes) :
  0 <= cp ->
  (if cp <? minimum then None
   else if 0x10FFFF <? cp then None
   else if (0xD800 <=? cp) && (cp <=? 0xDFFF) then None else Some rest) = Some rest' <->
  minimum <= cp /\ scalar_value cp /\ rest = rest'.
Proof.
  intros Hcp. unfold scalar_value.
  assert (Hb : forall l, (Some rest = Some l <-> rest = l)) by (intros; split; congruence).
  destruct (Z.ltb_spec cp minimum), (Z.ltb_spec 0x10FFFF cp), (Z.leb_spec 0xD800 cp),
    (Z.leb_spec cp 0xDFFF); cbn [andb]; rewrite ?Hb;
    (split; [try done; intros ->; split_and!; (done || lia) | intros (?&?&?); (done || lia)]).
Qed.

Ltac utf8_cont t :=
  let c := fresh "c" in let Hc := fresh "Hr" in
  destruct t as [|c t]; [simpl in *; lia|]; rewrite utf8_continue_spec;
  case_decide as Hc; [|done].

Ltac utf8_bytes :=
  repeat match goal with |- context [?k + (byte_val ?c - ?k)] =>
    replace (k + (byte_val c - k)) with (byte_val c) by lia; rewrite byte_of_val end.

(** A successful iteration consumed exactly the encoding of one scalar value. *)
Lemma utf8_step_sound text rest :
  utf8_step text = Some rest -> exists cp, scalar_value cp /\ text = utf8_encode cp ++ rest.
Proof.
  destruct text as [|c t]; [done|]. cbn [utf8_step]. pose proof (byte_val_range c) as Hc.
  destruct (Z.ltb_spec (byte_val c) 0x80) as [Hlt|Hge].
  { intros [= ->]. exists (byte_val c). split; [unfold scalar_value; lia|].
    by rewrite utf8_encode_1, byte_of_val by lia. }
  rewrite utf8_lead_spec by done.
  case_decide as H2; [|case_decide as H3; [|case_decide as H4; [|done]]].
  - destruct (Nat.ltb_spec (length t) 1); [done|]. utf8_cont t. cbn [utf8_continue].
    rewrite utf8_range_tests by lia. intros (Hm & Hs & ->). eexists; split; [exact Hs|].
    rewrite utf8_encode_2 by lia. by utf8_bytes.
  - destruct (Nat.ltb_spec (length t) 2); [done|]. utf8_cont t. utf8_cont t. cbn [utf8_continue].
    rewrite utf8_range_tests by lia. intros (Hm & Hs & ->). eexists; split; [exact Hs|].
    rewrite utf8_encode_3 by lia. by utf8_bytes.
  - destruct (Nat.ltb_spec (length t) 3); [done|]. utf8_cont t. utf8_cont t. utf8_cont t.
    cbn [utf8_continue]. rewrite utf8_range_tests by lia. intros (Hm & Hs & ->).
    eexists; split; [exact Hs|]. rewrite utf8_encode_4 by lia. by utf8_bytes.
Qed.

Lemma byte_val_of_small z : 0 <= z < 256 -> byte_val (byte_of z) = z.
Proof. intros. rewrite byte_val_of. by apply Z.mod_small. Qed.

Ltac utf8_run :=
  cbn [utf8_step app length]; rewrite byte_val_of_small by dlia;
  match goal with |- context [?x <? 0x80] => destruct (Z.ltb_spec x 0x80); [dlia|] end;
  rewrite utf8_lead_spec by dlia; repeat ((case_decide; [|dlia]) || (case_decide; [dlia|]));
  match goal with |- context [(?x <? ?y)%nat] => destruct (Nat.ltb_spec x y); [dlia|] end;
  repeat (rewrite utf8_continue_spec, byte_val_of_small by dlia; case_decide; [|dlia]);
  cbn [utf8_continue]; rewrite utf8_range_tests by dlia.

(** Conversely the encoding of a scalar value passes one iteration. *)
Lemma utf8_step_complete cp rest :
  scalar_value cp -> utf8_step (utf8_encode cp ++ rest) = Some rest.
Proof.
  intros Hs. pose proof Hs as [Hr _]. unfold utf8_encode.
  destruct (Z.ltb_spec cp 0x80).
  { cbn [utf8_step app fmap list_fmap]. rewrite byte_val_of_small by dlia.
    by destruct (Z.ltb_spec cp 0x80); [|dlia]. }
  destruct (Z.ltb_spec cp 0x800); [|destruct (Z.ltb_spec cp 0x10000)];
    cbn [fmap list_fmap]; utf8_run;
    (split_and!; [dlia| |done]);
    match goal with |- scalar_value ?x => replace x with cp by dlia end; done.
Qed.

Lemma utf8_step_shrinks text rest : utf8_step text = Some rest -> (length rest < length text)%nat.
Proof.
  intros (cp & _ & ->)%utf8_step_sound. rewrite length_app.
  unfold utf8_encode. repeat case_match; simpl; lia.
Qed.

Lemma utf8_loop_spec fuel text :
  (length text <= fuel)%nat -> utf8_loop fuel text = true <-> utf8_text text.
Proof.
  revert text. induction fuel as [|fuel IH]; intros text Hf.
  - destruct text; [|simpl in *; lia]. split; [exists []; done | done].
  - destruct text as [|c t]; [split; [exists []; done | done]|].
    cbn [utf8_loop]. destruct (utf8_step (c :: t)) as [rest|] eqn:E.
    + pose proof (utf8_step_shrinks _ _ E). rewrite IH by (simpl in *; lia).
      apply utf8_step_sound in E as (cp & Hcp & Hct). rewrite Hct. split.
      * intros (cps & Hs & ->). exists (cp :: cps). by split; [constructor|].
      * intros ([|cp' cps] & Hs & Heq); simpl in Heq.
        { apply (f_equal length) in Heq. rewrite length_app in Heq. rewrite Hct in H.
          rewrite length_app in H. simpl in *. lia. }
        inversion_clear Hs as [|? ? Hc' Hcs].
        apply (f_equal utf8_step) in Heq. rewrite !utf8_step_complete in Heq by done.
        injection Heq as ->. by exists cps.
    + split; [done|]. intros ([|cp cps] & Hs & Heq); [done|]. simpl in Heq.
      inversion_clear Hs. rewrite Heq, utf8_step_complete in E by done. done.
Qed.

Lemma is_valid_utf8_spec text : is_valid_utf8 text = true <-> utf8_text text.
Proof. by apply utf8_loop_spec. Qed.

(** ASCII text is valid: names and identifiers are. *)
Lemma ascii_text_valid text : Forall (fun c => byte_val c < 0x80) text -> is_valid_utf8 text = true.
Proof.
  intros H. apply is_valid_utf8_spec. exists (byte_val <$> text). split.
  - apply Forall_fmap. eapply Forall_impl; [exact H|]. intros c Hc. unfold scalar_value. simpl.
    pose proof (byte_val_range c). lia.
  - induction H as [|c t Hc _ IH]; [done|]. simpl. rewrite utf8_encode_1, byte_of_val.
    + simpl. by f_equal.
    + pose proof (byte_val_range c). lia.
Qed.
