(* ===== verification/Bytes.v ===== *)
(** * The bounded big-endian byte codec

    Models src/core/bytes.cpp. [ByteWriter] only appends: each writer operation is the bytes it
    appends. [ByteReader] is a span and an offset that only advances: it is modelled by the bytes
    that remain, and a reader operation is a [Parser]; after a failed read no caller of the code
    continues with the reader. [Codec] is what a pair of a writer and a reader promises. *)
From S2P Require Import Prelude Status Utf8.

Definition Parser (A : Type) : Type := bytes -> Result (A * bytes).

#[export] Instance Parser_ret : MRet Parser := fun A a data => Val (a, data).
#[export] Instance Parser_bind : MBind Parser := fun A B f p data =>
  match p data with
  | Val (a, rest) => f a rest
  | Err s => Err s
  | Throw => Throw
  end.

Definition p_lift {A} (r : Result A) : Parser A := fun data =>
  match r with Val a => Val (a, data) | Err s => Err s | Throw => Throw end.

(** ** ByteWriter *)
Fixpoint append_be (width : nat) (value : Z) : bytes :=
  match width with
  | O => []
  | S w => byte_of (Z.shiftr value (8 * Z.of_nat w)) :: append_be w value
  end.

Definition w_u8 (value : Z) : bytes := [byte_of value].
Definition w_u16 (value : Z) : bytes := append_be 2 value.
Definition w_u32 (value : Z) : bytes := append_be 4 value.
Definition w_u64 (value : Z) : bytes := append_be 8 value.
(** [static_cast<std::uint64_t>] of a signed value is its residue modulo 2^64. *)
Definition w_i64 (value : Z) : bytes := append_be 8 (value mod 2 ^ 64).
Definition w_boolean (value : bool) : bytes := w_u8 (if value then 1 else 0).
Definition w_raw (data : string) : bytes := str_bytes data.
Definition w_blob (text : string) : bytes := w_u32 (slen text) ++ w_raw text.
Definition w_uuid (value : string) : bytes := w_raw value.
Definition w_digest (value : string) : bytes := w_raw value.
(** Writes nothing when the count does not fit. *)
Definition w_count (value : Z) : bytes :=
  match to_u32 value with Some narrowed => w_u32 narrowed | None => [] end.

(** ** ByteReader *)
Definition be_value (data : bytes) : Z :=
  foldl (fun value b => Z.lor (Z.shiftl value 8) (byte_val b)) 0 data.

Definition read_be (width : nat) (data : bytes) : option (Z * bytes) :=
  if (length data <? width)%nat then None else Some (be_value (take width data), drop width data).

Definition r_be (width : nat) (what : string) : Parser Z := fun data =>
  match read_be width data with
  | Some (value, rest) => Val (value, rest)
  | None => fail Outcome_Incomplete what
  end.

Definition r_u8 : Parser Z := fun data =>
  match data with
  | [] => fail Outcome_Incomplete "truncated frame: uint8"
  | b :: rest => Val (byte_val b, rest)
  end.
Definition r_u16 : Parser Z := r_be 2 "truncated frame: uint16".
Definition r_u32 : Parser Z := r_be 4 "truncated frame: uint32".
Definition r_u64 : Parser Z := r_be 8 "truncated frame: uint64".
(** [static_cast<std::int64_t>] of an unsigned value. *)
Definition cast_i64 (u : Z) : Z := if u <? 2 ^ 63 then u else u - 2 ^ 64.
Definition r_i64 : Parser Z := value ← r_u64; mret (cast_i64 value).

Definition r_boolean : Parser bool :=
  value ← r_u8;
  _ ← p_lift (reject_if (1 <? value) Outcome_Invalid "boolean field must be 0 or 1");
  mret (value =? 1).

Definition r_raw (count : Z) : Parser string := fun data =>
  if zlen data <? count then fail Outcome_Incomplete "truncated frame: byte field"
  else Val (bytes_str (take (Z.to_nat count) data), drop (Z.to_nat count) data).

Definition r_blob (max_length : Z) : Parser string :=
  length ← r_u32;
  _ ← p_lift (reject_if (max_length <? length) Outcome_Invalid
                "string field exceeds the maximum permitted length");
  text ← r_raw length;
  _ ← p_lift (reject_if (negb (is_valid_utf8 (str_bytes text))) Outcome_Invalid
                "string field is not valid UTF-8");
  mret text.

Definition kUuidSize : Z := 16.
Definition kDigestSize : Z := 32.

Definition r_uuid : Parser string := r_raw kUuidSize.
Definition r_digest : Parser string := r_raw kDigestSize.

Definition r_count (max_count : Z) : Parser Z :=
  value ← r_u32;
  _ ← p_lift (reject_if (max_count <? value) Outcome_Invalid
                "collection count exceeds the maximum permitted size");
  mret value.

Definition expect_end : Parser unit := fun data =>
  match data with
  | [] => Val (tt, [])
  | _ => invalid "frame contains trailing bytes beyond the declared schema"
  end.

(** [for (i = 0; i < n; ++i) { element = decode(reader); push_back }] *)
Fixpoint r_list {A} (n : nat) (p : Parser A) : Parser (list A) :=
  match n with
  | O => mret []
  | S n => x ← p; xs ← r_list n p; mret (x :: xs)
  end.

(** ** The interface of a codec: on the values of its domain, reading what was written returns
    the value and leaves the following bytes. *)
Class Codec {A} (enc : A -> bytes) (dec : Parser A) (dom : A -> Prop) := {
  codec_roundtrip : forall x rest, dom x -> dec (enc x ++ rest) = Val (x, rest);
  codec_sound : forall data x rest, dec data = Val (x, rest) -> dom x;
}.

(** ** Lemmas *)
Lemma length_append_be width value : length (append_be width value) = width.
Proof. induction width as [|w IH]; simpl; [done | by f_equal]. Qed.

Lemma be_value_acc acc data :
  foldl (fun value b => Z.lor (Z.shiftl value 8) (byte_val b)) acc data =
  acc * 2 ^ (8 * zlen data) + be_value data.
Proof.
  revert acc. induction data as [|b data IH]; intros acc; unfold be_value; simpl.
  - rewrite Z.pow_0_r. lia.
  - rewrite !IH, !lor_shiftl_add by (pose proof (byte_val_range b); lia).
    replace (8 * zlen (b :: data)) with (8 + 8 * zlen data) by (unfold zlen; simpl; lia).
    rewrite Z.pow_add_r by (pose proof (zlen_nonneg data); lia). lia.
Qed.

Lemma be_value_cons b data : be_value (b :: data) = byte_val b * 2 ^ (8 * zlen data) + be_value data.
Proof.
  unfold be_value at 1. simpl. rewrite be_value_acc, lor_shiftl_add by (pose proof (byte_val_range b); lia).
  lia.
Qed.

Lemma be_value_append width value :
  be_value (append_be width value) = value mod 2 ^ (8 * Z.of_nat width).
Proof.
  induction width as [|w IH]; [by rewrite Z.mod_1_r|]. cbn [append_be].
  rewrite be_value_cons, byte_val_of, IH. unfold zlen. rewrite length_append_be.
  rewrite Z.shiftr_div_pow2 by lia.
  replace (8 * Z.of_nat (S w)) with (8 * Z.of_nat w + 8) by lia.
  rewrite Z.pow_add_r by lia. rewrite Z.rem_mul_r by lia. change (2 ^ 8) with 256. lia.
Qed.

Lemma be_value_range data : 0 <= be_value data < 2 ^ (8 * zlen data).
Proof.
  induction data as [|b data IH]; [done|]. rewrite be_value_cons.
  pose proof (byte_val_range b).
  replace (8 * zlen (b :: data)) with (8 + 8 * zlen data) by (unfold zlen; simpl; lia).
  rewrite Z.pow_add_r by (pose proof (zlen_nonneg data); lia).
  change (2 ^ 8) with 256. nia.
Qed.

(** ** Running parsers *)
Lemma run_bind {A B} (p : Parser A) (f : A -> Parser B) d a d' r :
  p d = Val (a, d') -> f a d' = r -> (p ≫= f) d = r.
Proof. unfold mbind, Parser_bind. by intros -> <-. Qed.

Lemma run_bind_inv {A B} (p : Parser A) (f : A -> Parser B) d b d' :
  (p ≫= f) d = Val (b, d') -> exists a d1, p d = Val (a, d1) /\ f a d1 = Val (b, d').
Proof.
  unfold mbind, Parser_bind. destruct (p d) as [[a d1]| |]; intros; try discriminate. eauto.
Qed.

Lemma run_reject c o msg {B} (f : unit -> Parser B) d r :
  c = false -> f tt d = r -> (p_lift (reject_if c o msg) ≫= f) d = r.
Proof. intros -> <-. done. Qed.

Lemma run_reject_inv c o msg d u d' :
  p_lift (reject_if c o msg) d = Val (u, d') -> c = false /\ d' = d.
Proof. unfold p_lift, reject_if. destruct c; intros; by simplify_eq. Qed.

(** [parse_inv H] takes a successful parse apart, step by step. *)
Ltac parse_inv H :=
  repeat match type of H with
  | (mbind _ _) _ = Val _ =>
      let a := fresh "x" in let d := fresh "d" in let Ha := fresh "Hp" in
      apply run_bind_inv in H; destruct H as (a & d & Ha & H);
      try (apply run_reject_inv in Ha; destruct Ha as [Ha ->])
  end.

(** ** Codecs of the primitives *)
Lemma r_be_append width what value rest :
  r_be width what (append_be width value ++ rest) = Val (value mod 2 ^ (8 * Z.of_nat width), rest).
Proof.
  unfold r_be, read_be. rewrite length_app, length_append_be.
  destruct (Nat.ltb_spec (width + length rest) width); [lia|].
  rewrite take_app_length', drop_app_length' by (by rewrite length_append_be).
  by rewrite be_value_append.
Qed.

Lemma r_be_range width what data v rest :
  r_be width what data = Val (v, rest) -> 0 <= v < 2 ^ (8 * Z.of_nat width).
Proof.
  unfold r_be, read_be. destruct (Nat.ltb_spec (length data) width); [done|]. intros [= <- <-].
  pose proof (be_value_range (take width data)) as Hr. unfold zlen in Hr.
  by rewrite length_take_le in Hr by lia.
Qed.

#[export] Instance u8_codec : Codec w_u8 r_u8 (fun v => 0 <= v < 2 ^ 8).
Proof.
  split.
  - intros x rest Hx. unfold w_u8, r_u8. simpl. by rewrite byte_val_of, Z.mod_small.
  - intros [|b d] x rest; [done|]. intros [= <- <-]. apply byte_val_range.
Qed.

#[export] Instance u16_codec : Codec w_u16 r_u16 (fun v => 0 <= v < 2 ^ 16).
Proof.
  split.
  - intros x rest Hx. unfold w_u16, r_u16. rewrite r_be_append. by rewrite Z.mod_small.
  - intros data x rest H. by apply r_be_range in H.
Qed.

#[export] Instance u32_codec : Codec w_u32 r_u32 (fun v => 0 <= v < 2 ^ 32).
Proof.
  split.
  - intros x rest Hx. unfold w_u32, r_u32. rewrite r_be_append. by rewrite Z.mod_small.
  - intros data x rest H. by apply r_be_range in H.
Qed.

#[export] Instance u64_codec : Codec w_u64 r_u64 (fun v => 0 <= v < 2 ^ 64).
Proof.
  split.
  - intros x rest Hx. unfold w_u64, r_u64. rewrite r_be_append. by rewrite Z.mod_small.
  - intros data x rest H. by apply r_be_range in H.
Qed.

Lemma cast_i64_mod v : is_i64 v -> cast_i64 (v mod 2 ^ 64) = v.
Proof. unfold is_i64, i64_min, i64_max, cast_i64. intros. destruct (Z.ltb_spec (v mod 2 ^ 64) (2 ^ 63)); dlia. Qed.

#[export] Instance i64_codec : Codec w_i64 r_i64 is_i64.
Proof.
  split.
  - intros x rest Hx. unfold w_i64, r_i64. eapply run_bind.
    + apply (codec_roundtrip (enc := w_u64)). apply Z.mod_pos_bound. lia.
    + unfold mret, Parser_ret. by rewrite cast_i64_mod.
  - intros data x rest H. unfold r_i64 in H. parse_inv H. injection H as <- <-.
    apply codec_sound in Hp. unfold is_i64, i64_min, i64_max, cast_i64.
    destruct (Z.ltb_spec x0 (2 ^ 63)); lia.
Qed.

#[export] Instance boolean_codec : Codec w_boolean r_boolean (fun _ => True).
Proof.
  split; [|done]. intros x rest _. unfold w_boolean, r_boolean. eapply run_bind.
  - apply codec_roundtrip. by destruct x.
  - by destruct x.
Qed.

Lemma r_raw_app n s rest : slen s = n -> r_raw n (str_bytes s ++ rest) = Val (s, rest).
Proof.
  intros <-. unfold r_raw, slen. rewrite zlen_app. unfold zlen at 1. rewrite length_str_bytes.
  destruct (Z.ltb_spec (Z.of_nat (String.length s) + zlen rest) (Z.of_nat (String.length s)));
    [pose proof (zlen_nonneg rest); lia|].
  rewrite Nat2Z.id, take_app_length', drop_app_length' by (by rewrite length_str_bytes).
  by rewrite bytes_str_bytes.
Qed.

Lemma r_raw_len n data s rest : 0 <= n -> r_raw n data = Val (s, rest) -> slen s = n.
Proof.
  unfold r_raw. destruct (Z.ltb_spec (zlen data) n); [done|]. intros Hn [= <- <-].
  unfold slen, zlen in *. rewrite length_bytes_str, length_take_le; lia.
Qed.

#[export] Instance uuid_codec : Codec w_uuid r_uuid (fun s => slen s = kUuidSize).
Proof. split; [intros; by apply r_raw_app | intros ? ? ? H; by apply r_raw_len in H]. Qed.

#[export] Instance digest_codec : Codec w_digest r_digest (fun s => slen s = kDigestSize).
Proof. split; [intros; by apply r_raw_app | intros ? ? ? H; by apply r_raw_len in H]. Qed.

(** A text that [blob] accepts. *)
Definition text_ok (max_length : Z) (s : string) : Prop :=
  slen s <= max_length /\ is_valid_utf8 (str_bytes s) = true.

#[export] Instance blob_codec max : Codec w_blob (r_blob max) (fun s => text_ok max s /\ slen s < 2 ^ 32).
Proof.
  split.
  - intros s rest [[Hl Hu] Hs]. unfold w_blob, r_blob, w_raw. rewrite <- app_assoc. eapply run_bind.
    { apply codec_roundtrip. unfold slen in *. lia. }
    apply run_reject; [lia|]. eapply run_bind; [by apply r_raw_app|].
    apply run_reject; [by rewrite Hu|]. done.
  - intros data s rest H. unfold r_blob in H. parse_inv H. injection H as <- <-.
    pose proof (codec_sound _ _ _ Hp) as Hr. simpl in Hr. apply r_raw_len in Hp1; [|lia].
    bool_prop. unfold text_ok. split_and!; [lia|done|lia].
Qed.

#[export] Instance count_codec max :
  Codec w_count (r_count max) (fun v => 0 <= v <= max /\ v < 2 ^ 32).
Proof.
  split.
  - intros v rest [Hv Hm]. unfold w_count, r_count, to_u32, u32_max.
    destruct (Z.ltb_spec (2 ^ 32 - 1) v); [lia|]. eapply run_bind.
    { apply codec_roundtrip. simpl. lia. }
    apply run_reject; [lia|]. done.
  - intros data v rest H. unfold r_count in H. parse_inv H. injection H as <- <-.
    pose proof (codec_sound _ _ _ Hp) as Hr. simpl in Hr. bool_prop. lia.
Qed.

(** A counted list: [dom] on every element. *)
Lemma r_list_roundtrip {A} (enc : A -> bytes) (dec : Parser A) dom `{!Codec enc dec dom} l rest :
  Forall dom l -> r_list (length l) dec (concat (enc <$> l) ++ rest) = Val (l, rest).
Proof.
  intros H. induction H as [|x l Hx _ IH]; [done|]. cbn [length r_list fmap list_fmap concat].
  rewrite <- app_assoc. eapply run_bind; [by apply codec_roundtrip|].
  eapply run_bind; [exact IH|]. done.
Qed.

Lemma r_list_sound {A} (enc : A -> bytes) (dec : Parser A) dom `{!Codec enc dec dom} n data l rest :
  r_list n dec data = Val (l, rest) -> length l = n /\ Forall dom l.
Proof.
  revert data l. induction n as [|n IH]; intros data l H; cbn [r_list] in H.
  - injection H as <- <-. by split; [|constructor].
  - parse_inv H. injection H as <- <-. apply codec_sound in Hp. apply IH in Hp0 as [<- Hf].
    by split; [|constructor].
Qed.

(** [codec_step] reads one field of a record back. *)
Ltac codec_step :=
  rewrite <- ?app_assoc; first
    [ eapply run_bind; [solve [apply codec_roundtrip; (eassumption || (cbn; intuition (lia || done)))]|]
    | apply run_reject; [solve [done | lia | by apply bool_decide_eq_false_2 | rewrite ?bool_decide_eq_false_2 by done; lia]|] ].
