(* ===== verification/Ids.v ===== *)
(** * Identities and counters

    Models include/icf/core/ids.hpp and src/core/ids.cpp, and the hexadecimal helpers of
    src/core/hash.cpp. A [Name<Tag>], a [StrongUuid<Tag>] and a [Digest] are byte strings (the
    distinct C++ types forbid mixing them at compile time and have no run-time content); a
    [Counter<Tag>] is its 64-bit value. *)
From S2P Require Import Prelude Status Utf8 Bytes.

(** ** Counter *)
Definition counter_increment (value : Z) : option Z :=
  if value =? u64_max then None else Some (value + 1).

Definition counter_next (value : Z) : Result Z :=
  match counter_increment value with
  | Some v => Val v
  | None => fail Outcome_Overflow "counter overflow"
  end.

(** [Result::value()] on a failed result throws. *)
Definition value_or_throw {A} (r : Result A) : Result A :=
  match r with Val a => Val a | _ => Throw end.

(** [if (counter.increment()) {}]: the counter stays at its maximum. *)
Definition counter_bump (value : Z) : Z := default value (counter_increment value).

Definition counter_add (a b : Z) : Result Z :=
  if u64_max - b <? a then fail Outcome_Overflow "counter addition overflow" else Val (a + b).

Definition counter_subtract (a b : Z) : Result Z :=
  if a <? b then fail Outcome_Overflow "counter subtraction underflow" else Val (a - b).

Definition is_digit (c : byte) : bool := (48 <=? byte_val c) && (byte_val c <=? 57).

Fixpoint counter_parse_loop (value : Z) (text : bytes) : Result Z :=
  match text with
  | [] => Val value
  | c :: text =>
      if negb (is_digit c) then invalid "counter must be a decimal number"
      else
        let digit := byte_val c - 48 in
        if (u64_max - digit) / 10 <? value
        then fail Outcome_Overflow "counter does not fit in 64 bits"
        else counter_parse_loop (value * 10 + digit) text
  end.

Definition counter_parse (text : string) : Result Z :=
  if (slen text =? 0) || (20 <? slen text) then invalid "counter must be a decimal number"
  else counter_parse_loop 0 (str_bytes text).

(** ** Names *)
Record NameTag := {
  kExtra : string;
  kMaxLength : Z;
  kAllowLeadingSeparator : bool;
}.

Definition IdTag : NameTag :=
  {| kExtra := "._-"; kMaxLength := limits.kMaxNameLength; kAllowLeadingSeparator := false |}.
Definition ScopeNameTag : NameTag :=
  {| kExtra := "._-/:@"; kMaxLength := limits.kMaxScopeLength; kAllowLeadingSeparator := true |}.

Definition is_alnum (c : byte) : bool :=
  let v := byte_val c in
  ((97 <=? v) && (v <=? 122)) || ((65 <=? v) && (v <=? 90)) || ((48 <=? v) && (v <=? 57)).

Definition is_extra (tag : NameTag) (c : byte) : bool :=
  existsb (fun e => bool_decide (c = e)) (str_bytes (kExtra tag)).

Definition name_parse (tag : NameTag) (text : string) : Result string :=
  match str_bytes text with
  | [] => invalid "identifier must not be empty"
  | front :: _ =>
      if kMaxLength tag <? slen text then invalid "identifier exceeds the maximum permitted length"
      else if negb (is_alnum front) && negb (kAllowLeadingSeparator tag && is_extra tag front)
      then invalid "identifier must begin with an alphanumeric character"
      else if existsb (fun c => negb (is_alnum c) && negb (is_extra tag c)) (str_bytes text)
      then invalid "identifier contains a character outside the permitted set"
      else Val text
  end.

(** ** UUIDs *)
Definition nil_uuid : string := bytes_str (repeat (byte_of 0) 16).
Definition zero_digest : string := bytes_str (repeat (byte_of 0) 32).

Definition uuid_is_nil (u : string) : bool := forallb (fun b => bool_decide (b = byte_of 0)) (str_bytes u).

(** [std::array<std::byte, n>] filled from a span: padded with zeros, truncated. *)
Definition array_from_bytes (n : nat) (l : bytes) : string :=
  bytes_str (take n (l ++ repeat (byte_of 0) n)).

(** [hex_value] of ids.cpp and [nibble] of hash.cpp; [None] is -1. *)
Definition hex_value (c : byte) : option Z :=
  let v := byte_val c in
  if (48 <=? v) && (v <=? 57) then Some (v - 48)
  else if (97 <=? v) && (v <=? 102) then Some (v - 97 + 10)
  else if (65 <=? v) && (v <=? 70) then Some (v - 65 + 10)
  else None.

Definition hex_digit (v : Z) : byte := byte_of (if v <? 10 then 48 + v else 97 + (v - 10)).

Definition hex_encode (data : bytes) : bytes :=
  concat ((fun b => [hex_digit (Z.shiftr (byte_val b) 4); hex_digit (Z.land (byte_val b) 0x0F)]) <$> data).

Fixpoint hex_decode_loop (text : bytes) : Result bytes :=
  match text with
  | a :: b :: text =>
      match hex_value a, hex_value b with
      | Some high, Some low =>
          out ← hex_decode_loop text; mret (byte_of (Z.lor (Z.shiftl high 4) low) :: out)
      | _, _ => invalid "hex string contains a non-hex character"
      end
  | _ => Val []
  end.

Definition hex_decode (text : bytes) : Result bytes :=
  if Nat.odd (length text) then invalid "hex string must have an even length" else hex_decode_loop text.

Definition digest_parse_hex (text : string) : Result string :=
  if negb (slen text =? 64) then invalid "digest must be 64 hex characters"
  else raw ← hex_decode (str_bytes text); mret (array_from_bytes 32 raw).

Definition digest_hex (d : string) : string := bytes_str (hex_encode (str_bytes d)).

(** The loop of [Uuid::parse]: bytes written so far and the pending high nibble. *)
Fixpoint uuid_parse_loop (written : bytes) (high : option Z) (text : bytes) : Result string :=
  match text with
  | [] =>
      match high with
      | None => if zlen written =? kUuidSize then Val (bytes_str written)
                else invalid "uuid must contain exactly 32 hex characters"
      | Some _ => invalid "uuid must contain exactly 32 hex characters"
      end
  | c :: text =>
      if bool_decide (c = byte_of 45) then uuid_parse_loop written high text
      else
        match hex_value c with
        | None => invalid "uuid contains a non-hex character"
        | Some value =>
            match high with
            | None => uuid_parse_loop written (Some value) text
            | Some h =>
                if kUuidSize <=? zlen written then invalid "uuid is longer than 32 hex characters"
                else uuid_parse_loop (written ++ [byte_of (Z.lor (Z.shiftl h 4) value)]) None text
            end
        end
  end.

Definition uuid_parse (text : string) : Result string := uuid_parse_loop [] None (str_bytes text).

(** Dashes before the characters 8, 12, 16 and 20. *)
Fixpoint uuid_dashes (i : nat) (raw : bytes) : bytes :=
  match raw with
  | [] => []
  | c :: raw =>
      (if (i =? 8)%nat || (i =? 12)%nat || (i =? 16)%nat || (i =? 20)%nat then [byte_of 45] else [])
        ++ c :: uuid_dashes (S i) raw
  end.

Definition uuid_to_string (u : string) : string := bytes_str (uuid_dashes 0 (hex_encode (str_bytes u))).

(** ** Lemmas: hexadecimal *)
Lemma nibble_range v : 0 <= v < 256 -> 0 <= Z.shiftr v 4 < 16 /\ 0 <= Z.land v 0x0F < 16 /\
  Z.lor (Z.shiftl (Z.shiftr v 4) 4) (Z.land v 0x0F) = v.
Proof.
  intros Hv. change 0x0F with (Z.ones 4). rewrite Z.land_ones, Z.shiftr_div_pow2 by lia.
  rewrite lor_shiftl_add by (try apply Z.mod_pos_bound; lia). change (2 ^ 4) with 16. dlia.
Qed.

Lemma hex_value_digit v : 0 <= v < 16 -> hex_value (hex_digit v) = Some v.
Proof.
  intros Hv.
  pose proof (byte_forall (fun v => bool_decide (hex_value (hex_digit v) = Some v) || (16 <=? v))
    ltac:(by vm_compute) v ltac:(lia)) as H. cbn beta in H.
  apply orb_true_iff in H as [H|H]; bool_prop; [done|lia].
Qed.

Lemma hex_digit_not_dash v : 0 <= v < 16 -> hex_digit v <> byte_of 45.
Proof.
  intros Hv.
  pose proof (byte_forall (fun v => negb (bool_decide (hex_digit v = byte_of 45)) || (16 <=? v))
    ltac:(by vm_compute) v ltac:(lia)) as H. cbn beta in H.
  apply orb_true_iff in H as [H|H]; bool_prop; [done|lia].
Qed.

Lemma hex_decode_encode data : hex_decode (hex_encode data) = Val data.
Proof.
  unfold hex_decode. assert (Hl : length (hex_encode data) = (2 * length data)%nat).
  { unfold hex_encode. induction data as [|b d IH]; [done|]. cbn [fmap list_fmap concat app length]. lia. }
  rewrite Hl, Nat.odd_mul, andb_false_l. clear Hl. induction data as [|b data IH]; [done|].
  unfold hex_encode in *. cbn [fmap list_fmap concat app hex_decode_loop].
  destruct (nibble_range _ (byte_val_range b)) as (H1 & H2 & H3).
  rewrite !hex_value_digit, IH by done. cbn. by rewrite H3, byte_of_val.
Qed.

(** One byte of the textual form. *)
Lemma uuid_parse_byte w b rest :
  (length w < 16)%nat ->
  uuid_parse_loop w None (hex_digit (Z.shiftr (byte_val b) 4) :: hex_digit (Z.land (byte_val b) 0x0F) :: rest)
  = uuid_parse_loop (w ++ [b]) None rest.
Proof.
  intros Hw. destruct (nibble_range _ (byte_val_range b)) as (H1 & H2 & H3). cbn [uuid_parse_loop].
  rewrite !bool_decide_eq_false_2 by (by apply hex_digit_not_dash).
  rewrite !hex_value_digit by done. unfold kUuidSize, zlen.
  destruct (Z.leb_spec 16 (Z.of_nat (length w))); [lia|]. by rewrite H3, byte_of_val.
Qed.

Lemma uuid_parse_dash w h rest : uuid_parse_loop w h (byte_of 45 :: rest) = uuid_parse_loop w h rest.
Proof. cbn [uuid_parse_loop]. by rewrite bool_decide_eq_true_2. Qed.

(** The textual form of a UUID parses back to it. *)
Lemma uuid_parse_to_string u : slen u = kUuidSize -> uuid_parse (uuid_to_string u) = Val u.
Proof.
  intros Hu. unfold uuid_parse, uuid_to_string. rewrite str_bytes_str.
  rewrite <- (bytes_str_bytes u) at 2. unfold slen in Hu. rewrite <- length_str_bytes in Hu.
  unfold kUuidSize in Hu. destruct (str_bytes u) as [|b0 l]; [done|].
  do 15 (destruct l as [|? l]; [simpl in Hu; lia|]). destruct l; [|simpl in Hu; lia].
  unfold hex_encode. cbn [fmap list_fmap concat app uuid_dashes Nat.eqb orb].
  repeat (rewrite ?uuid_parse_dash; rewrite uuid_parse_byte by (simpl; lia); cbn [app]). done.
Qed.

(** ** Lemmas: counters *)
Lemma counter_next_spec v :
  is_u64 v -> counter_next v = if decide (v = u64_max) then fail Outcome_Overflow "counter overflow" else Val (v + 1).
Proof. intros. unfold counter_next, counter_increment. destruct (Z.eqb_spec v u64_max); by case_decide. Qed.

Lemma counter_bump_mono v : is_u64 v -> v <= counter_bump v /\ is_u64 (counter_bump v).
Proof.
  unfold counter_bump, counter_increment, is_u64. destruct (Z.eqb_spec v u64_max); simpl; lia.
Qed.

(** The decimal value of a digit string, unbounded. *)
Definition decimal_value (text : bytes) : Z := foldl (fun v c => v * 10 + (byte_val c - 48)) 0 text.

Lemma decimal_value_ge text acc :
  Forall (fun c => is_digit c = true) text -> 0 <= acc ->
  acc <= foldl (fun v c => v * 10 + (byte_val c - 48)) acc text.
Proof.
  intros H. revert acc. induction H as [|c t Hc _ IH]; intros acc Ha; simpl; [lia|].
  unfold is_digit in Hc. bool_prop. etrans; [|apply IH]; lia.
Qed.

Lemma counter_parse_loop_spec text acc :
  0 <= acc <= u64_max ->
  match counter_parse_loop acc text with
  | Val v => Forall (fun c => is_digit c = true) text /\ v <= u64_max /\
             v = foldl (fun v c => v * 10 + (byte_val c - 48)) acc text
  | Err s => st_outcome s = Outcome_Invalid \/
             (st_outcome s = Outcome_Overflow /\
              (Forall (fun c => is_digit c = true) text ->
               u64_max < foldl (fun v c => v * 10 + (byte_val c - 48)) acc text))
  | Throw => False
  end.
Proof.
  revert acc. induction text as [|c t IH]; intros acc Ha; cbn [counter_parse_loop foldl];
    [split_and!; [constructor|lia|done]|].
  destruct (is_digit c) eqn:Hc; cbn [negb]; [|by left].
  pose proof Hc as Hd. unfold is_digit in Hd. bool_prop.
  destruct (Z.ltb_spec ((u64_max - (byte_val c - 48)) / 10) acc) as [Hlt|Hge].
  - right. split; [done|]. intros Hall. inversion_clear Hall.
    eapply Z.lt_le_trans; [|apply decimal_value_ge; [done|lia]]. unfold u64_max in *. dlia.
  - specialize (IH (acc * 10 + (byte_val c - 48))). unfold u64_max in *.
    destruct (counter_parse_loop _ t) as [v|s|]; [| |apply IH; dlia].
    + destruct IH as (Hf & Hv & ->); [dlia|]. split_and!; [by constructor|done|done].
    + destruct IH as [IH|[Ho IH]]; [dlia|by left|]. right. split; [done|].
      intros Hall. inversion_clear Hall. by apply IH.
Qed.

(** ** Lemmas: names *)
Definition name_char (tag : NameTag) (c : byte) : Prop := is_alnum c = true \/ is_extra tag c = true.

Definition valid_name (tag : NameTag) (text : string) : Prop := name_parse tag text = Val text.

Lemma name_parse_Val tag text n : name_parse tag text = Val n -> n = text /\ valid_name tag text.
Proof.
  intros H. assert (n = text) as ->; [|done]. unfold name_parse in H. by repeat case_match; simplify_eq.
Qed.

Lemma valid_name_spec tag text :
  valid_name tag text <->
  exists front rest, str_bytes text = front :: rest /\ slen text <= kMaxLength tag /\
    (is_alnum front = true \/ (kAllowLeadingSeparator tag = true /\ is_extra tag front = true)) /\
    Forall (name_char tag) (str_bytes text).
Proof.
  unfold valid_name, name_parse. destruct (str_bytes text) as [|front rest] eqn:E.
  { split; [done|]. by intros (? & ? & ? & _). }
  assert (Hall : existsb (fun c => negb (is_alnum c) && negb (is_extra tag c)) (front :: rest) = false <->
                 Forall (name_char tag) (front :: rest)).
  { rewrite <- not_true_iff_false, existsb_exists, Forall_forall. unfold name_char. split.
    - intros Hn c Hc. destruct (is_alnum c) eqn:?; [by left|]. destruct (is_extra tag c) eqn:?; [by right|].
      destruct Hn. exists c. split; [by apply list_elem_of_In|]. by rewrite Heqb, Heqb0.
    - intros Hf (c & Hc & Hb). apply list_elem_of_In in Hc. specialize (Hf c Hc).
      destruct (is_alnum c), (is_extra tag c); naive_solver. }
  destruct (Z.ltb_spec (kMaxLength tag) (slen text)).
  { split; [done|]. intros (? & ? & ? & ? & _). lia. }
  destruct (is_alnum front) eqn:Ha, (kAllowLeadingSeparator tag && is_extra tag front) eqn:Hx; cbn [negb andb];
    try (split; [done|]; intros (f & r & Heq & _ & [?|[??]] & _); injection Heq as <- <-;
         [congruence|apply andb_false_iff in Hx as [?|?]; congruence]);
    destruct (existsb _ (front :: rest)) eqn:Hex;
    (split; [intros; try done|intros (f & r & Heq & _ & _ & Hf); simplify_eq; apply Hall in Hf; congruence]);
    exists front, rest; split_and!; try done; try lia; try (by left); try (right; by apply andb_true_iff);
    by apply Hall.
Qed.
