(* ===== verification/Types.v ===== *)
(** * The model's enumerations and records

    Models include/icf/model/types.hpp, include/icf/model/records.hpp and src/model/records.cpp.
    Field prefixes name the record: [pv_] Provenance, [ep_] EndpointRecord, [cl_] ClusterRecord,
    [lk_] LinkRecord, [pa_] PathRecord, [cs_] ConsentRecord, [py_] PartyRef, [ct_]
    ContractRecord, [gr_] GrantRecord, [rs_] ReservationRecord, [au_] AuditRecord, [pr_]
    PolicyRule. A [std::array<T, kPartyCount>] is a pair; [side] selects from it. *)
From S2P Require Import Prelude Status Bytes Ids.

Inductive ClusterState :=
  | ClusterState_Unknown | ClusterState_Active | ClusterState_Suspended
  | ClusterState_Draining | ClusterState_Retired.
#[export] Instance ClusterState_eq_dec : EqDecision ClusterState.
Proof. solve_decision. Defined.
#[export] Program Instance ClusterState_enum : CEnum ClusterState :=
  {| enumerators := [ClusterState_Unknown; ClusterState_Active; ClusterState_Suspended;
                     ClusterState_Draining; ClusterState_Retired];
     enum_first := ClusterState_Unknown |}.
Solve All Obligations with solve_enum.

Inductive EndpointState :=
  | EndpointState_Unknown | EndpointState_Active | EndpointState_Suspended
  | EndpointState_Draining | EndpointState_Retired.
#[export] Instance EndpointState_eq_dec : EqDecision EndpointState.
Proof. solve_decision. Defined.
#[export] Program Instance EndpointState_enum : CEnum EndpointState :=
  {| enumerators := [EndpointState_Unknown; EndpointState_Active; EndpointState_Suspended;
                     EndpointState_Draining; EndpointState_Retired];
     enum_first := EndpointState_Unknown |}.
Solve All Obligations with solve_enum.

Inductive LinkKind :=
  | LinkKind_Unknown | LinkKind_LoopbackTcp | LinkKind_SyntheticModel | LinkKind_OpticalInterconnect.
#[export] Instance LinkKind_eq_dec : EqDecision LinkKind.
Proof. solve_decision. Defined.
#[export] Program Instance LinkKind_enum : CEnum LinkKind :=
  {| enumerators := [LinkKind_Unknown; LinkKind_LoopbackTcp; LinkKind_SyntheticModel;
                     LinkKind_OpticalInterconnect];
     enum_first := LinkKind_Unknown |}.
Solve All Obligations with solve_enum.

Inductive LinkState :=
  | LinkState_Unknown | LinkState_Up | LinkState_Degraded | LinkState_Down | LinkState_Unsupported.
#[export] Instance LinkState_eq_dec : EqDecision LinkState.
Proof. solve_decision. Defined.
#[export] Program Instance LinkState_enum : CEnum LinkState :=
  {| enumerators := [LinkState_Unknown; LinkState_Up; LinkState_Degraded; LinkState_Down;
                     LinkState_Unsupported];
     enum_first := LinkState_Unknown |}.
Solve All Obligations with solve_enum.

Inductive PathState := PathState_Unknown | PathState_Up | PathState_Degraded | PathState_Down.
#[export] Instance PathState_eq_dec : EqDecision PathState.
Proof. solve_decision. Defined.
#[export] Program Instance PathState_enum : CEnum PathState :=
  {| enumerators := [PathState_Unknown; PathState_Up; PathState_Degraded; PathState_Down];
     enum_first := PathState_Unknown |}.
Solve All Obligations with solve_enum.

Inductive ContractState :=
  | ContractState_Proposed | ContractState_AwaitingConsent | ContractState_Consented
  | ContractState_Active | ContractState_Refused | ContractState_Withdrawn
  | ContractState_Expired | ContractState_Fenced.
#[export] Instance ContractState_eq_dec : EqDecision ContractState.
Proof. solve_decision. Defined.
#[export] Program Instance ContractState_enum : CEnum ContractState :=
  {| enumerators := [ContractState_Proposed; ContractState_AwaitingConsent;
                     ContractState_Consented; ContractState_Active; ContractState_Refused;
                     ContractState_Withdrawn; ContractState_Expired; ContractState_Fenced];
     enum_first := ContractState_Proposed |}.
Solve All Obligations with solve_enum.

Inductive GrantState :=
  | GrantState_Preparing | GrantState_Prepared | GrantState_Committed | GrantState_Active
  | GrantState_Indeterminate | GrantState_Aborted | GrantState_Fenced | GrantState_Expired
  | GrantState_Withdrawn.
#[export] Instance GrantState_eq_dec : EqDecision GrantState.
Proof. solve_decision. Defined.
#[export] Program Instance GrantState_enum : CEnum GrantState :=
  {| enumerators := [GrantState_Preparing; GrantState_Prepared; GrantState_Committed;
                     GrantState_Active; GrantState_Indeterminate; GrantState_Aborted;
                     GrantState_Fenced; GrantState_Expired; GrantState_Withdrawn];
     enum_first := GrantState_Preparing |}.
Solve All Obligations with solve_enum.

Inductive ConsentDecision := ConsentDecision_Accepted | ConsentDecision_Refused.
#[export] Instance ConsentDecision_eq_dec : EqDecision ConsentDecision.
Proof. solve_decision. Defined.
#[export] Program Instance ConsentDecision_enum : CEnum ConsentDecision :=
  {| enumerators := [ConsentDecision_Accepted; ConsentDecision_Refused];
     enum_first := ConsentDecision_Accepted |}.
Solve All Obligations with solve_enum.

Inductive EvidenceSource :=
  | EvidenceSource_Unspecified | EvidenceSource_AdminConfigured | EvidenceSource_AgentReported
  | EvidenceSource_DerivedFromTopology | EvidenceSource_RecoveredFromStore
  | EvidenceSource_Synthetic.
#[export] Instance EvidenceSource_eq_dec : EqDecision EvidenceSource.
Proof. solve_decision. Defined.
#[export] Program Instance EvidenceSource_enum : CEnum EvidenceSource :=
  {| enumerators := [EvidenceSource_Unspecified; EvidenceSource_AdminConfigured;
                     EvidenceSource_AgentReported; EvidenceSource_DerivedFromTopology;
                     EvidenceSource_RecoveredFromStore; EvidenceSource_Synthetic];
     enum_first := EvidenceSource_Unspecified |}.
Solve All Obligations with solve_enum.

Inductive VerificationState :=
  | VerificationState_Unverified | VerificationState_Verified | VerificationState_Failed
  | VerificationState_NotApplicable | VerificationState_Unsupported.
#[export] Instance VerificationState_eq_dec : EqDecision VerificationState.
Proof. solve_decision. Defined.
#[export] Program Instance VerificationState_enum : CEnum VerificationState :=
  {| enumerators := [VerificationState_Unverified; VerificationState_Verified;
                     VerificationState_Failed; VerificationState_NotApplicable;
                     VerificationState_Unsupported];
     enum_first := VerificationState_Unverified |}.
Solve All Obligations with solve_enum.

Inductive TransportAuthenticity := TransportAuthenticity_None | TransportAuthenticity_SharedKeyMac.
#[export] Instance TransportAuthenticity_eq_dec : EqDecision TransportAuthenticity.
Proof. solve_decision. Defined.
#[export] Program Instance TransportAuthenticity_enum : CEnum TransportAuthenticity :=
  {| enumerators := [TransportAuthenticity_None; TransportAuthenticity_SharedKeyMac];
     enum_first := TransportAuthenticity_None |}.
Solve All Obligations with solve_enum.

(** ** Names of the enumerators (src/model/records.cpp) *)
Definition cluster_state_to_string (v : ClusterState) : string :=
  match v with
  | ClusterState_Unknown => "UNKNOWN" | ClusterState_Active => "ACTIVE"
  | ClusterState_Suspended => "SUSPENDED" | ClusterState_Draining => "DRAINING"
  | ClusterState_Retired => "RETIRED"
  end.
Definition endpoint_state_to_string (v : EndpointState) : string :=
  match v with
  | EndpointState_Unknown => "UNKNOWN" | EndpointState_Active => "ACTIVE"
  | EndpointState_Suspended => "SUSPENDED" | EndpointState_Draining => "DRAINING"
  | EndpointState_Retired => "RETIRED"
  end.
Definition link_kind_to_string (v : LinkKind) : string :=
  match v with
  | LinkKind_Unknown => "UNKNOWN" | LinkKind_LoopbackTcp => "LOOPBACK_TCP"
  | LinkKind_SyntheticModel => "SYNTHETIC_MODEL"
  | LinkKind_OpticalInterconnect => "OPTICAL_INTERCONNECT"
  end.
Definition link_state_to_string (v : LinkState) : string :=
  match v with
  | LinkState_Unknown => "UNKNOWN" | LinkState_Up => "UP" | LinkState_Degraded => "DEGRADED"
  | LinkState_Down => "DOWN" | LinkState_Unsupported => "UNSUPPORTED"
  end.
Definition contract_state_to_string (v : ContractState) : string :=
  match v with
  | ContractState_Proposed => "PROPOSED" | ContractState_AwaitingConsent => "AWAITING_CONSENT"
  | ContractState_Consented => "CONSENTED" | ContractState_Active => "ACTIVE"
  | ContractState_Refused => "REFUSED" | ContractState_Withdrawn => "WITHDRAWN"
  | ContractState_Expired => "EXPIRED" | ContractState_Fenced => "FENCED"
  end.
Definition grant_state_to_string (v : GrantState) : string :=
  match v with
  | GrantState_Preparing => "PREPARING" | GrantState_Prepared => "PREPARED"
  | GrantState_Committed => "COMMITTED" | GrantState_Active => "ACTIVE"
  | GrantState_Indeterminate => "INDETERMINATE" | GrantState_Aborted => "ABORTED"
  | GrantState_Fenced => "FENCED" | GrantState_Expired => "EXPIRED"
  | GrantState_Withdrawn => "WITHDRAWN"
  end.

Definition path_state_to_string (v : PathState) : string :=
  match v with
  | PathState_Unknown => "UNKNOWN" | PathState_Up => "UP" | PathState_Degraded => "DEGRADED" | PathState_Down => "DOWN"
  end.
Definition evidence_source_to_string (v : EvidenceSource) : string :=
  match v with
  | EvidenceSource_Unspecified => "UNSPECIFIED" | EvidenceSource_AdminConfigured => "ADMIN_CONFIGURED"
  | EvidenceSource_AgentReported => "AGENT_REPORTED" | EvidenceSource_DerivedFromTopology => "DERIVED_FROM_TOPOLOGY"
  | EvidenceSource_RecoveredFromStore => "RECOVERED_FROM_STORE" | EvidenceSource_Synthetic => "SYNTHETIC"
  end.
Definition verification_state_to_string (v : VerificationState) : string :=
  match v with
  | VerificationState_Unverified => "UNVERIFIED" | VerificationState_Verified => "VERIFIED"
  | VerificationState_Failed => "FAILED" | VerificationState_NotApplicable => "NOT_APPLICABLE"
  | VerificationState_Unsupported => "UNSUPPORTED"
  end.
Definition transport_authenticity_to_string (v : TransportAuthenticity) : string :=
  match v with
  | TransportAuthenticity_None => "NONE" | TransportAuthenticity_SharedKeyMac => "SHARED_KEY_MAC"
  end.

(** [parse_enum]: the first entry of the table with this name. *)
Definition parse_enum {E} (table : list (E * string)) (text : string) : option E :=
  match list_find (fun e => e.2 = text) table with Some (_, e) => Some e.1 | None => None end.

Definition name_table `{CEnum E} (to_string : E -> string) : list (E * string) :=
  (fun e => (e, to_string e)) <$> enumerators.

Definition cluster_state_from_string : string -> option ClusterState :=
  parse_enum (name_table cluster_state_to_string).
Definition endpoint_state_from_string : string -> option EndpointState :=
  parse_enum (name_table endpoint_state_to_string).
Definition link_kind_from_string : string -> option LinkKind :=
  parse_enum (name_table link_kind_to_string).
Definition link_state_from_string : string -> option LinkState :=
  parse_enum (name_table link_state_to_string).

Definition link_kind_support_note (kind : LinkKind) : string :=
  match kind with
  | LinkKind_LoopbackTcp => "real framed transport over a real TCP socket"
  | LinkKind_SyntheticModel => "SYNTHETIC: declared topology, no transport is driven or observed"
  | LinkKind_OpticalInterconnect => "UNSUPPORTED: this runtime owns no optical hardware control path"
  | LinkKind_Unknown => "UNKNOWN: no evidence describes this link"
  end%string.

Definition consent_decision_to_string (d : ConsentDecision) : string :=
  match d with
  | ConsentDecision_Accepted => "ACCEPTED"
  | ConsentDecision_Refused => "REFUSED"
  end%string.

Definition link_kind_supported (kind : LinkKind) : bool :=
  bool_decide (kind = LinkKind_LoopbackTcp) || bool_decide (kind = LinkKind_SyntheticModel).

(** ** Records *)
Record Provenance := mkProvenance {
  pv_source : EvidenceSource;
  pv_verification : VerificationState;
  pv_observed_at : Z;
  pv_revision : Z;
  pv_session : string;
  pv_evidence_digest : string;
}.

Definition provenance_default : Provenance :=
  mkProvenance EvidenceSource_Unspecified VerificationState_Unverified 0 0 nil_uuid zero_digest.

Definition provenance_usable (p : Provenance) : bool :=
  bool_decide (pv_verification p = VerificationState_Verified) &&
  negb (bool_decide (pv_source p = EvidenceSource_RecoveredFromStore)) &&
  negb (bool_decide (pv_source p = EvidenceSource_Unspecified)).

(** [Provenance{}] with source, verification and time set, as the fencing code writes it. *)
Definition provenance_derived (at_time : Z) : Provenance :=
  mkProvenance EvidenceSource_DerivedFromTopology VerificationState_Verified at_time 0 nil_uuid zero_digest.

Record EndpointRecord := mkEndpoint {
  ep_id : string;
  ep_cluster : string;
  ep_scope : string;
  ep_capacity : Z;
  ep_reserved : Z;
  ep_policy_generation : Z;
  ep_state : EndpointState;
  ep_inter_cluster_allowed : bool;
  ep_permits_degraded : bool;
  ep_provenance : Provenance;
}.

Record ClusterRecord := mkCluster {
  cl_id : string;
  cl_domain : string;
  cl_incarnation : string;
  cl_generation : Z;
  cl_policy_generation : Z;
  cl_state : ClusterState;
  cl_consent_withdrawn : bool;
  cl_last_seen : Z;
  cl_endpoints : list EndpointRecord;
  cl_content_digest : string;
  cl_generation_conflict : bool;
  cl_conflicting_generation : option Z;
  cl_revision : Z;
  cl_provenance : Provenance;
  cl_incarnation_changes : Z;
}.

Record LinkRecord := mkLink {
  lk_id : string;
  lk_a : string;
  lk_b : string;
  lk_kind : LinkKind;
  lk_state : LinkState;
  lk_capacity : Z;
  lk_reserved : Z;
  lk_latency_micros : Z;
  lk_revision : Z;
  lk_provenance : Provenance;
}.

Record PathRecord := mkPath {
  pa_id : string;
  pa_a : string;
  pa_b : string;
  pa_hops : list string;
  pa_bottleneck : Z;
  pa_state : PathState;
  pa_revision : Z;
  pa_provenance : Provenance;
  pa_contains_unsupported_edge : bool;
}.

Record ConsentRecord := mkConsent {
  cs_cluster : string;
  cs_endpoint : string;
  cs_incarnation : string;
  cs_generation : Z;
  cs_policy_generation : Z;
  cs_agent_term : Z;
  cs_terms_digest : string;
  cs_decision : ConsentDecision;
  cs_decided_at : Z;
  cs_session : string;
  cs_authenticity : TransportAuthenticity;
  cs_reason : string;
}.

Record PartyRef := mkParty {
  py_cluster : string;
  py_endpoint : string;
  py_domain : string;
}.

Record ContractRecord := mkContract {
  ct_id : string;
  ct_parties : PartyRef * PartyRef;
  ct_capacity : Z;
  ct_lease_duration : Z;
  ct_terms_digest : string;
  ct_state : ContractState;
  ct_consents : option ConsentRecord * option ConsentRecord;
  ct_created_at : Z;
  ct_updated_at : Z;
  ct_revision : Z;
  ct_provenance : Provenance;
}.

Record GrantRecord := mkGrant {
  gr_id : string;
  gr_contract : string;
  gr_terms_digest : string;
  gr_coordinator_term : Z;
  gr_coordinator : string;
  gr_attempt : string;
  gr_incarnations : string * string;
  gr_generations : Z * Z;
  gr_policies : Z * Z;
  gr_capacity : Z;
  gr_issued_at : Z;
  gr_valid_until : Z;
  gr_state : GrantState;
  gr_acknowledged : bool * bool;
  gr_enforcement_digest : string * string;
  gr_revalidate_attempts : Z;
  gr_note : string;
  gr_revision : Z;
  gr_provenance : Provenance;
}.

Record ReservationRecord := mkReservation {
  rs_id : string;
  rs_grant : string;
  rs_endpoint : string;
  rs_cluster : string;
  rs_amount : Z;
  rs_released : bool;
  rs_created_at : Z;
  rs_released_at : Z;
  rs_revision : Z;
  rs_provenance : Provenance;
}.

Record AuditRecord := mkAudit {
  au_sequence : Z;
  au_at : Z;
  au_actor : string;
  au_action : string;
  au_subject : string;
  au_outcome : Outcome;
  au_detail : string;
}.

Record PolicyRule := mkPolicy {
  pr_id : string;
  pr_owner : string;
  pr_cluster_a : string;
  pr_cluster_b : string;
  pr_endpoint_a : string;
  pr_endpoint_b : string;
  pr_generation : Z;
  pr_allow : bool;
  pr_allow_degraded : bool;
  pr_max_capacity : Z;
  pr_revision : Z;
  pr_provenance : Provenance;
}.

#[export] Instance Provenance_eq_dec : EqDecision Provenance.
Proof. solve_decision. Defined.
#[export] Instance EndpointRecord_eq_dec : EqDecision EndpointRecord.
Proof. solve_decision. Defined.

(** [parties[side]] and the like. *)
Definition at_side {A} (p : A * A) (side : bool) : A := if side then p.2 else p.1.
Definition set_side {A} (p : A * A) (side : bool) (x : A) : A * A := if side then (p.1, x) else (x, p.2).

(** ** Methods of the records *)
(** [side_of]: -1 is [None], 0 is [Some false], 1 is [Some true]. *)
Definition parties_side_of (parties : PartyRef * PartyRef) (cluster : string) : option bool :=
  if bool_decide (py_cluster parties.1 = cluster) then Some false
  else if bool_decide (py_cluster parties.2 = cluster) then Some true
  else None.

Definition contract_side_of (c : ContractRecord) (cluster : string) : option bool :=
  parties_side_of (ct_parties c) cluster.

Definition consent_accepted (c : option ConsentRecord) : bool :=
  match c with Some r => bool_decide (cs_decision r = ConsentDecision_Accepted) | None => false end.

Definition both_consented (c : ContractRecord) : bool :=
  consent_accepted (ct_consents c).1 && consent_accepted (ct_consents c).2.

Definition both_acknowledged (g : GrantRecord) : bool := (gr_acknowledged g).1 && (gr_acknowledged g).2.

Definition usable_state (g : GrantRecord) : bool :=
  bool_decide (gr_state g = GrantState_Committed) || bool_decide (gr_state g = GrantState_Active).

(** An empty match field is a wildcard. *)
Definition field_matches (field value : string) : bool :=
  bool_decide (field = ""%string) || bool_decide (field = value).

Definition rule_matches (r : PolicyRule) (a b ea eb : string) : bool :=
  field_matches (pr_cluster_a r) a && field_matches (pr_cluster_b r) b &&
  field_matches (pr_endpoint_a r) ea && field_matches (pr_endpoint_b r) eb.

(** ** Updates of single fields, as the code's assignments through a reference *)
Definition set_ep_reserved (r : Z) (e : EndpointRecord) : EndpointRecord :=
  mkEndpoint (ep_id e) (ep_cluster e) (ep_scope e) (ep_capacity e) r (ep_policy_generation e)
    (ep_state e) (ep_inter_cluster_allowed e) (ep_permits_degraded e) (ep_provenance e).

Definition set_pv_observed_at (t : Z) (p : Provenance) : Provenance :=
  mkProvenance (pv_source p) (pv_verification p) t (pv_revision p) (pv_session p) (pv_evidence_digest p).

Definition set_ep_provenance (p : Provenance) (e : EndpointRecord) : EndpointRecord :=
  mkEndpoint (ep_id e) (ep_cluster e) (ep_scope e) (ep_capacity e) (ep_reserved e)
    (ep_policy_generation e) (ep_state e) (ep_inter_cluster_allowed e) (ep_permits_degraded e) p.

Definition set_cl_endpoints (l : list EndpointRecord) (c : ClusterRecord) : ClusterRecord :=
  mkCluster (cl_id c) (cl_domain c) (cl_incarnation c) (cl_generation c) (cl_policy_generation c)
    (cl_state c) (cl_consent_withdrawn c) (cl_last_seen c) l (cl_content_digest c)
    (cl_generation_conflict c) (cl_conflicting_generation c) (cl_revision c) (cl_provenance c)
    (cl_incarnation_changes c).

Definition set_pa_derived (unsupported : bool) (bottleneck : Z) (state : PathState) (p : PathRecord) : PathRecord :=
  mkPath (pa_id p) (pa_a p) (pa_b p) (pa_hops p) bottleneck state (pa_revision p) (pa_provenance p)
    unsupported.

Definition set_ct_state (s : ContractState) (updated : Z) (rev : Z) (c : ContractRecord) : ContractRecord :=
  mkContract (ct_id c) (ct_parties c) (ct_capacity c) (ct_lease_duration c) (ct_terms_digest c) s
    (ct_consents c) (ct_created_at c) updated rev (ct_provenance c).

Definition set_gr_state (s : GrantState) (note : string) (rev : Z) (p : Provenance) (g : GrantRecord) : GrantRecord :=
  mkGrant (gr_id g) (gr_contract g) (gr_terms_digest g) (gr_coordinator_term g) (gr_coordinator g)
    (gr_attempt g) (gr_incarnations g) (gr_generations g) (gr_policies g) (gr_capacity g)
    (gr_issued_at g) (gr_valid_until g) s (gr_acknowledged g) (gr_enforcement_digest g)
    (gr_revalidate_attempts g) note rev p.

Definition set_rs_released (at_time : Z) (p : Provenance) (r : ReservationRecord) : ReservationRecord :=
  mkReservation (rs_id r) (rs_grant r) (rs_endpoint r) (rs_cluster r) (rs_amount r) true
    (rs_created_at r) at_time (rs_revision r) p.

(** ** Lemmas *)
Lemma parse_enum_table `{CEnum E} (to_string : E -> string) (e : E) :
  Inj (=) (=) to_string -> parse_enum (name_table to_string) (to_string e) = Some e.
Proof.
  intros Hinj. unfold parse_enum, name_table.
  destruct (list_find _ _) as [[i [x n]]|] eqn:F.
  - apply list_find_Some in F as (Hi & Hn & _). simpl in *.
    apply list_lookup_fmap_Some in Hi as (y & Hy & _). by simplify_eq.
  - apply list_find_None in F. rewrite Forall_fmap, Forall_forall in F.
    by destruct (F e (enumerators_all e)).
Qed.

Lemma at_side_same {A} (x : A) s : at_side (x, x) s = x.
Proof. by destruct s. Qed.

Lemma contract_side_of_Some c cluster s :
  contract_side_of c cluster = Some s -> py_cluster (at_side (ct_parties c) s) = cluster.
Proof. unfold contract_side_of, parties_side_of. intros H. by repeat case_bool_decide; simplify_eq. Qed.

Lemma contract_side_of_party c s :
  exists s', contract_side_of c (py_cluster (at_side (ct_parties c) s)) = Some s'.
Proof.
  unfold contract_side_of, parties_side_of.
  destruct s; simpl; repeat case_bool_decide; eauto; done.
Qed.
