(* ===== verification/Registry.v ===== *)
(** * The authoritative registry

    Models include/icf/model/registry.hpp and src/model/registry.cpp (the canonical encoding and
    the digest are in Canonical.v). Every [std::map] is a [gmap] read in key order through
    [entries]. A [put_*]/[erase_*] operation mutates the object only on its last line, so it is a
    function to [Result Registry]: on an error the caller keeps the old registry. *)
From S2P Require Import Prelude Status Bytes Ids Types.

Record Registry := mkRegistry {
  rg_clusters : gmap string ClusterRecord;
  rg_links : gmap string LinkRecord;
  rg_paths : gmap string PathRecord;
  rg_policies : gmap string PolicyRule;
  rg_contracts : gmap string ContractRecord;
  rg_grants : gmap string GrantRecord;
  rg_reservations : gmap string ReservationRecord;
  rg_audit : list AuditRecord;
}.

Definition empty_registry : Registry := mkRegistry ∅ ∅ ∅ ∅ ∅ ∅ ∅ [].

Definition with_clusters m r := mkRegistry m (rg_links r) (rg_paths r) (rg_policies r) (rg_contracts r) (rg_grants r) (rg_reservations r) (rg_audit r).
Definition with_links m r := mkRegistry (rg_clusters r) m (rg_paths r) (rg_policies r) (rg_contracts r) (rg_grants r) (rg_reservations r) (rg_audit r).
Definition with_paths m r := mkRegistry (rg_clusters r) (rg_links r) m (rg_policies r) (rg_contracts r) (rg_grants r) (rg_reservations r) (rg_audit r).
Definition with_policies m r := mkRegistry (rg_clusters r) (rg_links r) (rg_paths r) m (rg_contracts r) (rg_grants r) (rg_reservations r) (rg_audit r).
Definition with_contracts m r := mkRegistry (rg_clusters r) (rg_links r) (rg_paths r) (rg_policies r) m (rg_grants r) (rg_reservations r) (rg_audit r).
Definition with_grants m r := mkRegistry (rg_clusters r) (rg_links r) (rg_paths r) (rg_policies r) (rg_contracts r) m (rg_reservations r) (rg_audit r).
Definition with_reservations m r := mkRegistry (rg_clusters r) (rg_links r) (rg_paths r) (rg_policies r) (rg_contracts r) (rg_grants r) m (rg_audit r).
Definition with_audit l r := mkRegistry (rg_clusters r) (rg_links r) (rg_paths r) (rg_policies r) (rg_contracts r) (rg_grants r) (rg_reservations r) l.

(** [for (x : l) { if (!check(x)) return error; }] *)
Fixpoint for_each {A} (check : A -> Result unit) (l : list A) : Result unit :=
  match l with
  | [] => Val tt
  | x :: l => _ ← check x; for_each check l
  end.

Definition insert_bounded {V} (m : gmap string V) (key : string) (record : V) (bound : Z)
    (what : string) : Result (gmap string V) :=
  if bool_decide (m !! key = None) && (bound <=? Z.of_nat (size m))
  then fail Outcome_CapacityExceeded ("too many " +:+ what +:+ " records")
  else Val (<[key := record]> m).

Definition erase_existing {V} (m : gmap string V) (key : string) (message : string) : Result (gmap string V) :=
  if bool_decide (m !! key = None) then not_found message else Val (delete key m).

(** ** Clusters and endpoints *)
Definition find_cluster (r : Registry) (id : string) : option ClusterRecord := rg_clusters r !! id.

(** [std::lower_bound] on the identity: the first endpoint that is not smaller. *)
Definition lower_bound_endpoint (l : list EndpointRecord) (id : string) : option EndpointRecord :=
  snd <$> list_find (fun e => str_ltb (ep_id e) id = false) l.

Definition find_endpoint_in (l : list EndpointRecord) (id : string) : option EndpointRecord :=
  match lower_bound_endpoint l id with
  | Some e => if bool_decide (ep_id e = id) then Some e else None
  | None => None
  end.

(** The endpoint with the cluster it was found in ([resolve] of engine.cpp). *)
Fixpoint resolve_in (l : list ClusterRecord) (id : string) : option (EndpointRecord * ClusterRecord) :=
  match l with
  | [] => None
  | c :: l =>
      match find_endpoint_in (cl_endpoints c) id with
      | Some e => Some (e, c)
      | None => resolve_in l id
      end
  end.

Definition resolve (r : Registry) (id : string) : option (EndpointRecord * ClusterRecord) :=
  resolve_in (values (rg_clusters r)) id.

Definition find_endpoint (r : Registry) (id : string) : option EndpointRecord := fst <$> resolve r id.

Definition ep_le (a b : EndpointRecord) : Prop := String.le (ep_id a) (ep_id b).
#[export] Instance ep_le_dec : RelDecision ep_le.
Proof. intros a b. unfold ep_le. apply _. Defined.

Definition sort_endpoints (l : list EndpointRecord) : list EndpointRecord := merge_sort ep_le l.

Fixpoint adjacent_duplicate (l : list EndpointRecord) : bool :=
  match l with
  | a :: ((b :: _) as l') => bool_decide (ep_id a = ep_id b) || adjacent_duplicate l'
  | _ => false
  end.

Definition put_cluster (record : ClusterRecord) (r : Registry) : Result Registry :=
  _ ← reject_if (bool_decide (cl_id record = ""%string)) Outcome_Invalid "cluster record requires an identity";
  _ ← reject_if (bool_decide (cl_domain record = ""%string)) Outcome_Invalid
        "cluster record requires an authority domain";
  _ ← reject_if (limits.kMaxEndpointsPerCluster <? zlen (cl_endpoints record)) Outcome_CapacityExceeded
        "cluster declares too many endpoints";
  let endpoints := sort_endpoints (cl_endpoints record) in
  _ ← for_each (fun e =>
        _ ← reject_if (negb (bool_decide (ep_cluster e = cl_id record))) Outcome_Invalid
              "endpoint scope is bound to a different cluster identity";
        reject_if (ep_capacity e <? ep_reserved e) Outcome_CapacityExceeded
          "endpoint reservations exceed declared capacity") endpoints;
  _ ← reject_if (adjacent_duplicate endpoints) Outcome_AlreadyExists
        "cluster declares a duplicate endpoint identity";
  m ← insert_bounded (rg_clusters r) (cl_id record) (set_cl_endpoints endpoints record)
        limits.kMaxClusters "cluster";
  mret (with_clusters m r).

Definition erase_cluster (id : string) (r : Registry) : Result Registry :=
  m ← erase_existing (rg_clusters r) id "cluster is not registered"; mret (with_clusters m r).

(** ** Links and paths *)
Definition find_link (r : Registry) (id : string) : option LinkRecord := rg_links r !! id.

Definition put_link (record : LinkRecord) (r : Registry) : Result Registry :=
  _ ← reject_if (bool_decide (lk_id record = ""%string) || bool_decide (lk_a record = ""%string) ||
                 bool_decide (lk_b record = ""%string)) Outcome_Invalid
        "link record requires an identity and two endpoints";
  _ ← reject_if (bool_decide (lk_a record = lk_b record)) Outcome_Invalid
        "a link must join two distinct endpoints";
  _ ← reject_if (lk_capacity record <? lk_reserved record) Outcome_CapacityExceeded
        "link reservations exceed declared capacity";
  m ← insert_bounded (rg_links r) (lk_id record) record limits.kMaxEdges "link";
  mret (with_links m r).

Definition erase_link (id : string) (r : Registry) : Result Registry :=
  m ← erase_existing (rg_links r) id "link is not registered"; mret (with_links m r).

Definition find_path (r : Registry) (id : string) : option PathRecord := rg_paths r !! id.

Definition put_path (record : PathRecord) (r : Registry) : Result Registry :=
  _ ← reject_if (bool_decide (pa_id record = ""%string) || bool_decide (pa_a record = ""%string) ||
                 bool_decide (pa_b record = ""%string)) Outcome_Invalid
        "path record requires an identity and two endpoints";
  _ ← reject_if (bool_decide (pa_hops record = [])) Outcome_Invalid "path record requires at least one hop";
  _ ← reject_if (limits.kMaxPathHops <? zlen (pa_hops record)) Outcome_CapacityExceeded
        "path declares too many hops";
  m ← insert_bounded (rg_paths r) (pa_id record) record limits.kMaxPaths "path";
  mret (with_paths m r).

Definition erase_path (id : string) (r : Registry) : Result Registry :=
  m ← erase_existing (rg_paths r) id "path is not registered"; mret (with_paths m r).

(** The loop over the hops of [recompute_path_states]: state, bottleneck (the default capacity
    while [first] holds), [first], [unsupported]. *)
Record PathScan := mkScan { sc_state : PathState; sc_bottleneck : Z; sc_first : bool; sc_unsupported : bool }.

(** The [switch (link->state)]. *)
Definition link_state_effect (s : LinkState) (sc : PathScan) : PathScan :=
  match s with
  | LinkState_Down => mkScan PathState_Down (sc_bottleneck sc) (sc_first sc) (sc_unsupported sc)
  | LinkState_Unknown =>
      if bool_decide (sc_state sc = PathState_Down) then sc
      else mkScan PathState_Unknown (sc_bottleneck sc) (sc_first sc) (sc_unsupported sc)
  | LinkState_Degraded =>
      if bool_decide (sc_state sc = PathState_Down) || bool_decide (sc_state sc = PathState_Unknown) then sc
      else mkScan PathState_Degraded (sc_bottleneck sc) (sc_first sc) (sc_unsupported sc)
  | LinkState_Unsupported => mkScan PathState_Down (sc_bottleneck sc) (sc_first sc) true
  | LinkState_Up => sc
  end.

Fixpoint path_scan (links : gmap string LinkRecord) (hops : list string) (sc : PathScan) : PathScan :=
  match hops with
  | [] => sc
  | hop :: hops =>
      match links !! hop with
      | None => mkScan PathState_Unknown (sc_bottleneck sc) (sc_first sc) (sc_unsupported sc)
      | Some link =>
          if negb (link_kind_supported (lk_kind link))
          then mkScan PathState_Down (sc_bottleneck sc) (sc_first sc) true
          else
            let sc := link_state_effect (lk_state link) sc in
            if bool_decide (sc_state sc = PathState_Down) then sc
            else
              path_scan links hops
                (if sc_first sc || (lk_capacity link <? sc_bottleneck sc)
                 then mkScan (sc_state sc) (lk_capacity link) false (sc_unsupported sc) else sc)
      end
  end.

Definition scan_start : PathScan := mkScan PathState_Up 0 true false.

Definition recompute_path (links : gmap string LinkRecord) (p : PathRecord) : PathRecord :=
  let sc := path_scan links (pa_hops p) scan_start in
  set_pa_derived (sc_unsupported sc) (if sc_first sc then 0 else sc_bottleneck sc) (sc_state sc) p.

Definition recompute_path_states (r : Registry) : Registry :=
  with_paths (recompute_path (rg_links r) <$> rg_paths r) r.

(** ** Policy *)
Definition put_policy (rule : PolicyRule) (r : Registry) : Result Registry :=
  _ ← reject_if (bool_decide (pr_id rule = ""%string) || (limits.kMaxNameLength <? slen (pr_id rule)))
        Outcome_Invalid "policy rule requires a bounded identity";
  _ ← reject_if (bool_decide (pr_owner rule = ""%string)) Outcome_Invalid
        "policy rule requires an owning authority domain";
  m ← insert_bounded (rg_policies r) (pr_id rule) rule limits.kMaxPolicyRules "policy";
  mret (with_policies m r).

Definition erase_policy (id : string) (r : Registry) : Result Registry :=
  m ← erase_existing (rg_policies r) id "policy rule is not registered"; mret (with_policies m r).

(** ** Contracts, grants, reservations *)
Definition find_contract (r : Registry) (id : string) : option ContractRecord := rg_contracts r !! id.

Definition put_contract (record : ContractRecord) (r : Registry) : Result Registry :=
  _ ← reject_if (uuid_is_nil (ct_id record)) Outcome_Invalid "contract requires an identity";
  _ ← reject_if (bool_decide (py_cluster (ct_parties record).1 = ""%string) ||
                 bool_decide (py_cluster (ct_parties record).2 = ""%string)) Outcome_Invalid
        "contract requires two cluster identities";
  _ ← reject_if (bool_decide (py_cluster (ct_parties record).1 = py_cluster (ct_parties record).2))
        Outcome_Invalid "contract must join two distinct clusters";
  _ ← reject_if (limits.kMaxCapacity <? ct_capacity record) Outcome_Overflow
        "contract capacity exceeds the maximum";
  m ← insert_bounded (rg_contracts r) (ct_id record) record limits.kMaxContracts "contract";
  mret (with_contracts m r).

Definition erase_contract (id : string) (r : Registry) : Result Registry :=
  m ← erase_existing (rg_contracts r) id "contract is not registered"; mret (with_contracts m r).

Definition find_grant (r : Registry) (id : string) : option GrantRecord := rg_grants r !! id.

Definition put_grant (record : GrantRecord) (r : Registry) : Result Registry :=
  _ ← reject_if (uuid_is_nil (gr_id record)) Outcome_Invalid "grant requires an identity";
  _ ← reject_if (uuid_is_nil (gr_contract record)) Outcome_Invalid "grant requires a contract";
  _ ← reject_if (limits.kMaxCapacity <? gr_capacity record) Outcome_Overflow
        "grant capacity exceeds the maximum";
  m ← insert_bounded (rg_grants r) (gr_id record) record limits.kMaxGrants "grant";
  mret (with_grants m r).

Definition erase_grant (id : string) (r : Registry) : Result Registry :=
  m ← erase_existing (rg_grants r) id "grant is not registered"; mret (with_grants m r).

Definition find_reservation (r : Registry) (id : string) : option ReservationRecord := rg_reservations r !! id.

Definition put_reservation (record : ReservationRecord) (r : Registry) : Result Registry :=
  _ ← reject_if (uuid_is_nil (rs_id record)) Outcome_Invalid "reservation requires an identity";
  m ← insert_bounded (rg_reservations r) (rs_id record) record limits.kMaxReservations "reservation";
  mret (with_reservations m r).

(** ** Audit *)
Definition registry_append_audit (record : AuditRecord) (r : Registry) : Result Registry :=
  _ ← reject_if (limits.kMaxAuditRecords <=? zlen (rg_audit r)) Outcome_CapacityExceeded
        "audit trail is at its configured bound";
  _ ← match last (rg_audit r) with
      | None => Val tt
      | Some back =>
          expected ← value_or_throw (counter_next (au_sequence back));
          reject_if (negb (au_sequence record =? expected)) Outcome_Invalid "audit sequence is not contiguous"
      end;
  mret (with_audit (rg_audit r ++ [record]) r).

(** ** Derived *)
Record RegistryCounts := mkCounts {
  n_clusters : Z; n_endpoints : Z; n_links : Z; n_paths : Z; n_contracts : Z; n_grants : Z;
  n_reservations : Z; n_policies : Z; n_audit : Z;
}.

Definition counts (r : Registry) : RegistryCounts :=
  mkCounts (Z.of_nat (size (rg_clusters r)))
    (foldl (fun n c => n + zlen (cl_endpoints c)) 0 (values (rg_clusters r)))
    (Z.of_nat (size (rg_links r))) (Z.of_nat (size (rg_paths r)))
    (Z.of_nat (size (rg_contracts r))) (Z.of_nat (size (rg_grants r)))
    (Z.of_nat (size (rg_reservations r))) (Z.of_nat (size (rg_policies r))) (zlen (rg_audit r)).

Definition clear (r : Registry) : Registry := empty_registry.

Definition endpoint_reserved (r : Registry) (id : string) : Result Z :=
  match find_endpoint r id with
  | None => not_found "endpoint is not registered"
  | Some e => Val (ep_reserved e)
  end.

Definition link_reserved (r : Registry) (id : string) : Result Z :=
  match find_link r id with
  | None => not_found "link is not registered"
  | Some l => Val (lk_reserved l)
  end.

(** ** validate *)
(** The cluster loop carries the running endpoint total. *)
Fixpoint validate_clusters (total : Z) (l : list (string * ClusterRecord)) : Result unit :=
  match l with
  | [] => Val tt
  | (key, c) :: l =>
      _ ← reject_if (negb (bool_decide (cl_id c = key))) Outcome_Invalid
            "cluster map key does not match the record identity";
      let total := total + zlen (cl_endpoints c) in
      _ ← reject_if (limits.kMaxEndpointsTotal <? total) Outcome_CapacityExceeded
            "endpoint total exceeds the configured bound";
      _ ← for_each (fun e =>
            _ ← reject_if (bool_decide (ep_id e = ""%string)) Outcome_Invalid
                  "endpoint record has an empty identity";
            _ ← reject_if (negb (bool_decide (ep_cluster e = cl_id c))) Outcome_Invalid
                  "endpoint record is bound to a different cluster";
            reject_if (ep_capacity e <? ep_reserved e) Outcome_CapacityExceeded
              "endpoint reservations exceed capacity") (cl_endpoints c);
      validate_clusters total l
  end.

Definition validate_link (r : Registry) (p : string * LinkRecord) : Result unit :=
  _ ← reject_if (negb (bool_decide (lk_id p.2 = p.1))) Outcome_Invalid
        "link map key does not match the record identity";
  _ ← reject_if (bool_decide (find_endpoint r (lk_a p.2) = None) || bool_decide (find_endpoint r (lk_b p.2) = None))
        Outcome_Invalid "link references an endpoint that is not registered";
  reject_if (lk_capacity p.2 <? lk_reserved p.2) Outcome_CapacityExceeded "link reservations exceed capacity".

Definition validate_path (r : Registry) (p : string * PathRecord) : Result unit :=
  _ ← reject_if (negb (bool_decide (pa_id p.2 = p.1))) Outcome_Invalid
        "path map key does not match the record identity";
  for_each (fun hop => reject_if (match find_link r hop with None => true | Some _ => false end) Outcome_Invalid
    "path references a link that is not registered") (pa_hops p.2).

Definition validate_policy (p : string * PolicyRule) : Result unit :=
  reject_if (negb (bool_decide (pr_id p.2 = p.1))) Outcome_Invalid
    "policy map key does not match the rule identity".

Definition validate_contract (r : Registry) (p : string * ContractRecord) : Result unit :=
  _ ← reject_if (negb (bool_decide (ct_id p.2 = p.1))) Outcome_Invalid
        "contract map key does not match the record identity";
  for_each (fun party =>
    _ ← reject_if (match find_cluster r (py_cluster party) with None => true | Some _ => false end)
          Outcome_Invalid "contract references a cluster that is not registered";
    reject_if (match find_endpoint r (py_endpoint party) with None => true | Some _ => false end)
      Outcome_Invalid "contract references an endpoint that is not registered")
    [(ct_parties p.2).1; (ct_parties p.2).2].

Definition validate_grant (r : Registry) (p : string * GrantRecord) : Result unit :=
  _ ← reject_if (negb (bool_decide (gr_id p.2 = p.1))) Outcome_Invalid
        "grant map key does not match the record identity";
  _ ← reject_if (match find_contract r (gr_contract p.2) with None => true | Some _ => false end)
        Outcome_Invalid "grant references a contract that is not registered";
  reject_if (gr_valid_until p.2 <? gr_issued_at p.2) Outcome_Invalid
    "grant validity window ends before it begins".

Definition validate_reservation (r : Registry) (p : string * ReservationRecord) : Result unit :=
  _ ← reject_if (negb (bool_decide (rs_id p.2 = p.1))) Outcome_Invalid
        "reservation map key does not match the record identity";
  _ ← reject_if (match find_grant r (rs_grant p.2) with None => true | Some _ => false end)
        Outcome_Invalid "reservation references a grant that is not registered";
  reject_if (rs_released p.2 && (rs_released_at p.2 <? rs_created_at p.2)) Outcome_Invalid
    "reservation was released before it was created".

Fixpoint validate_audit (l : list AuditRecord) : Result unit :=
  match l with
  | a :: ((b :: _) as l') =>
      _ ← reject_if (negb (au_sequence a <? au_sequence b)) Outcome_Invalid
            "audit sequence is not strictly increasing";
      validate_audit l'
  | _ => Val tt
  end.

Definition validate (r : Registry) : Result unit :=
  _ ← validate_clusters 0 (entries (rg_clusters r));
  _ ← for_each (validate_link r) (entries (rg_links r));
  _ ← for_each (validate_path r) (entries (rg_paths r));
  _ ← for_each validate_policy (entries (rg_policies r));
  _ ← for_each (validate_contract r) (entries (rg_contracts r));
  _ ← for_each (validate_grant r) (entries (rg_grants r));
  _ ← for_each (validate_reservation r) (entries (rg_reservations r));
  validate_audit (rg_audit r).

(** * The invariant of the registry *)
Definition ep_lt (a b : EndpointRecord) : Prop := str_ltb (ep_id a) (ep_id b) = true.

Definition cluster_ok (c : ClusterRecord) : Prop :=
  cl_id c <> ""%string /\ cl_domain c <> ""%string /\
  zlen (cl_endpoints c) <= limits.kMaxEndpointsPerCluster /\
  StronglySorted ep_lt (cl_endpoints c) /\
  Forall (fun e => ep_cluster e = cl_id c /\ ep_reserved e <= ep_capacity e) (cl_endpoints c).

Definition link_ok (l : LinkRecord) : Prop :=
  lk_id l <> ""%string /\ lk_a l <> ""%string /\ lk_b l <> ""%string /\ lk_a l <> lk_b l /\
  lk_reserved l <= lk_capacity l.

Definition path_ok (p : PathRecord) : Prop :=
  pa_id p <> ""%string /\ pa_a p <> ""%string /\ pa_b p <> ""%string /\ pa_hops p <> [] /\
  zlen (pa_hops p) <= limits.kMaxPathHops.

Definition policy_ok (p : PolicyRule) : Prop :=
  pr_id p <> ""%string /\ slen (pr_id p) <= limits.kMaxNameLength /\ pr_owner p <> ""%string.

Definition contract_ok (c : ContractRecord) : Prop :=
  uuid_is_nil (ct_id c) = false /\
  py_cluster (ct_parties c).1 <> ""%string /\ py_cluster (ct_parties c).2 <> ""%string /\
  py_cluster (ct_parties c).1 <> py_cluster (ct_parties c).2 /\
  ct_capacity c <= limits.kMaxCapacity.

Definition grant_ok (g : GrantRecord) : Prop :=
  uuid_is_nil (gr_id g) = false /\ uuid_is_nil (gr_contract g) = false /\
  gr_capacity g <= limits.kMaxCapacity.

Definition reservation_ok (s : ReservationRecord) : Prop := uuid_is_nil (rs_id s) = false.

(** Keys are the identities of the records, and the map is within its bound. *)
Definition map_ok {V} (id : V -> string) (P : V -> Prop) (bound : Z) (m : gmap string V) : Prop :=
  map_Forall (fun k v => id v = k /\ P v) m /\ Z.of_nat (size m) <= bound.

(** Consecutive audit records carry consecutive sequence numbers. *)
Definition audit_ok (l : list AuditRecord) : Prop :=
  zlen l <= limits.kMaxAuditRecords /\
  forall i a b, l !! i = Some a -> l !! S i = Some b -> au_sequence b = au_sequence a + 1.

Record registry_ok (r : Registry) : Prop := mkRegistryOk {
  ok_clusters : map_ok cl_id cluster_ok limits.kMaxClusters (rg_clusters r);
  ok_links : map_ok lk_id link_ok limits.kMaxEdges (rg_links r);
  ok_paths : map_ok pa_id path_ok limits.kMaxPaths (rg_paths r);
  ok_policies : map_ok pr_id policy_ok limits.kMaxPolicyRules (rg_policies r);
  ok_contracts : map_ok ct_id contract_ok limits.kMaxContracts (rg_contracts r);
  ok_grants : map_ok gr_id grant_ok limits.kMaxGrants (rg_grants r);
  ok_reservations : map_ok rs_id reservation_ok limits.kMaxReservations (rg_reservations r);
  ok_audit : audit_ok (rg_audit r);
}.

(** ** Generic lemmas on the bounded maps *)
Section bounded_maps.
Context {V : Type} (id : V -> string) (P : V -> Prop) (bound : Z).
Implicit Types (m : gmap string V).

Lemma map_ok_empty : 0 <= bound -> map_ok id P bound ∅.
Proof. intros. split; [apply map_Forall_empty | by rewrite map_size_empty]. Qed.

Lemma insert_bounded_Val m key v what m' :
  insert_bounded m key v bound what = Val m' -> m' = <[key := v]> m.
Proof. unfold insert_bounded. by case_match; intros; simplify_eq. Qed.

Lemma insert_bounded_ok m key v what m' :
  map_ok id P bound m -> id v = key -> P v ->
  insert_bounded m key v bound what = Val m' -> map_ok id P bound m'.
Proof.
  intros [Hf Hs] Hid HP. unfold insert_bounded.
  destruct (bool_decide _ && _) eqn:E; [done|]. intros [= <-]. split.
  - by apply map_Forall_insert_2.
  - destruct (m !! key) eqn:Hk.
    + by rewrite map_size_insert_Some by eauto.
    + rewrite map_size_insert_None by done.
      rewrite bool_decide_eq_true_2 in E by done. cbn [andb] in E. lia.
Qed.

Lemma erase_existing_Val m key msg m' : erase_existing m key msg = Val m' -> m' = delete key m.
Proof. unfold erase_existing. by case_match; intros; simplify_eq. Qed.

Lemma map_ok_delete m key : map_ok id P bound m -> map_ok id P bound (delete key m).
Proof.
  intros [Hf Hs]. split; [by apply map_Forall_delete|].
  destruct (m !! key) eqn:Hk.
  - rewrite map_size_delete_Some by eauto. lia.
  - by rewrite delete_id.
Qed.

Lemma map_ok_lookup m k v : map_ok id P bound m -> m !! k = Some v -> id v = k /\ P v.
Proof. intros [Hf _] Hk. by apply (Hf k v). Qed.

(** Rewriting records in place, without changing identities. *)
Lemma map_ok_fmap m (f : V -> V) :
  map_ok id P bound m -> (forall v, P v -> id (f v) = id v /\ P (f v)) -> map_ok id P bound (f <$> m).
Proof.
  intros [Hf Hs] H. split; [|by rewrite map_size_fmap].
  apply map_Forall_fmap. intros k v Hv. destruct (Hf k v Hv) as [<- HP].
  unfold compose. by apply H in HP.
Qed.

Lemma map_ok_update m k v w :
  map_ok id P bound m -> m !! k = Some v -> id w = id v -> P w -> map_ok id P bound (<[k := w]> m).
Proof.
  intros [Hf Hs] Hk Hid HP. destruct (Hf k v Hk) as [Hvk _]. split.
  - apply map_Forall_insert_2; [split; [congruence|done] | done].
  - by rewrite map_size_insert_Some by eauto.
Qed.
End bounded_maps.

(** ** Loops and sorting *)
Lemma for_each_Val {A} (check : A -> Result unit) l :
  for_each check l = Val tt <-> Forall (fun x => check x = Val tt) l.
Proof.
  induction l as [|x l IH]; cbn [for_each]; [by split; [constructor|]|].
  rewrite Forall_cons, <- IH. destruct (check x) as [[]| |]; cbn; naive_solver.
Qed.

Lemma reject_if_iff c o msg : reject_if c o msg = Val tt <-> c = false.
Proof. unfold reject_if. by destruct c. Qed.

#[export] Instance ep_le_total : Total ep_le.
Proof. intros a b. apply String.le_total. Qed.
#[export] Instance ep_le_trans : Transitive ep_le.
Proof. intros a b c. unfold ep_le. apply String.le_po. Qed.

Lemma str_ltb_spec a b : str_ltb a b = true <-> String.le a b /\ a <> b.
Proof. unfold str_ltb. rewrite andb_true_iff, negb_true_iff, bool_decide_eq_true, bool_decide_eq_false. done. Qed.

Lemma sorted_no_adjacent l :
  StronglySorted ep_le l -> adjacent_duplicate l = false -> StronglySorted ep_lt l.
Proof.
  induction 1 as [|a l Hs IH Hf]; intros Hd; [constructor|].
  assert (Hl : StronglySorted ep_lt l).
  { apply IH. destruct l; [done|]. cbn in Hd. by apply orb_false_iff in Hd as [_ ?]. }
  constructor; [done|]. destruct l as [|b l]; [constructor|].
  cbn in Hd. apply orb_false_iff in Hd as [Hab _]. bool_prop.
  inversion_clear Hf as [|? ? Hle _].
  assert (Hlt : ep_lt a b) by (by apply str_ltb_spec).
  constructor; [done|]. inversion_clear Hl as [|? ? _ Hb].
  eapply Forall_impl; [exact Hb|]. intros c Hbc. apply str_ltb_spec in Hbc as [Hle' Hne].
  apply str_ltb_spec. split; [by etrans; [|exact Hle'] | intros Heq].
  apply Hne. apply (anti_symm String.le); [done|]. by rewrite <- Heq.
Qed.

Lemma Forall_sort_endpoints (P : EndpointRecord -> Prop) l : Forall P (sort_endpoints l) <-> Forall P l.
Proof. unfold sort_endpoints. by rewrite (merge_sort_Permutation ep_le l). Qed.

(** Sorting endpoints that are already in order changes nothing. *)
Lemma ep_lt_irrefl a : ~ ep_lt a a.
Proof. unfold ep_lt. rewrite str_ltb_spec. naive_solver. Qed.

Lemma strictly_sorted_keys_inj l a b :
  StronglySorted ep_lt l -> a ∈ l -> b ∈ l -> ep_id a = ep_id b -> a = b.
Proof.
  induction 1 as [|x l Hs IH Hf]; [by intros ?%not_elem_of_nil|].
  rewrite Forall_forall in Hf. rewrite !elem_of_cons.
  intros [->|Ha] [->|Hb] Heq; try done; try (by apply IH).
  - specialize (Hf b Hb). apply str_ltb_spec in Hf as [_ []]. done.
  - specialize (Hf a Ha). apply str_ltb_spec in Hf as [_ []]. done.
Qed.

Lemma ep_lt_sorted_le l : StronglySorted ep_lt l -> StronglySorted ep_le l.
Proof.
  induction 1 as [|x l Hs IH Hf]; constructor; [done|].
  eapply Forall_impl; [exact Hf|]. intros y Hy. by apply str_ltb_spec in Hy as [? _].
Qed.

Lemma sort_endpoints_sorted l : StronglySorted ep_lt l -> sort_endpoints l = l.
Proof.
  intros Hs. unfold sort_endpoints. apply (StronglySorted_unique_strong ep_le).
  - intros a b Ha Hb Hab Hba. rewrite merge_sort_Permutation in Ha.
    eapply strictly_sorted_keys_inj; [exact Hs|done|done|].
    by apply (anti_symm String.le).
  - apply StronglySorted_merge_sort; apply _.
  - by apply ep_lt_sorted_le.
  - apply merge_sort_Permutation.
Qed.

(** ** What a successful operation did *)
Ltac put_inv H :=
  repeat (inv_bind H; match goal with Hr : reject_if _ _ _ = Val _ |- _ => apply reject_if_Val in Hr end);
  try inv_bind H.

Lemma put_cluster_Val c r r' :
  put_cluster c r = Val r' ->
  let c' := set_cl_endpoints (sort_endpoints (cl_endpoints c)) c in
  r' = with_clusters (<[cl_id c := c']> (rg_clusters r)) r /\ cluster_ok c'.
Proof.
  intros H. unfold put_cluster in H. do 3 inv_bind H. cbv zeta in H. do 3 inv_bind H. injection H as <-.
  apply reject_if_Val in Ha, Ha0, Ha1, Ha3. apply insert_bounded_Val in Ha4 as ->. cbv zeta. split; [done|].
  destruct a2. apply for_each_Val in Ha2. bool_prop. unfold cluster_ok. cbn.
  split_and!; [done|done| | |].
  - unfold zlen, sort_endpoints in *. by rewrite merge_sort_Permutation.
  - apply sorted_no_adjacent; [|done]. apply StronglySorted_merge_sort; apply _.
  - eapply Forall_impl; [exact Ha2|]. intros e He. cbn beta in He.
    inv_bind He. apply reject_if_Val in Ha4, He. bool_prop. done.
Qed.

Lemma put_link_Val l r r' :
  put_link l r = Val r' -> r' = with_links (<[lk_id l := l]> (rg_links r)) r /\ link_ok l.
Proof.
  intros H. unfold put_link in H. do 4 inv_bind H. injection H as <-.
  apply reject_if_Val in Ha, Ha0, Ha1. apply insert_bounded_Val in Ha2 as ->. bool_prop.
  unfold link_ok. split_and!; done.
Qed.

Lemma put_path_Val p r r' :
  put_path p r = Val r' -> r' = with_paths (<[pa_id p := p]> (rg_paths r)) r /\ path_ok p.
Proof.
  intros H. unfold put_path in H. do 4 inv_bind H. injection H as <-.
  apply reject_if_Val in Ha, Ha0, Ha1. apply insert_bounded_Val in Ha2 as ->. bool_prop.
  unfold path_ok. split_and!; done.
Qed.

Lemma put_policy_Val p r r' :
  put_policy p r = Val r' -> r' = with_policies (<[pr_id p := p]> (rg_policies r)) r /\ policy_ok p.
Proof.
  intros H. unfold put_policy in H. do 3 inv_bind H. injection H as <-.
  apply reject_if_Val in Ha, Ha0. apply insert_bounded_Val in Ha1 as ->. bool_prop.
  unfold policy_ok. split_and!; done.
Qed.

Lemma put_contract_Val c r r' :
  put_contract c r = Val r' -> r' = with_contracts (<[ct_id c := c]> (rg_contracts r)) r /\ contract_ok c.
Proof.
  intros H. unfold put_contract in H. do 5 inv_bind H. injection H as <-.
  apply reject_if_Val in Ha, Ha0, Ha1, Ha2. apply insert_bounded_Val in Ha3 as ->. bool_prop.
  unfold contract_ok. split_and!; done.
Qed.

Lemma put_grant_Val g r r' :
  put_grant g r = Val r' -> r' = with_grants (<[gr_id g := g]> (rg_grants r)) r /\ grant_ok g.
Proof.
  intros H. unfold put_grant in H. do 4 inv_bind H. injection H as <-.
  apply reject_if_Val in Ha, Ha0, Ha1. apply insert_bounded_Val in Ha2 as ->. bool_prop.
  unfold grant_ok. split_and!; done.
Qed.

Lemma put_reservation_Val s r r' :
  put_reservation s r = Val r' ->
  r' = with_reservations (<[rs_id s := s]> (rg_reservations r)) r /\ reservation_ok s.
Proof.
  intros H. unfold put_reservation in H. do 2 inv_bind H. injection H as <-.
  apply reject_if_Val in Ha. apply insert_bounded_Val in Ha0 as ->. done.
Qed.

Lemma append_audit_Val a r r' :
  registry_append_audit a r = Val r' ->
  r' = with_audit (rg_audit r ++ [a]) r /\ zlen (rg_audit r) < limits.kMaxAuditRecords /\
  (forall b, last (rg_audit r) = Some b -> au_sequence a = au_sequence b + 1).
Proof.
  intros H. unfold registry_append_audit in H. inv_bind H. inv_bind H. injection H as <-.
  apply reject_if_Val in Ha. bool_prop. split_and!; [done|done|]. intros b Hb. rewrite Hb in Ha0.
  inv_bind Ha0. unfold counter_next, counter_increment in Ha1.
  destruct (au_sequence b =? u64_max); [done|]. injection Ha1 as <-. apply reject_if_Val in Ha0.
  bool_prop. done.
Qed.

(** ** The invariant is preserved *)
Lemma empty_registry_ok : registry_ok empty_registry.
Proof. split; try (apply map_ok_empty; done). split; [done|]. by intros [|i] a b H. Qed.

Lemma put_cluster_ok c r r' : registry_ok r -> put_cluster c r = Val r' -> registry_ok r'.
Proof.
  intros [] H. pose proof (put_cluster_Val _ _ _ H) as [-> Hc]. unfold put_cluster in H.
  do 3 inv_bind H. cbv zeta in H. do 3 inv_bind H.
  split; cbn; try assumption. pose proof (insert_bounded_Val _ _ _ _ _ _ Ha4) as Heq.
  rewrite <- Heq. by eapply insert_bounded_ok.
Qed.

Lemma put_link_ok l r r' : registry_ok r -> put_link l r = Val r' -> registry_ok r'.
Proof.
  intros [] H. pose proof (put_link_Val _ _ _ H) as [-> Hc]. unfold put_link in H. do 4 inv_bind H.
  split; cbn; try assumption. rewrite <- (insert_bounded_Val _ _ _ _ _ _ Ha2). by eapply insert_bounded_ok.
Qed.

Lemma put_path_ok p r r' : registry_ok r -> put_path p r = Val r' -> registry_ok r'.
Proof.
  intros [] H. pose proof (put_path_Val _ _ _ H) as [-> Hc]. unfold put_path in H. do 4 inv_bind H.
  split; cbn; try assumption. rewrite <- (insert_bounded_Val _ _ _ _ _ _ Ha2). by eapply insert_bounded_ok.
Qed.

Lemma put_policy_ok p r r' : registry_ok r -> put_policy p r = Val r' -> registry_ok r'.
Proof.
  intros [] H. pose proof (put_policy_Val _ _ _ H) as [-> Hc]. unfold put_policy in H. do 3 inv_bind H.
  split; cbn; try assumption. rewrite <- (insert_bounded_Val _ _ _ _ _ _ Ha1). by eapply insert_bounded_ok.
Qed.

Lemma put_contract_ok c r r' : registry_ok r -> put_contract c r = Val r' -> registry_ok r'.
Proof.
  intros [] H. pose proof (put_contract_Val _ _ _ H) as [-> Hc]. unfold put_contract in H. do 5 inv_bind H.
  split; cbn; try assumption. rewrite <- (insert_bounded_Val _ _ _ _ _ _ Ha3). by eapply insert_bounded_ok.
Qed.

Lemma put_grant_ok g r r' : registry_ok r -> put_grant g r = Val r' -> registry_ok r'.
Proof.
  intros [] H. pose proof (put_grant_Val _ _ _ H) as [-> Hc]. unfold put_grant in H. do 4 inv_bind H.
  split; cbn; try assumption. rewrite <- (insert_bounded_Val _ _ _ _ _ _ Ha2). by eapply insert_bounded_ok.
Qed.

Lemma put_reservation_ok s r r' : registry_ok r -> put_reservation s r = Val r' -> registry_ok r'.
Proof.
  intros [] H. pose proof (put_reservation_Val _ _ _ H) as [-> Hc]. unfold put_reservation in H. do 2 inv_bind H.
  split; cbn; try assumption. rewrite <- (insert_bounded_Val _ _ _ _ _ _ Ha0). by eapply insert_bounded_ok.
Qed.

Ltac erase_ok :=
  intros [] H; cbv delta [erase_cluster erase_link erase_path erase_policy erase_contract erase_grant] in H;
  cbn beta in H; inv_bind H; injection H as <-;
  match goal with Ha : erase_existing _ _ _ = Val _ |- _ => apply erase_existing_Val in Ha as -> end;
  split; cbn; try assumption; by apply map_ok_delete.

Lemma erase_cluster_ok id r r' : registry_ok r -> erase_cluster id r = Val r' -> registry_ok r'.
Proof. erase_ok. Qed.
Lemma erase_link_ok id r r' : registry_ok r -> erase_link id r = Val r' -> registry_ok r'.
Proof. erase_ok. Qed.
Lemma erase_path_ok id r r' : registry_ok r -> erase_path id r = Val r' -> registry_ok r'.
Proof. erase_ok. Qed.
Lemma erase_policy_ok id r r' : registry_ok r -> erase_policy id r = Val r' -> registry_ok r'.
Proof. erase_ok. Qed.
Lemma erase_contract_ok id r r' : registry_ok r -> erase_contract id r = Val r' -> registry_ok r'.
Proof. erase_ok. Qed.
Lemma erase_grant_ok id r r' : registry_ok r -> erase_grant id r = Val r' -> registry_ok r'.
Proof. erase_ok. Qed.

Lemma append_audit_ok a r r' : registry_ok r -> registry_append_audit a r = Val r' -> registry_ok r'.
Proof.
  intros [] H. apply append_audit_Val in H as (-> & Hl & Hs). split; cbn; try assumption.
  destruct ok_audit0 as [_ Hc]. split.
  - unfold zlen in *. rewrite length_app. simpl. lia.
  - intros i x y Hx Hy. destruct (decide (S i < length (rg_audit r))%nat) as [Hi|Hi].
    + rewrite lookup_app_l in Hx, Hy by lia. by eapply Hc.
    + assert (S i = length (rg_audit r)) as Hi'.
      { apply lookup_lt_Some in Hy. rewrite length_app in Hy. simpl in Hy. lia. }
      rewrite lookup_app_r, Hi', Nat.sub_diag in Hy by lia. simplify_eq/=.
      rewrite lookup_app_l in Hx by lia. apply Hs. rewrite last_lookup, <- Hi'. done.
Qed.

Lemma recompute_path_states_ok r : registry_ok r -> registry_ok (recompute_path_states r).
Proof. intros []. split; cbn; try assumption. by apply map_ok_fmap. Qed.

#[export] Hint Resolve empty_registry_ok put_cluster_ok put_link_ok put_path_ok put_policy_ok
  put_contract_ok put_grant_ok put_reservation_ok erase_cluster_ok erase_link_ok erase_path_ok
  erase_policy_ok erase_contract_ok erase_grant_ok append_audit_ok recompute_path_states_ok : icf.

(** ** What the operations accept *)
Definition has_room {V} (m : gmap string V) (key : string) (bound : Z) : Prop :=
  is_Some (m !! key) \/ Z.of_nat (size m) < bound.

Lemma insert_bounded_accepts {V} (m : gmap string V) key v bound what :
  has_room m key bound -> insert_bounded m key v bound what = Val (<[key := v]> m).
Proof.
  intros H. unfold insert_bounded. destruct (m !! key) as [w|] eqn:E.
  - by rewrite bool_decide_eq_false_2.
  - destruct H as [[? ?]|H]; [congruence|]. rewrite bool_decide_eq_true_2 by done. cbn [andb].
    destruct (Z.leb_spec bound (Z.of_nat (size m))); [lia|done].
Qed.

Ltac accepts :=
  repeat first [rewrite bool_decide_eq_false_2 by done | rewrite bool_decide_eq_true_2 by done];
  repeat match goal with
  | |- context [?a <? ?b] => destruct (Z.ltb_spec a b); [lia|]
  end; cbn [orb reject_if mbind Result_bind negb];
  rewrite insert_bounded_accepts by done; reflexivity.

Lemma sorted_no_duplicate l : StronglySorted ep_lt l -> adjacent_duplicate l = false.
Proof.
  induction 1 as [|a l Hs IH Hf]; [done|]. destruct l as [|b l]; [done|]. cbn [adjacent_duplicate] in *.
  rewrite IH, orb_false_r. inversion_clear Hf. apply bool_decide_eq_false_2.
  unfold ep_lt in *. by apply str_ltb_spec.
Qed.

Lemma put_cluster_accepts c r :
  cluster_ok c -> has_room (rg_clusters r) (cl_id c) limits.kMaxClusters ->
  put_cluster c r = Val (with_clusters (<[cl_id c := c]> (rg_clusters r)) r).
Proof.
  intros (H1 & H2 & H3 & Hs & Hf) Hr. unfold put_cluster. rewrite sort_endpoints_sorted by done.
  assert (for_each (fun e =>
        _ ← reject_if (negb (bool_decide (ep_cluster e = cl_id c))) Outcome_Invalid
              "endpoint scope is bound to a different cluster identity";
        reject_if (ep_capacity e <? ep_reserved e) Outcome_CapacityExceeded
          "endpoint reservations exceed declared capacity") (cl_endpoints c) = Val tt) as ->.
  { apply for_each_Val. eapply Forall_impl; [exact Hf|]. intros e [He Hc]. cbn beta.
    rewrite bool_decide_eq_true_2 by done. cbn [negb reject_if mbind Result_bind].
    apply reject_if_iff. lia. }
  assert (adjacent_duplicate (cl_endpoints c) = false) as ->.
  { by apply sorted_no_duplicate. }
  assert (set_cl_endpoints (cl_endpoints c) c = c) as -> by (by destruct c). accepts.
Qed.

Lemma put_link_accepts l r :
  link_ok l -> has_room (rg_links r) (lk_id l) limits.kMaxEdges ->
  put_link l r = Val (with_links (<[lk_id l := l]> (rg_links r)) r).
Proof. intros (? & ? & ? & ? & ?) Hr. unfold put_link. accepts. Qed.

Lemma put_path_accepts p r :
  path_ok p -> has_room (rg_paths r) (pa_id p) limits.kMaxPaths ->
  put_path p r = Val (with_paths (<[pa_id p := p]> (rg_paths r)) r).
Proof. intros (? & ? & ? & ? & ?) Hr. unfold put_path. accepts. Qed.

Lemma put_policy_accepts p r :
  policy_ok p -> has_room (rg_policies r) (pr_id p) limits.kMaxPolicyRules ->
  put_policy p r = Val (with_policies (<[pr_id p := p]> (rg_policies r)) r).
Proof. intros (? & ? & ?) Hr. unfold put_policy. accepts. Qed.

Lemma put_contract_accepts c r :
  contract_ok c -> has_room (rg_contracts r) (ct_id c) limits.kMaxContracts ->
  put_contract c r = Val (with_contracts (<[ct_id c := c]> (rg_contracts r)) r).
Proof. intros (Hn & ? & ? & ? & ?) Hr. unfold put_contract. rewrite Hn. accepts. Qed.

Lemma put_grant_accepts g r :
  grant_ok g -> has_room (rg_grants r) (gr_id g) limits.kMaxGrants ->
  put_grant g r = Val (with_grants (<[gr_id g := g]> (rg_grants r)) r).
Proof. intros (Hn & Hc & ?) Hr. unfold put_grant. rewrite Hn, Hc. accepts. Qed.

Lemma put_reservation_accepts s r :
  reservation_ok s -> has_room (rg_reservations r) (rs_id s) limits.kMaxReservations ->
  put_reservation s r = Val (with_reservations (<[rs_id s := s]> (rg_reservations r)) r).
Proof. intros Hs Hr. unfold put_reservation. rewrite Hs. accepts. Qed.

Lemma append_audit_accepts a r :
  zlen (rg_audit r) < limits.kMaxAuditRecords -> au_sequence a <= u64_max ->
  (forall b, last (rg_audit r) = Some b -> au_sequence a = au_sequence b + 1) ->
  registry_append_audit a r = Val (with_audit (rg_audit r ++ [a]) r).
Proof.
  intros Hl Hu Hs. unfold registry_append_audit.
  destruct (Z.leb_spec limits.kMaxAuditRecords (zlen (rg_audit r))); [lia|]. cbn [reject_if mbind Result_bind].
  destruct (last (rg_audit r)) as [b|]; [|done]. specialize (Hs b eq_refl).
  unfold counter_next, counter_increment. destruct (Z.eqb_spec (au_sequence b) u64_max); [lia|].
  cbn [value_or_throw mbind Result_bind]. by rewrite Hs, Z.eqb_refl.
Qed.

(** * Endpoint lookup *)
Lemma find_endpoint_in_spec l id e :
  StronglySorted ep_lt l -> find_endpoint_in l id = Some e <-> e ∈ l /\ ep_id e = id.
Proof.
  intros Hs. unfold find_endpoint_in, lower_bound_endpoint. split.
  - destruct (list_find _ _) as [[i x]|] eqn:F; cbn; [|done]. case_bool_decide; [|done].
    intros [= <-]. apply list_find_Some in F as (Hi & _). split; [|done]. by eapply list_elem_of_lookup_2.
  - intros [He <-]. destruct (list_find _ _) as [[i x]|] eqn:F; cbn.
    + apply list_find_Some in F as (Hi & Hx & Hbefore).
      apply list_elem_of_lookup in He as [j Hj].
      assert (x = e) as ->; [|by rewrite bool_decide_eq_true_2].
      assert (Hij : (i <= j)%nat).
      { destruct (decide (j < i)%nat); [|lia]. specialize (Hbefore j e Hj ltac:(lia)).
        destruct (str_ltb (ep_id e) (ep_id e)) eqn:E; [|done]. by apply str_ltb_spec in E as [_ []]. }
      destruct (decide (i = j)) as [->|]; [congruence|].
      assert (ep_lt x e) as Hlt; [|unfold ep_lt in Hlt; congruence].
      rewrite <- (take_drop i l) in Hs. apply StronglySorted_app_1_r in Hs.
      rewrite (drop_S _ _ _ Hi) in Hs. inversion_clear Hs as [|? ? _ Hf].
      rewrite Forall_forall in Hf. apply Hf. apply list_elem_of_lookup. exists (j - S i)%nat.
      rewrite lookup_drop. by replace (S i + (j - S i))%nat with j by lia.
    + apply list_find_None in F. rewrite Forall_forall in F. specialize (F e He).
      destruct (str_ltb (ep_id e) (ep_id e)) eqn:E; [|done]. by apply str_ltb_spec in E as [_ []].
Qed.

Lemma resolve_in_Some l id e c :
  Forall (fun c => StronglySorted ep_lt (cl_endpoints c)) l ->
  resolve_in l id = Some (e, c) -> c ∈ l /\ e ∈ cl_endpoints c /\ ep_id e = id.
Proof.
  induction 1 as [|c' l Hc _ IH]; [done|]. cbn [resolve_in].
  destruct (find_endpoint_in _ _) as [x|] eqn:F.
  - intros [= <- <-]. apply find_endpoint_in_spec in F as [Hx Hid]; [|done].
    split_and!; [left|done|done].
  - intros H. apply IH in H as (? & ? & ?). split_and!; [by right|done|done].
Qed.

Lemma resolve_in_None l id :
  Forall (fun c => StronglySorted ep_lt (cl_endpoints c)) l ->
  resolve_in l id = None -> forall c e, c ∈ l -> e ∈ cl_endpoints c -> ep_id e <> id.
Proof.
  induction 1 as [|c' l Hc _ IH]; [intros _ c e Hc; by apply not_elem_of_nil in Hc|]. cbn [resolve_in].
  destruct (find_endpoint_in _ _) as [x|] eqn:F; [done|].
  intros H c e [->|Hcl]%elem_of_cons He; [|by eapply IH].
  intros Hid. assert (find_endpoint_in (cl_endpoints c') id = Some e); [|congruence].
  by apply find_endpoint_in_spec.
Qed.

Lemma registry_endpoints_sorted r :
  registry_ok r -> Forall (fun c => StronglySorted ep_lt (cl_endpoints c)) (values (rg_clusters r)).
Proof.
  intros H. apply Forall_forall. intros c [k Hk]%elem_of_values.
  by destruct (map_ok_lookup _ _ _ _ _ _ (ok_clusters r H) Hk) as [_ (_&_&_&Hs&_)].
Qed.

(** [resolve] finds a registered endpoint with its owning cluster, and fails only when no
    cluster declares the identity. *)
Lemma resolve_Some r id e c :
  registry_ok r -> resolve r id = Some (e, c) ->
  rg_clusters r !! cl_id c = Some c /\ e ∈ cl_endpoints c /\ ep_id e = id /\ ep_cluster e = cl_id c.
Proof.
  intros Hok H. apply resolve_in_Some in H as (Hc & He & Hid); [|by apply registry_endpoints_sorted].
  apply elem_of_values in Hc as [k Hk].
  destruct (map_ok_lookup _ _ _ _ _ _ (ok_clusters r Hok) Hk) as [<- (_&_&_&_&Hf)].
  rewrite Forall_forall in Hf. destruct (Hf e He). done.
Qed.

Lemma resolve_None r id :
  registry_ok r -> resolve r id = None ->
  forall k c e, rg_clusters r !! k = Some c -> e ∈ cl_endpoints c -> ep_id e <> id.
Proof.
  intros Hok H k c e Hk He. eapply resolve_in_None; [by apply registry_endpoints_sorted|exact H| |done].
  apply elem_of_values. eauto.
Qed.

(** * Path recomputation *)
Definition hop_link (links : gmap string LinkRecord) (states : list LinkState) (hop : string) : Prop :=
  exists l, links !! hop = Some l /\ link_kind_supported (lk_kind l) = true /\ lk_state l ∈ states.

Definition usable_path_state (s : PathState) : Prop := s = PathState_Up \/ s = PathState_Degraded.

Ltac hop_absurd Hin :=
  repeat (apply elem_of_cons in Hin as [Hin|Hin]); first [congruence | by apply not_elem_of_nil in Hin].
Ltac hop_state := repeat first [by apply elem_of_cons; left | apply elem_of_cons; right].

(** The state after the scan, for a scan that has not found anything below [Degraded] so far. *)
Lemma path_scan_usable links hops sc :
  usable_path_state (sc_state sc) ->
  usable_path_state (sc_state (path_scan links hops sc)) <->
  Forall (hop_link links [LinkState_Up; LinkState_Degraded]) hops.
Proof.
  assert (Hstuck : forall hops sc, ~ usable_path_state (sc_state sc) ->
    ~ usable_path_state (sc_state (path_scan links hops sc))).
  { induction hops0 as [|hop hops0 IH]; intros sc0 Hn; [done|]. cbn [path_scan].
    destruct (links !! hop) as [l|]; [|by intros [?|?]].
    destruct (negb _); [by intros [?|?]|].
    assert (Hs : ~ usable_path_state (sc_state (link_state_effect (lk_state l) sc0))).
    { unfold usable_path_state in *. destruct (lk_state l); cbn; repeat case_match; cbn; try tauto;
        repeat case_bool_decide; try naive_solver. destruct (sc_state sc0); naive_solver. }
    case_bool_decide; [done|]. apply IH. by case_match. }
  revert sc. induction hops as [|hop hops IH]; intros sc Hu; cbn [path_scan];
    [by split; [constructor|]|].
  rewrite Forall_cons. unfold hop_link at 1.
  destruct (links !! hop) as [l|]; [|split; [by intros [?|?] | by intros [(?&?&_) _]]].
  destruct (link_kind_supported (lk_kind l)) eqn:Hk; cbn [negb];
    [|split; [by intros [?|?] | intros [(?&[= ->]&?&_) _]; congruence]].
  destruct (lk_state l) eqn:Hl; cbn [link_state_effect].
  - (* Unknown *)
    rewrite (bool_decide_eq_false_2 (sc_state sc = PathState_Down)) by (by destruct Hu as [->| ->]).
    cbn [sc_state]. rewrite bool_decide_eq_false_2 by done. split; [|intros [(?&[= ->]&_&Hin) _]; by hop_absurd Hin].
    intros Hx. exfalso. revert Hx. apply Hstuck. case_match; by intros [?|?].
  - (* Up *)
    rewrite bool_decide_eq_false_2 by (by destruct Hu as [->| ->]).
    rewrite IH by (by case_match). split; [|naive_solver]. intros Hf. split; [|done].
    exists l. split_and!; [done|done|rewrite Hl; by hop_state].
  - (* Degraded *)
    rewrite !bool_decide_eq_false_2 by (by destruct Hu as [->| ->]). cbn [orb sc_state].
    rewrite IH by (case_match; by right). split; [|naive_solver]. intros Hf. split; [|done].
    exists l. split_and!; [done|done|rewrite Hl; by hop_state].
  - (* Down *)
    cbn [sc_state]. rewrite bool_decide_eq_true_2 by done.
    split; [by intros [?|?] | intros [(?&[= ->]&_&Hin) _]; by hop_absurd Hin].
  - (* Unsupported *)
    cbn [sc_state]. rewrite bool_decide_eq_true_2 by done.
    split; [by intros [?|?] | intros [(?&[= ->]&_&Hin) _]; by hop_absurd Hin].
Qed.

(** [Up] needs every link up. *)
Lemma path_scan_up links hops sc :
  sc_state (path_scan links hops sc) = PathState_Up <->
  sc_state sc = PathState_Up /\ Forall (hop_link links [LinkState_Up]) hops.
Proof.
  revert sc. induction hops as [|hop hops IH]; intros sc; cbn [path_scan];
    [split; [by split; [|constructor]|naive_solver]|].
  rewrite Forall_cons. unfold hop_link at 1.
  destruct (links !! hop) as [l|]; [|split; [done | by intros (_&(?&?&_)&_)]].
  destruct (link_kind_supported (lk_kind l)) eqn:Hk; cbn [negb];
    [|split; [done | intros (_&(?&[= ->]&?&_)&_); congruence]].
  destruct (lk_state l) eqn:Hl; cbn [link_state_effect].
  - destruct (bool_decide (sc_state sc = PathState_Down)) eqn:Hd; bool_prop.
    + rewrite bool_decide_eq_true_2 by done. split; [congruence|]. intros [? _]; congruence.
    + cbn [sc_state]. rewrite bool_decide_eq_false_2, IH by done.
      split; [case_match; by intros [? _] | intros (_&(?&[= ->]&_&Hin)&_); by hop_absurd Hin].
  - case_bool_decide as Hd.
    + split; [congruence|]. intros [? _]; congruence.
    + rewrite IH. split.
      * intros [Hst Hf]. split_and!; [by case_match | |done].
        exists l. split_and!; [done|done|rewrite Hl; by hop_state].
      * intros (Hst & _ & Hf). split; [by case_match|done].
  - destruct (bool_decide (sc_state sc = PathState_Down) || bool_decide (sc_state sc = PathState_Unknown)) eqn:E.
    + case_bool_decide as Hd.
      * split; [congruence|]. intros [? _]; congruence.
      * apply orb_true_iff in E as [E|E]; bool_prop; [done|]. rewrite IH.
        split; [case_match; cbn; intros [? _]; congruence | intros [? _]; congruence].
    + cbn [sc_state]. rewrite bool_decide_eq_false_2, IH by done.
      split; [case_match; by intros [? _] | intros (_&(?&[= ->]&_&Hin)&_); by hop_absurd Hin].
  - cbn [sc_state]. rewrite bool_decide_eq_true_2 by done.
    split; [done | intros (_&(?&[= ->]&_&Hin)&_); by hop_absurd Hin].
  - cbn [sc_state]. rewrite bool_decide_eq_true_2 by done.
    split; [done | intros (_&(?&[= ->]&_&Hin)&_); by hop_absurd Hin].
Qed.

(** The capacities of the hops that are registered, in order. *)
Definition hop_capacities (links : gmap string LinkRecord) (hops : list string) : list Z :=
  omap (fun hop => lk_capacity <$> links !! hop) hops.

Lemma link_state_effect_keeps s sc :
  sc_bottleneck (link_state_effect s sc) = sc_bottleneck sc /\ sc_first (link_state_effect s sc) = sc_first sc.
Proof. destruct s; cbn; repeat case_match; done. Qed.

Lemma path_scan_bottleneck links hops sc :
  sc_first sc = false -> usable_path_state (sc_state (path_scan links hops sc)) ->
  sc_first (path_scan links hops sc) = false /\
  sc_bottleneck (path_scan links hops sc) = foldl Z.min (sc_bottleneck sc) (hop_capacities links hops).
Proof.
  revert sc. induction hops as [|hop hops IH]; intros sc Hf; cbn [path_scan hop_capacities omap list_omap]; [done|].
  destruct (links !! hop) as [l|]; cbn [fmap option_fmap option_map sc_state]; [|by intros [?|?]].
  destruct (negb _); cbn [sc_state]; [by intros [?|?]|].
  destruct (link_state_effect_keeps (lk_state l) sc) as [Hb Hf'].
  case_bool_decide as Hd; [rewrite Hd; by intros [?|?]|].
  rewrite Hf', Hf, Hb. cbn [orb foldl]. destruct (Z.ltb_spec (lk_capacity l) (sc_bottleneck sc)); intros Hu.
  - destruct (fun H => IH _ H Hu) as [? ->]; [done|]. cbn [sc_bottleneck]. by rewrite Z.min_r by lia.
  - destruct (fun H => IH _ H Hu) as [? ->]; [congruence|]. rewrite Hb. by rewrite Z.min_l by lia.
Qed.

Lemma foldl_min_spec l acc b :
  foldl Z.min acc l = b -> b ∈ acc :: l /\ Forall (fun c => b <= c) (acc :: l).
Proof.
  revert acc. induction l as [|c l IH]; intros acc Hb; cbn [foldl] in Hb.
  - subst. split; [left | by constructor].
  - apply IH in Hb as [Hin Hle]. rewrite Forall_cons in Hle. destruct Hle as [H1 H2]. split.
    + apply elem_of_cons in Hin as [->|Hin]; [|do 2 right; done].
      destruct (Z.min_spec acc c) as [[_ ->]|[_ ->]]; [left | right; left].
    + constructor; [lia|]. constructor; [lia|done].
Qed.

Lemma recompute_path_bottleneck links p :
  pa_hops p <> [] -> usable_path_state (pa_state (recompute_path links p)) ->
  pa_bottleneck (recompute_path links p) ∈ hop_capacities links (pa_hops p) /\
  Forall (fun c => pa_bottleneck (recompute_path links p) <= c) (hop_capacities links (pa_hops p)).
Proof.
  unfold recompute_path. destruct (pa_hops p) as [|hop hops]; [done|]. intros _.
  cbn [set_pa_derived pa_state pa_bottleneck path_scan hop_capacities omap list_omap].
  destruct (links !! hop) as [l|]; cbn [fmap option_fmap option_map sc_state]; [|by intros [?|?]].
  destruct (negb _); cbn [sc_state]; [by intros [?|?]|].
  destruct (link_state_effect_keeps (lk_state l) scan_start) as [Hb Hf].
  case_bool_decide as Hd; [rewrite Hd; by intros [?|?]|].
  rewrite Hf. cbn [scan_start sc_first orb]. intros Hu.
  destruct (fun H => path_scan_bottleneck _ _ _ H Hu) as [-> Hm]; [done|]. cbn [sc_bottleneck] in Hm.
  by apply foldl_min_spec.
Qed.

(** Path recomputation reads every path from the registered links only: a path is usable
    exactly when each hop names a registered link of a supported kind that is up or degraded, it
    is up exactly when all are up, and the bottleneck of a usable path is the least capacity of
    its hops. *)
Theorem recompute_path_states_spec r k p :
  registry_ok r -> rg_paths r !! k = Some p ->
  exists p', rg_paths (recompute_path_states r) !! k = Some p' /\ pa_hops p' = pa_hops p /\
    (usable_path_state (pa_state p') <->
       Forall (hop_link (rg_links r) [LinkState_Up; LinkState_Degraded]) (pa_hops p)) /\
    (pa_state p' = PathState_Up <-> Forall (hop_link (rg_links r) [LinkState_Up]) (pa_hops p)) /\
    (usable_path_state (pa_state p') ->
       pa_bottleneck p' ∈ hop_capacities (rg_links r) (pa_hops p) /\
       Forall (fun c => pa_bottleneck p' <= c) (hop_capacities (rg_links r) (pa_hops p))) /\
    rg_links (recompute_path_states r) = rg_links r.
Proof.
  intros Hok Hp. exists (recompute_path (rg_links r) p). cbn. rewrite lookup_fmap, Hp.
  split_and!; [done|done| | | |done].
  - apply path_scan_usable. by left.
  - rewrite path_scan_up. naive_solver.
  - apply recompute_path_bottleneck.
    destruct (map_ok_lookup _ _ _ _ _ _ (ok_paths r Hok) Hp) as [_ (_&_&_&?&_)]. done.
Qed.
