(* ===== verification/Hash.v ===== *)
(** * Checksums and digests

    Models src/core/hash.cpp: the CRC-32C of the store and the wire, SHA-256, HMAC-SHA-256 and
    [constant_time_equal] (the hexadecimal helpers are in Ids.v). A [std::uint32_t] is a [Z] in
    [0, 2^32); [w32] is the wrap-around. The round constants are the first 32 fraction bits of
    cube roots: the code takes them from [std::cbrt] on doubles, the model from the integer cube
    root, which has the same leading bits; the published test vectors check both. *)
From S2P Require Import Prelude Status Bytes Ids.

Definition w32 (z : Z) : Z := Z.land z 0xFFFFFFFF.
Definition not32 (z : Z) : Z := Z.lxor z 0xFFFFFFFF.

(** ** CRC-32C *)
Definition crc_bit (crc : Z) : Z :=
  if Z.land crc 1 =? 0 then Z.shiftr crc 1 else Z.lxor (Z.shiftr crc 1) 0x82F63B78.

Definition make_crc32c_table : list Z := (fun i => Nat.iter 8 crc_bit (Z.of_nat i)) <$> seq 0 256.
Definition kCrc32cTable : list Z := Eval vm_compute in make_crc32c_table.

Definition crc_step (crc : Z) (b : byte) : Z :=
  let index := Z.land (Z.lxor crc (byte_val b)) 255 in
  Z.lxor (nth (Z.to_nat index) kCrc32cTable 0) (Z.shiftr crc 8).

Definition crc32c_extend (seed : Z) (data : bytes) : Z := not32 (foldl crc_step (not32 seed) data).
Definition crc32c (data : bytes) : Z := crc32c_extend 0 data.

(** ** SHA-256 *)
Fixpoint is_small_prime (primes : list Z) (candidate : Z) : bool :=
  match primes with
  | [] => true
  | p :: primes =>
      if candidate <? p * p then true
      else if candidate mod p =? 0 then false
      else is_small_prime primes candidate
  end.

(** The largest [r] with [r^3 <= n], by bisection on the bits from [bit] down. *)
Fixpoint cube_root (bit : nat) (r n : Z) : Z :=
  let r' := r + 2 ^ Z.of_nat bit in
  let r := if r' * r' * r' <=? n then r' else r in
  match bit with
  | O => r
  | S bit => cube_root bit r n
  end.

(** [fraction * 2^32] of [cbrt(candidate)]: the roots stay below 8, hence below 2^35 scaled. *)
Definition cbrt_fraction (candidate : Z) : Z := w32 (cube_root 35 0 (candidate * 2 ^ 96)).

Fixpoint make_k (fuel : nat) (candidate : Z) (index : nat) : list Z :=
  match fuel, index with
  | S fuel, S index' =>
      if is_small_prime [2; 3; 5; 7; 11; 13; 17; 19] candidate
      then cbrt_fraction candidate :: make_k fuel (candidate + 1) index'
      else make_k fuel (candidate + 1) index
  | _, _ => []
  end.

(** The 64th prime is 311: 310 candidates are enough. *)
Definition make_sha256_k : list Z := make_k 310 2 64.
Definition sha256_k : list Z := Eval vm_compute in make_sha256_k.

Definition rotr (n x : Z) : Z := Z.lor (Z.shiftr x n) (w32 (Z.shiftl x (32 - n))).

Fixpoint block_words (n : nat) (block : bytes) : list Z :=
  match n with
  | O => []
  | S n => be_value (take 4 block) :: block_words n (drop 4 block)
  end.

Definition schedule_step (w : list Z) (i : nat) : list Z :=
  let at_ j := nth j w 0 in
  let w15 := at_ (i - 15)%nat in
  let w2 := at_ (i - 2)%nat in
  let s0 := Z.lxor (Z.lxor (rotr 7 w15) (rotr 18 w15)) (Z.shiftr w15 3) in
  let s1 := Z.lxor (Z.lxor (rotr 17 w2) (rotr 19 w2)) (Z.shiftr w2 10) in
  w ++ [w32 (at_ (i - 16)%nat + s0 + at_ (i - 7)%nat + s1)].

Definition message_schedule (block : bytes) : list Z :=
  foldl schedule_step (block_words 16 block) (seq 16 48).

(** The working variables [a] to [h]. *)
Record ShaVars := mkVars { va : Z; vb : Z; vc : Z; vd : Z; ve : Z; vf : Z; vg : Z; vh : Z }.

Definition sha_round (v : ShaVars) (kw : Z * Z) : ShaVars :=
  let e := ve v in
  let a := va v in
  let s1 := Z.lxor (Z.lxor (rotr 6 e) (rotr 11 e)) (rotr 25 e) in
  let ch := Z.lxor (Z.land e (vf v)) (Z.land (not32 e) (vg v)) in
  let temp1 := w32 (vh v + s1 + ch + kw.1 + kw.2) in
  let s0 := Z.lxor (Z.lxor (rotr 2 a) (rotr 13 a)) (rotr 22 a) in
  let maj := Z.lxor (Z.lxor (Z.land a (vb v)) (Z.land a (vc v))) (Z.land (vb v) (vc v)) in
  let temp2 := w32 (s0 + maj) in
  mkVars (w32 (temp1 + temp2)) a (vb v) (vc v) (w32 (vd v + temp1)) e (vf v) (vg v).

Definition compress (s : ShaVars) (block : bytes) : ShaVars :=
  let v := foldl sha_round s (zip sha256_k (message_schedule block)) in
  mkVars (w32 (va s + va v)) (w32 (vb s + vb v)) (w32 (vc s + vc v)) (w32 (vd s + vd v))
         (w32 (ve s + ve v)) (w32 (vf s + vf v)) (w32 (vg s + vg v)) (w32 (vh s + vh v)).

(** The hasher: [sh_buffer] is the first [buffer_length_] bytes of [buffer_]; the bytes behind
    them are overwritten before they are read. *)
Record Sha256 := mkSha { sh_state : ShaVars; sh_buffer : bytes; sh_total : Z }.

Definition sha_reset : Sha256 :=
  mkSha (mkVars 0x6a09e667 0xbb67ae85 0x3c6ef372 0xa54ff53a 0x510e527f 0x9b05688c 0x1f83d9ab 0x5be0cd19) [] 0.

(** [while (offset < data.size())]; every pass consumes a byte, so [length data] is enough fuel. *)
Fixpoint sha_absorb (fuel : nat) (state : ShaVars) (buffer data : bytes) : ShaVars * bytes :=
  match fuel, data with
  | S fuel, _ :: _ =>
      let n := Nat.min (length data) (64 - length buffer) in
      let buffer := buffer ++ take n data in
      if (length buffer =? 64)%nat
      then sha_absorb fuel (compress state buffer) [] (drop n data)
      else sha_absorb fuel state buffer (drop n data)
  | _, _ => (state, buffer)
  end.

Definition sha_update (s : Sha256) (data : bytes) : Sha256 :=
  let '(state, buffer) := sha_absorb (length data) (sh_state s) (sh_buffer s) data in
  mkSha state buffer ((sh_total s + zlen data) mod 2 ^ 64).

Definition vars_bytes (v : ShaVars) : bytes :=
  concat (w_u32 <$> [va v; vb v; vc v; vd v; ve v; vf v; vg v; vh v]).

Definition sha_digest (s : Sha256) : string :=
  let bit_length := sh_total s * 8 mod 2 ^ 64 in
  let pad_length := if (length (sh_buffer s) <? 56)%nat then (56 - length (sh_buffer s))%nat
                    else (120 - length (sh_buffer s))%nat in
  let copy := sha_update s (take pad_length (byte_of 0x80 :: repeat (byte_of 0) 63)) in
  bytes_str (vars_bytes (compress (sh_state copy) (take 56 (sh_buffer copy) ++ w_u64 bit_length))).

Definition sha256_hash (data : bytes) : string := sha_digest (sha_update sha_reset data).

(** ** HMAC *)
Definition xor_byte (k : Z) (b : byte) : byte := byte_of (Z.lxor (byte_val b) k).

Definition hmac_sha256 (key message : bytes) : string :=
  let key := if 64 <? zlen key then str_bytes (sha256_hash key) else key in
  let block_key := key ++ repeat (byte_of 0) (64 - length key) in
  let inner := sha_update (sha_update sha_reset (xor_byte 0x36 <$> block_key)) message in
  let outer := sha_update (sha_update sha_reset (xor_byte 0x5c <$> block_key)) (str_bytes (sha_digest inner)) in
  sha_digest outer.

Definition constant_time_equal (a b : bytes) : bool :=
  if negb (length a =? length b)%nat then false
  else foldl (fun d p => Z.lor d (Z.lxor (byte_val p.1) (byte_val p.2))) 0 (zip a b) =? 0.

(** ** Reference definitions *)
(** The CRC one bit at a time, without a table. *)
Definition crc32c_bitwise (data : bytes) : Z :=
  not32 (foldl (fun crc b => Nat.iter 8 crc_bit (Z.lxor crc (byte_val b))) 0xFFFFFFFF data).

(** FIPS 180-4: pad the whole message, then compress block after block. *)
Fixpoint blocks (n : nat) (data : bytes) : list bytes :=
  match n with
  | O => []
  | S n => take 64 data :: blocks n (drop 64 data)
  end.

Definition sha_padding (n : nat) : bytes :=
  let r := (n mod 64)%nat in
  byte_of 0x80 :: repeat (byte_of 0) (if (r <? 56)%nat then 55 - r else 119 - r)%nat ++ w_u64 (8 * Z.of_nat n).

Definition sha_pad (data : bytes) : bytes := data ++ sha_padding (length data).

Definition sha256_reference (data : bytes) : string :=
  let padded := sha_pad data in
  bytes_str (vars_bytes (foldl compress (sh_state sha_reset) (blocks (length padded / 64) padded))).

Definition hmac_reference (key message : bytes) : string :=
  let key := if 64 <? zlen key then str_bytes (sha256_reference key) else key in
  let block_key := key ++ repeat (byte_of 0) (64 - length key) in
  sha256_reference ((xor_byte 0x5c <$> block_key) ++
    str_bytes (sha256_reference ((xor_byte 0x36 <$> block_key) ++ message))).

(** ** Test vectors *)
Example crc32c_check_value : crc32c (str_bytes "123456789") = 0xE3069283.
Proof. by vm_compute. Qed.

Example sha256_constants : nth 0 sha256_k 0 = 0x428a2f98 /\ nth 63 sha256_k 0 = 0xc67178f2 /\ length sha256_k = 64%nat.
Proof. by vm_compute. Qed.

Example sha256_abc :
  digest_hex (sha256_hash (str_bytes "abc")) =
  "ba7816bf8f01cfea414140de5dae2223b00361a396177a9cb410ff61f20015ad"%string.
Proof. by vm_compute. Qed.

Example hmac_sha256_rfc4231_2 :
  digest_hex (hmac_sha256 (str_bytes "Jefe") (str_bytes "what do ya want for nothing?")) =
  "5bdcc146bf60754e6a042426089575c75a003f089d2739839dec58b964ec3843"%string.
Proof. by vm_compute. Qed.

(** ** CRC lemmas *)
Definition is_u32 (z : Z) : Prop := 0 <= z < 2 ^ 32.

Lemma crc_bit_lxor a b : crc_bit (Z.lxor a b) = Z.lxor (crc_bit a) (crc_bit b).
Proof.
  unfold crc_bit. rewrite !Z.shiftr_lxor.
  assert (H1 : forall z, Z.land z 1 = Z.b2z (Z.odd z)).
  { intros z. change 1 with (Z.ones 1) at 1. rewrite Z.land_ones by lia. by rewrite Zmod_odd. }
  rewrite !H1, <- !Z.bit0_odd, Z.lxor_spec.
  destruct (Z.testbit a 0), (Z.testbit b 0); cbn [Z.b2z xorb Z.eqb];
    apply Z.bits_inj'; intros n Hn; rewrite !Z.lxor_spec;
    destruct (Z.testbit (Z.shiftr a 1) n), (Z.testbit (Z.shiftr b 1) n), (Z.testbit 0x82F63B78 n); done.
Qed.

Lemma crc_bit_even n k : (0 < k)%nat -> crc_bit (Z.shiftl n (Z.of_nat k)) = Z.shiftl n (Z.of_nat k - 1).
Proof.
  intros Hk. unfold crc_bit.
  assert (Z.land (Z.shiftl n (Z.of_nat k)) 1 = 0) as ->.
  { change 1 with (Z.ones 1). rewrite Z.land_ones by lia. change (2 ^ 1) with 2.
    rewrite Z.shiftl_mul_pow2 by lia. replace (Z.of_nat k) with (Z.succ (Z.of_nat k - 1)) by lia.
    rewrite Z.pow_succ_r by lia. replace (n * (2 * 2 ^ (Z.of_nat k - 1))) with (n * 2 ^ (Z.of_nat k - 1) * 2) by lia.
    by rewrite Z.mod_mul. }
  cbn [Z.eqb]. by rewrite Z.shiftr_shiftl_l by lia.
Qed.

Lemma crc_byte_lxor k a b : Nat.iter k crc_bit (Z.lxor a b) = Z.lxor (Nat.iter k crc_bit a) (Nat.iter k crc_bit b).
Proof. induction k as [|k IH]; [done|]. by rewrite !Nat.iter_succ, IH, crc_bit_lxor. Qed.

(** Eight zero bits are shifted out unchanged. *)
Lemma crc_byte_shift n : Nat.iter 8 crc_bit (Z.shiftl n 8) = n.
Proof.
  cbn [Nat.iter nat_rect]. change 8 with (Z.of_nat 8).
  do 8 (rewrite crc_bit_even by lia; match goal with |- context [Z.of_nat ?k - 1] =>
    change (Z.of_nat k - 1) with (Z.of_nat (pred k)); cbn [pred] end).
  apply Z.shiftl_0_r.
Qed.

Lemma split_low_byte c : c = Z.lxor (Z.shiftl (Z.shiftr c 8) 8) (Z.land c 255).
Proof.
  apply Z.bits_inj'. intros n Hn. rewrite Z.lxor_spec. change 255 with (Z.ones 8).
  destruct (decide (n < 8)).
  - rewrite Z.shiftl_spec_low, Z.land_spec, Z.ones_spec_low by lia. by destruct (Z.testbit c n).
  - rewrite Z.shiftl_spec, Z.shiftr_spec, Z.land_spec, Z.ones_spec_high by lia.
    rewrite andb_false_r, xorb_false_r. f_equal. lia.
Qed.

Lemma table_lookup i : 0 <= i < 256 -> nth (Z.to_nat i) kCrc32cTable 0 = Nat.iter 8 crc_bit i.
Proof.
  intros Hi. pose proof (byte_forall (fun i => nth (Z.to_nat i) kCrc32cTable 0 =? Nat.iter 8 crc_bit i)
    ltac:(by vm_compute) i Hi) as H. cbn beta in H. by bool_prop.
Qed.

Lemma land_255_range z : 0 <= Z.land z 255 < 256.
Proof. change 255 with (Z.ones 8). rewrite Z.land_ones by lia. by apply Z.mod_pos_bound. Qed.

Lemma byte_shiftr_8 b : Z.shiftr (byte_val b) 8 = 0.
Proof. rewrite Z.shiftr_div_pow2 by lia. apply Z.div_small, byte_val_range. Qed.

Lemma crc_step_bitwise crc b : crc_step crc b = Nat.iter 8 crc_bit (Z.lxor crc (byte_val b)).
Proof.
  unfold crc_step. rewrite table_lookup by apply land_255_range.
  rewrite (split_low_byte (Z.lxor crc (byte_val b))) at 2.
  rewrite crc_byte_lxor, crc_byte_shift, Z.shiftr_lxor, byte_shiftr_8, Z.lxor_0_r.
  apply Z.lxor_comm.
Qed.

Lemma testbit_u32 z : is_u32 z <-> 0 <= z /\ forall n, 32 <= n -> Z.testbit z n = false.
Proof.
  split.
  - intros [H1 H2]. split; [done|]. intros n Hn. destruct (decide (z = 0)) as [->|]; [apply Z.bits_0|].
    apply Z.bits_above_log2; [done|]. apply Z.log2_lt_pow2; [lia|].
    eapply Z.lt_le_trans; [exact H2|]. apply Z.pow_le_mono_r; lia.
  - intros [H1 H2]. split; [done|]. destruct (decide (z = 0)) as [->|]; [done|].
    apply Z.log2_lt_pow2; [lia|]. destruct (decide (32 <= Z.log2 z)); [|lia].
    specialize (H2 (Z.log2 z) ltac:(lia)). rewrite Z.bit_log2 in H2 by lia. done.
Qed.

Lemma is_u32_lxor a b : is_u32 a -> is_u32 b -> is_u32 (Z.lxor a b).
Proof.
  intros [Ha Ha']%testbit_u32 [Hb Hb']%testbit_u32. apply testbit_u32. split; [by apply Z.lxor_nonneg|].
  intros n Hn. by rewrite Z.lxor_spec, Ha', Hb'.
Qed.

Lemma is_u32_shiftr a n : 0 <= n -> is_u32 a -> is_u32 (Z.shiftr a n).
Proof.
  intros Hn [Ha Ha']%testbit_u32. apply testbit_u32. split; [by apply Z.shiftr_nonneg|].
  intros m Hm. rewrite Z.shiftr_spec by lia. apply Ha'. lia.
Qed.

Lemma crc_bit_u32 c : is_u32 c -> is_u32 (crc_bit c).
Proof. intros H. unfold crc_bit. case_match; [|apply is_u32_lxor]; try (by apply is_u32_shiftr); done. Qed.

Lemma crc_iter_u32 k c : is_u32 c -> is_u32 (Nat.iter k crc_bit c).
Proof. intros H. induction k as [|k IH]; [done|]. rewrite Nat.iter_succ. by apply crc_bit_u32. Qed.

Lemma byte_val_u32 b : is_u32 (byte_val b).
Proof. pose proof (byte_val_range b). unfold is_u32. lia. Qed.

Lemma crc_step_u32 c b : is_u32 c -> is_u32 (crc_step c b).
Proof. intros H. rewrite crc_step_bitwise. by apply crc_iter_u32, is_u32_lxor, byte_val_u32. Qed.

Lemma foldl_crc_u32 data c : is_u32 c -> is_u32 (foldl crc_step c data).
Proof. revert c. induction data as [|b d IH]; intros c H; [done|]. apply IH. by apply crc_step_u32. Qed.

Lemma not32_u32 c : is_u32 c -> is_u32 (not32 c).
Proof. intros H. by apply is_u32_lxor. Qed.

Lemma not32_invol c : not32 (not32 c) = c.
Proof. unfold not32. by rewrite Z.lxor_assoc, Z.lxor_nilpotent, Z.lxor_0_r. Qed.

Lemma lxor_inj_r a b c : Z.lxor a c = Z.lxor b c -> a = b.
Proof.
  intros H. apply (f_equal (fun z => Z.lxor z c)) in H.
  by rewrite !Z.lxor_assoc, Z.lxor_nilpotent, !Z.lxor_0_r in H.
Qed.

(** Undoing one bit: the top bit of the result tells which branch was taken. *)
Lemma crc_bit_inj a b : is_u32 a -> is_u32 b -> crc_bit a = crc_bit b -> a = b.
Proof.
  intros Ha Hb Heq.
  assert (Hz : crc_bit (Z.lxor a b) = 0) by (rewrite crc_bit_lxor, Heq; apply Z.lxor_nilpotent).
  pose proof (is_u32_lxor _ _ Ha Hb) as Hx. apply Z.lxor_eq. revert Hx Hz. generalize (Z.lxor a b) as x.
  intros x Hx. unfold crc_bit. destruct (Z.land x 1 =? 0) eqn:E; intros Hz.
  - bool_prop. change 1 with (Z.ones 1) in E. rewrite Z.land_ones in E by lia.
    rewrite Z.shiftr_div_pow2 in Hz by lia. change (2 ^ 1) with 2 in *. dlia.
  - apply Z.lxor_eq in Hz. pose proof (proj2 (proj1 (testbit_u32 x) Hx) 32 ltac:(lia)) as H32.
    assert (Z.testbit (Z.shiftr x 1) 31 = true) as Ht by (by rewrite Hz).
    rewrite Z.shiftr_spec in Ht by lia. change (31 + 1) with 32 in Ht. congruence.
Qed.

Lemma crc_iter_inj k a b : is_u32 a -> is_u32 b -> Nat.iter k crc_bit a = Nat.iter k crc_bit b -> a = b.
Proof.
  intros Ha Hb. induction k as [|k IH]; [done|]. rewrite !Nat.iter_succ. intros H.
  apply crc_bit_inj in H; [by apply IH|by apply crc_iter_u32..].
Qed.

Lemma crc_step_inj_state b c1 c2 : is_u32 c1 -> is_u32 c2 -> crc_step c1 b = crc_step c2 b -> c1 = c2.
Proof.
  intros H1 H2. rewrite !crc_step_bitwise. intros H.
  apply crc_iter_inj in H; [by apply lxor_inj_r in H|apply is_u32_lxor; try done; apply byte_val_u32..].
Qed.

Lemma crc_step_inj_byte c x y : is_u32 c -> crc_step c x = crc_step c y -> x = y.
Proof.
  intros Hc. rewrite !crc_step_bitwise. intros H.
  apply crc_iter_inj in H; [|apply is_u32_lxor; try done; apply byte_val_u32..].
  rewrite !(Z.lxor_comm c) in H. apply lxor_inj_r in H. by apply byte_val_inj.
Qed.

Lemma foldl_crc_inj data c1 c2 :
  is_u32 c1 -> is_u32 c2 -> foldl crc_step c1 data = foldl crc_step c2 data -> c1 = c2.
Proof.
  revert c1 c2. induction data as [|b d IH]; intros c1 c2 H1 H2 H; [done|]. cbn [foldl] in H.
  apply IH in H; [by apply crc_step_inj_state in H|by apply crc_step_u32..].
Qed.

Lemma crc32c_u32 data : is_u32 (crc32c data).
Proof. apply not32_u32, foldl_crc_u32. done. Qed.

Lemma crc32c_range data : 0 <= crc32c data < 2 ^ 32.
Proof. apply crc32c_u32. Qed.

(** The table-driven CRC of the code is the bit-serial CRC-32C. *)
Theorem crc32c_is_bitwise data : crc32c data = crc32c_bitwise data.
Proof.
  unfold crc32c, crc32c_extend, crc32c_bitwise. f_equal. change (not32 0) with 0xFFFFFFFF.
  generalize 0xFFFFFFFF as c. induction data as [|b d IH]; intros c; [done|]. cbn [foldl].
  by rewrite IH, crc_step_bitwise.
Qed.

(** One corrupted byte changes the CRC. *)
Lemma crc32c_byte_inj p x y s : crc32c (p ++ x :: s) = crc32c (p ++ y :: s) -> x = y.
Proof.
  intros H. unfold crc32c, crc32c_extend in H. apply lxor_inj_r in H.
  rewrite !foldl_app in H. cbn [foldl] in H.
  assert (Hp : is_u32 (foldl crc_step (not32 0) p)) by (by apply foldl_crc_u32).
  apply foldl_crc_inj in H; [by apply crc_step_inj_byte in H|by apply crc_step_u32..].
Qed.

(** The CRC can be computed piecewise, and it detects the corruption of any one byte. *)
Theorem crc32c_stream_and_detect :
  (forall seed a b, crc32c_extend (crc32c_extend seed a) b = crc32c_extend seed (a ++ b)) /\
  (forall p x y s, crc32c (p ++ x :: s) = crc32c (p ++ y :: s) -> x = y).
Proof.
  split; [|exact crc32c_byte_inj].
  intros. unfold crc32c_extend. by rewrite not32_invol, foldl_app.
Qed.

(** ** SHA-256 lemmas *)
Lemma blocks_app n (a b : bytes) : length a = (64 * n)%nat -> forall m, blocks (n + m) (a ++ b) = blocks n a ++ blocks m b.
Proof.
  revert a. induction n as [|n IH]; intros a Ha m; cbn [Nat.add blocks].
  - by destruct a.
  - rewrite take_app_le, drop_app_le by lia. rewrite IH by (rewrite length_drop; lia). done.
Qed.

Lemma blocks_take n (l : bytes) k : (64 * n <= k)%nat -> blocks n (take k l) = blocks n l.
Proof.
  revert l k. induction n as [|n IH]; intros l k Hk; [done|]. cbn [blocks].
  rewrite take_take, skipn_firstn_comm, IH by lia. by rewrite Nat.min_l by lia.
Qed.

(** The streaming loop compresses every full block and keeps the rest in the buffer. *)
Lemma sha_absorb_spec fuel state buffer data :
  (length data <= fuel)%nat -> (length buffer < 64)%nat ->
  let all := buffer ++ data in
  let n := (length all / 64)%nat in
  sha_absorb fuel state buffer data = (foldl compress state (blocks n all), drop (64 * n) all).
Proof.
  revert state buffer data. induction fuel as [|fuel IH]; intros state buffer data Hf Hb.
  - destruct data; [|simpl in Hf; lia]. cbn zeta. rewrite app_nil_r, Nat.div_small by lia. done.
  - destruct data as [|x data]; cbn [sha_absorb].
    + cbn zeta. rewrite app_nil_r, Nat.div_small by lia. done.
    + set (d := x :: data) in *. set (k := Nat.min (length d) (64 - length buffer)).
      assert (Hd : (0 < length d)%nat) by (unfold d; simpl; lia).
      assert (Hk : (0 < k <= length d)%nat) by (unfold k; lia).
      assert (Heq : buffer ++ d = (buffer ++ take k d) ++ drop k d) by (by rewrite <- app_assoc, take_drop).
      destruct (Nat.eqb_spec (length (buffer ++ take k d)) 64) as [He|He];
        rewrite length_app, length_take in He.
      * rewrite IH by (first [rewrite length_drop; lia | by apply (Nat.lt_0_succ 63)]). cbn zeta. cbn [app].
        assert (Hn : (length (buffer ++ d) / 64 = S (length (drop k d) / 64))%nat).
        { rewrite length_app, length_drop. replace (length buffer + length d)%nat
            with (length d - k + 1 * 64)%nat by lia. rewrite Nat.div_add by lia. lia. }
        rewrite Hn. cbn [blocks foldl].
        assert (H64 : length (buffer ++ take k d) = 64%nat) by (rewrite length_app, length_take; lia).
        rewrite Heq, take_app_length', drop_app_length' by done. f_equal.
        replace (64 * S (length (drop k d) / 64))%nat
          with (length (buffer ++ take k d) + 64 * (length (drop k d) / 64))%nat by lia.
        by rewrite drop_app_add.
      * assert (Hkd : k = length d) by lia.
        rewrite IH by (rewrite ?length_drop, ?length_app, ?length_take; lia). cbn zeta.
        by rewrite Heq.
Qed.

(** What a hasher that was fed [data] holds. *)
Lemma sha_update_reset data :
  let n := (length data / 64)%nat in
  sha_update sha_reset data =
  mkSha (foldl compress (sh_state sha_reset) (blocks n data)) (drop (64 * n) data) (zlen data mod 2 ^ 64).
Proof. unfold sha_update. rewrite sha_absorb_spec by (simpl; lia). done. Qed.

Lemma sha_update_app a b :
  sha_update (sha_update sha_reset a) b = sha_update sha_reset (a ++ b).
Proof.
  rewrite !sha_update_reset. unfold sha_update. cbn [sh_state sh_buffer sh_total].
  set (n := (length a / 64)%nat).
  assert (Ha : (64 * n <= length a)%nat) by (unfold n; apply Nat.Div0.mul_div_le).
  assert (Hr : (length (drop (64 * n) a) < 64)%nat).
  { rewrite length_drop. unfold n. pose proof (Nat.mod_upper_bound (length a) 64 ltac:(lia)).
    pose proof (Nat.div_mod_eq (length a) 64). lia. }
  rewrite sha_absorb_spec by lia. cbn zeta.
  assert (Hsplit : a ++ b = take (64 * n) a ++ (drop (64 * n) a ++ b)) by (by rewrite app_assoc, take_drop).
  set (t := drop (64 * n) a ++ b) in *.
  assert (Hlen : length (take (64 * n) a) = (64 * n)%nat) by (rewrite length_take; lia).
  assert (Hdiv : (length (a ++ b) / 64 = n + length t / 64)%nat).
  { rewrite Hsplit, length_app, Hlen, (Nat.mul_comm 64 n), Nat.div_add_l by lia. done. }
  rewrite Hdiv. f_equal.
  - rewrite Hsplit, blocks_app, foldl_app, blocks_take by lia. done.
  - rewrite Hsplit, Nat.mul_add_distr_l. by rewrite <- (drop_app_add (take (64 * n) a) t), Hlen.
  - unfold zlen. rewrite length_app, Nat2Z.inj_add. by rewrite Zplus_mod_idemp_l.
Qed.

Lemma append_be_mod w v k : (w <= k)%nat -> append_be w (v mod 2 ^ (8 * Z.of_nat k)) = append_be w v.
Proof.
  intros Hw. induction w as [|w IH]; [done|]. cbn [append_be]. rewrite IH by lia. f_equal.
  unfold byte_of. do 2 f_equal. apply Z.bits_inj'. intros i Hi. change 255 with (Z.ones 8).
  rewrite !Z.land_spec, !Z.shiftr_spec by lia. destruct (decide (i < 8)).
  - by rewrite Z.mod_pow2_bits_low by lia.
  - by rewrite Z.ones_spec_high, !andb_false_r by lia.
Qed.

Lemma w_u64_mod v : w_u64 (v mod 2 ^ 64) = w_u64 v.
Proof. apply (append_be_mod 8 v 8). lia. Qed.

Lemma take_padding n : (n <= 64)%nat -> (0 < n)%nat ->
  take n (byte_of 0x80 :: repeat (byte_of 0) 63) = byte_of 0x80 :: repeat (byte_of 0) (n - 1).
Proof.
  intros Hn H0. destruct n as [|n]; [lia|]. cbn [take]. f_equal.
  rewrite Nat.sub_succ, Nat.sub_0_r. change (@repeat) with (@List.repeat).
  rewrite <- (Nat.sub_add n 63) by lia. rewrite Nat.add_comm, repeat_app.
  by rewrite take_app_length' by (by rewrite repeat_length).
Qed.

Lemma sha256_hash_reference data : sha256_hash data = sha256_reference data.
Proof.
  unfold sha256_hash, sha_digest. set (s := sha_update sha_reset data).
  pose proof (Nat.mod_upper_bound (length data) 64 ltac:(lia)) as Hm.
  pose proof (Nat.div_mod_eq (length data) 64) as Hdm. set (r := (length data mod 64)%nat) in *.
  assert (Hb : length (sh_buffer s) = r).
  { unfold s. rewrite sha_update_reset. cbn [sh_buffer]. rewrite length_drop. lia. }
  assert (Ht : sh_total s = zlen data mod 2 ^ 64) by (unfold s; by rewrite sha_update_reset).
  rewrite Hb. set (pad_length := (if (r <? 56)%nat then (56 - r)%nat else (120 - r)%nat)).
  assert (Hpl : (0 < pad_length <= 64)%nat) by (unfold pad_length; destruct (Nat.ltb_spec r 56); lia).
  set (z := repeat (byte_of 0) (pad_length - 1)).
  rewrite take_padding by lia. fold z. unfold s. rewrite sha_update_app, sha_update_reset.
  cbn [sh_state sh_buffer].
  set (msg := data ++ byte_of 0x80 :: z).
  assert (Hmsg : exists q, length msg = (64 * q + 56)%nat).
  { unfold msg. rewrite length_app. cbn [length]. unfold z. rewrite repeat_length.
    unfold pad_length. destruct (Nat.ltb_spec r 56).
    - exists (length data / 64)%nat. lia.
    - exists (S (length data / 64)). lia. }
  destruct Hmsg as [q Hq].
  assert (Hdiv : (length msg / 64 = q)%nat).
  { rewrite Hq, Nat.mul_comm, Nat.div_add_l, Nat.div_small by lia. lia. }
  rewrite Hdiv. unfold sha256_reference.
  assert (Hpad : sha_pad data = msg ++ w_u64 (8 * Z.of_nat (length data))).
  { unfold sha_pad, sha_padding, msg, z, pad_length. fold r. rewrite <- app_assoc. cbn [app]. do 2 f_equal.
    destruct (r <? 56)%nat; do 2 f_equal; lia. }
  rewrite Hpad, length_app, Hq. unfold w_u64 at 2. rewrite length_append_be.
  replace (64 * q + 56 + 8)%nat with ((q + 1) * 64)%nat by lia. rewrite Nat.div_mul by lia.
  assert (Hsplit : msg ++ w_u64 (8 * Z.of_nat (length data)) =
    take (64 * q) msg ++ (drop (64 * q) msg ++ w_u64 (8 * Z.of_nat (length data)))) by (by rewrite app_assoc, take_drop).
  rewrite Hsplit, blocks_app, foldl_app, blocks_take by (rewrite ?length_take; lia).
  cbn [blocks foldl]. do 3 f_equal.
  rewrite !firstn_all2 by (rewrite ?length_app, ?length_append_be, ?length_drop; lia). f_equal.
  unfold s in Ht. rewrite Ht, w_u64_mod, Z.mul_comm. unfold w_u64, zlen.
  rewrite <- (append_be_mod 8 (8 * (Z.of_nat (length data) mod 2 ^ 64)) 8) by lia.
  rewrite <- (append_be_mod 8 (8 * Z.of_nat (length data)) 8) by lia.
  change (8 * Z.of_nat 8) with 64. rewrite Zmult_mod_idemp_r.
  symmetry. apply firstn_all2. rewrite length_app, length_append_be, length_drop. lia.
Qed.

Lemma slen_sha256 data : slen (sha256_hash data) = kDigestSize.
Proof. unfold sha256_hash, sha_digest, slen. by rewrite length_bytes_str. Qed.

Lemma slen_hmac key message : slen (hmac_sha256 key message) = kDigestSize.
Proof. unfold hmac_sha256, sha_digest, slen. cbv zeta. by rewrite length_bytes_str. Qed.


(** The constant-time comparison decides equality. *)
Lemma constant_time_equal_spec a b : constant_time_equal a b = true <-> a = b.
Proof.
  unfold constant_time_equal.
  assert (Hacc : forall l d, 0 <= d -> foldl (fun d p => Z.lor d (Z.lxor (byte_val p.1) (byte_val p.2))) d l = 0 <->
    d = 0 /\ Forall (fun p => p.1 = p.2) l).
  { induction l as [|[x y] l IH]; intros d Hd; cbn [foldl]; [by split; [split; [|constructor]|intros [? _]]|].
    pose proof (byte_val_range x). pose proof (byte_val_range y).
    cbn [fst snd]. rewrite IH by (apply Z.lor_nonneg; split; [done|apply Z.lxor_nonneg; by split; intros; lia]).
    rewrite Z.lor_eq_0_iff, Z.lxor_eq_0_iff, Forall_cons. cbn [fst snd]. split.
    - intros [[? ?] ?]. split_and!; [done|by apply byte_val_inj|done].
    - intros (? & -> & ?). done. }
  destruct (Nat.eqb_spec (length a) (length b)) as [Hl|Hl]; cbn [negb]; [|split; [done|congruence]].
  rewrite Z.eqb_eq, Hacc by lia. split.
  - intros [_ Hf]. revert b Hl Hf. induction a as [|x a IH]; intros [|y b] Hl Hf; try done.
    cbn [zip zip_with] in Hf. inversion_clear Hf. simpl in *. f_equal; [done|]. apply IH; [lia|done].
  - intros ->. split; [done|]. induction b as [|x b IH]; constructor; [done|]. by apply IH.
Qed.
