(* ===== verification/Time.v ===== *)
(** * Durations, timestamps and their textual forms

    Models src/core/time.cpp and the arithmetic of include/icf/core/time.hpp. A [Duration] and a
    [Timestamp] are their signed 64-bit nanosecond counts. Where the code adds signed integers
    without a check the model computes the exact sum; [is_i64] of the result is the condition
    under which the C++ expression is defined. *)
From S2P Require Import Prelude Status Bytes Ids.

(** ** Timestamp arithmetic *)
Definition timestamp_plus (t delta : Z) : Z :=
  if (0 <? delta) && (i64_max - delta <? t) then i64_max
  else if (delta <? 0) && (t <? i64_min - delta) then i64_min
  else t + delta.

Definition timestamp_since (t earlier : Z) : Z := t - earlier.

(** [ManualClock]: the wall clock saturates, the monotonic counter does not. *)
Record ManualClock := mkClock { wall : Z; monotonic : Z }.
Definition clock_advance (delta : Z) (c : ManualClock) : ManualClock :=
  mkClock (timestamp_plus (wall c) delta) (monotonic c + delta).
Definition clock_set (value : Z) (c : ManualClock) : ManualClock := mkClock value (monotonic c).

(** ** Duration::parse *)
(** The digit loop: magnitude and the text that follows the digits. *)
Fixpoint duration_digits (digits : nat) (magnitude : Z) (text : bytes) : Result (nat * Z * bytes) :=
  match text with
  | c :: rest =>
      if is_digit c then
        match mul_u64 magnitude 10 with
        | None => fail Outcome_Overflow "duration magnitude overflows"
        | Some m =>
            match add_u64 m (byte_val c - 48) with
            | None => fail Outcome_Overflow "duration magnitude overflows"
            | Some m => duration_digits (S digits) m rest
            end
        end
      else Val (digits, magnitude, text)
  | [] => Val (digits, magnitude, [])
  end.

Definition duration_units : list (string * Z) :=
  [("ns", 1); ("us", 1000); ("ms", 1000000); ("s", 1000000000); ("m", 60000000000); ("h", 3600000000000)]%string.

Definition unit_multiplier (unit : string) : option Z :=
  snd ∘ snd <$> list_find (fun u => u.1 = unit) duration_units.

Definition duration_parse (text : string) : Result Z :=
  _ ← reject_if ((slen text =? 0) || (24 <? slen text)) Outcome_Invalid
        "duration must be a number followed by ns, us, ms, s, m, or h";
  '(digits, magnitude, rest) ← duration_digits 0 0 (str_bytes text);
  _ ← reject_if (digits =? 0)%nat Outcome_Invalid "duration must begin with a decimal magnitude";
  match unit_multiplier (bytes_str rest) with
  | None => invalid "unrecognised duration unit"
  | Some multiplier =>
      match mul_u64 magnitude multiplier with
      | None => fail Outcome_Overflow "duration exceeds the maximum supported span"
      | Some nanos =>
          if limits.kMaxDurationNanos <? nanos
          then fail Outcome_Overflow "duration exceeds the maximum supported span" else Val nanos
      end
  end.

(** ** Civil dates *)
Record CivilDate := mkDate { cd_year : Z; cd_month : Z; cd_day : Z }.

(** [Z.quot] is C++'s division, truncating towards zero. *)
Definition civil_from_days (days : Z) : CivilDate :=
  let days := days + 719468 in
  let era := Z.quot (if 0 <=? days then days else days - 146096) 146097 in
  let doe := days - era * 146097 in
  let yoe := (doe - doe / 1460 + doe / 36524 - doe / 146096) / 365 in
  let y := yoe + era * 400 in
  let doy := doe - (365 * yoe + yoe / 4 - yoe / 100) in
  let mp := (5 * doy + 2) / 153 in
  let d := doy - (153 * mp + 2) / 5 + 1 in
  let m := if mp <? 10 then mp + 3 else mp - 9 in
  mkDate (y + (if m <=? 2 then 1 else 0)) m d.

Definition days_from_civil (date : CivilDate) : Z :=
  let m := cd_month date in
  let y := cd_year date - (if m <=? 2 then 1 else 0) in
  let era := Z.quot (if 0 <=? y then y else y - 399) 400 in
  let yoe := y - era * 400 in
  let doy := (153 * (m + (if 2 <? m then -3 else 9)) + 2) / 5 + cd_day date - 1 in
  let doe := yoe * 365 + yoe / 4 - yoe / 100 + doy in
  era * 146097 + doe - 719468.

(** ** Decimal output *)
Definition dec_digit (v : Z) : byte := byte_of (48 + v).

(** The last [w] decimal digits of [v]. *)
Fixpoint dec_fixed (w : nat) (v : Z) : bytes :=
  match w with
  | O => []
  | S w => dec_fixed w (v / 10) ++ [dec_digit (v mod 10)]
  end.

(** The decimal form without padding; 20 digits cover 64 bits. *)
Fixpoint dec_loop (fuel : nat) (v : Z) : bytes :=
  match fuel with
  | O => []
  | S fuel => if v <? 10 then [dec_digit v] else dec_loop fuel (v / 10) ++ [dec_digit (v mod 10)]
  end.

Definition dec_unsigned (v : Z) : bytes := dec_loop 20 v.

(** [std::to_string] and [%lld]. *)
Definition dec_signed (v : Z) : bytes :=
  if v <? 0 then byte_of 45 :: dec_unsigned (- v) else dec_unsigned v.

(** [%0<w>u] of a value that is not negative. *)
Definition dec_pad (w : nat) (v : Z) : bytes :=
  if v <? 10 ^ Z.of_nat w then dec_fixed w v else dec_unsigned v.

(** ** ISO-8601 *)
Definition char (n : Z) : bytes := [byte_of n].

Definition to_iso8601 (nanos : Z) : string :=
  let '(seconds, fraction) :=
    (let s := Z.quot nanos 1000000000 in
     let f := Z.rem nanos 1000000000 in
     if f <? 0 then (s - 1, f + 1000000000) else (s, f)) in
  let '(days, second_of_day) :=
    (let d := Z.quot seconds 86400 in
     let s := Z.rem seconds 86400 in
     if s <? 0 then (d - 1, s + 86400) else (d, s)) in
  let date := civil_from_days days in
  bytes_str (dec_pad 4 (cd_year date) ++ char 45 ++ dec_pad 2 (cd_month date) ++ char 45 ++
    dec_pad 2 (cd_day date) ++ char 84 ++ dec_pad 2 (second_of_day / 3600) ++ char 58 ++
    dec_pad 2 (second_of_day mod 3600 / 60) ++ char 58 ++ dec_pad 2 (second_of_day mod 60) ++ char 46 ++
    dec_pad 9 fraction ++ char 90).

(** [read_uint(offset, count)] *)
Definition read_uint (text : bytes) (offset count : nat) : option Z :=
  let field := take count (drop offset text) in
  if (length text <? offset + count)%nat then None
  else if forallb is_digit field then Some (decimal_value field) else None.

Fixpoint digit_run (text : bytes) : nat :=
  match text with
  | c :: text => if is_digit c then S (digit_run text) else O
  | [] => O
  end.

(** The nine digits of the fraction, missing ones are zero. *)
Definition fraction_value (digits : bytes) : Z :=
  decimal_value (take 9 (digits ++ repeat (byte_of 48) 9)).

(** The optional fraction: its value and the index behind it. *)
Definition parse_fraction (text : bytes) : Result (Z * nat) :=
  if bool_decide (text !! 19%nat = Some (byte_of 46)) then
    let digits := digit_run (drop 20 text) in
    if (digits =? 0)%nat || (9 <? digits)%nat
    then invalid "timestamp fractional seconds must have 1 to 9 digits"
    else Val (fraction_value (take digits (drop 20 text)), (20 + digits)%nat)
  else Val (0, 19%nat).

Definition char_at (text : bytes) (i : nat) (c : Z) : bool := bool_decide (text !! i = Some (byte_of c)).

Definition parse_iso8601 (source : string) : Result Z :=
  let text := str_bytes source in
  _ ← reject_if ((length text <? 20)%nat || negb (bool_decide (last text = Some (byte_of 90)))) Outcome_Invalid
        "timestamp must be an ISO-8601 UTC value ending in Z";
  _ ← reject_if (negb (char_at text 4 45) || negb (char_at text 7 45) || negb (char_at text 10 84) ||
                 negb (char_at text 13 58) || negb (char_at text 16 58)) Outcome_Invalid
        "timestamp separators are malformed";
  match read_uint text 0 4, read_uint text 5 2, read_uint text 8 2, read_uint text 11 2,
        read_uint text 14 2, read_uint text 17 2 with
  | Some year, Some month, Some day, Some hour, Some minute, Some second =>
      '(fraction, index) ← parse_fraction text;
      _ ← reject_if (negb (S index =? length text)%nat) Outcome_Invalid "timestamp has trailing characters";
      _ ← reject_if ((month <? 1) || (12 <? month) || (day <? 1) || (31 <? day) || (23 <? hour) ||
                     (59 <? minute) || (60 <? second)) Outcome_Invalid "timestamp field is out of range";
      let seconds := days_from_civil (mkDate year month day) * 86400 + hour * 3600 + minute * 60 + second in
      let magnitude := if seconds <? 0 then - (seconds + 1) + 1 else seconds in
      match mul_u64 magnitude 1000000000 with
      | None => fail Outcome_Overflow "timestamp overflows the nanosecond range"
      | Some nanos =>
          if i64_max <? nanos then fail Outcome_Overflow "timestamp overflows the nanosecond range"
          else Val ((if seconds <? 0 then - nanos else nanos) + fraction)
      end
  | _, _, _, _, _, _ => invalid "timestamp contains a non-digit field"
  end.

Example iso_epoch : to_iso8601 0 = "1970-01-01T00:00:00.000000000Z"%string.
Proof. by vm_compute. Qed.
Example iso_max : to_iso8601 i64_max = "2262-04-11T23:47:16.854775807Z"%string.
Proof. by vm_compute. Qed.
Example iso_min_roundtrip : parse_iso8601 (to_iso8601 (-1)) = Val (-1).
Proof. by vm_compute. Qed.

(** ** Lemmas *)
Lemma timestamp_plus_clamp t d :
  is_i64 t -> is_i64 d -> timestamp_plus t d = Z.max i64_min (Z.min i64_max (t + d)).
Proof.
  unfold is_i64, timestamp_plus, i64_min, i64_max. intros.
  destruct (Z.ltb_spec 0 d), (Z.ltb_spec (2 ^ 63 - 1 - d) t), (Z.ltb_spec d 0), (Z.ltb_spec t (- 2 ^ 63 - d));
    cbn [andb]; lia.
Qed.

(** Adding a duration to a timestamp saturates at the ends of the 64-bit range instead of
    overflowing, so a deadline never wraps into the past. *)
Theorem timestamp_plus_saturates t d :
  is_i64 t -> is_i64 d ->
  is_i64 (timestamp_plus t d) /\
  timestamp_plus t d = Z.max i64_min (Z.min i64_max (t + d)) /\
  (0 <= d -> t <= timestamp_plus t d).
Proof.
  intros Ht Hd. rewrite timestamp_plus_clamp by done. unfold is_i64, i64_min, i64_max in *. lia.
Qed.

Lemma timestamp_plus_saturates_witness :
  timestamp_plus (i64_max - 5) 10 = i64_max /\ is_i64 (timestamp_plus (i64_max - 5) 10).
Proof.
  split; [reflexivity|]. apply (timestamp_plus_saturates (i64_max - 5) 10);
    unfold is_i64, i64_min, i64_max; lia.
Defined.

(** *** Durations *)
Definition digits_text (ds : bytes) : Prop := Forall (fun c => is_digit c = true) ds.
Definition digit_free_head (l : bytes) : Prop := forall c, head l = Some c -> is_digit c = false.

Lemma digit_prefix_unique ds ds' rest rest' :
  digits_text ds -> digits_text ds' -> digit_free_head rest -> digit_free_head rest' ->
  ds ++ rest = ds' ++ rest' -> ds = ds' /\ rest = rest'.
Proof.
  intros Hd. revert ds'. induction Hd as [|c ds Hc _ IH]; intros ds' Hd' Hr Hr' Heq.
  - destruct Hd' as [|c' ds' Hc' _]; [done|]. cbn [app] in Heq. subst rest.
    by rewrite (Hr c' eq_refl) in Hc'.
  - destruct Hd' as [|c' ds' Hc' Hds']; cbn [app] in Heq.
    + subst rest'. by rewrite (Hr' c eq_refl) in Hc.
    + injection Heq as -> Heq. by destruct (IH ds' Hds' Hr Hr' Heq) as [-> ->].
Qed.

Abbreviation decimal_from acc ds := (foldl (fun v c => v * 10 + (byte_val c - 48)) acc ds).

Lemma duration_digits_spec k m text :
  is_u64 m ->
  exists ds rest, text = ds ++ rest /\ digits_text ds /\ digit_free_head rest /\
    match duration_digits k m text with
    | Val (k', m', rest') => k' = (k + length ds)%nat /\ rest' = rest /\ m' = decimal_from m ds /\ is_u64 m'
    | Err s => st_outcome s = Outcome_Overflow /\ u64_max < decimal_from m ds
    | Throw => False
    end.
Proof.
  revert k m. induction text as [|c text IH]; intros k m Hm; cbn [duration_digits].
  { exists [], []. refine (conj eq_refl (conj (Forall_nil_2 _) (conj _ _))); [done|]. split; [cbn; lia|done]. }
  destruct (is_digit c) eqn:Hc.
  - pose proof Hc as Hd. unfold is_digit in Hd. bool_prop.
    assert (Hover : u64_max < m * 10 + (byte_val c - 48) -> exists ds rest, c :: text = ds ++ rest /\
      digits_text ds /\ digit_free_head rest /\ (Outcome_Overflow = Outcome_Overflow /\ u64_max < decimal_from m ds)).
    { intros Hbig. destruct (IH 0%nat 0 ltac:(unfold is_u64, u64_max; lia)) as (ds & rest & -> & Hds & Hr & _).
      exists (c :: ds), rest. split_and!; [done|by constructor|done|done|]. cbn [foldl].
      eapply Z.lt_le_trans; [exact Hbig|]. apply decimal_value_ge; [done|]. unfold is_u64 in Hm. lia. }
    unfold is_u64 in Hm. rewrite mul_u64_spec by (unfold is_u64, u64_max in *; lia).
    case_decide as H10; [|apply Hover; lia].
    rewrite add_u64_spec by (unfold is_u64, u64_max in *; lia). case_decide as Hs; [|apply Hover; lia].
    destruct (IH (S k) (m * 10 + (byte_val c - 48)) ltac:(unfold is_u64; lia)) as (ds & rest & -> & Hds & Hr & Hmatch).
    exists (c :: ds), rest. split; [done|]. split; [by constructor|]. split; [done|]. cbn [foldl length].
    destruct (duration_digits _ _ _) as [[[k' m'] rest']|s|]; [|done..].
    destruct Hmatch as (-> & -> & -> & ?). split; [lia|done].
  - exists [], (c :: text). refine (conj eq_refl (conj (Forall_nil_2 _) (conj _ _))); [by intros c' [= <-]|].
    split; [cbn; lia|done].
Qed.

Lemma unit_digit_free u mult : unit_multiplier u = Some mult -> digit_free_head (str_bytes u) /\ 0 < mult <= u64_max.
Proof.
  unfold unit_multiplier. destruct (list_find _ _) as [[i [n v]]|] eqn:F; [|done].
  apply list_find_Some in F as (Hi & Hn & _). cbn in Hn |- *. intros [= <-]. subst u.
  apply list_elem_of_lookup_2 in Hi. unfold u64_max.
  repeat (apply elem_of_cons in Hi as [[= -> ->]|Hi]; [split; [by intros c [= <-]|lia]|]).
  by apply not_elem_of_nil in Hi.
Qed.

(** [Duration::parse] accepts exactly a non-empty decimal magnitude followed by one of the six
    units, of at most 24 characters, whose value in nanoseconds is within the maximum span; the
    result is the exact product, never a wrapped one. *)
Theorem duration_parse_spec text n :
  duration_parse text = Val n <->
  slen text <= 24 /\
  exists ds u mult, str_bytes text = ds ++ str_bytes u /\ ds <> [] /\ digits_text ds /\
    unit_multiplier u = Some mult /\ n = decimal_value ds * mult /\ n <= limits.kMaxDurationNanos.
Proof.
  unfold duration_parse. destruct (duration_digits_spec 0 0 (str_bytes text)) as (ds & rest & Htext & Hds & Hr & Hres);
    [unfold is_u64, u64_max; lia|].
  assert (Hval : forall ds, digits_text ds -> 0 <= decimal_value ds).
  { intros ds' H'. by apply (decimal_value_ge ds' 0). }
  split.
  - intros H. inv_bind H. apply reject_if_Val in Ha. bool_prop.
    destruct (duration_digits 0 0 (str_bytes text)) as [[[k m] rest']|s|]; cbn [mbind Result_bind] in H; [|done..].
    destruct Hres as (-> & -> & -> & Hm). inv_bind H. apply reject_if_Val in Ha. apply Nat.eqb_neq in Ha.
    destruct (unit_multiplier (bytes_str rest)) as [mult|] eqn:Hu; [|done].
    destruct (unit_digit_free _ _ Hu) as [_ Hmu].
    rewrite mul_u64_spec in H by (done || (unfold is_u64; lia)). case_decide; [|done].
    destruct (Z.ltb_spec limits.kMaxDurationNanos (decimal_from 0 ds * mult)); [done|]. injection H as <-.
    split; [lia|]. exists ds, (bytes_str rest), mult. rewrite str_bytes_str.
    split_and!; try done. intros ->. cbn in Ha. lia.
  - intros (Hlen & ds' & u & mult & Htext' & Hne & Hds' & Hu & -> & Hmax).
    destruct (unit_digit_free _ _ Hu) as [Hfree Hmu]. specialize (Hval ds' Hds').
    rewrite Htext' in Htext. destruct (digit_prefix_unique _ _ _ _ Hds' Hds Hfree Hr Htext) as [<- <-].
    assert (Hl : 0 < slen text).
    { unfold slen. rewrite <- length_str_bytes, Htext', length_app. destruct ds'; [done|]. cbn. lia. }
    unfold reject_if at 1. destruct (Z.eqb_spec (slen text) 0); [lia|].
    destruct (Z.ltb_spec 24 (slen text)); [lia|]. cbn [orb mbind Result_bind].
    destruct (duration_digits 0 0 (str_bytes text)) as [[[k m] rest']|s|]; [| |done].
    + destruct Hres as (-> & -> & -> & Hm). cbn [mbind Result_bind].
      destruct ds' as [|c ds']; [done|]. cbn [length Nat.add reject_if Nat.eqb mbind Result_bind].
      rewrite bytes_str_bytes, Hu. fold (decimal_value (c :: ds')).
      rewrite mul_u64_spec by (done || (unfold is_u64; lia)).
      rewrite decide_True by (unfold u64_max, limits.kMaxDurationNanos in *; lia).
      destruct (Z.ltb_spec limits.kMaxDurationNanos (decimal_value (c :: ds') * mult)); [lia|done].
    + destruct Hres as [_ Hbig]. fold (decimal_value ds') in Hbig. unfold u64_max, limits.kMaxDurationNanos in *. nia.
Qed.

(** *** Civil dates *)
(** Day of the 400-year era to year of era and day of year: both stay in range. *)
Lemma year_of_century c doe :
  0 <= c <= 3 -> 36524 * c <= doe < 36524 * c + 36524 ->
  let yoe := (doe - doe / 1460 + c) / 365 in
  100 * c <= yoe < 100 * c + 100 /\ 0 <= doe - (365 * yoe + yoe / 4 - yoe / 100) <= 365.
Proof.
  intros Hc H. cbv zeta.
  assert (Hc' : c = 0 \/ c = 1 \/ c = 2 \/ c = 3) by lia.
  assert (Hy : 100 * c <= (doe - doe / 1460 + c) / 365 < 100 * c + 100).
  { destruct Hc' as [->|[->|[->| ->]]]; dlia. }
  split; [done|]. set (q := doe / 1460) in *. set (yoe := (doe - q + c) / 365) in *.
  assert (yoe / 100 = c) as -> by (symmetry; apply Z.div_unique with (yoe - 100 * c); lia).
  assert (Hq : 1460 * q <= doe < 1460 * q + 1460) by (unfold q; dlia).
  assert (Hyy : 365 * yoe <= doe - q + c < 365 * yoe + 365) by (unfold yoe; dlia).
  clearbody q yoe. set (y4 := yoe / 4). assert (H4 : 4 * y4 <= yoe < 4 * y4 + 4) by (unfold y4; dlia).
  clearbody y4. destruct Hc' as [->|[->|[->| ->]]]; lia.
Qed.

Lemma year_of_era doe :
  0 <= doe < 146097 ->
  let yoe := (doe - doe / 1460 + doe / 36524 - doe / 146096) / 365 in
  0 <= yoe < 400 /\ 0 <= doe - (365 * yoe + yoe / 4 - yoe / 100) <= 365.
Proof.
  intros H. cbv zeta. destruct (decide (doe = 146096)) as [->|Hne]; [by vm_compute|].
  rewrite (Z.div_small doe 146096), Z.sub_0_r by lia.
  pose proof (year_of_century (doe / 36524) doe ltac:(dlia) ltac:(dlia)) as Hc. cbv zeta in Hc.
  assert (0 <= doe / 36524 <= 3) by dlia. lia.
Qed.

Lemma month_of_year doy :
  0 <= doy <= 365 ->
  let mp := (5 * doy + 2) / 153 in
  0 <= mp <= 11 /\ 1 <= doy - (153 * mp + 2) / 5 + 1 <= 31.
Proof.
  intros H. cbv zeta. set (mp := (5 * doy + 2) / 153).
  assert (Hm : 153 * mp <= 5 * doy + 2 < 153 * mp + 153) by (unfold mp; dlia). clearbody mp. split; dlia.
Qed.

Lemma floor_quot a b : 0 < b -> Z.quot (if 0 <=? a then a else a - (b - 1)) b = a / b.
Proof.
  intros Hb. destruct (Z.leb_spec 0 a).
  - by rewrite Z.quot_div_nonneg by lia.
  - rewrite <- (Z.opp_involutive (a - (b - 1))), Z.quot_opp_l, Z.quot_div_nonneg by lia.
    pose proof (Z.div_mod a b ltac:(lia)). pose proof (Z.mod_pos_bound a b Hb).
    replace (- (a - (b - 1))) with (b * (- (a / b)) + (b - 1 - a mod b)) by lia.
    rewrite Z.mul_comm, Z.div_add_l, (Z.div_small (b - 1 - a mod b)) by lia. lia.
Qed.

Lemma floor_quot_era a : Z.quot (if 0 <=? a then a else a - 146096) 146097 = a / 146097.
Proof. apply (floor_quot a 146097). lia. Qed.

Lemma floor_quot_400 a : Z.quot (if 0 <=? a then a else a - 399) 400 = a / 400.
Proof. apply (floor_quot a 400). lia. Qed.

Lemma civil_from_days_valid days :
  let date := civil_from_days days in
  days_from_civil date = days /\ 1 <= cd_month date <= 12 /\ 1 <= cd_day date <= 31.
Proof.
  cbv zeta. unfold civil_from_days. cbv zeta.
  set (era := Z.quot _ 146097). assert (Hera : era = (days + 719468) / 146097).
  { unfold era. apply (floor_quot _ 146097). lia. }
  clearbody era. set (doe := days + 719468 - era * 146097).
  assert (Hdoe : 0 <= doe < 146097) by (unfold doe; subst era; dlia).
  assert (Hd : days = era * 146097 + doe - 719468) by (unfold doe; lia). clearbody doe.
  pose proof (year_of_era doe Hdoe) as Hyoe. cbv zeta in Hyoe.
  set (yoe := (doe - doe / 1460 + doe / 36524 - doe / 146096) / 365) in *.
  set (doy := doe - (365 * yoe + yoe / 4 - yoe / 100)) in *.
  pose proof (month_of_year doy ltac:(lia)) as Hmp. cbv zeta in Hmp.
  set (mp := (5 * doy + 2) / 153) in *.
  unfold days_from_civil. cbn [cd_year cd_month cd_day]. cbv zeta.
  set (m := if mp <? 10 then mp + 3 else mp - 9).
  assert (Hm : 1 <= m <= 12 /\ m + (if 2 <? m then -3 else 9) = mp).
  { unfold m. destruct (Z.ltb_spec mp 10); [|destruct (Z.ltb_spec 2 (mp - 9)); lia].
    destruct (Z.ltb_spec 2 (mp + 3)); lia. }
  destruct Hm as [Hmr Hmm]. rewrite Hmm. split; [|lia].
  replace (yoe + era * 400 + (if m <=? 2 then 1 else 0) - (if m <=? 2 then 1 else 0)) with (yoe + era * 400) by lia.
  rewrite floor_quot_400. rewrite Z.div_add, (Z.div_small yoe) by lia.
  replace (yoe + era * 400 - (0 + era) * 400) with yoe by lia. unfold doy in *. lia.
Qed.

Lemma civil_year_bound days : -106752 <= days <= 106751 -> 0 <= cd_year (civil_from_days days) < 10000.
Proof.
  intros Hdays. unfold civil_from_days. cbv zeta. rewrite floor_quot_era.
  cbn [cd_year]. set (mm := if _ <=? 2 then 1 else 0). assert (0 <= mm <= 1) by (unfold mm; case_match; lia).
  set (doe := days + 719468 - (days + 719468) / 146097 * 146097).
  destruct (year_of_era doe ltac:(unfold doe; dlia)) as [Hy _].
  assert (4 <= (days + 719468) / 146097 <= 5) by dlia. lia.
Qed.

(** *** Decimal fields *)
Lemma length_dec_fixed w v : length (dec_fixed w v) = w.
Proof. revert v. induction w as [|w IH]; intros v; [done|]. cbn [dec_fixed]. rewrite length_app, IH. simpl. lia. Qed.

Lemma dec_digit_spec v : 0 <= v < 10 -> is_digit (dec_digit v) = true /\ byte_val (dec_digit v) - 48 = v.
Proof. intros Hv. unfold dec_digit, is_digit. rewrite byte_val_of, Z.mod_small by lia. lia. Qed.

Lemma dec_fixed_digits w v : digits_text (dec_fixed w v).
Proof.
  revert v. induction w as [|w IH]; intros v; [constructor|]. apply Forall_app. split; [apply IH|].
  constructor; [|constructor]. apply dec_digit_spec. by apply Z.mod_pos_bound.
Qed.

Lemma decimal_value_fixed w v : 0 <= v < 10 ^ Z.of_nat w -> decimal_value (dec_fixed w v) = v.
Proof.
  revert v. induction w as [|w IH]; intros v Hv; [cbn in *; lia|]. cbn [dec_fixed]. unfold decimal_value in *.
  rewrite Nat2Z.inj_succ, Z.pow_succ_r in Hv by lia. rewrite foldl_app. cbn [foldl]. rewrite IH by dlia.
  rewrite (proj2 (dec_digit_spec (v mod 10) ltac:(by apply Z.mod_pos_bound))). dlia.
Qed.

Lemma dec_pad_fixed w v : 0 <= v < 10 ^ Z.of_nat w -> dec_pad w v = dec_fixed w v.
Proof. intros Hv. unfold dec_pad. destruct (Z.ltb_spec v (10 ^ Z.of_nat w)); [done|lia]. Qed.

Lemma forallb_digits l : digits_text l -> forallb is_digit l = true.
Proof. intros H. induction H as [|c l Hc _ IH]; [done|]. cbn [forallb]. by rewrite Hc. Qed.

Lemma read_uint_field pre w v post :
  0 <= v < 10 ^ Z.of_nat w -> read_uint (pre ++ dec_fixed w v ++ post) (length pre) w = Some v.
Proof.
  intros Hv. unfold read_uint. rewrite drop_app_length, take_app_length' by (by rewrite length_dec_fixed).
  rewrite !length_app, length_dec_fixed. destruct (Nat.ltb_spec (length pre + (w + length post)) (length pre + w)); [lia|].
  rewrite forallb_digits by apply dec_fixed_digits. by rewrite decimal_value_fixed.
Qed.

Lemma digit_run_app ds rest : digits_text ds -> digit_free_head rest -> digit_run (ds ++ rest) = length ds.
Proof.
  intros H Hr. induction H as [|c ds Hc _ IH]; cbn [app digit_run length].
  - destruct rest as [|c rest]; [done|]. cbn [digit_run]. by rewrite (Hr c eq_refl).
  - by rewrite Hc, IH.
Qed.

(** The fields of a timestamp, as the two functions agree on them. *)
Definition iso_text (year month day hour minute second fraction : Z) : bytes :=
  dec_fixed 4 year ++ char 45 ++ dec_fixed 2 month ++ char 45 ++ dec_fixed 2 day ++ char 84 ++
  dec_fixed 2 hour ++ char 58 ++ dec_fixed 2 minute ++ char 58 ++ dec_fixed 2 second ++ char 46 ++
  dec_fixed 9 fraction ++ char 90.

Ltac length_text := rewrite ?length_app, ?length_dec_fixed; reflexivity.

Lemma iso_text_fields year month day hour minute second fraction :
  0 <= year < 10000 -> 0 <= month < 100 -> 0 <= day < 100 -> 0 <= hour < 100 -> 0 <= minute < 100 ->
  0 <= second < 100 ->
  let text := iso_text year month day hour minute second fraction in
  read_uint text 0 4 = Some year /\ read_uint text 5 2 = Some month /\ read_uint text 8 2 = Some day /\
  read_uint text 11 2 = Some hour /\ read_uint text 14 2 = Some minute /\ read_uint text 17 2 = Some second.
Proof.
  intros. cbv zeta. unfold iso_text.
  set (y := dec_fixed 4 year ++ char 45). set (mo := dec_fixed 2 month ++ char 45).
  set (d := dec_fixed 2 day ++ char 84). set (h := dec_fixed 2 hour ++ char 58).
  set (mi := dec_fixed 2 minute ++ char 58).
  split; [by apply (read_uint_field [] 4 year)|].
  split; [by apply (read_uint_field y 2 month)|].
  split; [by apply (read_uint_field (y ++ mo) 2 day)|].
  split; [by apply (read_uint_field (y ++ mo ++ d) 2 hour)|].
  split; [by apply (read_uint_field (y ++ mo ++ d ++ h) 2 minute)|].
  by apply (read_uint_field (y ++ mo ++ d ++ h ++ mi) 2 second).
Qed.

Lemma iso_text_parse year month day hour minute second fraction :
  0 <= year < 10000 -> 1 <= month <= 12 -> 1 <= day <= 31 -> 0 <= hour <= 23 -> 0 <= minute <= 59 ->
  0 <= second <= 59 -> 0 <= fraction < 1000000000 ->
  let seconds := days_from_civil (mkDate year month day) * 86400 + hour * 3600 + minute * 60 + second in
  - i64_max <= seconds * 1000000000 <= i64_max ->
  parse_iso8601 (bytes_str (iso_text year month day hour minute second fraction)) =
  Val (seconds * 1000000000 + fraction).
Proof.
  intros Hy Hmo Hd Hh Hmi Hs Hf seconds Hrange. unfold parse_iso8601. rewrite str_bytes_str.
  destruct (iso_text_fields year month day hour minute second fraction) as (-> & -> & -> & -> & -> & ->); try lia.
  assert (Hlen : length (iso_text year month day hour minute second fraction) = 30%nat)
    by (unfold iso_text; length_text).
  assert (Hfrac : parse_fraction (iso_text year month day hour minute second fraction) = Val (fraction, 29%nat)).
  { unfold parse_fraction. rewrite bool_decide_eq_true_2 by done.
    change (drop 20 (iso_text year month day hour minute second fraction)) with (dec_fixed 9 fraction ++ char 90).
    rewrite digit_run_app, length_dec_fixed by (apply dec_fixed_digits || by intros c [= <-]).
    cbn [Nat.eqb Nat.ltb Nat.leb orb]. unfold fraction_value.
    rewrite (take_app_length' (dec_fixed 9 fraction) (char 90)) by (by rewrite length_dec_fixed).
    rewrite take_app_length' by (by rewrite length_dec_fixed). rewrite decimal_value_fixed by done. done. }
  unfold reject_if at 1. rewrite Hlen, bool_decide_eq_true_2 by done. cbn [Nat.ltb Nat.leb negb orb mbind Result_bind].
  unfold reject_if at 1, char_at. rewrite !bool_decide_eq_true_2 by done. cbn [negb orb].
  rewrite Hfrac. cbn [mbind Result_bind Nat.eqb negb reject_if].
  destruct (Z.ltb_spec month 1), (Z.ltb_spec 12 month), (Z.ltb_spec day 1), (Z.ltb_spec 31 day),
    (Z.ltb_spec 23 hour), (Z.ltb_spec 59 minute), (Z.ltb_spec 60 second); try lia. cbn [orb mbind Result_bind].
  fold seconds. clearbody seconds. unfold i64_max in *.
  destruct (Z.ltb_spec seconds 0); rewrite mul_u64_spec by (unfold is_u64, u64_max; lia);
    rewrite decide_True by (unfold u64_max; lia);
    match goal with |- context [?a <? ?b] => destruct (Z.ltb_spec a b); [lia|] end; f_equal; lia.
Qed.

Lemma to_iso8601_text t :
  is_i64 t ->
  exists days sod fraction,
    t = (days * 86400 + sod) * 1000000000 + fraction /\ 0 <= sod < 86400 /\ 0 <= fraction < 1000000000 /\
    -106752 <= days <= 106751 /\
    let date := civil_from_days days in
    to_iso8601 t = bytes_str (iso_text (cd_year date) (cd_month date) (cd_day date)
      (sod / 3600) (sod mod 3600 / 60) (sod mod 60) fraction).
Proof.
  intros Ht. unfold is_i64, i64_min, i64_max in Ht.
  set (sec := t / 1000000000). set (fr := t mod 1000000000). set (days := sec / 86400). set (sod := sec mod 86400).
  assert (Hfr : 0 <= fr < 1000000000) by (by apply Z.mod_pos_bound).
  assert (Hsod : 0 <= sod < 86400) by (by apply Z.mod_pos_bound).
  assert (Hsec : t = sec * 1000000000 + fr) by (unfold sec, fr; dlia).
  assert (Hdays : sec = days * 86400 + sod) by (unfold days, sod; dlia).
  exists days, sod, fr. assert (Hdr : -106752 <= days <= 106751) by lia.
  split; [lia|]. split; [done|]. split; [done|]. split; [done|]. cbv zeta. unfold to_iso8601.
  assert ((if Z.rem t 1000000000 <? 0 then (Z.quot t 1000000000 - 1, Z.rem t 1000000000 + 1000000000)
           else (Z.quot t 1000000000, Z.rem t 1000000000)) = (sec, fr)) as ->.
  { clearbody days sod. destruct (Z.ltb_spec (Z.rem t 1000000000) 0); f_equal; unfold sec, fr in *; dlia. }
  assert ((if Z.rem sec 86400 <? 0 then (Z.quot sec 86400 - 1, Z.rem sec 86400 + 86400)
           else (Z.quot sec 86400, Z.rem sec 86400)) = (days, sod)) as ->.
  { destruct (Z.ltb_spec (Z.rem sec 86400) 0); f_equal; unfold days, sod in *; clearbody sec; dlia. }
  destruct (civil_from_days_valid days) as (_ & Hm & Hd). pose proof (civil_year_bound days Hdr).
  unfold iso_text. rewrite !dec_pad_fixed by (cbn [Z.of_nat Pos.of_succ_nat]; dlia). done.
Qed.

(** Printing a timestamp and parsing the text back gives the timestamp, for every timestamp
    whose whole seconds are representable in nanoseconds (from 1677-09-21T00:12:44Z on). *)
Theorem iso8601_roundtrip t :
  is_i64 t -> - 9223372036 * 1000000000 <= t -> parse_iso8601 (to_iso8601 t) = Val t.
Proof.
  intros Ht Hlow. destruct (to_iso8601_text t Ht) as (days & sod & fr & Heq & Hsod & Hfr & Hdr & ->).
  destruct (civil_from_days_valid days) as (Hinv & Hm & Hd). pose proof (civil_year_bound days Hdr).
  unfold is_i64, i64_min, i64_max in Ht. rewrite iso_text_parse; try dlia.
  - destruct (civil_from_days days) as [y m d]. cbn [cd_year cd_month cd_day] in *. rewrite Hinv. f_equal. dlia.
  - destruct (civil_from_days days) as [y m d]. cbn [cd_year cd_month cd_day] in *. rewrite Hinv.
    unfold i64_max. dlia.
Qed.

Lemma iso8601_roundtrip_witness : parse_iso8601 (to_iso8601 1700000000123456789) = Val 1700000000123456789.
Proof. apply (iso8601_roundtrip 1700000000123456789); unfold is_i64, i64_min, i64_max; lia. Defined.

(** The range check of [parse_iso8601] covers the whole seconds but not the fraction that is
    added afterwards: the last second of the range is accepted with a fraction that takes the
    signed sum out of 64 bits. *)
Theorem parse_iso8601_fraction_overflow :
  exists v, parse_iso8601 "2262-04-11T23:47:16.999999999Z" = Val v /\ ~ is_i64 v.
Proof. eexists. split; [by vm_compute|]. unfold is_i64, i64_max. lia. Qed.
