(* ===== verification/Canonical.v ===== *)
(** * The canonical encoding of the model

    Models src/model/canonical.cpp and [Registry::digest] of src/model/registry.cpp. A writer is
    the bytes it appends, a reader a [Parser]. For each record [*_wf] is the condition under
    which its encoding reads back: the widths of its integers, the sizes of its identifiers, the
    bounds the decoder enforces. Every decoder returns only well-formed records, and reading an
    encoded well-formed record returns it; both facts are [Codec] instances. *)
From S2P Require Import Prelude Status Utf8 Bytes Ids Types Registry Hash.

Definition kMaxText : Z := limits.kMaxStringField.
Definition kModelEncodingVersion : Z := 1.

(** ** Field decoders *)
Definition decode_text : Parser string := r_blob kMaxText.

Definition decode_name (tag : NameTag) (max_length : Z) : Parser string :=
  text ← r_blob max_length; p_lift (name_parse tag text).

Definition w_enum8 `{CEnum E} (e : E) : bytes := w_u8 (enum_code e).
Definition w_enum16 `{CEnum E} (e : E) : bytes := w_u16 (enum_code e).

Definition decode_enum8 `{CEnum E} (max_value : Z) : Parser E :=
  raw ← r_u8;
  _ ← p_lift (reject_if (max_value <? raw) Outcome_Invalid "enumeration value is out of range");
  mret (enum_cast raw).

Definition decode_enum16 `{CEnum E} (max_value : Z) : Parser E :=
  raw ← r_u16;
  _ ← p_lift (reject_if (max_value <? raw) Outcome_Invalid "enumeration value is out of range");
  mret (enum_cast raw).

Definition decode_counter (max_value : Z) : Parser Z :=
  raw ← r_u64;
  _ ← p_lift (reject_if (max_value <? raw) Outcome_Overflow "counter exceeds the maximum permitted value");
  mret raw.

(** The [optional_cluster] and [optional_endpoint] lambdas of [decode_policy]. *)
Definition decode_optional_name (tag : NameTag) (max_length : Z) : Parser string :=
  text ← r_blob max_length;
  if bool_decide (text = ""%string) then mret ""%string else p_lift (name_parse tag text).

(** ** Provenance *)
Definition encode_provenance (p : Provenance) : bytes :=
  w_enum8 (pv_source p) ++ w_enum8 (pv_verification p) ++ w_i64 (pv_observed_at p) ++ w_u64 (pv_revision p) ++
  w_uuid (pv_session p) ++ w_digest (pv_evidence_digest p).

Definition decode_provenance : Parser Provenance :=
  source ← decode_enum8 5;
  verification ← decode_enum8 4;
  observed ← r_i64;
  revision ← decode_counter limits.kMaxGeneration;
  session ← r_uuid;
  digest ← r_digest;
  mret (mkProvenance source verification observed revision session digest).

(** ** Endpoints and clusters *)
Definition encode_endpoint (r : EndpointRecord) : bytes :=
  w_blob (ep_id r) ++ w_blob (ep_cluster r) ++ w_blob (ep_scope r) ++ w_u64 (ep_capacity r) ++
  w_u64 (ep_reserved r) ++ w_u64 (ep_policy_generation r) ++ w_enum8 (ep_state r) ++
  w_boolean (ep_inter_cluster_allowed r) ++ w_boolean (ep_permits_degraded r) ++
  encode_provenance (ep_provenance r).

Definition decode_endpoint : Parser EndpointRecord :=
  id ← decode_name IdTag limits.kMaxNameLength;
  cluster ← decode_name IdTag limits.kMaxNameLength;
  scope ← decode_name ScopeNameTag limits.kMaxScopeLength;
  capacity ← decode_counter limits.kMaxCapacity;
  reserved ← decode_counter limits.kMaxCapacity;
  policy ← decode_counter limits.kMaxGeneration;
  state ← decode_enum8 4;
  allowed ← r_boolean;
  degraded ← r_boolean;
  provenance ← decode_provenance;
  mret (mkEndpoint id cluster scope capacity reserved policy state allowed degraded provenance).

Definition encode_cluster (r : ClusterRecord) : bytes :=
  w_blob (cl_id r) ++ w_blob (cl_domain r) ++ w_uuid (cl_incarnation r) ++ w_u64 (cl_generation r) ++
  w_u64 (cl_policy_generation r) ++ w_enum8 (cl_state r) ++ w_boolean (cl_consent_withdrawn r) ++
  w_i64 (cl_last_seen r) ++ w_count (zlen (cl_endpoints r)) ++ concat (encode_endpoint <$> cl_endpoints r) ++
  w_digest (cl_content_digest r) ++ w_boolean (cl_generation_conflict r) ++
  w_boolean (bool_decide (is_Some (cl_conflicting_generation r))) ++
  w_u64 (default 0 (cl_conflicting_generation r)) ++ w_u64 (cl_revision r) ++
  encode_provenance (cl_provenance r) ++ w_u64 (cl_incarnation_changes r).

Definition decode_cluster : Parser ClusterRecord :=
  id ← decode_name IdTag limits.kMaxNameLength;
  domain ← decode_name IdTag limits.kMaxNameLength;
  incarnation ← r_uuid;
  generation ← decode_counter limits.kMaxGeneration;
  policy ← decode_counter limits.kMaxGeneration;
  state ← decode_enum8 4;
  withdrawn ← r_boolean;
  last_seen ← r_i64;
  endpoint_count ← r_count limits.kMaxEndpointsPerCluster;
  endpoints ← r_list (Z.to_nat endpoint_count) decode_endpoint;
  _ ← p_lift (reject_if (adjacent_duplicate (sort_endpoints endpoints)) Outcome_Invalid
                "cluster record contains a duplicate endpoint identity");
  content ← r_digest;
  conflict ← r_boolean;
  has_conflict_generation ← r_boolean;
  conflict_generation ← decode_counter limits.kMaxGeneration;
  revision ← decode_counter limits.kMaxGeneration;
  provenance ← decode_provenance;
  incarnation_changes ← decode_counter limits.kMaxGeneration;
  mret (mkCluster id domain incarnation generation policy state withdrawn last_seen (sort_endpoints endpoints)
    content conflict (if has_conflict_generation : bool then Some conflict_generation else None) revision provenance
    incarnation_changes).

(** ** Links, paths and policies *)
Definition encode_link (r : LinkRecord) : bytes :=
  w_blob (lk_id r) ++ w_blob (lk_a r) ++ w_blob (lk_b r) ++ w_enum16 (lk_kind r) ++ w_enum8 (lk_state r) ++
  w_u64 (lk_capacity r) ++ w_u64 (lk_reserved r) ++ w_u32 (lk_latency_micros r) ++ w_u64 (lk_revision r) ++
  encode_provenance (lk_provenance r).

Definition decode_link : Parser LinkRecord :=
  id ← decode_name IdTag limits.kMaxNameLength;
  a ← decode_name IdTag limits.kMaxNameLength;
  b ← decode_name IdTag limits.kMaxNameLength;
  kind ← decode_enum16 3;
  state ← decode_enum8 4;
  capacity ← decode_counter limits.kMaxCapacity;
  reserved ← decode_counter limits.kMaxCapacity;
  latency ← r_u32;
  revision ← decode_counter limits.kMaxGeneration;
  provenance ← decode_provenance;
  mret (mkLink id a b kind state capacity reserved latency revision provenance).

Definition encode_path (r : PathRecord) : bytes :=
  w_blob (pa_id r) ++ w_blob (pa_a r) ++ w_blob (pa_b r) ++ w_count (zlen (pa_hops r)) ++
  concat (w_blob <$> pa_hops r) ++ w_u64 (pa_bottleneck r) ++ w_enum8 (pa_state r) ++ w_u64 (pa_revision r) ++
  encode_provenance (pa_provenance r) ++ w_boolean (pa_contains_unsupported_edge r).

Definition decode_path : Parser PathRecord :=
  id ← decode_name IdTag limits.kMaxNameLength;
  a ← decode_name IdTag limits.kMaxNameLength;
  b ← decode_name IdTag limits.kMaxNameLength;
  hop_count ← r_count limits.kMaxPathHops;
  hops ← r_list (Z.to_nat hop_count) (decode_name IdTag limits.kMaxNameLength);
  bottleneck ← decode_counter limits.kMaxCapacity;
  state ← decode_enum8 3;
  revision ← decode_counter limits.kMaxGeneration;
  provenance ← decode_provenance;
  unsupported ← r_boolean;
  mret (mkPath id a b hops bottleneck state revision provenance unsupported).

Definition encode_policy (r : PolicyRule) : bytes :=
  w_blob (pr_id r) ++ w_blob (pr_owner r) ++ w_blob (pr_cluster_a r) ++ w_blob (pr_cluster_b r) ++
  w_blob (pr_endpoint_a r) ++ w_blob (pr_endpoint_b r) ++ w_u64 (pr_generation r) ++ w_boolean (pr_allow r) ++
  w_boolean (pr_allow_degraded r) ++ w_u64 (pr_max_capacity r) ++ w_u64 (pr_revision r) ++
  encode_provenance (pr_provenance r).

Definition decode_policy : Parser PolicyRule :=
  id ← decode_text;
  _ ← p_lift (reject_if ((slen id =? 0) || (limits.kMaxNameLength <? slen id)) Outcome_Invalid
                "policy rule identity has an invalid length");
  owner ← decode_name IdTag limits.kMaxNameLength;
  cluster_a ← decode_optional_name IdTag limits.kMaxNameLength;
  cluster_b ← decode_optional_name IdTag limits.kMaxNameLength;
  endpoint_a ← decode_optional_name IdTag limits.kMaxNameLength;
  endpoint_b ← decode_optional_name IdTag limits.kMaxNameLength;
  generation ← decode_counter limits.kMaxGeneration;
  allow ← r_boolean;
  degraded ← r_boolean;
  max_capacity ← decode_counter limits.kMaxCapacity;
  revision ← decode_counter limits.kMaxGeneration;
  provenance ← decode_provenance;
  mret (mkPolicy id owner cluster_a cluster_b endpoint_a endpoint_b generation allow degraded max_capacity revision
    provenance).

(** ** Consents and contracts *)
Definition encode_consent (c : ConsentRecord) : bytes :=
  w_blob (cs_cluster c) ++ w_blob (cs_endpoint c) ++ w_uuid (cs_incarnation c) ++ w_u64 (cs_generation c) ++
  w_u64 (cs_policy_generation c) ++ w_u64 (cs_agent_term c) ++ w_digest (cs_terms_digest c) ++
  w_enum8 (cs_decision c) ++ w_i64 (cs_decided_at c) ++ w_uuid (cs_session c) ++ w_enum8 (cs_authenticity c) ++
  w_blob (cs_reason c).

Definition decode_consent : Parser ConsentRecord :=
  cluster ← decode_name IdTag limits.kMaxNameLength;
  endpoint ← decode_name IdTag limits.kMaxNameLength;
  incarnation ← r_uuid;
  generation ← decode_counter limits.kMaxGeneration;
  policy ← decode_counter limits.kMaxGeneration;
  term ← decode_counter limits.kMaxGeneration;
  terms_digest ← r_digest;
  decision ← decode_enum8 1;
  decided_at ← r_i64;
  session ← r_uuid;
  authenticity ← decode_enum8 1;
  reason ← decode_text;
  mret (mkConsent cluster endpoint incarnation generation policy term terms_digest decision decided_at session
    authenticity reason).

Definition encode_party (p : PartyRef) : bytes :=
  w_blob (py_cluster p) ++ w_blob (py_endpoint p) ++ w_blob (py_domain p).

Definition decode_party : Parser PartyRef :=
  cluster ← decode_name IdTag limits.kMaxNameLength;
  endpoint ← decode_name IdTag limits.kMaxNameLength;
  domain ← decode_name IdTag limits.kMaxNameLength;
  mret (mkParty cluster endpoint domain).

Definition encode_optional_consent (c : option ConsentRecord) : bytes :=
  match c with Some c => w_boolean true ++ encode_consent c | None => w_boolean false end.

Definition decode_optional_consent : Parser (option ConsentRecord) :=
  present ← r_boolean;
  if present : bool then decoded ← decode_consent; mret (Some decoded) else mret None.

Definition encode_contract (r : ContractRecord) : bytes :=
  w_uuid (ct_id r) ++ encode_party (ct_parties r).1 ++ encode_party (ct_parties r).2 ++ w_u64 (ct_capacity r) ++
  w_i64 (ct_lease_duration r) ++ w_digest (ct_terms_digest r) ++ w_enum8 (ct_state r) ++
  encode_optional_consent (ct_consents r).1 ++ encode_optional_consent (ct_consents r).2 ++
  w_i64 (ct_created_at r) ++ w_i64 (ct_updated_at r) ++ w_u64 (ct_revision r) ++
  encode_provenance (ct_provenance r).

Definition decode_contract : Parser ContractRecord :=
  id ← r_uuid;
  party_a ← decode_party;
  party_b ← decode_party;
  _ ← p_lift (reject_if (bool_decide (py_cluster party_a = py_cluster party_b)) Outcome_Invalid
                "a contract must join two distinct cluster identities");
  capacity ← decode_counter limits.kMaxCapacity;
  lease ← r_i64;
  _ ← p_lift (reject_if ((lease <? 0) || (limits.kMaxDurationNanos <? lease)) Outcome_Invalid
                "contract lease duration is out of range");
  terms ← r_digest;
  state ← decode_enum8 7;
  consent_a ← decode_optional_consent;
  consent_b ← decode_optional_consent;
  created ← r_i64;
  updated ← r_i64;
  revision ← decode_counter limits.kMaxGeneration;
  provenance ← decode_provenance;
  mret (mkContract id (party_a, party_b) capacity lease terms state (consent_a, consent_b) created updated revision
    provenance).

(** ** Grants, reservations and the audit trail *)
Definition encode_grant (r : GrantRecord) : bytes :=
  w_uuid (gr_id r) ++ w_uuid (gr_contract r) ++ w_digest (gr_terms_digest r) ++ w_u64 (gr_coordinator_term r) ++
  w_uuid (gr_coordinator r) ++ w_uuid (gr_attempt r) ++
  w_uuid (gr_incarnations r).1 ++ w_u64 (gr_generations r).1 ++ w_u64 (gr_policies r).1 ++
  w_uuid (gr_incarnations r).2 ++ w_u64 (gr_generations r).2 ++ w_u64 (gr_policies r).2 ++
  w_u64 (gr_capacity r) ++ w_i64 (gr_issued_at r) ++ w_i64 (gr_valid_until r) ++ w_enum8 (gr_state r) ++
  w_boolean (gr_acknowledged r).1 ++ w_digest (gr_enforcement_digest r).1 ++
  w_boolean (gr_acknowledged r).2 ++ w_digest (gr_enforcement_digest r).2 ++
  w_u64 (gr_revalidate_attempts r) ++ w_blob (gr_note r) ++ w_u64 (gr_revision r) ++
  encode_provenance (gr_provenance r).

Definition decode_grant : Parser GrantRecord :=
  id ← r_uuid;
  contract ← r_uuid;
  terms ← r_digest;
  term ← decode_counter limits.kMaxGeneration;
  coordinator ← r_uuid;
  attempt ← r_uuid;
  incarnation_a ← r_uuid;
  generation_a ← decode_counter limits.kMaxGeneration;
  policy_a ← decode_counter limits.kMaxGeneration;
  incarnation_b ← r_uuid;
  generation_b ← decode_counter limits.kMaxGeneration;
  policy_b ← decode_counter limits.kMaxGeneration;
  capacity ← decode_counter limits.kMaxCapacity;
  issued ← r_i64;
  valid_until ← r_i64;
  state ← decode_enum8 8;
  acknowledged_a ← r_boolean;
  digest_a ← r_digest;
  acknowledged_b ← r_boolean;
  digest_b ← r_digest;
  attempts ← decode_counter (limits.kMaxRevalidateAttempts * 4096);
  note ← decode_text;
  revision ← decode_counter limits.kMaxGeneration;
  provenance ← decode_provenance;
  mret (mkGrant id contract terms term coordinator attempt (incarnation_a, incarnation_b) (generation_a, generation_b)
    (policy_a, policy_b) capacity issued valid_until state (acknowledged_a, acknowledged_b) (digest_a, digest_b)
    attempts note revision provenance).

Definition encode_reservation (r : ReservationRecord) : bytes :=
  w_uuid (rs_id r) ++ w_uuid (rs_grant r) ++ w_blob (rs_endpoint r) ++ w_blob (rs_cluster r) ++
  w_u64 (rs_amount r) ++ w_boolean (rs_released r) ++ w_i64 (rs_created_at r) ++ w_i64 (rs_released_at r) ++
  w_u64 (rs_revision r) ++ encode_provenance (rs_provenance r).

Definition decode_reservation : Parser ReservationRecord :=
  id ← r_uuid;
  grant ← r_uuid;
  endpoint ← decode_name IdTag limits.kMaxNameLength;
  cluster ← decode_name IdTag limits.kMaxNameLength;
  amount ← decode_counter limits.kMaxCapacity;
  released ← r_boolean;
  created ← r_i64;
  released_at ← r_i64;
  revision ← decode_counter limits.kMaxGeneration;
  provenance ← decode_provenance;
  mret (mkReservation id grant endpoint cluster amount released created released_at revision provenance).

Definition encode_audit (r : AuditRecord) : bytes :=
  w_u64 (au_sequence r) ++ w_i64 (au_at r) ++ w_blob (au_actor r) ++ w_blob (au_action r) ++
  w_blob (au_subject r) ++ w_enum16 (au_outcome r) ++ w_blob (au_detail r).

Definition decode_audit : Parser AuditRecord :=
  sequence ← r_u64;
  at_time ← r_i64;
  actor ← decode_text;
  action ← decode_text;
  subject ← decode_text;
  outcome ← r_u16;
  _ ← p_lift (reject_if (enum_code Outcome_Internal <? outcome) Outcome_Invalid "audit outcome is out of range");
  detail ← decode_text;
  mret (mkAudit sequence at_time actor action subject (enum_cast outcome) detail).

(** ** The registry *)
Definition encode_section {A} (enc : A -> bytes) (l : list A) : bytes := w_count (zlen l) ++ concat (enc <$> l).

Definition encode_registry (r : Registry) (include_audit : bool) : bytes :=
  w_u16 kModelEncodingVersion ++ w_boolean include_audit ++
  encode_section encode_cluster (values (rg_clusters r)) ++
  encode_section encode_link (values (rg_links r)) ++
  encode_section encode_path (values (rg_paths r)) ++
  encode_section encode_policy (values (rg_policies r)) ++
  encode_section encode_contract (values (rg_contracts r)) ++
  encode_section encode_grant (values (rg_grants r)) ++
  encode_section encode_reservation (values (rg_reservations r)) ++
  (if include_audit then encode_section encode_audit (rg_audit r) else []).

(** [for (i < n) { record = decode(reader); registry.put(record); }] *)
Fixpoint decode_puts {A} (n : nat) (dec : Parser A) (put : A -> Registry -> Result Registry) (r : Registry)
    : Parser Registry :=
  match n with
  | O => mret r
  | S n => record ← dec; r' ← p_lift (put record r); decode_puts n dec put r'
  end.

Definition decode_section {A} (bound : Z) (dec : Parser A) (put : A -> Registry -> Result Registry) (r : Registry)
    : Parser Registry :=
  count ← r_count bound; decode_puts (Z.to_nat count) dec put r.

Definition decode_registry : Parser Registry :=
  version ← r_u16;
  _ ← p_lift (reject_if (negb (version =? kModelEncodingVersion)) Outcome_Incompatible
                "model encoding version is not supported");
  include_audit ← r_boolean;
  r ← decode_section limits.kMaxClusters decode_cluster put_cluster empty_registry;
  r ← decode_section limits.kMaxEdges decode_link put_link r;
  r ← decode_section limits.kMaxPaths decode_path put_path r;
  r ← decode_section limits.kMaxPolicyRules decode_policy put_policy r;
  r ← decode_section limits.kMaxContracts decode_contract put_contract r;
  r ← decode_section limits.kMaxGrants decode_grant put_grant r;
  r ← decode_section limits.kMaxReservations decode_reservation put_reservation r;
  r ← (if include_audit : bool then decode_section limits.kMaxAuditRecords decode_audit registry_append_audit r
       else mret r);
  _ ← expect_end;
  mret r.

Definition registry_digest (r : Registry) : string := sha256_hash (encode_registry r false).

(** ** Well-formed records *)
Definition wf_counter (max v : Z) : Prop := 0 <= v <= max.
Definition wf_uuid (s : string) : Prop := slen s = kUuidSize.
Definition wf_digest (s : string) : Prop := slen s = kDigestSize.
Definition wf_text (s : string) : Prop := text_ok kMaxText s.
Definition wf_id (s : string) : Prop := valid_name IdTag s.
Definition wf_optional_id (s : string) : Prop := s = ""%string \/ wf_id s.
Abbreviation wf_gen := (wf_counter limits.kMaxGeneration).
Abbreviation wf_cap := (wf_counter limits.kMaxCapacity).

Definition provenance_wf (p : Provenance) : Prop :=
  is_i64 (pv_observed_at p) /\ wf_gen (pv_revision p) /\ wf_uuid (pv_session p) /\ wf_digest (pv_evidence_digest p).

Definition endpoint_wf (r : EndpointRecord) : Prop :=
  wf_id (ep_id r) /\ wf_id (ep_cluster r) /\ valid_name ScopeNameTag (ep_scope r) /\ wf_cap (ep_capacity r) /\
  wf_cap (ep_reserved r) /\ wf_gen (ep_policy_generation r) /\ provenance_wf (ep_provenance r).

Definition cluster_wf (r : ClusterRecord) : Prop :=
  wf_id (cl_id r) /\ wf_id (cl_domain r) /\ wf_uuid (cl_incarnation r) /\ wf_gen (cl_generation r) /\
  wf_gen (cl_policy_generation r) /\ is_i64 (cl_last_seen r) /\
  zlen (cl_endpoints r) <= limits.kMaxEndpointsPerCluster /\ Forall endpoint_wf (cl_endpoints r) /\
  StronglySorted ep_lt (cl_endpoints r) /\ wf_digest (cl_content_digest r) /\
  wf_gen (default 0 (cl_conflicting_generation r)) /\ wf_gen (cl_revision r) /\ provenance_wf (cl_provenance r) /\
  wf_gen (cl_incarnation_changes r).

Definition link_wf (r : LinkRecord) : Prop :=
  wf_id (lk_id r) /\ wf_id (lk_a r) /\ wf_id (lk_b r) /\ wf_cap (lk_capacity r) /\ wf_cap (lk_reserved r) /\
  0 <= lk_latency_micros r < 2 ^ 32 /\ wf_gen (lk_revision r) /\ provenance_wf (lk_provenance r).

Definition path_wf (r : PathRecord) : Prop :=
  wf_id (pa_id r) /\ wf_id (pa_a r) /\ wf_id (pa_b r) /\ zlen (pa_hops r) <= limits.kMaxPathHops /\
  Forall wf_id (pa_hops r) /\ wf_cap (pa_bottleneck r) /\ wf_gen (pa_revision r) /\ provenance_wf (pa_provenance r).

Definition policy_wf (r : PolicyRule) : Prop :=
  wf_text (pr_id r) /\ 0 < slen (pr_id r) <= limits.kMaxNameLength /\ wf_id (pr_owner r) /\
  wf_optional_id (pr_cluster_a r) /\ wf_optional_id (pr_cluster_b r) /\ wf_optional_id (pr_endpoint_a r) /\
  wf_optional_id (pr_endpoint_b r) /\ wf_gen (pr_generation r) /\ wf_cap (pr_max_capacity r) /\
  wf_gen (pr_revision r) /\ provenance_wf (pr_provenance r).

Definition consent_wf (c : ConsentRecord) : Prop :=
  wf_id (cs_cluster c) /\ wf_id (cs_endpoint c) /\ wf_uuid (cs_incarnation c) /\ wf_gen (cs_generation c) /\
  wf_gen (cs_policy_generation c) /\ wf_gen (cs_agent_term c) /\ wf_digest (cs_terms_digest c) /\
  is_i64 (cs_decided_at c) /\ wf_uuid (cs_session c) /\ wf_text (cs_reason c).

Definition party_wf (p : PartyRef) : Prop := wf_id (py_cluster p) /\ wf_id (py_endpoint p) /\ wf_id (py_domain p).

Definition optional_consent_wf (c : option ConsentRecord) : Prop := from_option consent_wf True c.

Definition contract_wf (r : ContractRecord) : Prop :=
  wf_uuid (ct_id r) /\ party_wf (ct_parties r).1 /\ party_wf (ct_parties r).2 /\
  py_cluster (ct_parties r).1 <> py_cluster (ct_parties r).2 /\ wf_cap (ct_capacity r) /\
  0 <= ct_lease_duration r <= limits.kMaxDurationNanos /\ wf_digest (ct_terms_digest r) /\
  optional_consent_wf (ct_consents r).1 /\ optional_consent_wf (ct_consents r).2 /\ is_i64 (ct_created_at r) /\
  is_i64 (ct_updated_at r) /\ wf_gen (ct_revision r) /\ provenance_wf (ct_provenance r).

Definition grant_wf (r : GrantRecord) : Prop :=
  wf_uuid (gr_id r) /\ wf_uuid (gr_contract r) /\ wf_digest (gr_terms_digest r) /\ wf_gen (gr_coordinator_term r) /\
  wf_uuid (gr_coordinator r) /\ wf_uuid (gr_attempt r) /\
  wf_uuid (gr_incarnations r).1 /\ wf_gen (gr_generations r).1 /\ wf_gen (gr_policies r).1 /\
  wf_uuid (gr_incarnations r).2 /\ wf_gen (gr_generations r).2 /\ wf_gen (gr_policies r).2 /\
  wf_cap (gr_capacity r) /\ is_i64 (gr_issued_at r) /\ is_i64 (gr_valid_until r) /\
  wf_digest (gr_enforcement_digest r).1 /\ wf_digest (gr_enforcement_digest r).2 /\
  wf_counter (limits.kMaxRevalidateAttempts * 4096) (gr_revalidate_attempts r) /\ wf_text (gr_note r) /\
  wf_gen (gr_revision r) /\ provenance_wf (gr_provenance r).

Definition reservation_wf (r : ReservationRecord) : Prop :=
  wf_uuid (rs_id r) /\ wf_uuid (rs_grant r) /\ wf_id (rs_endpoint r) /\ wf_id (rs_cluster r) /\
  wf_cap (rs_amount r) /\ is_i64 (rs_created_at r) /\ is_i64 (rs_released_at r) /\ wf_gen (rs_revision r) /\
  provenance_wf (rs_provenance r).

Definition audit_wf (r : AuditRecord) : Prop :=
  is_u64 (au_sequence r) /\ is_i64 (au_at r) /\ wf_text (au_actor r) /\ wf_text (au_action r) /\
  wf_text (au_subject r) /\ wf_text (au_detail r).

(** A registry every record of which can be encoded. *)
Record registry_wf (r : Registry) : Prop := mkRegistryWf {
  wf_clusters : map_Forall (fun _ => cluster_wf) (rg_clusters r);
  wf_links : map_Forall (fun _ => link_wf) (rg_links r);
  wf_paths : map_Forall (fun _ => path_wf) (rg_paths r);
  wf_policies : map_Forall (fun _ => policy_wf) (rg_policies r);
  wf_contracts : map_Forall (fun _ => contract_wf) (rg_contracts r);
  wf_grants : map_Forall (fun _ => grant_wf) (rg_grants r);
  wf_reservations : map_Forall (fun _ => reservation_wf) (rg_reservations r);
  wf_audit : Forall audit_wf (rg_audit r);
}.

(** ** Codecs of the fields *)
Lemma name_is_text tag s :
  valid_name tag s -> Forall (fun c => byte_val c < 128) (str_bytes (kExtra tag)) ->
  is_valid_utf8 (str_bytes s) = true /\ 0 < slen s <= kMaxLength tag.
Proof.
  intros (front & rest & Hs & Hl & _ & Hf)%valid_name_spec Hx. split.
  - apply ascii_text_valid. eapply Forall_impl; [exact Hf|]. intros c [Hc|Hc].
    + unfold is_alnum in Hc. rewrite !orb_true_iff, !andb_true_iff in Hc. lia.
    + unfold is_extra in Hc. apply existsb_exists in Hc as (e & He & Hce). bool_prop. subst e.
      rewrite Forall_forall in Hx. apply Hx. by apply list_elem_of_In.
  - unfold slen in *. rewrite <- length_str_bytes, Hs. cbn [length]. rewrite <- length_str_bytes, Hs in Hl.
    cbn [length] in Hl. lia.
Qed.

Lemma name_codec tag :
  Forall (fun c => byte_val c < 128) (str_bytes (kExtra tag)) -> kMaxLength tag < 2 ^ 32 ->
  Codec w_blob (decode_name tag (kMaxLength tag)) (valid_name tag).
Proof.
  intros Hx Hm. split.
  - intros s rest Hs. destruct (name_is_text _ _ Hs Hx) as [Hu Hl]. unfold decode_name. eapply run_bind.
    + apply codec_roundtrip. unfold text_ok. split_and!; [lia|done|lia].
    + by rewrite Hs.
  - intros data s rest H. unfold decode_name in H. parse_inv H. unfold p_lift in H.
    destruct (name_parse tag x) as [n| |] eqn:E; [|done..]. injection H as <- <-.
    by destruct (name_parse_Val _ _ _ E) as [-> ?].
Qed.

#[export] Instance id_codec : Codec w_blob (decode_name IdTag limits.kMaxNameLength) wf_id.
Proof. apply (name_codec IdTag); [repeat constructor|done]. Qed.

#[export] Instance scope_codec :
  Codec w_blob (decode_name ScopeNameTag limits.kMaxScopeLength) (valid_name ScopeNameTag).
Proof. apply (name_codec ScopeNameTag); [repeat constructor|done]. Qed.

#[export] Instance optional_id_codec : Codec w_blob (decode_optional_name IdTag limits.kMaxNameLength) wf_optional_id.
Proof.
  split.
  - intros s rest [->|Hs].
    { unfold decode_optional_name. eapply run_bind; [by apply codec_roundtrip|]. by rewrite bool_decide_eq_true_2. }
    pose proof (codec_roundtrip (Codec := id_codec) s rest Hs) as H. unfold decode_optional_name, decode_name in *.
    apply run_bind_inv in H as (t & d & Ht & H). eapply run_bind; [exact Ht|].
    rewrite bool_decide_eq_false_2; [done|]. intros ->. done.
  - intros data s rest H. unfold decode_optional_name in H. parse_inv H. case_bool_decide.
    + injection H as <- <-. by left.
    + right. unfold p_lift in H. destruct (name_parse IdTag x) as [n| |] eqn:E; [|done..]. injection H as <- <-.
      by destruct (name_parse_Val _ _ _ E) as [-> ?].
Qed.

#[export] Instance text_codec : Codec w_blob decode_text wf_text.
Proof.
  split.
  - intros s rest Hs. apply (codec_roundtrip (dec := r_blob kMaxText)). split; [done|].
    destruct Hs. unfold kMaxText, limits.kMaxStringField in *. lia.
  - intros data s rest H. by apply (codec_sound (dec := r_blob kMaxText)) in H as [? _].
Qed.

Lemma counter_codec max : max < 2 ^ 64 -> Codec w_u64 (decode_counter max) (wf_counter max).
Proof.
  intros Hm. split.
  - intros v rest Hv. unfold wf_counter in Hv. unfold decode_counter. eapply run_bind.
    + apply codec_roundtrip. lia.
    + apply run_reject; [lia|done].
  - intros data v rest H. unfold decode_counter in H. parse_inv H. injection H as <- <-.
    apply codec_sound in Hp. bool_prop. unfold wf_counter. cbn beta in *. lia.
Qed.

#[export] Instance gen_codec : Codec w_u64 (decode_counter limits.kMaxGeneration) (wf_counter limits.kMaxGeneration).
Proof. by apply counter_codec. Qed.
#[export] Instance cap_codec : Codec w_u64 (decode_counter limits.kMaxCapacity) (wf_counter limits.kMaxCapacity).
Proof. by apply counter_codec. Qed.
#[export] Instance attempts_codec :
  Codec w_u64 (decode_counter (limits.kMaxRevalidateAttempts * 4096)) (wf_counter (limits.kMaxRevalidateAttempts * 4096)).
Proof. by apply counter_codec. Qed.

#[export] Instance enum8_codec `{CEnum E} max :
  TCEq ((enum_max (E := E) =? max) && (max <? 256)) true ->
  Codec (w_enum8 (E := E)) (decode_enum8 max) (fun _ => True).
Proof.
  intros Hm%TCEq_eq. bool_prop. split; [|done]. intros e rest _. unfold w_enum8, decode_enum8.
  pose proof (enum_code_range e). eapply run_bind; [apply codec_roundtrip; lia|].
  apply run_reject; [lia|]. unfold mret, Parser_ret. by rewrite enum_cast_code.
Qed.

#[export] Instance enum16_codec `{CEnum E} max :
  TCEq ((enum_max (E := E) =? max) && (max <? 65536)) true ->
  Codec (w_enum16 (E := E)) (decode_enum16 max) (fun _ => True).
Proof.
  intros Hm%TCEq_eq. bool_prop. split; [|done]. intros e rest _. unfold w_enum16, decode_enum16.
  pose proof (enum_code_range e). eapply run_bind; [apply codec_roundtrip; lia|].
  apply run_reject; [lia|]. unfold mret, Parser_ret. by rewrite enum_cast_code.
Qed.

(** ** Codecs of the records

    [record_codec] reads the fields of an encoded record back one by one, and collects what the
    field decoders guarantee. *)
Ltac fields_sound :=
  repeat match goal with Hp : _ = Val _ |- _ => apply codec_sound in Hp end.
Ltac record_codec wf enc dec :=
  split;
  [ intros x rest Hx; unfold wf in Hx; destruct_and? Hx; unfold enc, dec; repeat codec_step;
    destruct x; repeat match goal with p : _ * _ |- _ => destruct p end; reflexivity
  | let H := fresh "H" in intros data x rest H; unfold dec in H; parse_inv H; injection H as <- <-;
    fields_sound; unfold wf; cbn; bool_prop; split_and?; try assumption; try lia; try (unfold slen in *; lia) ].

#[export] Instance provenance_codec : Codec encode_provenance decode_provenance provenance_wf.
Proof. record_codec provenance_wf encode_provenance decode_provenance. Qed.

#[export] Instance endpoint_codec : Codec encode_endpoint decode_endpoint endpoint_wf.
Proof. record_codec endpoint_wf encode_endpoint decode_endpoint. Qed.

#[export] Instance link_codec : Codec encode_link decode_link link_wf.
Proof. record_codec link_wf encode_link decode_link. Qed.

#[export] Instance policy_codec : Codec encode_policy decode_policy policy_wf.
Proof. record_codec policy_wf encode_policy decode_policy. Qed.

#[export] Instance consent_codec : Codec encode_consent decode_consent consent_wf.
Proof. record_codec consent_wf encode_consent decode_consent. Qed.

#[export] Instance party_codec : Codec encode_party decode_party party_wf.
Proof. record_codec party_wf encode_party decode_party. Qed.

#[export] Instance optional_consent_codec :
  Codec encode_optional_consent decode_optional_consent optional_consent_wf.
Proof.
  split.
  - intros [c|] rest Hc; unfold encode_optional_consent, decode_optional_consent; repeat codec_step; [|done].
    cbn [optional_consent_wf from_option] in Hc. repeat codec_step. done.
  - intros data x rest H. unfold decode_optional_consent in H. parse_inv H. destruct x0.
    + parse_inv H. injection H as <- <-. fields_sound. done.
    + by injection H as <- <-.
Qed.

Lemma lease_is_i64 d : 0 <= d <= limits.kMaxDurationNanos -> is_i64 d.
Proof. unfold limits.kMaxDurationNanos, is_i64, i64_min, i64_max. lia. Qed.

#[export] Instance contract_codec : Codec encode_contract decode_contract contract_wf.
Proof.
  split.
  - intros x rest Hx. unfold contract_wf in Hx. destruct_and! Hx. pose proof (lease_is_i64 (ct_lease_duration x) ltac:(done)).
    unfold encode_contract, decode_contract. repeat codec_step. destruct x as [? [] ? ? ? ? [] ? ? ? ?]. done.
  - intros data x rest H. unfold decode_contract in H. parse_inv H. injection H as <- <-.
    fields_sound. bool_prop. unfold contract_wf. cbn. split_and?; try assumption; lia.
Qed.

#[export] Instance grant_codec : Codec encode_grant decode_grant grant_wf.
Proof. record_codec grant_wf encode_grant decode_grant. Qed.

#[export] Instance reservation_codec : Codec encode_reservation decode_reservation reservation_wf.
Proof. record_codec reservation_wf encode_reservation decode_reservation. Qed.

#[export] Instance audit_codec : Codec encode_audit decode_audit audit_wf.
Proof.
  split.
  - intros x rest Hx. unfold audit_wf, is_u64, u64_max in Hx. destruct_and! Hx.
    pose proof (enum_code_range (au_outcome x)) as Hr. unfold encode_audit, decode_audit, w_enum16.
    repeat codec_step. 
    all: change (enum_max (E := Outcome)) with 25 in Hr.
    eapply run_bind; [apply codec_roundtrip; cbn beta; lia|]. apply run_reject.
    { change (enum_code Outcome_Internal) with 25. lia. }
    repeat codec_step. unfold mret, Parser_ret. rewrite enum_cast_code. by destruct x.
  - intros data x rest H. unfold decode_audit in H. parse_inv H. injection H as <- <-. fields_sound.
    unfold audit_wf, is_u64, u64_max. cbn. cbn beta in *. split_and?; try assumption; lia.
Qed.

(** A counted list inside a record. *)
Lemma run_counted {A B} (enc : A -> bytes) (dec : Parser A) dom `{!Codec enc dec dom} bound (l : list A)
    (f : list A -> Parser B) rest res :
  Forall dom l -> zlen l <= bound -> bound < 2 ^ 32 -> f l rest = res ->
  (count ← r_count bound; xs ← r_list (Z.to_nat count) dec; f xs)
    (w_count (zlen l) ++ concat (enc <$> l) ++ rest) = res.
Proof.
  intros Hf Hl Hb Hres. eapply run_bind.
  { apply codec_roundtrip. cbn beta. pose proof (zlen_nonneg l). lia. }
  unfold zlen. rewrite Nat2Z.id. eapply run_bind; [by apply (r_list_roundtrip enc dec dom)|done].
Qed.

Lemma counted_sound {A} (enc : A -> bytes) (dec : Parser A) dom `{!Codec enc dec dom} bound count data d l d' :
  r_count bound data = Val (count, d) -> r_list (Z.to_nat count) dec d = Val (l, d') ->
  zlen l <= bound /\ Forall dom l.
Proof.
  intros Hc Hl. apply codec_sound in Hc. cbn beta in Hc. apply (r_list_sound enc dec dom) in Hl as [Hn ?]. unfold zlen in *.
  split; [lia|done].
Qed.

#[export] Instance path_codec : Codec encode_path decode_path path_wf.
Proof.
  split.
  - intros x rest Hx. unfold path_wf in Hx. destruct_and! Hx. unfold encode_path, decode_path.
    do 3 codec_step. eapply (run_counted w_blob _ wf_id); [done|done|done|].
    repeat codec_step. by destruct x.
  - intros data x rest H. unfold decode_path in H. parse_inv H. injection H as <- <-.
    destruct (counted_sound w_blob _ wf_id _ _ _ _ _ _ Hp2 Hp3). fields_sound. unfold path_wf. cbn.
    split_and?; try assumption; lia.
Qed.

#[export] Instance cluster_codec : Codec encode_cluster decode_cluster cluster_wf.
Proof.
  split.
  - intros x rest Hx. unfold cluster_wf in Hx. destruct_and! Hx. unfold encode_cluster, decode_cluster.
    do 8 codec_step. eapply (run_counted encode_endpoint _ endpoint_wf); [done|done|done|].
    rewrite sort_endpoints_sorted by done. apply run_reject; [by apply sorted_no_duplicate|].
    repeat codec_step. unfold mret, Parser_ret. do 2 f_equal.
    destruct x as [? ? ? ? ? ? ? ? ? ? ? [g|] ? ? ?]; done.
  - intros data x rest H. unfold decode_cluster in H. parse_inv H. injection H as <- <-.
    destruct (counted_sound encode_endpoint _ endpoint_wf _ _ _ _ _ _ Hp7 Hp8) as [Hl Hf].
    clear Hp7 Hp8. fields_sound.
    assert (Hperm : sort_endpoints x9 ≡ₚ x9) by apply merge_sort_Permutation.
    unfold cluster_wf. cbn. split_and?; try assumption.
    + unfold zlen in *. by rewrite Hperm.
    + by rewrite Hperm.
    + apply sorted_no_adjacent; [|done]. apply StronglySorted_merge_sort; apply _.
    + case_match; cbn; [done|]. unfold wf_counter, limits.kMaxGeneration. lia.
Qed.

(** ** The registry codec *)
Fixpoint put_all {A} (put : A -> Registry -> Result Registry) (l : list A) (r : Registry) : Result Registry :=
  match l with
  | [] => Val r
  | x :: l => r' ← put x r; put_all put l r'
  end.

Lemma decode_puts_encoded {A} (enc : A -> bytes) (dec : Parser A) dom `{!Codec enc dec dom} put l r r' rest :
  Forall dom l -> put_all put l r = Val r' ->
  decode_puts (length l) dec put r (concat (enc <$> l) ++ rest) = Val (r', rest).
Proof.
  intros Hf. revert r. induction Hf as [|x l Hx _ IH]; intros r H; cbn [put_all] in H.
  - by injection H as <-.
  - inv_bind H. cbn [length decode_puts fmap list_fmap concat]. rewrite <- app_assoc.
    eapply run_bind; [by apply codec_roundtrip|]. eapply run_bind; [by unfold p_lift; rewrite Ha|]. by apply IH.
Qed.

Lemma run_section {A B} (enc : A -> bytes) (dec : Parser A) dom `{!Codec enc dec dom} put bound l r r'
    (f : Registry -> Parser B) rest res :
  Forall dom l -> zlen l <= bound -> bound < 2 ^ 32 -> put_all put l r = Val r' -> f r' rest = res ->
  (x ← decode_section bound dec put r; f x) (encode_section enc l ++ rest) = res.
Proof.
  intros Hf Hl Hb Hp Hres. unfold decode_section, encode_section. rewrite <- app_assoc.
  eapply run_bind; [|exact Hres]. eapply run_bind.
  { apply codec_roundtrip. cbn beta. pose proof (zlen_nonneg l). lia. }
  unfold zlen. rewrite Nat2Z.id. by apply (decode_puts_encoded enc dec dom).
Qed.

(** Putting the records of a bounded map back, one after the other, into a registry whose map is
    still empty. *)
Section put_section.
Context {V : Type} (id : V -> string) (P : V -> Prop) (bound : Z)
  (get : Registry -> gmap string V) (set_map : gmap string V -> Registry -> Registry)
  (put : V -> Registry -> Result Registry).
Hypothesis get_set : forall m r, get (set_map m r) = m.
Hypothesis set_set : forall m m' r, set_map m (set_map m' r) = set_map m r.
Hypothesis set_get : forall r, set_map (get r) r = r.
Hypothesis put_accepts : forall v r,
  P v -> has_room (get r) (id v) bound -> put v r = Val (set_map (<[id v := v]> (get r)) r).

Lemma put_all_inserts l r :
  Forall P l -> Z.of_nat (size (get r)) + zlen l <= bound ->
  put_all put l r = Val (set_map (foldl (fun m v => <[id v := v]> m) (get r) l) r).
Proof.
  intros Hf. revert r. induction Hf as [|v l Hv _ IH]; intros r Hb; cbn [put_all foldl].
  - by rewrite set_get.
  - unfold zlen in *. cbn [length] in Hb. rewrite put_accepts; [|done|right; lia].
    cbn [mbind Result_bind]. rewrite IH.
    + by rewrite get_set, set_set.
    + rewrite get_set. pose proof (map_size_insert_le (get r) (id v) v (S (size (get r))) ltac:(lia) ltac:(lia)). lia.
Qed.

Lemma foldl_insert_ids (l : list (string * V)) (m : gmap string V) :
  Forall (fun p => id p.2 = p.1) l ->
  foldl (fun acc v => <[id v := v]> acc) m l.*2 = foldl (fun acc p => <[p.1 := p.2]> acc) m l.
Proof.
  intros H. revert m. induction H as [|[k v] l Hk _ IH]; intros m; [done|]. cbn in *. by rewrite Hk, IH.
Qed.

Lemma put_all_values m r :
  map_ok id P bound m -> get r = ∅ -> put_all put (values m) r = Val (set_map m r).
Proof.
  intros [Hf Hs] He.
  assert (Hall : Forall (fun p => id p.2 = p.1 /\ P p.2) (entries m)).
  { apply Forall_forall. intros [k v] Hin. by apply elem_of_entries, Hf in Hin. }
  rewrite put_all_inserts.
  - f_equal. f_equal. rewrite He. unfold values. rewrite foldl_insert_ids.
    + rewrite foldl_insert_entries by apply entries_keys_NoDup.
      by rewrite map_union_empty, list_to_map_entries.
    + eapply Forall_impl; [exact Hall|]. naive_solver.
  - unfold values. apply Forall_fmap. eapply Forall_impl; [exact Hall|]. naive_solver.
  - rewrite He, map_size_empty. unfold zlen. rewrite length_values. lia.
Qed.
End put_section.

Lemma put_all_audit l r :
  rg_audit r = [] -> audit_ok l -> Forall audit_wf l -> put_all registry_append_audit l r = Val (with_audit l r).
Proof.
  intros He [Hl Hc] Hw.
  assert (Hgen : forall l2 l1, l1 ++ l2 = l -> forall r', r' = with_audit l1 r ->
            put_all registry_append_audit l2 r' = Val (with_audit l r)).
  { induction l2 as [|a l2 IH]; intros l1 Heq r' ->; cbn [put_all].
    - rewrite app_nil_r in Heq. by subst.
    - rewrite append_audit_accepts; cbn [with_audit rg_audit mbind Result_bind].
      + apply (IH (l1 ++ [a])); [by rewrite <- app_assoc|done].
      + subst l. unfold zlen in *. rewrite length_app in Hl. cbn [length] in Hl. lia.
      + rewrite Forall_forall in Hw. destruct (Hw a) as [[_ ?] _]; [subst l; set_solver|done].
      + intros b Hb. destruct (length l1) as [|n] eqn:Hn; [by destruct l1|].
        rewrite last_lookup, Hn in Hb. cbn [pred] in Hb. apply (Hc n b a); subst l.
        * by rewrite lookup_app_l by (apply lookup_lt_Some in Hb; lia).
        * rewrite lookup_app_r by lia. by rewrite Hn, Nat.sub_diag. }
  apply (Hgen l []); [done|]. destruct r. cbn in *. by subst.
Qed.

Lemma values_Forall {V} (P : V -> Prop) (m : gmap string V) : map_Forall (fun _ => P) m -> Forall P (values m).
Proof. intros H. apply Forall_forall. intros v [k Hk]%elem_of_values. by apply (H k v). Qed.

Lemma zlen_values {V} id (P : V -> Prop) bound (m : gmap string V) : map_ok id P bound m -> zlen (values m) <= bound.
Proof. intros [_ H]. unfold zlen. by rewrite length_values. Qed.

Ltac put_all_by accepts := apply put_all_values; [done|done|by intros []|apply accepts].

Lemma put_all_clusters m r :
  map_ok cl_id cluster_ok limits.kMaxClusters m -> rg_clusters r = ∅ -> put_all put_cluster (values m) r = Val (with_clusters m r).
Proof. put_all_by put_cluster_accepts. Qed.
Lemma put_all_links m r :
  map_ok lk_id link_ok limits.kMaxEdges m -> rg_links r = ∅ -> put_all put_link (values m) r = Val (with_links m r).
Proof. put_all_by put_link_accepts. Qed.
Lemma put_all_paths m r :
  map_ok pa_id path_ok limits.kMaxPaths m -> rg_paths r = ∅ -> put_all put_path (values m) r = Val (with_paths m r).
Proof. put_all_by put_path_accepts. Qed.
Lemma put_all_policies m r :
  map_ok pr_id policy_ok limits.kMaxPolicyRules m -> rg_policies r = ∅ -> put_all put_policy (values m) r = Val (with_policies m r).
Proof. put_all_by put_policy_accepts. Qed.
Lemma put_all_contracts m r :
  map_ok ct_id contract_ok limits.kMaxContracts m -> rg_contracts r = ∅ -> put_all put_contract (values m) r = Val (with_contracts m r).
Proof. put_all_by put_contract_accepts. Qed.
Lemma put_all_grants m r :
  map_ok gr_id grant_ok limits.kMaxGrants m -> rg_grants r = ∅ -> put_all put_grant (values m) r = Val (with_grants m r).
Proof. put_all_by put_grant_accepts. Qed.
Lemma put_all_reservations m r :
  map_ok rs_id reservation_ok limits.kMaxReservations m -> rg_reservations r = ∅ -> put_all put_reservation (values m) r = Val (with_reservations m r).
Proof. put_all_by put_reservation_accepts. Qed.

Ltac section_step lem :=
  eapply run_section; [apply _|by apply values_Forall|by eapply zlen_values|done|by apply lem|].

Lemma decode_encode_registry r include_audit :
  registry_ok r -> registry_wf r ->
  decode_registry (encode_registry r include_audit) = Val (if include_audit then r else with_audit [] r, []).
Proof.
  intros [] []. unfold decode_registry, encode_registry. rewrite <- (app_nil_r (if include_audit then _ else _)).
  eapply run_bind; [by apply codec_roundtrip|]. apply run_reject; [done|].
  eapply run_bind; [by apply codec_roundtrip|].
  section_step put_all_clusters. section_step put_all_links. section_step put_all_paths.
  section_step put_all_policies. section_step put_all_contracts. section_step put_all_grants.
  section_step put_all_reservations. destruct include_audit.
  - eapply run_section; [apply _|done|by destruct ok_audit|done|by apply put_all_audit|]. by destruct r.
  - done.
Qed.

(** A property of the registry that every put of a decoded record keeps holds of a decoded registry. *)
Lemma decode_puts_inv {A} (P : Registry -> Prop) (enc : A -> bytes) (dec : Parser A) dom `{!Codec enc dec dom}
    put n r data r' rest :
  (forall x a b, dom x -> P a -> put x a = Val b -> P b) ->
  P r -> decode_puts n dec put r data = Val (r', rest) -> P r'.
Proof.
  intros Hput. revert r data. induction n as [|n IH]; intros r data Hr H; cbn [decode_puts] in H.
  - by injection H as <- <-.
  - parse_inv H. unfold p_lift in Hp0. destruct (put x r) as [r1| |] eqn:E; [|done..].
    injection Hp0 as <- <-. eapply IH; [|exact H]. eapply Hput; [|done|exact E]. by apply codec_sound in Hp.
Qed.

Lemma decode_section_inv {A} (P : Registry -> Prop) (enc : A -> bytes) (dec : Parser A) dom `{!Codec enc dec dom}
    put bound r data r' rest :
  (forall x a b, dom x -> P a -> put x a = Val b -> P b) ->
  P r -> decode_section bound dec put r data = Val (r', rest) -> P r'.
Proof. intros Hput Hr H. unfold decode_section in H. parse_inv H. by eapply decode_puts_inv. Qed.

Section decoded.
Context (P : Registry -> Prop) (Hempty : P empty_registry).
Context (Hcluster : forall x a b, cluster_wf x -> P a -> put_cluster x a = Val b -> P b).
Context (Hlink : forall x a b, link_wf x -> P a -> put_link x a = Val b -> P b).
Context (Hpath : forall x a b, path_wf x -> P a -> put_path x a = Val b -> P b).
Context (Hpolicy : forall x a b, policy_wf x -> P a -> put_policy x a = Val b -> P b).
Context (Hcontract : forall x a b, contract_wf x -> P a -> put_contract x a = Val b -> P b).
Context (Hgrant : forall x a b, grant_wf x -> P a -> put_grant x a = Val b -> P b).
Context (Hreservation : forall x a b, reservation_wf x -> P a -> put_reservation x a = Val b -> P b).
Context (Haudit : forall x a b, audit_wf x -> P a -> registry_append_audit x a = Val b -> P b).

Lemma decode_registry_inv data r rest : decode_registry data = Val (r, rest) -> P r /\ rest = [].
Proof.
  intros H. unfold decode_registry in H. parse_inv H. injection H as <- <-.
  pose proof (decode_section_inv P _ _ _ _ _ _ _ _ _ Hcluster Hempty Hp2) as K1.
  pose proof (decode_section_inv P _ _ _ _ _ _ _ _ _ Hlink K1 Hp3) as K2.
  pose proof (decode_section_inv P _ _ _ _ _ _ _ _ _ Hpath K2 Hp4) as K3.
  pose proof (decode_section_inv P _ _ _ _ _ _ _ _ _ Hpolicy K3 Hp5) as K4.
  pose proof (decode_section_inv P _ _ _ _ _ _ _ _ _ Hcontract K4 Hp6) as K5.
  pose proof (decode_section_inv P _ _ _ _ _ _ _ _ _ Hgrant K5 Hp7) as K6.
  pose proof (decode_section_inv P _ _ _ _ _ _ _ _ _ Hreservation K6 Hp8) as K7.
  unfold expect_end in Hp10. destruct d8; [|done]. simplify_eq. split; [|done].
  destruct x1; [by apply (decode_section_inv P _ _ _ _ _ _ _ _ _ Haudit K7 Hp9)|].
  injection Hp9 as <- _. done.
Qed.
End decoded.

(** Decoding only produces registries that satisfy the invariant. *)
Lemma decode_registry_ok data r rest : decode_registry data = Val (r, rest) -> registry_ok r /\ rest = [].
Proof.
  apply decode_registry_inv; [apply empty_registry_ok|intros x a b _..].
  - apply put_cluster_ok.
  - apply put_link_ok.
  - apply put_path_ok.
  - apply put_policy_ok.
  - apply put_contract_ok.
  - apply put_grant_ok.
  - apply put_reservation_ok.
  - apply append_audit_ok.
Qed.

(** C26. The canonical encoding is lossless: a registry that satisfies the invariant and whose
    records are well formed is read back exactly from its encoding with the audit trail, and
    without its audit trail from the encoding the authorization digest covers. Whatever bytes
    are read, an accepted registry satisfies the invariant and no byte is left over. *)
Theorem registry_roundtrip r :
  registry_ok r -> registry_wf r ->
  decode_registry (encode_registry r true) = Val (r, []) /\
  decode_registry (encode_registry r false) = Val (with_audit [] r, []) /\
  (forall data r' rest, decode_registry data = Val (r', rest) -> registry_ok r' /\ rest = []).
Proof.
  intros Hok Hwf. split; [by apply (decode_encode_registry r true)|].
  split; [by apply (decode_encode_registry r false)|]. apply decode_registry_ok.
Qed.

(** Two registries with the same digest input have the same authorization state: the
    encoding under the digest is injective on everything but the audit trail. *)
Theorem registry_encoding_injective r1 r2 :
  registry_ok r1 -> registry_wf r1 -> registry_ok r2 -> registry_wf r2 ->
  encode_registry r1 false = encode_registry r2 false -> with_audit [] r1 = with_audit [] r2.
Proof.
  intros O1 W1 O2 W2 Heq. pose proof (decode_encode_registry r1 false O1 W1) as H1.
  pose proof (decode_encode_registry r2 false O2 W2) as H2. rewrite Heq, H2 in H1. congruence.
Qed.
