(* ===== verification/Terms.v ===== *)
(** * Contract terms

    Models include/icf/model/terms.hpp and src/model/terms.cpp: what both sides consent to, its
    canonical encoding and the digest a consent binds. *)
From S2P Require Import Prelude Status Utf8 Bytes Ids Types Registry Hash Canonical.

Record ContractTerms := mkTerms {
  tm_parties : PartyRef * PartyRef;
  tm_capacity : Z;
  tm_lease_duration : Z;
  tm_incarnations : string * string;
  tm_generations : Z * Z;
  tm_policies : Z * Z;
  tm_proposed_at : Z;
}.

Definition terms_side_of (t : ContractTerms) (cluster : string) : option bool :=
  parties_side_of (tm_parties t) cluster.

Definition terms_validate (t : ContractTerms) : Result unit :=
  let p := (tm_parties t).1 in
  let q := (tm_parties t).2 in
  _ ← reject_if (bool_decide (py_cluster p = ""%string) || bool_decide (py_cluster q = ""%string))
        Outcome_Invalid "contract terms require two cluster identities";
  _ ← reject_if (bool_decide (py_cluster p = py_cluster q)) Outcome_Invalid
        "contract terms must join two distinct clusters";
  _ ← reject_if (bool_decide (py_endpoint p = ""%string) || bool_decide (py_endpoint q = ""%string))
        Outcome_Invalid "contract terms require two endpoint scopes";
  _ ← reject_if (bool_decide (py_domain p = ""%string) || bool_decide (py_domain q = ""%string))
        Outcome_Invalid "contract terms require two authority domains";
  _ ← reject_if (limits.kMaxCapacity <? tm_capacity t) Outcome_Overflow
        "contract capacity exceeds the maximum supported value";
  _ ← reject_if ((tm_lease_duration t <? 0) || (limits.kMaxDurationNanos <? tm_lease_duration t))
        Outcome_Invalid "contract lease duration is out of range";
  reject_if (bool_decide (py_domain p = py_domain q)) Outcome_Unsupported
    "both endpoints are governed by one authority domain: two-sided consent is not available".

Definition encode_terms (t : ContractTerms) : bytes :=
  encode_party (tm_parties t).1 ++ encode_party (tm_parties t).2 ++ w_u64 (tm_capacity t) ++
  w_i64 (tm_lease_duration t) ++ w_uuid (tm_incarnations t).1 ++ w_uuid (tm_incarnations t).2 ++
  w_u64 (tm_generations t).1 ++ w_u64 (tm_generations t).2 ++ w_u64 (tm_policies t).1 ++
  w_u64 (tm_policies t).2 ++ w_i64 (tm_proposed_at t).

(** A counter of the terms, with the message of its own check. *)
Definition r_terms_counter (what : string) : Parser Z :=
  value ← r_u64;
  _ ← p_lift (reject_if (limits.kMaxGeneration <? value) Outcome_Overflow what);
  mret value.

Definition decode_terms : Parser ContractTerms :=
  party_a ← decode_party;
  party_b ← decode_party;
  capacity ← r_u64;
  _ ← p_lift (reject_if (limits.kMaxCapacity <? capacity) Outcome_Overflow
                "contract capacity exceeds the maximum supported value");
  lease ← r_i64;
  _ ← p_lift (reject_if ((lease <? 0) || (limits.kMaxDurationNanos <? lease)) Outcome_Invalid
                "contract lease duration is out of range");
  incarnation_a ← r_uuid;
  incarnation_b ← r_uuid;
  generation_a ← r_terms_counter "generation exceeds the maximum supported value";
  generation_b ← r_terms_counter "generation exceeds the maximum supported value";
  policy_a ← r_terms_counter "policy generation exceeds the maximum supported value";
  policy_b ← r_terms_counter "policy generation exceeds the maximum supported value";
  proposed ← r_i64;
  mret (mkTerms (party_a, party_b) capacity lease (incarnation_a, incarnation_b) (generation_a, generation_b)
    (policy_a, policy_b) proposed).

Definition terms_digest (t : ContractTerms) : string := sha256_hash (encode_terms t).

Definition terms_wf (t : ContractTerms) : Prop :=
  party_wf (tm_parties t).1 /\ party_wf (tm_parties t).2 /\ wf_cap (tm_capacity t) /\
  0 <= tm_lease_duration t <= limits.kMaxDurationNanos /\
  wf_uuid (tm_incarnations t).1 /\ wf_uuid (tm_incarnations t).2 /\
  wf_gen (tm_generations t).1 /\ wf_gen (tm_generations t).2 /\
  wf_gen (tm_policies t).1 /\ wf_gen (tm_policies t).2 /\ is_i64 (tm_proposed_at t).

#[export] Instance terms_counter_codec what : Codec w_u64 (r_terms_counter what) (wf_counter limits.kMaxGeneration).
Proof.
  split.
  - intros v rest Hv. unfold wf_counter, limits.kMaxGeneration in Hv. unfold r_terms_counter. eapply run_bind.
    + apply codec_roundtrip. lia.
    + apply run_reject; [unfold limits.kMaxGeneration; lia|done].
  - intros data v rest H. unfold r_terms_counter in H. parse_inv H. injection H as <- <-.
    apply codec_sound in Hp. bool_prop. unfold wf_counter. cbn beta in *. lia.
Qed.

#[export] Instance terms_codec : Codec encode_terms decode_terms terms_wf.
Proof.
  split.
  - intros x rest Hx. unfold terms_wf in Hx. destruct_and! Hx.
    pose proof (lease_is_i64 (tm_lease_duration x) ltac:(done)).
    unfold encode_terms, decode_terms. do 2 codec_step.
    assert (Hc : wf_cap (tm_capacity x)) by done. unfold wf_counter, limits.kMaxCapacity in Hc.
    rewrite <- ?app_assoc. eapply run_bind; [apply codec_roundtrip; cbn beta; lia|].
    apply run_reject; [unfold limits.kMaxCapacity; lia|].
    repeat codec_step. destruct x as [[] ? ? [] [] [] ?]. done.
  - intros data x rest H. unfold decode_terms in H. parse_inv H. injection H as <- <-.
    fields_sound. bool_prop. unfold terms_wf, wf_counter. cbn. cbn beta in *. split_and?; try assumption; try lia;
    unfold wf_counter in *; lia.
Qed.

(** The encoding under the terms digest is injective: two well-formed terms with the same
    bytes agree on the parties, the capacity, the lease, the incarnations and the generations,
    so a consent that names the digest input binds all of them; and the decoder returns them. *)
Theorem terms_encoding_binds t1 t2 :
  terms_wf t1 -> terms_wf t2 ->
  decode_terms (encode_terms t1) = Val (t1, []) /\ (encode_terms t1 = encode_terms t2 -> t1 = t2).
Proof.
  intros H1 H2. pose proof (codec_roundtrip (enc := encode_terms) t1 [] H1) as E1.
  pose proof (codec_roundtrip (enc := encode_terms) t2 [] H2) as E2. rewrite app_nil_r in E1, E2.
  split; [done|]. intros Heq. rewrite Heq, E2 in E1. congruence.
Qed.

(** [ContractTerms::validate] accepts exactly the terms that name two distinct clusters, two
    endpoints and two distinct authority domains, within the capacity and lease bounds. *)
Theorem terms_validate_spec t :
  let p := (tm_parties t).1 in
  let q := (tm_parties t).2 in
  terms_validate t = Val tt <->
  Forall (fun s => s <> ""%string)
    [py_cluster p; py_cluster q; py_endpoint p; py_endpoint q; py_domain p; py_domain q] /\
  py_cluster p <> py_cluster q /\ py_domain p <> py_domain q /\
  tm_capacity t <= limits.kMaxCapacity /\ 0 <= tm_lease_duration t <= limits.kMaxDurationNanos.
Proof.
  cbv zeta. rewrite !Forall_cons, Forall_nil. split.
  - intros H. unfold terms_validate in H. do 6 inv_bind H.
    repeat match goal with K : reject_if _ _ _ = Val _ |- _ => apply reject_if_Val in K end.
    bool_prop. split_and!; done || lia.
  - intros ((? & ? & ? & ? & ? & ? & _) & ? & ? & ? & ?). unfold terms_validate.
    rewrite !bool_decide_eq_false_2 by done.
    destruct (Z.ltb_spec limits.kMaxCapacity (tm_capacity t)); [lia|].
    destruct (Z.ltb_spec (tm_lease_duration t) 0); [lia|].
    destruct (Z.ltb_spec limits.kMaxDurationNanos (tm_lease_duration t)); [lia|done].
Qed.
