(* ===== verification/Policy.v ===== *)
(** * Policy evaluation

    Models include/icf/model/policy.hpp and src/model/policy.cpp. Both authority domains of a
    directed pair must allow it with rules of their current policy generation; one refusal
    suffices to refuse. *)
From Stdlib Require Import Btauto.
From S2P Require Import Prelude Status Bytes Ids Types Registry.

Inductive PolicyDecision :=
  | PolicyDecision_Allowed | PolicyDecision_RefusedExplicitly | PolicyDecision_MissingAllowRule
  | PolicyDecision_StaleGeneration | PolicyDecision_Unsupported.
#[export] Instance PolicyDecision_eq_dec : EqDecision PolicyDecision.
Proof. solve_decision. Defined.

Record PolicyEvaluation := mkEvaluation {
  pe_decision : PolicyDecision;
  pe_rule_ids : list string;
  pe_missing_domains : list string;
  pe_refusing_domains : list string;
  pe_allow_degraded : bool;
  pe_max_capacity : Z;
  pe_detail : string;
}.

Record DomainRules := mkDomainRules {
  dr_has_allow : bool;
  dr_has_refuse : bool;
  dr_allow_degraded : bool;
  dr_max_capacity : Z;
  dr_has_capacity_limit : bool;
  dr_stale : bool;
  dr_allow_ids : list string;
  dr_refuse_ids : list string;
}.

Definition domain_rules_default : DomainRules := mkDomainRules false false true 0 false false [] [].

Definition absorb (t : DomainRules) (rule : PolicyRule) (generation_current : bool) : DomainRules :=
  if negb generation_current then
    mkDomainRules (dr_has_allow t) (dr_has_refuse t) (dr_allow_degraded t) (dr_max_capacity t)
      (dr_has_capacity_limit t) true (dr_allow_ids t) (dr_refuse_ids t)
  else if negb (pr_allow rule) then
    mkDomainRules (dr_has_allow t) true (dr_allow_degraded t) (dr_max_capacity t)
      (dr_has_capacity_limit t) (dr_stale t) (dr_allow_ids t) (dr_refuse_ids t ++ [pr_id rule])
  else
    let tighter := negb (pr_max_capacity rule =? 0) &&
                   (negb (dr_has_capacity_limit t) || (pr_max_capacity rule <? dr_max_capacity t)) in
    mkDomainRules true (dr_has_refuse t) (dr_allow_degraded t && pr_allow_degraded rule)
      (if tighter then pr_max_capacity rule else dr_max_capacity t)
      (if tighter then true else dr_has_capacity_limit t)
      (dr_stale t) (dr_allow_ids t ++ [pr_id rule]) (dr_refuse_ids t).

Section evaluation.
Context (source target : ClusterRecord) (endpoint_a endpoint_b : string).

Definition owned_here (rule : PolicyRule) : bool :=
  bool_decide (pr_owner rule = cl_domain source) || bool_decide (pr_owner rule = cl_domain target).

Definition rule_applies (rule : PolicyRule) : bool :=
  owned_here rule && rule_matches rule (cl_id source) (cl_id target) endpoint_a endpoint_b.

Definition generation_current (rule : PolicyRule) : bool :=
  let stale_source := bool_decide (pr_owner rule = cl_domain source) &&
    negb (bool_decide (pr_cluster_a rule = ""%string)) && bool_decide (pr_cluster_a rule = cl_id source) &&
    negb (pr_generation rule =? cl_policy_generation source) in
  let stale_target := bool_decide (pr_owner rule = cl_domain target) &&
    negb (bool_decide (pr_cluster_b rule = ""%string)) && bool_decide (pr_cluster_b rule = cl_id target) &&
    negb (pr_generation rule =? cl_policy_generation target) in
  if stale_target then false else if stale_source then false else true.

(** The loop over the registered rules. *)
Definition absorb_rule (per_domain : gmap string DomainRules) (rule : PolicyRule) : gmap string DomainRules :=
  if negb (owned_here rule) then per_domain
  else if negb (rule_matches rule (cl_id source) (cl_id target) endpoint_a endpoint_b) then per_domain
  else <[pr_owner rule := absorb (default domain_rules_default (per_domain !! pr_owner rule)) rule
                            (generation_current rule)]> per_domain.

Definition initial_domains : gmap string DomainRules :=
  <[cl_domain target := domain_rules_default]> (<[cl_domain source := domain_rules_default]> ∅).

(** The loop over the domains: the evaluation so far, [any_refuse] and [any_stale]. *)
Definition summarise (acc : PolicyEvaluation * bool * bool) (entry : string * DomainRules)
    : PolicyEvaluation * bool * bool :=
  let '(result, any_refuse, any_stale) := acc in
  let rules := entry.2 in
  let ids1 := if dr_has_refuse rules then pe_rule_ids result ++ dr_refuse_ids rules else pe_rule_ids result in
  let refusing := if dr_has_refuse rules then pe_refusing_domains result ++ [entry.1] else pe_refusing_domains result in
  let any_refuse := any_refuse || dr_has_refuse rules in
  if negb (dr_has_allow rules) then
    (mkEvaluation (pe_decision result) ids1 (pe_missing_domains result ++ [entry.1]) refusing
       (pe_allow_degraded result) (pe_max_capacity result) (pe_detail result),
     any_refuse, any_stale || dr_stale rules)
  else
    (mkEvaluation (pe_decision result) (ids1 ++ dr_allow_ids rules) (pe_missing_domains result) refusing
       (pe_allow_degraded result && dr_allow_degraded rules)
       (if dr_has_capacity_limit rules &&
           ((pe_max_capacity result =? 0) || (dr_max_capacity rules <? pe_max_capacity result))
        then dr_max_capacity rules else pe_max_capacity result) (pe_detail result),
     any_refuse, any_stale).

(** [std::sort], then [std::unique] and [erase]. *)
Fixpoint unique_adjacent (l : list string) : list string :=
  match l with
  | a :: ((b :: _) as l') => if bool_decide (a = b) then unique_adjacent l' else a :: unique_adjacent l'
  | _ => l
  end.

Definition evaluate_policy (registry : Registry) : PolicyEvaluation :=
  let per_domain := foldl absorb_rule initial_domains (values (rg_policies registry)) in
  let start := mkEvaluation PolicyDecision_MissingAllowRule [] [] [] true 0 "" in
  let '(result, any_refuse, any_stale) := foldl summarise (start, false, false) (entries per_domain) in
  let '(decision, detail) :=
    if any_refuse : bool then
      (PolicyDecision_RefusedExplicitly,
       "an explicit refuse rule from at least one authority domain covers this pair"%string)
    else if negb (bool_decide (pe_missing_domains result = [])) then
      if any_stale : bool then
        (PolicyDecision_StaleGeneration, "only rules bound to a superseded policy generation match this pair"%string)
      else (PolicyDecision_MissingAllowRule, "no allow rule covers this pair from every authority domain"%string)
    else (PolicyDecision_Allowed, "both authority domains explicitly allow this pair"%string) in
  mkEvaluation decision (unique_adjacent (merge_sort String.le (pe_rule_ids result))) (pe_missing_domains result)
    (pe_refusing_domains result) (pe_allow_degraded result) (pe_max_capacity result) detail.

(** ** Declarative reading *)
(** A registered rule that speaks about the pair for one of its domains. *)
Definition speaks (registry : Registry) (rule : PolicyRule) : Prop :=
  (exists k, rg_policies registry !! k = Some rule) /\ rule_applies rule = true.

Definition current_allow (registry : Registry) (domain : string) (rule : PolicyRule) : Prop :=
  speaks registry rule /\ pr_owner rule = domain /\ generation_current rule = true /\ pr_allow rule = true.

Definition current_refusal (registry : Registry) (rule : PolicyRule) : Prop :=
  speaks registry rule /\ generation_current rule = true /\ pr_allow rule = false.

Definition superseded (registry : Registry) (domain : string) (rule : PolicyRule) : Prop :=
  speaks registry rule /\ pr_owner rule = domain /\ generation_current rule = false.

Definition pair_domain (domain : string) : Prop := domain = cl_domain source \/ domain = cl_domain target.
End evaluation.

(** ** Lemmas *)
Section evaluation_facts.
Context (source target : ClusterRecord) (endpoint_a endpoint_b : string).
Abbreviation applies := (rule_applies source target endpoint_a endpoint_b).
Abbreviation current := (generation_current source target).
Abbreviation step := (absorb_rule source target endpoint_a endpoint_b).

(** What the loop does to the entry of one domain. *)
Definition of_domain (d : string) (rule : PolicyRule) : bool := applies rule && bool_decide (pr_owner rule = d).
Definition domain_view (d : string) (l : list PolicyRule) (t : DomainRules) : DomainRules :=
  foldl (fun t rule => if of_domain d rule then absorb t rule (current rule) else t) t l.

Definition allows (d : string) (rule : PolicyRule) : bool := of_domain d rule && current rule && pr_allow rule.
Definition refuses (d : string) (rule : PolicyRule) : bool := of_domain d rule && current rule && negb (pr_allow rule).
Definition stale (d : string) (rule : PolicyRule) : bool := of_domain d rule && negb (current rule).

Lemma step_lookup m rule d :
  is_Some (m !! cl_domain source) -> is_Some (m !! cl_domain target) ->
  step m rule !! d = (fun t => if of_domain d rule then absorb t rule (current rule) else t) <$> m !! d /\
  is_Some (step m rule !! cl_domain source) /\ is_Some (step m rule !! cl_domain target).
Proof.
  intros Hs Ht. unfold absorb_rule, of_domain, rule_applies.
  destruct (owned_here source target rule) eqn:Ho; cbn [negb andb]; [|split_and!; try done; by destruct (m !! d)].
  destruct (rule_matches _ _ _ _ _); cbn [negb andb]; [|split_and!; try done; by destruct (m !! d)].
  assert (Hown : is_Some (m !! pr_owner rule)).
  { unfold owned_here in Ho. apply orb_true_iff in Ho as [Ho|Ho]; bool_prop; by rewrite Ho. }
  destruct Hown as [t Hown]. rewrite Hown. cbn [default]. split_and!.
  - destruct (decide (pr_owner rule = d)) as [<-|Hne].
    + by rewrite lookup_insert_eq, Hown, bool_decide_eq_true_2.
    + rewrite lookup_insert_ne, bool_decide_eq_false_2 by done. by destruct (m !! d).
  - destruct (decide (pr_owner rule = cl_domain source)) as [->|]; [by rewrite lookup_insert_eq|by rewrite lookup_insert_ne].
  - destruct (decide (pr_owner rule = cl_domain target)) as [->|]; [by rewrite lookup_insert_eq|by rewrite lookup_insert_ne].
Qed.

Lemma fold_lookup l m d :
  is_Some (m !! cl_domain source) -> is_Some (m !! cl_domain target) ->
  foldl step m l !! d = domain_view d l <$> m !! d.
Proof.
  revert m. induction l as [|rule l IH]; intros m Hs Ht; cbn [foldl].
  - unfold domain_view. by destruct (m !! d).
  - destruct (step_lookup m rule d Hs Ht) as (Hl & Hs' & Ht'). rewrite IH, Hl by done. by destruct (m !! d).
Qed.

Lemma view_bits d l t :
  dr_has_allow (domain_view d l t) = dr_has_allow t || existsb (allows d) l /\
  dr_has_refuse (domain_view d l t) = dr_has_refuse t || existsb (refuses d) l /\
  dr_stale (domain_view d l t) = dr_stale t || existsb (stale d) l /\
  dr_allow_degraded (domain_view d l t) =
    dr_allow_degraded t && forallb (fun r => negb (allows d r) || pr_allow_degraded r) l.
Proof.
  revert t. induction l as [|rule l IH]; intros t; cbn [existsb forallb].
  { unfold domain_view. cbn [foldl]. by rewrite !orb_false_r, andb_true_r. }
  change (domain_view d (rule :: l) t)
    with (domain_view d l (if of_domain d rule then absorb t rule (current rule) else t)).
  destruct (IH (if of_domain d rule then absorb t rule (current rule) else t)) as (-> & -> & -> & ->).
  generalize (existsb (allows d) l) (existsb (refuses d) l) (existsb (stale d) l)
    (forallb (fun r => negb (allows d r) || pr_allow_degraded r) l). intros b1 b2 b3 b4.
  unfold allows, refuses, stale, absorb.
  destruct (of_domain d rule), (current rule), (pr_allow rule); cbn; split_and!; btauto.
Qed.

(** The capacities named by the current allow rules of a domain; 0 names none. *)
Definition limits_capacity (d : string) (l : list PolicyRule) (c : Z) : Prop :=
  exists rule, rule ∈ l /\ allows d rule = true /\ pr_max_capacity rule = c /\ c <> 0.

(** [c] is the least of the capacities in [C], or there is none. *)
Definition least (limited : bool) (c : Z) (C : Z -> Prop) : Prop :=
  if limited then C c /\ (forall c', C c' -> c <= c') else forall c', ~ C c'.

Lemma view_capacity d l :
  let t := domain_view d l domain_rules_default in
  least (dr_has_capacity_limit t) (dr_max_capacity t) (limits_capacity d l).
Proof.
  induction l as [|rule l IH] using rev_ind; cbv zeta.
  { intros c' (r & Hr & _). by apply not_elem_of_nil in Hr. }
  unfold domain_view in *. rewrite foldl_app. cbn [foldl]. set (t := foldl _ domain_rules_default l) in *.
  cbv zeta in IH. assert (Hkeep : forall c, limits_capacity d l c -> limits_capacity d (l ++ [rule]) c).
  { intros c (r & Hr & ?). exists r. split; [set_solver|done]. }
  assert (Hsplit : forall c, limits_capacity d (l ++ [rule]) c ->
            limits_capacity d l c \/ (allows d rule = true /\ pr_max_capacity rule = c /\ c <> 0)).
  { intros c (r & [Hr|Hr]%elem_of_app & Ha & Hc & Hz); [left; by exists r|].
    apply list_elem_of_singleton in Hr as ->. by right. }
  assert (Hsame : (allows d rule = true -> pr_max_capacity rule = 0) ->
            least (dr_has_capacity_limit t) (dr_max_capacity t) (limits_capacity d (l ++ [rule]))).
  { intros Hz. unfold least in *. destruct (dr_has_capacity_limit t).
    - destruct IH as [H1 H2]. split; [by apply Hkeep|]. intros c [Hc|(Ha & Hc & Hn)]%Hsplit; [by apply H2|].
      exfalso. apply Hn. rewrite <- Hc. auto.
    - intros c [Hc|(Ha & Hc & Hn)]%Hsplit; [by apply (IH c)|]. apply Hn. rewrite <- Hc. auto. }
  unfold allows in Hsplit, Hsame. destruct (of_domain d rule) eqn:Hd; cbn [andb] in *; [|by apply Hsame].
  unfold absorb. destruct (current rule) eqn:Hcur; cbn [negb andb] in *; [|by apply Hsame].
  destruct (pr_allow rule) eqn:Hallow; cbn [negb andb] in *; [|by apply Hsame].
  cbn [dr_has_capacity_limit dr_max_capacity].
  destruct (Z.eqb_spec (pr_max_capacity rule) 0) as [Hz|Hz]; cbn [negb andb]; [by apply Hsame|].
  assert (Hnew : limits_capacity d (l ++ [rule]) (pr_max_capacity rule)).
  { exists rule. unfold allows. rewrite Hd, Hcur, Hallow. split_and!; [set_solver|done..]. }
  unfold least in IH |- *. destruct (dr_has_capacity_limit t); cbn [negb orb].
  - destruct IH as [H1 H2]. destruct (Z.ltb_spec (pr_max_capacity rule) (dr_max_capacity t)).
    + split; [done|]. intros c [Hc|(_ & <- & _)]%Hsplit; [apply H2 in Hc; lia|lia].
    + split; [by apply Hkeep|]. intros c [Hc|(_ & <- & _)]%Hsplit; [by apply H2|lia].
  - split; [done|]. intros c [Hc|(_ & <- & _)]%Hsplit; [by apply IH in Hc|lia].
Qed.

(** The domains loop, on the entries it has seen. *)
Definition summary_ok (l : list (string * DomainRules)) (acc : PolicyEvaluation * bool * bool) : Prop :=
  let '(result, any_refuse, any_stale) := acc in
  any_refuse = existsb (fun e => dr_has_refuse e.2) l /\
  any_stale = existsb (fun e => negb (dr_has_allow e.2) && dr_stale e.2) l /\
  (pe_missing_domains result = [] <-> Forall (fun e => dr_has_allow e.2 = true) l) /\
  pe_allow_degraded result = forallb (fun e => negb (dr_has_allow e.2) || dr_allow_degraded e.2) l.

Lemma summarise_ok l acc e :
  summary_ok l acc -> summary_ok (l ++ [e]) (summarise acc e).
Proof.
  destruct acc as [[result any_refuse] any_stale]. intros (-> & -> & Hm & Hd).
  unfold summarise. destruct e as [d rules]. cbn [fst snd].
  destruct (dr_has_allow rules) eqn:Ha; cbn [negb summary_ok pe_missing_domains pe_allow_degraded];
    rewrite !existsb_app, forallb_app, Forall_app; cbn [existsb forallb snd]; rewrite Ha, ?Hd; cbn [negb andb orb].
  - split_and!; [btauto|btauto| |btauto]. rewrite Hm, Forall_singleton. cbn. naive_solver.
  - split_and!; [btauto|btauto| |btauto]. rewrite Forall_singleton. cbn [snd]. rewrite Ha.
    split; [by intros []%app_nil|]. by intros [_ ?].
Qed.

Lemma fold_summary_ok l start :
  summary_ok [] start -> summary_ok l (foldl summarise start l).
Proof.
  intros H. induction l as [|e l IH] using rev_ind; [done|]. rewrite foldl_app. by apply summarise_ok.
Qed.

Definition domains_of (registry : Registry) : gmap string DomainRules :=
  foldl step (initial_domains source target) (values (rg_policies registry)).

Lemma domains_of_entry registry e :
  e ∈ entries (domains_of registry) <->
  pair_domain source target e.1 /\ e.2 = domain_view e.1 (values (rg_policies registry)) domain_rules_default.
Proof.
  destruct e as [d t]. cbn [fst snd]. rewrite elem_of_entries. unfold domains_of, initial_domains.
  rewrite fold_lookup.
  - unfold pair_domain. destruct (decide (d = cl_domain target)) as [->|Ht]; [rewrite lookup_insert_eq; naive_solver|].
    rewrite lookup_insert_ne by done.
    destruct (decide (d = cl_domain source)) as [->|Hs]; [rewrite lookup_insert_eq; naive_solver|].
    rewrite lookup_insert_ne by done. rewrite lookup_empty. naive_solver.
  - destruct (decide (cl_domain target = cl_domain source)) as [->|]; [by rewrite lookup_insert_eq|].
    rewrite lookup_insert_ne by done. by rewrite lookup_insert_eq.
  - by rewrite lookup_insert_eq.
Qed.

Lemma existsb_entries registry (f : string * DomainRules -> bool) :
  existsb f (entries (domains_of registry)) = true <->
  exists d, pair_domain source target d /\
    f (d, domain_view d (values (rg_policies registry)) domain_rules_default) = true.
Proof.
  rewrite existsb_exists. setoid_rewrite <- list_elem_of_In. setoid_rewrite domains_of_entry. split.
  - intros ([d t] & (Hd & Ht) & Hf). cbn in *. subst t. eauto.
  - intros (d & Hd & Hf). eexists. split; [split|exact Hf]; done.
Qed.

Lemma existsb_rules registry (f : PolicyRule -> bool) :
  existsb f (values (rg_policies registry)) = true <->
  exists rule, (exists k, rg_policies registry !! k = Some rule) /\ f rule = true.
Proof. rewrite existsb_exists. setoid_rewrite <- list_elem_of_In. by setoid_rewrite elem_of_values. Qed.

Lemma allows_iff registry d rule :
  (exists k, rg_policies registry !! k = Some rule) /\ allows d rule = true <->
  current_allow source target endpoint_a endpoint_b registry d rule.
Proof.
  unfold allows, of_domain, current_allow, speaks. rewrite !andb_true_iff, bool_decide_eq_true. tauto.
Qed.

Lemma applies_pair_domain rule : applies rule = true -> pair_domain source target (pr_owner rule).
Proof.
  unfold rule_applies, owned_here, pair_domain. rewrite !andb_true_iff, orb_true_iff, !bool_decide_eq_true. tauto.
Qed.

(** The view of a domain, in terms of the registered rules. *)
Lemma view_allow_iff registry d :
  dr_has_allow (domain_view d (values (rg_policies registry)) domain_rules_default) = true <->
  exists rule, current_allow source target endpoint_a endpoint_b registry d rule.
Proof.
  destruct (view_bits d (values (rg_policies registry)) domain_rules_default) as (-> & _). cbn [dr_has_allow domain_rules_default orb].
  rewrite existsb_rules. by setoid_rewrite allows_iff.
Qed.

Lemma any_refuse_iff registry :
  existsb (fun e => dr_has_refuse e.2) (entries (domains_of registry)) = true <->
  exists rule, current_refusal source target endpoint_a endpoint_b registry rule.
Proof.
  rewrite existsb_entries. cbn [snd]. split.
  - intros (d & _ & Hr). destruct (view_bits d (values (rg_policies registry)) domain_rules_default) as (_ & Hb & _).
    rewrite Hb in Hr. cbn [dr_has_refuse domain_rules_default orb] in Hr. apply existsb_rules in Hr as (rule & Hk & Hr).
    exists rule. unfold refuses, of_domain in Hr. bool_prop. done.
  - intros (rule & [Hk Ha] & Hc & Hf). exists (pr_owner rule). split; [by apply applies_pair_domain|].
    destruct (view_bits (pr_owner rule) (values (rg_policies registry)) domain_rules_default) as (_ & -> & _).
    cbn [dr_has_refuse domain_rules_default orb]. apply existsb_rules. exists rule. split; [done|].
    unfold refuses, of_domain. by rewrite Ha, Hc, Hf, bool_decide_eq_true_2.
Qed.

Lemma any_stale_iff registry :
  existsb (fun e => negb (dr_has_allow e.2) && dr_stale e.2) (entries (domains_of registry)) = true <->
  exists d rule, superseded source target endpoint_a endpoint_b registry d rule /\
    ~ (exists rule', current_allow source target endpoint_a endpoint_b registry d rule').
Proof.
  rewrite existsb_entries. cbn [snd]. split.
  - intros (d & _ & Hr). apply andb_true_iff in Hr as [Hna Hst]. apply negb_true_iff in Hna.
    destruct (view_bits d (values (rg_policies registry)) domain_rules_default) as (_ & _ & Hb & _).
    rewrite Hb in Hst. cbn [dr_stale domain_rules_default orb] in Hst. apply existsb_rules in Hst as (rule & Hk & Hr).
    exists d, rule. unfold stale, of_domain in Hr. bool_prop. split; [done|].
    rewrite <- view_allow_iff, Hna. done.
  - intros (d & rule & ([Hk Ha] & Hd & Hc) & Hn). exists d. subst d. split; [by apply applies_pair_domain|].
    rewrite <- view_allow_iff in Hn. apply not_true_is_false in Hn. rewrite Hn. cbn [negb andb].
    destruct (view_bits (pr_owner rule) (values (rg_policies registry)) domain_rules_default) as (_ & _ & -> & _).
    cbn [dr_stale domain_rules_default orb]. apply existsb_rules. exists rule. split; [done|].
    unfold stale, of_domain. by rewrite Ha, Hc, bool_decide_eq_true_2.
Qed.

Lemma all_allow_iff registry :
  Forall (fun e => dr_has_allow e.2 = true) (entries (domains_of registry)) <->
  forall d, pair_domain source target d -> exists rule, current_allow source target endpoint_a endpoint_b registry d rule.
Proof.
  rewrite Forall_forall. setoid_rewrite domains_of_entry. setoid_rewrite <- view_allow_iff. split.
  - intros H d Hd. apply (H (d, domain_view d (values (rg_policies registry)) domain_rules_default)). done.
  - intros H [d t] [Hd Ht]. cbn in *. subst t. by apply H.
Qed.

Lemma degraded_iff registry :
  (forall d, pair_domain source target d -> exists rule, current_allow source target endpoint_a endpoint_b registry d rule) ->
  forallb (fun e => negb (dr_has_allow e.2) || dr_allow_degraded e.2) (entries (domains_of registry)) = true <->
  forall d rule, current_allow source target endpoint_a endpoint_b registry d rule -> pr_allow_degraded rule = true.
Proof.
  intros Hall. rewrite forallb_forall. setoid_rewrite <- list_elem_of_In. setoid_rewrite domains_of_entry. split.
  - intros H d rule Hr. pose proof Hr as Hr'. apply allows_iff in Hr' as [[k Hk] Ha].
    assert (Hd : pair_domain source target d).
    { destruct Hr as ([_ Happ] & <- & _). by apply applies_pair_domain. }
    specialize (H (d, domain_view d (values (rg_policies registry)) domain_rules_default) (conj Hd eq_refl)).
    cbn [snd] in H. rewrite (proj2 (view_allow_iff registry d) (Hall d Hd)) in H. cbn [negb orb] in H.
    destruct (view_bits d (values (rg_policies registry)) domain_rules_default) as (_ & _ & _ & Hb).
    rewrite Hb in H. cbn [dr_allow_degraded domain_rules_default andb] in H. rewrite forallb_forall in H.
    specialize (H rule). rewrite <- list_elem_of_In, elem_of_values in H. specialize (H (ex_intro _ k Hk)).
    by rewrite Ha in H.
  - intros H [d t] [Hd Ht]. cbn in *. subst t. apply orb_true_iff. right.
    destruct (view_bits d (values (rg_policies registry)) domain_rules_default) as (_ & _ & _ & ->).
    cbn [dr_allow_degraded domain_rules_default andb]. apply forallb_forall. intros rule Hin.
    apply list_elem_of_In, elem_of_values in Hin. destruct (allows d rule) eqn:Ha; [|done]. cbn [negb orb].
    apply (H d). by apply allows_iff.
Qed.
End evaluation_facts.

Ltac decide_case Kd :=
  refine (conj _ (conj _ (conj _ (conj _ Kd)))); (split; [try (intros [=]); intros; tauto | tauto]) || (split; [tauto|done]).

(** C25. Policy evaluation is the declarative rule: one current refusal by either domain refuses;
    otherwise the pair is allowed exactly when each domain has a current allow rule; otherwise the
    answer is stale exactly when some domain without a current allow rule has a superseded rule for
    the pair, and unauthorized in the remaining case. Degraded paths are permitted exactly when
    every current allow rule permits them. *)
Theorem evaluate_policy_spec registry source target ea eb :
  let e := evaluate_policy source target ea eb registry in
  let refused := exists rule, current_refusal source target ea eb registry rule in
  let covered := forall d, pair_domain source target d ->
    exists rule, current_allow source target ea eb registry d rule in
  let only_stale := exists d rule, superseded source target ea eb registry d rule /\
    ~ (exists rule', current_allow source target ea eb registry d rule') in
  (pe_decision e = PolicyDecision_RefusedExplicitly <-> refused) /\
  (pe_decision e = PolicyDecision_Allowed <-> ~ refused /\ covered) /\
  (pe_decision e = PolicyDecision_StaleGeneration <-> ~ refused /\ only_stale) /\
  (pe_decision e = PolicyDecision_MissingAllowRule <-> ~ refused /\ ~ covered /\ ~ only_stale) /\
  (covered -> pe_allow_degraded e = true <->
     forall d rule, current_allow source target ea eb registry d rule -> pr_allow_degraded rule = true).
Proof.
  cbv zeta. unfold evaluate_policy. fold (domains_of source target ea eb registry).
  set (start := mkEvaluation _ _ _ _ _ _ _).
  pose proof (fold_summary_ok (entries (domains_of source target ea eb registry)) (start, false, false)
    ltac:(unfold summary_ok; cbn; split_and!; try done)) as Hs.
  destruct (foldl summarise _ _) as [[result any_refuse] any_stale]. destruct Hs as (Hr & Hst & Hm & Hd).
  pose proof (any_refuse_iff source target ea eb registry) as Kr. rewrite <- Hr in Kr.
  pose proof (any_stale_iff source target ea eb registry) as Kst. rewrite <- Hst in Kst.
  rewrite all_allow_iff in Hm. pose proof (degraded_iff source target ea eb registry) as Kd. rewrite <- Hd in Kd.
  assert (Hex : (exists d rule, superseded source target ea eb registry d rule /\
            ~ (exists rule', current_allow source target ea eb registry d rule')) ->
          ~ (forall d, pair_domain source target d -> exists rule, current_allow source target ea eb registry d rule)).
  { intros (d & rule & ([_ Happ] & <- & _) & Hn) Hc. apply Hn, Hc. by eapply applies_pair_domain. }
  destruct any_refuse; cbn [pe_decision pe_allow_degraded].
  { assert (Hrf : exists rule, current_refusal source target ea eb registry rule) by (by apply Kr).
    decide_case Kd. }
  assert (Hnr : ~ exists rule, current_refusal source target ea eb registry rule) by (by rewrite <- Kr).
  destruct (bool_decide (pe_missing_domains result = [])) eqn:Hb; bool_prop; cbn [negb].
  { rewrite Hm in Hb. cbn [pe_decision pe_allow_degraded]. decide_case Kd. }
  rewrite Hm in Hb. destruct any_stale; cbn [pe_decision pe_allow_degraded].
  - assert (Hs' := proj1 Kst eq_refl). decide_case Kd.
  - assert (Hs' : ~ _) by (intros K; by apply Kst in K). decide_case Kd.
Qed.

(** ** The capacity limit *)
Definition entry_limits (l : list (string * DomainRules)) (c : Z) : Prop :=
  exists e, e ∈ l /\ dr_has_allow e.2 = true /\ dr_has_capacity_limit e.2 = true /\ dr_max_capacity e.2 = c.

Definition capacity_ok (l : list (string * DomainRules)) (acc : PolicyEvaluation * bool * bool) : Prop :=
  let c := pe_max_capacity acc.1.1 in least (negb (c =? 0)) c (entry_limits l).

Lemma summarise_capacity l acc e :
  (dr_has_capacity_limit e.2 = true -> dr_max_capacity e.2 <> 0) ->
  capacity_ok l acc -> capacity_ok (l ++ [e]) (summarise acc e).
Proof.
  intros Hnz H. destruct acc as [[result any_refuse] any_stale]. unfold capacity_ok in *. cbn [fst] in H.
  assert (Hkeep : forall c, entry_limits l c -> entry_limits (l ++ [e]) c).
  { intros c (x & Hx & ?). exists x. split; [set_solver|done]. }
  assert (Hsplit : forall c, entry_limits (l ++ [e]) c -> entry_limits l c \/
            (dr_has_allow e.2 = true /\ dr_has_capacity_limit e.2 = true /\ dr_max_capacity e.2 = c)).
  { intros c (x & [Hx|Hx]%elem_of_app & ?); [left; by exists x|]. apply list_elem_of_singleton in Hx as ->. by right. }
  unfold summarise. destruct e as [d rules]. cbn [fst snd] in *.
  destruct (dr_has_allow rules) eqn:Ha; cbn [negb fst pe_max_capacity].
  2: { unfold least in *. destruct (negb _); [|intros c [Hc|[? _]]%Hsplit; [by apply (H c)|done]].
       destruct H as [H1 H2]. split; [by apply Hkeep|]. intros c [Hc|[? _]]%Hsplit; [by apply H2|done]. }
  destruct (dr_has_capacity_limit rules) eqn:Hl; cbn [andb].
  2: { unfold least in *. destruct (negb _); [|intros c [Hc|(? & ? & _)]%Hsplit; [by apply (H c)|done]].
       destruct H as [H1 H2]. split; [by apply Hkeep|]. intros c [Hc|(? & ? & _)]%Hsplit; [by apply H2|done]. }
  assert (Hnew : entry_limits (l ++ [(d, rules)]) (dr_max_capacity rules)).
  { exists (d, rules). cbn. split; [set_solver|done]. }
  specialize (Hnz eq_refl). unfold least in *.
  destruct (Z.eqb_spec (pe_max_capacity result) 0) as [Hz|Hz]; cbn [negb orb] in *.
  - rewrite (proj2 (Z.eqb_neq _ _) Hnz). cbn [negb]. split; [done|].
    intros c [Hc|(_ & _ & <-)]%Hsplit; [by apply H in Hc|lia].
  - destruct H as [H1 H2]. destruct (Z.ltb_spec (dr_max_capacity rules) (pe_max_capacity result)).
    + rewrite (proj2 (Z.eqb_neq _ _) Hnz). cbn [negb]. split; [done|].
      intros c [Hc|(_ & _ & <-)]%Hsplit; [apply H2 in Hc; lia|lia].
    + rewrite (proj2 (Z.eqb_neq _ _) Hz). cbn [negb]. split; [by apply Hkeep|].
      intros c [Hc|(_ & _ & <-)]%Hsplit; [by apply H2|lia].
Qed.

Lemma fold_capacity l start :
  Forall (fun e => dr_has_capacity_limit e.2 = true -> dr_max_capacity e.2 <> 0) l ->
  capacity_ok [] start -> capacity_ok l (foldl summarise start l).
Proof.
  intros Hf H. induction l as [|e l IH] using rev_ind; [done|].
  apply Forall_app in Hf as [Hf He]. rewrite Forall_singleton in He. rewrite foldl_app. cbn [foldl].
  apply summarise_capacity; [exact He|]. by apply IH.
Qed.

(** The capacity limit of an evaluation is the least non-zero limit named by a current allow
    rule of either domain, and 0 exactly when none names one. *)
Theorem evaluate_policy_capacity registry source target ea eb :
  let c := pe_max_capacity (evaluate_policy source target ea eb registry) in
  let limit rule := exists d, current_allow source target ea eb registry d rule /\ pr_max_capacity rule <> 0 in
  (c <> 0 -> exists rule, limit rule /\ pr_max_capacity rule = c) /\
  (forall rule, limit rule -> c <> 0 /\ c <= pr_max_capacity rule).
Proof.
  cbv zeta. unfold evaluate_policy. fold (domains_of source target ea eb registry).
  set (start := mkEvaluation _ _ _ _ _ _ _). set (es := entries (domains_of source target ea eb registry)).
  assert (Hview : forall e, e ∈ es -> least (dr_has_capacity_limit e.2) (dr_max_capacity e.2)
            (limits_capacity source target ea eb e.1 (values (rg_policies registry)))).
  { intros e He. apply domains_of_entry in He as [_ ->]. apply view_capacity. }
  assert (Hnz : Forall (fun e => dr_has_capacity_limit e.2 = true -> dr_max_capacity e.2 <> 0) es).
  { apply Forall_forall. intros e He Hl. apply Hview in He. rewrite Hl in He. by destruct He as [(? & _ & _ & _ & ?) _]. }
  assert (H0 : capacity_ok [] (start, false, false)).
  { unfold capacity_ok. cbn. intros c (? & ?%not_elem_of_nil & _). done. }
  pose proof (fold_capacity es (start, false, false) Hnz H0) as Hc.
  destruct (foldl summarise _ _) as [[result any_refuse] any_stale]. unfold capacity_ok in Hc. cbn [fst] in Hc.
  assert (Hmax : forall dd, pe_max_capacity (let '(decision, detail) := dd in
            mkEvaluation decision (unique_adjacent (merge_sort String.le (pe_rule_ids result)))
              (pe_missing_domains result) (pe_refusing_domains result) (pe_allow_degraded result)
              (pe_max_capacity result) detail) = pe_max_capacity result) by (by intros []).
  rewrite Hmax. clear Hmax.
  assert (Hin : forall d, pair_domain source target d ->
    (d, domain_view source target ea eb d (values (rg_policies registry)) domain_rules_default) ∈ es).
  { intros d Hd. by apply domains_of_entry. }
  split.
  - intros Hne. rewrite (proj2 (Z.eqb_neq _ _) Hne) in Hc. destruct Hc as [(e & He & _ & Hl & <-) _].
    specialize (Hview e He). rewrite Hl in Hview. destruct Hview as [(rule & Hr & Ha & Hm & Hz) _].
    apply elem_of_values in Hr. exists rule. split; [|done]. exists e.1.
    split; [by apply allows_iff|congruence].
  - intros rule (d & Hr & Hz). pose proof Hr as Hr'. apply allows_iff in Hr' as [Hk Ha]. apply elem_of_values in Hk.
    assert (Hd : pair_domain source target d).
    { destruct Hr as ([_ Happ] & <- & _). by eapply applies_pair_domain. }
    specialize (Hin d Hd). pose proof (Hview _ Hin) as Hv. cbn [fst snd] in Hv.
    set (t := domain_view _ _ _ _ _ _ _) in *.
    assert (Hlim : limits_capacity source target ea eb d (values (rg_policies registry)) (pr_max_capacity rule)).
    { exists rule. done. }
    destruct (dr_has_capacity_limit t) eqn:Hl; [|by apply Hv in Hlim].
    destruct Hv as [_ Hle]. specialize (Hle _ Hlim).
    assert (He : entry_limits es (dr_max_capacity t)).
    { exists (d, t). split_and!; [done| |done|done]. apply view_allow_iff. eauto. }
    destruct (Z.eqb_spec (pe_max_capacity result) 0) as [Hz'|Hz']; cbn [negb] in Hc; [by apply Hc in He|].
    split; [done|]. destruct Hc as [_ Hc]. apply Hc in He. lia.
Qed.
