(* ===== verification/Decision.v ===== *)
(** * Authorization decisions and fence plans: data and codecs

    Models include/icf/model/decision.hpp and src/model/decision.cpp. Field prefixes: [dq_]
    DecisionQuery, [de_] Decision, [fa_] FenceAction, [fp_] FencePlan, [ac_] AccountingEntry,
    [co_] CoordinatorStatus. *)
From S2P Require Import Prelude Status Utf8 Bytes Ids Types Registry Hash Canonical.

Inductive ReasonCode :=
  | ReasonCode_None | ReasonCode_EndpointsAreIdentical | ReasonCode_SourceEndpointNotRegistered
  | ReasonCode_TargetEndpointNotRegistered | ReasonCode_SourceEndpointSuspended
  | ReasonCode_TargetEndpointSuspended | ReasonCode_SourceEndpointRefused | ReasonCode_TargetEndpointRefused
  | ReasonCode_ResourceUnknown | ReasonCode_ResourceUnsupported | ReasonCode_ResourceUnreachable
  | ReasonCode_ResourcePartitioned | ReasonCode_PolicyAllowed | ReasonCode_PolicyRefused
  | ReasonCode_PolicyMissingAllow | ReasonCode_PolicyStaleGeneration | ReasonCode_ClusterUnknown
  | ReasonCode_ClusterSuspended | ReasonCode_ClusterDraining | ReasonCode_ClusterRetired
  | ReasonCode_ClusterGenerationConflict | ReasonCode_ClusterConsentWithdrawn
  | ReasonCode_IncarnationMismatch | ReasonCode_GenerationStale | ReasonCode_PolicyGenerationStale
  | ReasonCode_NoContract | ReasonCode_ContractNotConsented | ReasonCode_ContractRefused
  | ReasonCode_ContractWithdrawn | ReasonCode_ContractExpired | ReasonCode_ContractFenced
  | ReasonCode_ConsentMismatch | ReasonCode_ConsentUnauthenticated | ReasonCode_NoGrant
  | ReasonCode_GrantNotCommitted | ReasonCode_GrantNotAcknowledged | ReasonCode_GrantIndeterminate
  | ReasonCode_GrantFenced | ReasonCode_GrantExpired | ReasonCode_GrantTermMismatch
  | ReasonCode_GrantNeedsRevalidation | ReasonCode_GrantCapacityExceeded | ReasonCode_PathAbsent
  | ReasonCode_PathUnsupported | ReasonCode_PathDown | ReasonCode_PathDegraded
  | ReasonCode_PathNotPermittedDegraded | ReasonCode_LinkUnsupported | ReasonCode_LinkDown
  | ReasonCode_LinkDegraded | ReasonCode_LinkUnknown | ReasonCode_CapacityExhausted
  | ReasonCode_EvidenceUnverified | ReasonCode_EvidenceRecoveredFromStore | ReasonCode_EvidenceIncomplete
  | ReasonCode_AuthorityRequired | ReasonCode_AuthoritySatisfied.
#[export] Instance ReasonCode_eq_dec : EqDecision ReasonCode.
Proof. solve_decision. Defined.
#[export] Program Instance ReasonCode_enum : CEnum ReasonCode :=
  {| enumerators :=
      [ReasonCode_None; ReasonCode_EndpointsAreIdentical; ReasonCode_SourceEndpointNotRegistered;
       ReasonCode_TargetEndpointNotRegistered; ReasonCode_SourceEndpointSuspended;
       ReasonCode_TargetEndpointSuspended; ReasonCode_SourceEndpointRefused;
       ReasonCode_TargetEndpointRefused; ReasonCode_ResourceUnknown; ReasonCode_ResourceUnsupported;
       ReasonCode_ResourceUnreachable; ReasonCode_ResourcePartitioned; ReasonCode_PolicyAllowed;
       ReasonCode_PolicyRefused; ReasonCode_PolicyMissingAllow; ReasonCode_PolicyStaleGeneration;
       ReasonCode_ClusterUnknown; ReasonCode_ClusterSuspended; ReasonCode_ClusterDraining;
       ReasonCode_ClusterRetired; ReasonCode_ClusterGenerationConflict; ReasonCode_ClusterConsentWithdrawn;
       ReasonCode_IncarnationMismatch; ReasonCode_GenerationStale; ReasonCode_PolicyGenerationStale;
       ReasonCode_NoContract; ReasonCode_ContractNotConsented; ReasonCode_ContractRefused;
       ReasonCode_ContractWithdrawn; ReasonCode_ContractExpired; ReasonCode_ContractFenced;
       ReasonCode_ConsentMismatch; ReasonCode_ConsentUnauthenticated; ReasonCode_NoGrant;
       ReasonCode_GrantNotCommitted; ReasonCode_GrantNotAcknowledged; ReasonCode_GrantIndeterminate;
       ReasonCode_GrantFenced; ReasonCode_GrantExpired; ReasonCode_GrantTermMismatch;
       ReasonCode_GrantNeedsRevalidation; ReasonCode_GrantCapacityExceeded; ReasonCode_PathAbsent;
       ReasonCode_PathUnsupported; ReasonCode_PathDown; ReasonCode_PathDegraded;
       ReasonCode_PathNotPermittedDegraded; ReasonCode_LinkUnsupported; ReasonCode_LinkDown;
       ReasonCode_LinkDegraded; ReasonCode_LinkUnknown; ReasonCode_CapacityExhausted;
       ReasonCode_EvidenceUnverified; ReasonCode_EvidenceRecoveredFromStore; ReasonCode_EvidenceIncomplete;
       ReasonCode_AuthorityRequired; ReasonCode_AuthoritySatisfied];
     enum_first := ReasonCode_None |}.
Solve All Obligations with solve_enum.

Definition reason_code_to_string (code : ReasonCode) : string :=
  match code with
  | ReasonCode_None => "NONE" | ReasonCode_EndpointsAreIdentical => "ENDPOINTS_ARE_IDENTICAL"
  | ReasonCode_SourceEndpointNotRegistered => "SOURCE_ENDPOINT_NOT_REGISTERED"
  | ReasonCode_TargetEndpointNotRegistered => "TARGET_ENDPOINT_NOT_REGISTERED"
  | ReasonCode_SourceEndpointSuspended => "SOURCE_ENDPOINT_SUSPENDED"
  | ReasonCode_TargetEndpointSuspended => "TARGET_ENDPOINT_SUSPENDED"
  | ReasonCode_SourceEndpointRefused => "SOURCE_ENDPOINT_REFUSED"
  | ReasonCode_TargetEndpointRefused => "TARGET_ENDPOINT_REFUSED"
  | ReasonCode_ResourceUnknown => "RESOURCE_UNKNOWN"
  | ReasonCode_ResourceUnsupported => "RESOURCE_UNSUPPORTED"
  | ReasonCode_ResourceUnreachable => "RESOURCE_UNREACHABLE"
  | ReasonCode_ResourcePartitioned => "RESOURCE_PARTITIONED" | ReasonCode_PolicyAllowed => "POLICY_ALLOWED"
  | ReasonCode_PolicyRefused => "POLICY_REFUSED" | ReasonCode_PolicyMissingAllow => "POLICY_MISSING_ALLOW"
  | ReasonCode_PolicyStaleGeneration => "POLICY_STALE_GENERATION"
  | ReasonCode_ClusterUnknown => "CLUSTER_UNKNOWN" | ReasonCode_ClusterSuspended => "CLUSTER_SUSPENDED"
  | ReasonCode_ClusterDraining => "CLUSTER_DRAINING" | ReasonCode_ClusterRetired => "CLUSTER_RETIRED"
  | ReasonCode_ClusterGenerationConflict => "CLUSTER_GENERATION_CONFLICT"
  | ReasonCode_ClusterConsentWithdrawn => "CLUSTER_CONSENT_WITHDRAWN"
  | ReasonCode_IncarnationMismatch => "INCARNATION_MISMATCH"
  | ReasonCode_GenerationStale => "GENERATION_STALE"
  | ReasonCode_PolicyGenerationStale => "POLICY_GENERATION_STALE" | ReasonCode_NoContract => "NO_CONTRACT"
  | ReasonCode_ContractNotConsented => "CONTRACT_NOT_CONSENTED"
  | ReasonCode_ContractRefused => "CONTRACT_REFUSED" | ReasonCode_ContractWithdrawn => "CONTRACT_WITHDRAWN"
  | ReasonCode_ContractExpired => "CONTRACT_EXPIRED" | ReasonCode_ContractFenced => "CONTRACT_FENCED"
  | ReasonCode_ConsentMismatch => "CONSENT_MISMATCH"
  | ReasonCode_ConsentUnauthenticated => "CONSENT_UNAUTHENTICATED" | ReasonCode_NoGrant => "NO_GRANT"
  | ReasonCode_GrantNotCommitted => "GRANT_NOT_COMMITTED"
  | ReasonCode_GrantNotAcknowledged => "GRANT_NOT_ACKNOWLEDGED"
  | ReasonCode_GrantIndeterminate => "GRANT_INDETERMINATE" | ReasonCode_GrantFenced => "GRANT_FENCED"
  | ReasonCode_GrantExpired => "GRANT_EXPIRED" | ReasonCode_GrantTermMismatch => "GRANT_TERM_MISMATCH"
  | ReasonCode_GrantNeedsRevalidation => "GRANT_NEEDS_REVALIDATION"
  | ReasonCode_GrantCapacityExceeded => "GRANT_CAPACITY_EXCEEDED" | ReasonCode_PathAbsent => "PATH_ABSENT"
  | ReasonCode_PathUnsupported => "PATH_UNSUPPORTED" | ReasonCode_PathDown => "PATH_DOWN"
  | ReasonCode_PathDegraded => "PATH_DEGRADED"
  | ReasonCode_PathNotPermittedDegraded => "PATH_NOT_PERMITTED_DEGRADED"
  | ReasonCode_LinkUnsupported => "LINK_UNSUPPORTED" | ReasonCode_LinkDown => "LINK_DOWN"
  | ReasonCode_LinkDegraded => "LINK_DEGRADED" | ReasonCode_LinkUnknown => "LINK_UNKNOWN"
  | ReasonCode_CapacityExhausted => "CAPACITY_EXHAUSTED"
  | ReasonCode_EvidenceUnverified => "EVIDENCE_UNVERIFIED"
  | ReasonCode_EvidenceRecoveredFromStore => "EVIDENCE_RECOVERED_FROM_STORE"
  | ReasonCode_EvidenceIncomplete => "EVIDENCE_INCOMPLETE"
  | ReasonCode_AuthorityRequired => "AUTHORITY_REQUIRED"
  | ReasonCode_AuthoritySatisfied => "AUTHORITY_SATISFIED"
  end.

Inductive FenceTrigger :=
  | FenceTrigger_Manual | FenceTrigger_ClusterReincarnation | FenceTrigger_ClusterWithdrawal
  | FenceTrigger_PolicyGenerationChange | FenceTrigger_CoordinatorReincarnation
  | FenceTrigger_GrantRevocation | FenceTrigger_LinkFailure | FenceTrigger_GrantExpiry.
#[export] Instance FenceTrigger_eq_dec : EqDecision FenceTrigger.
Proof. solve_decision. Defined.
#[export] Program Instance FenceTrigger_enum : CEnum FenceTrigger :=
  {| enumerators := [FenceTrigger_Manual; FenceTrigger_ClusterReincarnation; FenceTrigger_ClusterWithdrawal;
       FenceTrigger_PolicyGenerationChange; FenceTrigger_CoordinatorReincarnation;
       FenceTrigger_GrantRevocation; FenceTrigger_LinkFailure; FenceTrigger_GrantExpiry];
     enum_first := FenceTrigger_Manual |}.
Solve All Obligations with solve_enum.

Definition fence_trigger_to_string (t : FenceTrigger) : string :=
  match t with
  | FenceTrigger_Manual => "MANUAL" | FenceTrigger_ClusterReincarnation => "CLUSTER_REINCARNATION"
  | FenceTrigger_ClusterWithdrawal => "CLUSTER_WITHDRAWAL"
  | FenceTrigger_PolicyGenerationChange => "POLICY_GENERATION_CHANGE"
  | FenceTrigger_CoordinatorReincarnation => "COORDINATOR_REINCARNATION"
  | FenceTrigger_GrantRevocation => "GRANT_REVOCATION" | FenceTrigger_LinkFailure => "LINK_FAILURE"
  | FenceTrigger_GrantExpiry => "GRANT_EXPIRY"
  end.

Inductive FenceTarget := FenceTarget_Grant | FenceTarget_Contract | FenceTarget_Reservation.
#[export] Instance FenceTarget_eq_dec : EqDecision FenceTarget.
Proof. solve_decision. Defined.
#[export] Program Instance FenceTarget_enum : CEnum FenceTarget :=
  {| enumerators := [FenceTarget_Grant; FenceTarget_Contract; FenceTarget_Reservation];
     enum_first := FenceTarget_Grant |}.
Solve All Obligations with solve_enum.

Definition fence_target_to_string (t : FenceTarget) : string :=
  match t with
  | FenceTarget_Grant => "GRANT" | FenceTarget_Contract => "CONTRACT" | FenceTarget_Reservation => "RESERVATION"
  end.

Record DecisionQuery := mkQuery {
  dq_source : string;
  dq_target : string;
  dq_requested_capacity : Z;
  dq_at : Z;
  dq_allow_degraded : bool;
  dq_expect_source_generation : bool;
  dq_source_generation : Z;
  dq_expect_target_generation : bool;
  dq_target_generation : Z;
}.

Record Decision := mkDecision {
  de_outcome : Outcome;
  de_reasons : list ReasonCode;
  de_contract : string;
  de_grant : string;
  de_authorities : string * string;
  de_term : Z;
  de_coordinator : string;
  de_terms_digest : string;
  de_view_digest : string;
  de_capacity : Z;
  de_paths : list string;
  de_edges : list string;
  de_degraded : bool;
  de_decided_at : Z;
  de_detail : string;
}.

Definition authorized (d : Decision) : bool := is_authorized (de_outcome d).

Record FenceAction := mkAction {
  fa_target : FenceTarget;
  fa_grant : string;
  fa_contract : string;
  fa_reservation : string;
  fa_reason : ReasonCode;
}.

Record FencePlan := mkPlan {
  fp_trigger : FenceTrigger;
  fp_cluster : string;
  fp_incarnation : string;
  fp_previous_incarnation : string;
  fp_generation : Z;
  fp_term : Z;
  fp_view_digest : string;
  fp_actions : list FenceAction;
  fp_detail : string;
}.

Record AccountingEntry := mkAccounting {
  ac_grant : string;
  ac_contract : string;
  ac_endpoint : string;
  ac_cluster : string;
  ac_reserved : Z;
  ac_released : Z;
  ac_closed : bool;
}.

Record CoordinatorStatus := mkCoordinatorStatus {
  co_domain : string;
  co_incarnation : string;
  co_term : Z;
  co_started_at : Z;
  co_uptime_nanos : Z;
  co_view_digest : string;
  co_revision : Z;
  co_recovered_from_store : bool;
  co_recovered_records : Z;
  co_truncations_recovered : Z;
  co_clusters : Z; co_endpoints : Z; co_links : Z; co_paths : Z; co_contracts : Z;
  co_grants : Z; co_reservations : Z; co_policies : Z; co_audit : Z; co_connected_agents : Z;
  co_commits : Z; co_fences : Z; co_refusals : Z; co_revalidations : Z;
  co_rejected_replays : Z; co_rejected_frames : Z;
  co_store_path : string;
}.

(** ** Codecs *)
Definition encode_list {A} (enc : A -> bytes) (l : list A) : bytes := w_count (zlen l) ++ concat (enc <$> l).

(** [static_cast<Enum>] of a value that was compared with the last enumerator. *)
Definition r_enum16 `{CEnum E} (last : E) (what : string) : Parser E :=
  value ← r_u16;
  _ ← p_lift (reject_if (enum_code last <? value) Outcome_Invalid what);
  mret (enum_cast value).

Definition r_enum8 `{CEnum E} (last : E) (what : string) : Parser E :=
  value ← r_u8;
  _ ← p_lift (reject_if (enum_code last <? value) Outcome_Invalid what);
  mret (enum_cast value).

Definition decode_list {A} (bound : Z) (dec : Parser A) : Parser (list A) :=
  count ← r_count bound; r_list (Z.to_nat count) dec.

Definition encode_decision (d : Decision) : bytes :=
  w_enum16 (de_outcome d) ++ encode_list w_enum16 (de_reasons d) ++ w_uuid (de_contract d) ++ w_uuid (de_grant d) ++
  w_blob (de_authorities d).1 ++ w_blob (de_authorities d).2 ++ w_u64 (de_term d) ++ w_uuid (de_coordinator d) ++
  w_digest (de_terms_digest d) ++ w_digest (de_view_digest d) ++ w_u64 (de_capacity d) ++
  encode_list w_blob (de_paths d) ++ encode_list w_blob (de_edges d) ++ w_boolean (de_degraded d) ++
  w_i64 (de_decided_at d) ++ w_blob (de_detail d).

Definition decode_decision : Parser Decision :=
  outcome ← r_enum16 Outcome_Internal "decision outcome is out of range";
  reasons ← decode_list limits.kMaxDecisionReasons
    (r_enum16 ReasonCode_AuthoritySatisfied "decision reason code is out of range");
  contract ← r_uuid;
  grant ← r_uuid;
  authority_a ← decode_optional_name IdTag limits.kMaxNameLength;
  authority_b ← decode_optional_name IdTag limits.kMaxNameLength;
  term ← decode_counter limits.kMaxGeneration;
  coordinator ← r_uuid;
  terms ← r_digest;
  view ← r_digest;
  capacity ← decode_counter limits.kMaxCapacity;
  paths ← decode_list limits.kMaxDecisionPaths (decode_name IdTag limits.kMaxNameLength);
  edges ← decode_list limits.kMaxEdges (decode_name IdTag limits.kMaxNameLength);
  degraded ← r_boolean;
  decided_at ← r_i64;
  detail ← decode_text;
  mret (mkDecision outcome reasons contract grant (authority_a, authority_b) term coordinator terms view capacity
    paths edges degraded decided_at detail).

Definition encode_action (a : FenceAction) : bytes :=
  w_enum8 (fa_target a) ++ w_uuid (fa_grant a) ++ w_uuid (fa_contract a) ++ w_uuid (fa_reservation a) ++
  w_enum16 (fa_reason a).

Definition decode_action : Parser FenceAction :=
  target ← r_enum8 FenceTarget_Reservation "fence target is out of range";
  grant ← r_uuid;
  contract ← r_uuid;
  reservation ← r_uuid;
  reason ← r_enum16 ReasonCode_AuthoritySatisfied "fence reason code is out of range";
  mret (mkAction target grant contract reservation reason).

Definition encode_fence_plan (p : FencePlan) : bytes :=
  w_enum8 (fp_trigger p) ++ w_blob (fp_cluster p) ++ w_uuid (fp_incarnation p) ++ w_uuid (fp_previous_incarnation p) ++
  w_u64 (fp_generation p) ++ w_u64 (fp_term p) ++ w_digest (fp_view_digest p) ++
  encode_list encode_action (fp_actions p) ++ w_blob (fp_detail p).

Definition decode_fence_plan : Parser FencePlan :=
  trigger ← r_enum8 FenceTrigger_GrantExpiry "fence trigger is out of range";
  cluster ← decode_optional_name IdTag limits.kMaxNameLength;
  incarnation ← r_uuid;
  previous ← r_uuid;
  generation ← decode_counter limits.kMaxGeneration;
  term ← decode_counter limits.kMaxGeneration;
  view ← r_digest;
  actions ← decode_list limits.kMaxFencePlanEntries decode_action;
  detail ← decode_text;
  mret (mkPlan trigger cluster incarnation previous generation term view actions detail).

Definition encode_accounting (e : AccountingEntry) : bytes :=
  w_uuid (ac_grant e) ++ w_uuid (ac_contract e) ++ w_blob (ac_endpoint e) ++ w_blob (ac_cluster e) ++
  w_u64 (ac_reserved e) ++ w_u64 (ac_released e) ++ w_boolean (ac_closed e).

(** A name that may be absent, parsed after it was read. *)
Definition optional_name (text : string) : Result string :=
  if bool_decide (text = ""%string) then Val ""%string else name_parse IdTag text.

Definition decode_accounting : Parser AccountingEntry :=
  grant ← r_uuid;
  contract ← r_uuid;
  endpoint ← r_blob limits.kMaxNameLength;
  cluster ← r_blob limits.kMaxNameLength;
  reserved ← decode_counter limits.kMaxCapacity;
  released ← decode_counter limits.kMaxCapacity;
  closed ← r_boolean;
  endpoint ← p_lift (optional_name endpoint);
  cluster ← p_lift (optional_name cluster);
  mret (mkAccounting grant contract endpoint cluster reserved released closed).

Definition encode_status (s : CoordinatorStatus) : bytes :=
  w_blob (co_domain s) ++ w_uuid (co_incarnation s) ++ w_u64 (co_term s) ++ w_i64 (co_started_at s) ++
  w_u64 (co_uptime_nanos s) ++ w_digest (co_view_digest s) ++ w_u64 (co_revision s) ++
  w_boolean (co_recovered_from_store s) ++ w_u64 (co_recovered_records s) ++ w_u64 (co_truncations_recovered s) ++
  w_u64 (co_clusters s) ++ w_u64 (co_endpoints s) ++ w_u64 (co_links s) ++ w_u64 (co_paths s) ++
  w_u64 (co_contracts s) ++ w_u64 (co_grants s) ++ w_u64 (co_reservations s) ++ w_u64 (co_policies s) ++
  w_u64 (co_audit s) ++ w_u64 (co_connected_agents s) ++ w_u64 (co_commits s) ++ w_u64 (co_fences s) ++
  w_u64 (co_refusals s) ++ w_u64 (co_revalidations s) ++ w_u64 (co_rejected_replays s) ++
  w_u64 (co_rejected_frames s) ++ w_blob (co_store_path s).

(** [checked::to_size] accepts every value on a platform with a 64-bit [std::size_t]. *)
Definition decode_status : Parser CoordinatorStatus :=
  domain ← decode_optional_name IdTag limits.kMaxNameLength;
  incarnation ← r_uuid;
  term ← decode_counter limits.kMaxGeneration;
  started_at ← r_i64;
  uptime ← r_u64;
  view ← r_digest;
  revision ← decode_counter limits.kMaxGeneration;
  recovered ← r_boolean;
  records ← r_u64;
  truncations ← r_u64;
  clusters ← r_u64; endpoints ← r_u64; links ← r_u64; paths ← r_u64; contracts ← r_u64;
  grants ← r_u64; reservations ← r_u64; policies ← r_u64; audit ← r_u64; connected ← r_u64;
  commits ← r_u64; fences ← r_u64; refusals ← r_u64; revalidations ← r_u64;
  replays ← r_u64; frames ← r_u64;
  store ← r_blob limits.kMaxStringField;
  mret (mkCoordinatorStatus domain incarnation term started_at uptime view revision recovered records truncations
    clusters endpoints links paths contracts grants reservations policies audit connected commits fences refusals
    revalidations replays frames store).

(** ** Well-formed values *)
Definition decision_wf (d : Decision) : Prop :=
  zlen (de_reasons d) <= limits.kMaxDecisionReasons /\ wf_uuid (de_contract d) /\ wf_uuid (de_grant d) /\
  wf_optional_id (de_authorities d).1 /\ wf_optional_id (de_authorities d).2 /\ wf_gen (de_term d) /\
  wf_uuid (de_coordinator d) /\ wf_digest (de_terms_digest d) /\ wf_digest (de_view_digest d) /\
  wf_cap (de_capacity d) /\ (Forall wf_id (de_paths d) /\ zlen (de_paths d) <= limits.kMaxDecisionPaths) /\
  (Forall wf_id (de_edges d) /\ zlen (de_edges d) <= limits.kMaxEdges) /\ is_i64 (de_decided_at d) /\
  wf_text (de_detail d).

Definition action_wf (a : FenceAction) : Prop :=
  wf_uuid (fa_grant a) /\ wf_uuid (fa_contract a) /\ wf_uuid (fa_reservation a).

Definition plan_wf (p : FencePlan) : Prop :=
  wf_optional_id (fp_cluster p) /\ wf_uuid (fp_incarnation p) /\ wf_uuid (fp_previous_incarnation p) /\
  wf_gen (fp_generation p) /\ wf_gen (fp_term p) /\ wf_digest (fp_view_digest p) /\
  (Forall action_wf (fp_actions p) /\ zlen (fp_actions p) <= limits.kMaxFencePlanEntries) /\ wf_text (fp_detail p).

Definition accounting_wf (e : AccountingEntry) : Prop :=
  wf_uuid (ac_grant e) /\ wf_uuid (ac_contract e) /\ wf_optional_id (ac_endpoint e) /\ wf_optional_id (ac_cluster e) /\
  wf_cap (ac_reserved e) /\ wf_cap (ac_released e).

Definition wf_u64 (v : Z) : Prop := 0 <= v < 2 ^ 64.

Definition status_wf (s : CoordinatorStatus) : Prop :=
  wf_optional_id (co_domain s) /\ wf_uuid (co_incarnation s) /\ wf_gen (co_term s) /\ is_i64 (co_started_at s) /\
  wf_u64 (co_uptime_nanos s) /\ wf_digest (co_view_digest s) /\ wf_gen (co_revision s) /\
  wf_u64 (co_recovered_records s) /\ wf_u64 (co_truncations_recovered s) /\ wf_u64 (co_clusters s) /\
  wf_u64 (co_endpoints s) /\ wf_u64 (co_links s) /\ wf_u64 (co_paths s) /\ wf_u64 (co_contracts s) /\
  wf_u64 (co_grants s) /\ wf_u64 (co_reservations s) /\ wf_u64 (co_policies s) /\ wf_u64 (co_audit s) /\
  wf_u64 (co_connected_agents s) /\ wf_u64 (co_commits s) /\ wf_u64 (co_fences s) /\ wf_u64 (co_refusals s) /\
  wf_u64 (co_revalidations s) /\ wf_u64 (co_rejected_replays s) /\ wf_u64 (co_rejected_frames s) /\
  wf_text (co_store_path s).

(** ** Codecs: fields *)
#[export] Instance r_enum16_codec `{CEnum E} (last : E) what :
  TCEq ((enum_code last =? enum_max (E := E)) && (enum_max (E := E) <? 65536)) true ->
  Codec w_enum16 (r_enum16 last what) (fun _ => True).
Proof.
  intros Hm%TCEq_eq. bool_prop. split; [|done]. intros e rest _. unfold w_enum16, r_enum16.
  pose proof (enum_code_range e). eapply run_bind; [apply codec_roundtrip; lia|].
  apply run_reject; [lia|]. unfold mret, Parser_ret. by rewrite enum_cast_code.
Qed.

#[export] Instance r_enum8_codec `{CEnum E} (last : E) what :
  TCEq ((enum_code last =? enum_max (E := E)) && (enum_max (E := E) <? 256)) true ->
  Codec w_enum8 (r_enum8 last what) (fun _ => True).
Proof.
  intros Hm%TCEq_eq. bool_prop. split; [|done]. intros e rest _. unfold w_enum8, r_enum8.
  pose proof (enum_code_range e). eapply run_bind; [apply codec_roundtrip; lia|].
  apply run_reject; [lia|]. unfold mret, Parser_ret. by rewrite enum_cast_code.
Qed.

#[export] Instance list_codec {A} (enc : A -> bytes) (dec : Parser A) dom `{!Codec enc dec dom} bound :
  TCEq (bound <? 4294967296) true ->
  Codec (encode_list enc) (decode_list bound dec) (fun l => Forall dom l /\ zlen l <= bound).
Proof.
  intros Hb%TCEq_eq. bool_prop. split.
  - intros l rest [Hf Hl]. unfold encode_list, decode_list. rewrite <- app_assoc. eapply run_bind.
    { apply codec_roundtrip. cbn beta. pose proof (zlen_nonneg l). lia. }
    unfold zlen. rewrite Nat2Z.id. by apply (r_list_roundtrip enc dec dom).
  - intros data l rest H. unfold decode_list in H. parse_inv H.
    destruct (counted_sound enc dec dom _ _ _ _ _ _ Hp H). done.
Qed.

(** ** Codecs: records *)
#[export] Instance decision_codec : Codec encode_decision decode_decision decision_wf.
Proof.
  split.
  - intros x rest Hx. unfold decision_wf in Hx. destruct Hx as (Hr & Hx).
    assert (Hr' : Forall (fun _ : ReasonCode => True) (de_reasons x) /\ zlen (de_reasons x) <= limits.kMaxDecisionReasons).
    { split; [by apply Forall_true|done]. }
    destruct Hx as (? & ? & ? & ? & ? & ? & ? & ? & ? & ? & ? & ? & ?).
    unfold encode_decision, decode_decision. repeat codec_step.
    destruct x as [? ? ? ? [] ? ? ? ? ? ? ? ? ? ?]. done.
  - intros data x rest H. unfold decode_decision in H. parse_inv H. injection H as <- <-.
    fields_sound. cbn beta in *. unfold decision_wf. cbn. naive_solver.
Qed.

#[export] Instance action_codec : Codec encode_action decode_action action_wf.
Proof. record_codec action_wf encode_action decode_action. Qed.

#[export] Instance fence_plan_codec : Codec encode_fence_plan decode_fence_plan plan_wf.
Proof.
  split.
  - intros x rest Hx. unfold plan_wf in Hx. destruct Hx as (? & ? & ? & ? & ? & ? & ? & ?).
    unfold encode_fence_plan, decode_fence_plan. repeat codec_step. by destruct x.
  - intros data x rest H. unfold decode_fence_plan in H. parse_inv H. injection H as <- <-.
    fields_sound. cbn beta in *. unfold plan_wf. cbn. naive_solver.
Qed.

Lemma optional_name_Val text n : optional_name text = Val n -> n = text /\ wf_optional_id text.
Proof.
  unfold optional_name. case_bool_decide; [intros [= <-]; split; [done|by left]|].
  intros [-> ?]%name_parse_Val. split; [done|by right].
Qed.

Lemma wf_optional_text s : wf_optional_id s -> text_ok limits.kMaxNameLength s /\ slen s < 2 ^ 32 /\ optional_name s = Val s.
Proof.
  intros [->|Hs]; [done|].
  destruct (name_is_text _ _ Hs ltac:(repeat constructor)) as [Hu Hl]. cbn [kMaxLength IdTag] in Hl.
  unfold limits.kMaxNameLength, text_ok in *. split_and!; [lia|done|lia|]. unfold optional_name.
  rewrite bool_decide_eq_false_2; [done|]. intros ->. by destruct Hl.
Qed.

#[export] Instance accounting_codec : Codec encode_accounting decode_accounting accounting_wf.
Proof.
  split.
  - intros x rest Hx. unfold accounting_wf in Hx. destruct_and! Hx.
    destruct (wf_optional_text (ac_endpoint x)) as (He & He' & Hen); [done|].
    destruct (wf_optional_text (ac_cluster x)) as (Hc & Hc' & Hcn); [done|].
    unfold encode_accounting, decode_accounting. repeat codec_step. rewrite Hen, Hcn. by destruct x.
  - intros data x rest H. unfold decode_accounting in H. parse_inv H. injection H as <- <-.
    unfold p_lift in Hp6, Hp7.
    destruct (optional_name x2) as [a| |] eqn:Ha; [|done..]. injection Hp6 as <- <-.
    destruct (optional_name x3) as [b| |] eqn:Hb; [|done..]. injection Hp7 as <- <-.
    apply optional_name_Val in Ha as [-> ?], Hb as [-> ?]. fields_sound. by unfold accounting_wf.
Qed.

#[export] Instance status_codec : Codec encode_status decode_status status_wf.
Proof.
  split.
  - intros x rest Hx. unfold status_wf in Hx.
    destruct_and! Hx. unfold encode_status, decode_status.
    repeat codec_step. destruct x; reflexivity.
  - intros data x rest H. unfold decode_status in H. parse_inv H. injection H as <- <-.
    fields_sound. cbn beta in *. unfold status_wf. cbn.
    repeat match goal with |- _ /\ _ => split end; try assumption.
Qed.

(** Decisions, fence plans, accounting entries and the coordinator status survive their wire
    encoding: reading an encoded well-formed value returns it and leaves the following bytes,
    and every value that is read is well formed, whatever the bytes. *)
Theorem decision_codecs_roundtrip rest :
  (forall d, decision_wf d -> decode_decision (encode_decision d ++ rest) = Val (d, rest)) /\
  (forall p, plan_wf p -> decode_fence_plan (encode_fence_plan p ++ rest) = Val (p, rest)) /\
  (forall e, accounting_wf e -> decode_accounting (encode_accounting e ++ rest) = Val (e, rest)) /\
  (forall s, status_wf s -> decode_status (encode_status s ++ rest) = Val (s, rest)) /\
  (forall data d tail, decode_decision data = Val (d, tail) -> decision_wf d) /\
  (forall data p tail, decode_fence_plan data = Val (p, tail) -> plan_wf p).
Proof.
  split_and!; intros; try (by apply codec_roundtrip).
  - by apply codec_sound in H.
  - by apply codec_sound in H.
Qed.
