(* ===== verification/Engine.v ===== *)
(** * The decision engine

    Models src/runtime/engine.cpp: [decide], the question the runtime answers for one directed
    endpoint pair at one instant, and [plan_fence]/[plan_coordinator_fence], what must be
    withdrawn when a cluster or the coordinator changes. A check of the code takes the decision
    by reference, adds reasons to it and returns a status: an [ST Decision unit].

    [connectivity] states declaratively when a pair is authorized; [decide_spec] shows that
    [decide] computes exactly that. *)
From S2P Require Import Prelude Status Bytes Ids Types Registry Hash Canonical Policy Decision.

Record EngineView := mkView { ev_term : Z; ev_incarnation : string; ev_now : Z }.

(** ** Building a decision *)
Definition decision_start (registry : Registry) (view : EngineView) : Decision :=
  mkDecision Outcome_Indeterminate [] nil_uuid nil_uuid (""%string, ""%string) (ev_term view) (ev_incarnation view)
    zero_digest (registry_digest registry) 0 [] [] false (ev_now view) "".

Definition set_reasons (l : list ReasonCode) (d : Decision) : Decision :=
  mkDecision (de_outcome d) l (de_contract d) (de_grant d) (de_authorities d) (de_term d) (de_coordinator d)
    (de_terms_digest d) (de_view_digest d) (de_capacity d) (de_paths d) (de_edges d) (de_degraded d)
    (de_decided_at d) (de_detail d).

Definition push_reason (code : ReasonCode) (d : Decision) : Decision :=
  if limits.kMaxDecisionReasons <=? zlen (de_reasons d) then d
  else if bool_decide (code ∈ de_reasons d) then d
  else set_reasons (de_reasons d ++ [code]) d.

Definition finish (o : Outcome) (detail : string) (d : Decision) : Decision :=
  mkDecision o (de_reasons d) (de_contract d) (de_grant d) (de_authorities d) (de_term d) (de_coordinator d)
    (de_terms_digest d) (de_view_digest d) (de_capacity d) (de_paths d) (de_edges d) (de_degraded d)
    (de_decided_at d) detail.

Definition set_authorities (a b : string) (d : Decision) : Decision :=
  mkDecision (de_outcome d) (de_reasons d) (de_contract d) (de_grant d) (a, b) (de_term d) (de_coordinator d)
    (de_terms_digest d) (de_view_digest d) (de_capacity d) (de_paths d) (de_edges d) (de_degraded d)
    (de_decided_at d) (de_detail d).

Definition set_candidate (contract digest : string) (d : Decision) : Decision :=
  mkDecision (de_outcome d) (de_reasons d) contract (de_grant d) (de_authorities d) (de_term d) (de_coordinator d)
    digest (de_view_digest d) (de_capacity d) (de_paths d) (de_edges d) (de_degraded d)
    (de_decided_at d) (de_detail d).

Definition set_selected (g : GrantRecord) (d : Decision) : Decision :=
  mkDecision (de_outcome d) (de_reasons d) (de_contract d) (gr_id g) (de_authorities d) (de_term d) (de_coordinator d)
    (gr_terms_digest g) (de_view_digest d) (gr_capacity g) (de_paths d) (de_edges d) (de_degraded d)
    (de_decided_at d) (de_detail d).

Definition set_paths (paths edges : list string) (degraded : bool) (d : Decision) : Decision :=
  mkDecision (de_outcome d) (de_reasons d) (de_contract d) (de_grant d) (de_authorities d) (de_term d) (de_coordinator d)
    (de_terms_digest d) (de_view_digest d) (de_capacity d) paths edges degraded
    (de_decided_at d) (de_detail d).

(** [add_reason(decision, code)] *)
Definition add_reason (code : ReasonCode) : ST Decision unit := fun d => (Val tt, push_reason code d).

(** [add_reason(...); return Status::make(...);] *)
Definition refuse (code : ReasonCode) (o : Outcome) (message : string) : ST Decision unit :=
  _ ← add_reason code; st_lift (fail o message).

Definition refuse_if (cond : bool) (code : ReasonCode) (o : Outcome) (message : string) : ST Decision unit :=
  if cond then refuse code o message else mret tt.

(** ** The checks *)
Definition check_cluster (c : ClusterRecord) : ST Decision unit :=
  match cl_state c with
  | ClusterState_Unknown =>
      _ ← add_reason ReasonCode_ResourceUnknown;
      refuse ReasonCode_ClusterUnknown Outcome_Unknown "cluster state has not been established"
  | ClusterState_Suspended =>
      refuse ReasonCode_ClusterSuspended Outcome_Refused "cluster is administratively suspended"
  | ClusterState_Draining =>
      refuse ReasonCode_ClusterDraining Outcome_Refused "cluster is draining and accepts no new connectivity"
  | ClusterState_Retired => refuse ReasonCode_ClusterRetired Outcome_Fenced "cluster identity is retired"
  | ClusterState_Active =>
      _ ← refuse_if (cl_generation_conflict c) ReasonCode_ClusterGenerationConflict Outcome_Conflicting
            "two updates claimed the same generation with different contents; the conflict is unresolved";
      refuse_if (cl_consent_withdrawn c) ReasonCode_ClusterConsentWithdrawn Outcome_Refused
        "cluster has withdrawn consent for cross-cluster connectivity"
  end.

Definition check_endpoint (e : EndpointRecord) (is_source : bool) : ST Decision unit :=
  let suspended := if is_source then ReasonCode_SourceEndpointSuspended else ReasonCode_TargetEndpointSuspended in
  match ep_state e with
  | EndpointState_Unknown =>
      refuse ReasonCode_ResourceUnknown Outcome_Unknown "endpoint state has not been established"
  | EndpointState_Suspended => refuse suspended Outcome_Refused "endpoint scope is administratively suspended"
  | EndpointState_Draining => refuse suspended Outcome_Refused "endpoint scope is draining"
  | EndpointState_Retired => refuse ReasonCode_ResourceUnknown Outcome_Fenced "endpoint scope is retired"
  | EndpointState_Active =>
      refuse_if (negb (ep_inter_cluster_allowed e))
        (if is_source then ReasonCode_SourceEndpointRefused else ReasonCode_TargetEndpointRefused) Outcome_Refused
        "endpoint scope does not accept inter-cluster connectivity"
  end.

(** One pass of the loop over the two consents. [consents[index]] is dereferenced after
    [both_consented] was checked; an absent consent would be undefined behaviour. *)
Definition check_consent (registry : Registry) (contract : ContractRecord) (side : bool) : ST Decision unit :=
  match at_side (ct_consents contract) side with
  | None => st_lift Throw
  | Some consent =>
      let party := at_side (ct_parties contract) side in
      _ ← refuse_if (negb (bool_decide (cs_decision consent = ConsentDecision_Accepted)))
            ReasonCode_ContractNotConsented Outcome_Refused "a party refused the contract";
      _ ← refuse_if (negb (bool_decide (cs_terms_digest consent = ct_terms_digest contract)))
            ReasonCode_ConsentMismatch Outcome_Conflicting
            "the recorded consents do not cover identical terms; one side consented to something else";
      match find_cluster registry (py_cluster party) with
      | None => refuse ReasonCode_ClusterUnknown Outcome_Unknown "a contracting cluster is no longer registered"
      | Some cluster =>
          _ ← refuse_if (negb (bool_decide (cs_cluster consent = py_cluster party)) ||
                         negb (bool_decide (cs_endpoint consent = py_endpoint party)))
                ReasonCode_ConsentMismatch Outcome_Conflicting
                "a consent record names a different party than the contract";
          _ ← refuse_if (negb (bool_decide (cs_incarnation consent = cl_incarnation cluster)))
                ReasonCode_IncarnationMismatch Outcome_Stale
                "a consent was issued by a superseded cluster incarnation";
          _ ← refuse_if (negb (cs_generation consent =? cl_generation cluster))
                ReasonCode_GenerationStale Outcome_Stale
                "a consent was issued at a superseded cluster generation";
          refuse_if (negb (cs_policy_generation consent =? cl_policy_generation cluster))
            ReasonCode_PolicyGenerationStale Outcome_Stale
            "a consent was issued under a superseded policy generation"
      end
  end.

Definition check_consents (registry : Registry) (contract : ContractRecord) : ST Decision unit :=
  _ ← refuse_if (bool_decide (ct_state contract = ContractState_Refused)) ReasonCode_ContractRefused
        Outcome_Refused "one authority domain refused the contract";
  _ ← refuse_if (bool_decide (ct_state contract = ContractState_Withdrawn)) ReasonCode_ContractWithdrawn
        Outcome_Fenced "a party withdrew consent for the contract";
  _ ← refuse_if (bool_decide (ct_state contract = ContractState_Fenced)) ReasonCode_ContractFenced
        Outcome_Fenced "the contract was fenced by a superseding change";
  _ ← refuse_if (bool_decide (ct_state contract = ContractState_Expired)) ReasonCode_ContractExpired
        Outcome_Expired "the contract validity window elapsed";
  _ ← refuse_if (negb (both_consented contract)) ReasonCode_ContractNotConsented Outcome_Incomplete
        "both authority domains have not consented to identical terms";
  _ ← check_consent registry contract false;
  check_consent registry contract true.

(** [selected->issued_at < grant.issued_at || (equal && selected->id < grant.id)] *)
Definition newer_grant (selected g : GrantRecord) : bool :=
  (gr_issued_at selected <? gr_issued_at g) ||
  ((gr_issued_at selected =? gr_issued_at g) && str_ltb (gr_id selected) (gr_id g)).

Definition select_step (contract : string) (selected : option GrantRecord) (g : GrantRecord) : option GrantRecord :=
  if negb (bool_decide (gr_contract g = contract)) then selected
  else match selected with
       | None => Some g
       | Some s => if newer_grant s g then Some g else Some s
       end.

Definition select_grant (registry : Registry) (contract : string) : option GrantRecord :=
  foldl (select_step contract) None (values (rg_grants registry)).

(** One pass of the loop over the bound parties. *)
Definition check_binding (registry : Registry) (contract : ContractRecord) (g : GrantRecord) (side : bool)
    : ST Decision unit :=
  match find_cluster registry (py_cluster (at_side (ct_parties contract) side)) with
  | None => refuse ReasonCode_ClusterUnknown Outcome_Unknown "a bound cluster is no longer registered"
  | Some cluster =>
      _ ← refuse_if (negb (bool_decide (at_side (gr_incarnations g) side = cl_incarnation cluster)))
            ReasonCode_IncarnationMismatch Outcome_Fenced "the grant is bound to a superseded cluster incarnation";
      _ ← refuse_if (negb (at_side (gr_generations g) side =? cl_generation cluster))
            ReasonCode_GenerationStale Outcome_Stale "the grant is bound to a superseded cluster generation";
      refuse_if (negb (at_side (gr_policies g) side =? cl_policy_generation cluster))
        ReasonCode_PolicyGenerationStale Outcome_Stale "the grant is bound to a superseded policy generation"
  end.

Definition check_grant_state (g : GrantRecord) : ST Decision unit :=
  match gr_state g with
  | GrantState_Preparing | GrantState_Prepared =>
      refuse ReasonCode_GrantNotCommitted Outcome_Incomplete "the grant has not been committed by both parties"
  | GrantState_Indeterminate =>
      refuse ReasonCode_GrantIndeterminate Outcome_Indeterminate
        "the grant commit acknowledgement is unresolved; the grant is not usable"
  | GrantState_Aborted | GrantState_Fenced | GrantState_Withdrawn =>
      refuse ReasonCode_GrantFenced Outcome_Fenced "the grant was fenced or aborted"
  | GrantState_Expired => refuse ReasonCode_GrantExpired Outcome_Expired "the grant validity window elapsed"
  | GrantState_Committed | GrantState_Active => mret tt
  end.

Definition check_grant (registry : Registry) (contract : ContractRecord) (query : DecisionQuery)
    (view : EngineView) : ST Decision unit :=
  match select_grant registry (ct_id contract) with
  | None => refuse ReasonCode_NoGrant Outcome_Incomplete "no grant has been issued for this contract"
  | Some g =>
      _ ← (fun d => (Val tt, set_selected g d));
      _ ← check_grant_state g;
      _ ← refuse_if (negb (both_acknowledged g)) ReasonCode_GrantNotAcknowledged Outcome_Incomplete
            "a party has not acknowledged the committed grant";
      _ ← refuse_if (negb (gr_coordinator_term g =? ev_term view) ||
                     negb (bool_decide (gr_coordinator g = ev_incarnation view)))
            ReasonCode_GrantTermMismatch Outcome_Fenced "the grant was issued under a superseded coordinator term";
      _ ← refuse_if (negb (bool_decide (gr_terms_digest g = ct_terms_digest contract)))
            ReasonCode_ConsentMismatch Outcome_Conflicting "the grant does not cover the contract terms it names";
      _ ← check_binding registry contract g false;
      _ ← check_binding registry contract g true;
      _ ← refuse_if (gr_valid_until g <? ev_now view) ReasonCode_GrantExpired Outcome_Expired
            "the grant validity window elapsed";
      refuse_if (gr_capacity g <? dq_requested_capacity query) ReasonCode_GrantCapacityExceeded
        Outcome_CapacityExceeded "the requested capacity exceeds the granted capacity"
  end.

(** ** Paths *)
Record PathEvaluation := mkPathEvaluation {
  ph_status : Result unit;
  ph_degraded : bool;
  ph_paths : list string;
  ph_edges : list string;
}.

(** The loop's local variables. *)
Record PathSeen := mkSeen {
  sn_up : bool; sn_degraded : bool; sn_unknown : bool; sn_unsupported : bool;
  sn_paths : list string; sn_edges : list string;
}.

Definition add_edge (edges : list string) (hop : string) : list string :=
  if bool_decide (hop ∈ edges) then edges else edges ++ [hop].

Definition joins (a b source target : string) : bool :=
  (bool_decide (a = source) && bool_decide (b = target)) || (bool_decide (a = target) && bool_decide (b = source)).

Definition see_path (source target : string) (s : PathSeen) (p : PathRecord) : PathSeen :=
  if negb (joins (pa_a p) (pa_b p) source target) then s
  else if pa_contains_unsupported_edge p
  then mkSeen (sn_up s) (sn_degraded s) (sn_unknown s) true (sn_paths s) (sn_edges s)
  else match pa_state p with
       | PathState_Up =>
           if zlen (sn_paths s) <? limits.kMaxDecisionPaths
           then mkSeen true (sn_degraded s) (sn_unknown s) (sn_unsupported s) (sn_paths s ++ [pa_id p])
                  (foldl add_edge (sn_edges s) (pa_hops p))
           else mkSeen true (sn_degraded s) (sn_unknown s) (sn_unsupported s) (sn_paths s) (sn_edges s)
       | PathState_Degraded => mkSeen (sn_up s) true (sn_unknown s) (sn_unsupported s) (sn_paths s) (sn_edges s)
       | PathState_Unknown => mkSeen (sn_up s) (sn_degraded s) true (sn_unsupported s) (sn_paths s) (sn_edges s)
       | PathState_Down => s
       end.

Definition evaluate_paths (registry : Registry) (source target : string) : PathEvaluation :=
  let s := foldl (see_path source target) (mkSeen false false false false [] []) (values (rg_paths registry)) in
  if sn_up s then mkPathEvaluation (Val tt) false (sn_paths s) (sn_edges s)
  else if sn_degraded s then mkPathEvaluation (Val tt) true (sn_paths s) (sn_edges s)
  else if sn_unknown s then
    mkPathEvaluation (fail Outcome_Unknown "path state has not been established") false (sn_paths s) (sn_edges s)
  else if sn_unsupported s then
    mkPathEvaluation (fail Outcome_Unsupported "every registered path uses a link kind this runtime does not drive")
      false (sn_paths s) (sn_edges s)
  else mkPathEvaluation (fail Outcome_Partitioned "every registered path is down") false (sn_paths s) (sn_edges s).

(** ** Contracts that cover the pair *)
Definition covers (source target : string) (c : ContractRecord) : bool :=
  joins (py_endpoint (ct_parties c).1) (py_endpoint (ct_parties c).2) source target.

(** Most recently updated first, then by identity. *)
Definition candidate_le (a b : ContractRecord) : Prop :=
  ct_updated_at b < ct_updated_at a \/ (ct_updated_at a = ct_updated_at b /\ String.le (ct_id a) (ct_id b)).
#[export] Instance candidate_le_dec : RelDecision candidate_le.
Proof. intros a b. unfold candidate_le. apply _. Defined.

Definition candidates (registry : Registry) (source target : string) : list ContractRecord :=
  merge_sort candidate_le (filter (fun c => covers source target c = true) (values (rg_contracts registry))).

(** [trial_status] of one candidate, with the trial decision it leaves. *)
Definition try_candidate (registry : Registry) (query : DecisionQuery) (view : EngineView) (c : ContractRecord)
    : ST Decision unit :=
  _ ← (fun d => (Val tt, set_candidate (ct_id c) (ct_terms_digest c) d));
  _ ← check_consents registry c;
  _ ← add_reason ReasonCode_AuthoritySatisfied;
  check_grant registry c query view.

(** The loop over the candidates: [inl] is the authorized trial, [inr] the first failure. *)
Fixpoint try_candidates (registry : Registry) (query : DecisionQuery) (view : EngineView) (decision : Decision)
    (best_failure : option Decision) (l : list ContractRecord) : Decision + option Decision :=
  match l with
  | [] => inr best_failure
  | c :: l =>
      match try_candidate registry query view c decision with
      | (Val _, trial) => inl trial
      | (Err s, trial) =>
          let best := match best_failure with
                      | Some b => Some b
                      | None => Some (finish (st_outcome s) (st_message s) trial)
                      end in
          try_candidates registry query view decision best l
      | (Throw, trial) => try_candidates registry query view decision best_failure l
      end
  end.

(** [status = check(...); if (!status) { finish(...); return decision; }] *)
Definition or_finish (m : ST Decision unit) (d : Decision) (k : Decision -> Decision) : Decision :=
  match m d with
  | (Val _, d') => k d'
  | (Err s, d') => finish (st_outcome s) (st_message s) d'
  | (Throw, d') => d'
  end.

Definition path_reason (o : Outcome) : ReasonCode :=
  match o with
  | Outcome_Partitioned => ReasonCode_PathAbsent
  | Outcome_Unknown => ReasonCode_LinkUnknown
  | Outcome_Unsupported => ReasonCode_PathUnsupported
  | _ => ReasonCode_PathDown
  end.

(** The last part: a candidate was found, the path decides between [Ok] and degraded. *)
Definition conclude (query : DecisionQuery) (policy : PolicyEvaluation) (source target : EndpointRecord)
    (paths : PathEvaluation) (d : Decision) : Decision :=
  let d := set_paths (ph_paths paths) (ph_edges paths) (ph_degraded paths) d in
  if ph_degraded paths then
    if negb (dq_allow_degraded query) || negb (pe_allow_degraded policy) || negb (ep_permits_degraded source) ||
       negb (ep_permits_degraded target)
    then finish Outcome_Unauthorized
           "only a degraded path exists and degraded connectivity is not permitted for this pair"
           (push_reason ReasonCode_PathNotPermittedDegraded d)
    else finish Outcome_DegradedAuthorized
           "authorized, but only over a degraded path; the authorization is not a healthy-path grant"
           (push_reason ReasonCode_PathDegraded d)
  else finish Outcome_Ok "connectivity is authorized by both authority domains" d.

(** From the path evaluation on. *)
Definition decide_contract (registry : Registry) (query : DecisionQuery) (view : EngineView)
    (policy : PolicyEvaluation) (source target : EndpointRecord) (d : Decision) : Decision :=
  let paths := evaluate_paths registry (dq_source query) (dq_target query) in
  match ph_status paths with
  | Val _ =>
      let l := candidates registry (dq_source query) (dq_target query) in
      if bool_decide (l = []) then
        finish Outcome_Unauthorized "no connectivity contract covers this endpoint pair"
          (push_reason ReasonCode_NoContract d)
      else
        match try_candidates registry query view d None l with
        | inl trial => conclude query policy source target paths trial
        | inr (Some failure) => failure
        | inr None =>
            finish Outcome_Indeterminate "no contract could be evaluated for this endpoint pair"
              (push_reason ReasonCode_EvidenceIncomplete d)
        end
  | Err s => finish (st_outcome s) (st_message s) (push_reason (path_reason (st_outcome s)) d)
  | Throw => d
  end.

Definition decide_policy (registry : Registry) (query : DecisionQuery) (view : EngineView)
    (source target : EndpointRecord * ClusterRecord) (d : Decision) : Decision :=
  let policy := evaluate_policy source.2 target.2 (dq_source query) (dq_target query) registry in
  match pe_decision policy with
  | PolicyDecision_RefusedExplicitly =>
      finish Outcome_Refused ("an authority domain explicitly refuses this pair: " ++ pe_detail policy)
        (push_reason ReasonCode_PolicyRefused d)
  | PolicyDecision_MissingAllowRule =>
      finish Outcome_Unauthorized
        ("no allow rule covers this pair from every authority domain: " ++ pe_detail policy)
        (push_reason ReasonCode_PolicyMissingAllow d)
  | PolicyDecision_StaleGeneration =>
      finish Outcome_Stale "matching policy rules belong to a superseded policy generation"
        (push_reason ReasonCode_PolicyStaleGeneration d)
  | PolicyDecision_Unsupported =>
      finish Outcome_Unsupported (pe_detail policy) (push_reason ReasonCode_ResourceUnsupported d)
  | PolicyDecision_Allowed =>
      decide_contract registry query view policy source.1 target.1 (push_reason ReasonCode_PolicyAllowed d)
  end.

Definition decide (registry : Registry) (query : DecisionQuery) (view : EngineView) : Decision :=
  let d := decision_start registry view in
  match resolve registry (dq_source query) with
  | None =>
      finish Outcome_NotFound "source endpoint is not registered" (push_reason ReasonCode_SourceEndpointNotRegistered d)
  | Some source =>
      match resolve registry (dq_target query) with
      | None =>
          finish Outcome_NotFound "target endpoint is not registered"
            (push_reason ReasonCode_TargetEndpointNotRegistered d)
      | Some target =>
          if bool_decide (dq_source query = dq_target query) then
            finish Outcome_Invalid "source and target endpoint are the same scope"
              (push_reason ReasonCode_EndpointsAreIdentical d)
          else
            or_finish
              (_ ← check_cluster source.2;
               _ ← check_cluster target.2;
               _ ← check_endpoint source.1 true;
               _ ← check_endpoint target.1 false;
               _ ← refuse_if (dq_expect_source_generation query &&
                              negb (dq_source_generation query =? cl_generation source.2))
                     ReasonCode_GenerationStale Outcome_Stale
                     "the source cluster generation does not match the caller's expectation";
               refuse_if (dq_expect_target_generation query &&
                          negb (dq_target_generation query =? cl_generation target.2))
                 ReasonCode_GenerationStale Outcome_Stale
                 "the target cluster generation does not match the caller's expectation")
              (set_authorities (cl_domain source.2) (cl_domain target.2) d)
              (decide_policy registry query view source target)
      end
  end.

(** ** Fence plans *)
Definition grant_reason (trigger : FenceTrigger) : ReasonCode :=
  match trigger with
  | FenceTrigger_ClusterReincarnation => ReasonCode_IncarnationMismatch
  | FenceTrigger_ClusterWithdrawal => ReasonCode_ClusterConsentWithdrawn
  | FenceTrigger_PolicyGenerationChange => ReasonCode_PolicyGenerationStale
  | FenceTrigger_CoordinatorReincarnation => ReasonCode_GrantTermMismatch
  | FenceTrigger_GrantRevocation => ReasonCode_GrantFenced
  | FenceTrigger_LinkFailure => ReasonCode_PathDown
  | FenceTrigger_GrantExpiry => ReasonCode_GrantExpired
  | FenceTrigger_Manual => ReasonCode_GrantFenced
  end.

(** The grants a plan withdraws. *)
Definition fenceable (g : GrantRecord) : bool :=
  usable_state g || bool_decide (gr_state g = GrantState_Prepared) ||
  bool_decide (gr_state g = GrantState_Preparing) || bool_decide (gr_state g = GrantState_Indeterminate).

Definition reservation_actions (registry : Registry) (grant contract : string) (reason : ReasonCode) : list FenceAction :=
  (fun s => mkAction FenceTarget_Reservation grant contract (rs_id s) reason) <$>
    filter (fun s => rs_grant s = grant /\ rs_released s = false) (values (rg_reservations registry)).

Definition grant_actions (registry : Registry) (contract : string) (reason : ReasonCode) (g : GrantRecord)
    : list FenceAction :=
  (if fenceable g then [mkAction FenceTarget_Grant (gr_id g) contract nil_uuid reason] else []) ++
  reservation_actions registry (gr_id g) contract reason.

(** The pass of the outer loop for one contract of the cluster. *)
Definition contract_actions (registry : Registry) (reason : ReasonCode) (c : ContractRecord) : list FenceAction :=
  let grants := filter (fun g => gr_contract g = ct_id c) (values (rg_grants registry)) in
  let contract_affected := existsb fenceable grants in
  concat (grant_actions registry (ct_id c) reason <$> grants) ++
  (if contract_affected && negb (bool_decide (ct_state c = ContractState_Withdrawn))
   then [mkAction FenceTarget_Contract nil_uuid (ct_id c) nil_uuid reason] else []).

(** The outer loop: it stops after the contract that takes the plan over its bound. *)
Fixpoint plan_contracts (registry : Registry) (cluster : string) (reason : ReasonCode) (actions : list FenceAction)
    (l : list ContractRecord) : list FenceAction :=
  match l with
  | [] => actions
  | c :: l =>
      match contract_side_of c cluster with
      | None => plan_contracts registry cluster reason actions l
      | Some _ =>
          let actions := actions ++ contract_actions registry reason c in
          if limits.kMaxFencePlanEntries <? zlen actions then actions
          else plan_contracts registry cluster reason actions l
      end
  end.

Definition plan_fence (registry : Registry) (trigger : FenceTrigger) (cluster new_incarnation previous_incarnation : string)
    (new_generation term : Z) : FencePlan :=
  mkPlan trigger cluster new_incarnation previous_incarnation new_generation term (registry_digest registry)
    (plan_contracts registry cluster (grant_reason trigger) [] (values (rg_contracts registry)))
    ("fence plan for " ++ fence_trigger_to_string trigger ++ " affecting cluster " ++ cluster).

Definition terminal_grant (g : GrantRecord) : bool :=
  bool_decide (gr_state g = GrantState_Fenced) || bool_decide (gr_state g = GrantState_Aborted) ||
  bool_decide (gr_state g = GrantState_Expired) || bool_decide (gr_state g = GrantState_Withdrawn).

Definition coordinator_grant_actions (registry : Registry) (previous_incarnation : string) (g : GrantRecord)
    : list FenceAction :=
  if terminal_grant g then []
  else if negb (uuid_is_nil previous_incarnation) && negb (bool_decide (gr_coordinator g = previous_incarnation))
  then []
  else mkAction FenceTarget_Grant (gr_id g) (gr_contract g) nil_uuid ReasonCode_GrantTermMismatch ::
       reservation_actions registry (gr_id g) (gr_contract g) ReasonCode_GrantTermMismatch.

Definition plan_coordinator_fence (registry : Registry) (previous_incarnation : string) (term : Z) : FencePlan :=
  mkPlan FenceTrigger_CoordinatorReincarnation "" nil_uuid previous_incarnation 0 term (registry_digest registry)
    (concat (coordinator_grant_actions registry previous_incarnation <$> values (rg_grants registry)))
    "every grant issued by the previous coordinator incarnation is fenced".

(** ** When connectivity is authorized, declaratively *)
Definition cluster_admits (c : ClusterRecord) : Prop :=
  cl_state c = ClusterState_Active /\ cl_generation_conflict c = false /\ cl_consent_withdrawn c = false.

Definition endpoint_admits (e : EndpointRecord) : Prop :=
  ep_state e = EndpointState_Active /\ ep_inter_cluster_allowed e = true.

Definition expectations_met (q : DecisionQuery) (source target : ClusterRecord) : Prop :=
  (dq_expect_source_generation q = true -> dq_source_generation q = cl_generation source) /\
  (dq_expect_target_generation q = true -> dq_target_generation q = cl_generation target).

(** The recorded consent of one side is an acceptance of the contract's own terms, given by the
    party the contract names, in the current incarnation and generations of its cluster. *)
Definition consent_current (registry : Registry) (c : ContractRecord) (side : bool) : Prop :=
  exists consent cluster,
    at_side (ct_consents c) side = Some consent /\
    find_cluster registry (py_cluster (at_side (ct_parties c) side)) = Some cluster /\
    cs_decision consent = ConsentDecision_Accepted /\
    cs_terms_digest consent = ct_terms_digest c /\
    cs_cluster consent = py_cluster (at_side (ct_parties c) side) /\
    cs_endpoint consent = py_endpoint (at_side (ct_parties c) side) /\
    cs_incarnation consent = cl_incarnation cluster /\
    cs_generation consent = cl_generation cluster /\
    cs_policy_generation consent = cl_policy_generation cluster.

Definition contract_live (c : ContractRecord) : Prop :=
  ct_state c <> ContractState_Refused /\ ct_state c <> ContractState_Withdrawn /\
  ct_state c <> ContractState_Fenced /\ ct_state c <> ContractState_Expired.

Definition contract_consented (registry : Registry) (c : ContractRecord) : Prop :=
  contract_live c /\ forall side, consent_current registry c side.

(** [g] is the grant of the contract issued last (ties broken by identity). *)
Definition latest_grant (registry : Registry) (contract : string) (g : GrantRecord) : Prop :=
  (exists k, rg_grants registry !! k = Some g) /\ gr_contract g = contract /\
  forall k g', rg_grants registry !! k = Some g' -> gr_contract g' = contract -> newer_grant g g' = false.

Definition bound_current (registry : Registry) (c : ContractRecord) (g : GrantRecord) (side : bool) : Prop :=
  exists cluster, find_cluster registry (py_cluster (at_side (ct_parties c) side)) = Some cluster /\
    at_side (gr_incarnations g) side = cl_incarnation cluster /\
    at_side (gr_generations g) side = cl_generation cluster /\
    at_side (gr_policies g) side = cl_policy_generation cluster.

Definition grant_current (registry : Registry) (c : ContractRecord) (q : DecisionQuery) (v : EngineView)
    (g : GrantRecord) : Prop :=
  usable_state g = true /\ both_acknowledged g = true /\
  gr_coordinator_term g = ev_term v /\ gr_coordinator g = ev_incarnation v /\
  gr_terms_digest g = ct_terms_digest c /\ (forall side, bound_current registry c g side) /\
  ev_now v <= gr_valid_until g /\ dq_requested_capacity q <= gr_capacity g.

Definition contract_authorizes (registry : Registry) (q : DecisionQuery) (v : EngineView) (c : ContractRecord) : Prop :=
  (exists k, rg_contracts registry !! k = Some c) /\ covers (dq_source q) (dq_target q) c = true /\
  contract_consented registry c /\
  exists g, latest_grant registry (ct_id c) g /\ grant_current registry c q v g.

(** A registered path between the endpoints, without unsupported edges, in the given state. *)
Definition path_between (registry : Registry) (q : DecisionQuery) (s : PathState) : Prop :=
  exists k p, rg_paths registry !! k = Some p /\ joins (pa_a p) (pa_b p) (dq_source q) (dq_target q) = true /\
    pa_contains_unsupported_edge p = false /\ pa_state p = s.

Definition connectivity (registry : Registry) (q : DecisionQuery) (v : EngineView)
    (source target : EndpointRecord * ClusterRecord) : Prop :=
  resolve registry (dq_source q) = Some source /\ resolve registry (dq_target q) = Some target /\
  dq_source q <> dq_target q /\
  cluster_admits source.2 /\ cluster_admits target.2 /\ endpoint_admits source.1 /\ endpoint_admits target.1 /\
  expectations_met q source.2 target.2 /\
  pe_decision (evaluate_policy source.2 target.2 (dq_source q) (dq_target q) registry) = PolicyDecision_Allowed /\
  exists c, contract_authorizes registry q v c.

(** Every party of a degraded authorization permits it. *)
Definition degraded_permitted (registry : Registry) (q : DecisionQuery) (source target : EndpointRecord * ClusterRecord)
    : Prop :=
  dq_allow_degraded q = true /\ ep_permits_degraded source.1 = true /\ ep_permits_degraded target.1 = true /\
  pe_allow_degraded (evaluate_policy source.2 target.2 (dq_source q) (dq_target q) registry) = true.

(** ** What a check promises

    [check_spec m P]: the check accepts exactly when [P] holds, and an error never carries an
    authorizing outcome. *)
Definition check_spec (m : ST Decision unit) (P : Prop) : Prop :=
  forall d, match (m d).1 with
            | Val _ => P
            | Err s => ~ P /\ is_authorized (st_outcome s) = false
            | Throw => False
            end.

Lemma check_ret : check_spec (mret tt) True.
Proof. done. Qed.

Lemma check_iff m (P Q : Prop) : (P <-> Q) -> check_spec m P -> check_spec m Q.
Proof. intros H Hm d. specialize (Hm d). destruct (m d).1; [tauto|split; tauto|done]. Qed.

Lemma check_refuse code o msg : is_authorized o = false -> check_spec (refuse code o msg) False.
Proof. intros Ho d. cbn. split; [tauto|done]. Qed.

Lemma check_refuse_if cond code o msg :
  is_authorized o = false -> check_spec (refuse_if cond code o msg) (cond = false).
Proof.
  intros Ho. unfold refuse_if. destruct cond.
  - eapply check_iff; [|by apply check_refuse]. done.
  - eapply check_iff; [|apply check_ret]. done.
Qed.

Lemma check_bind (m : ST Decision unit) (k : unit -> ST Decision unit) P Q :
  check_spec m P -> (P -> check_spec (k tt) Q) -> check_spec (m ≫= k) (P /\ Q).
Proof.
  intros Hm Hk d. unfold mbind, ST_bind. specialize (Hm d). destruct (m d) as [[[]|s|] d']; cbn [fst] in *.
  - specialize (Hk Hm d'). destruct (k tt d') as [[]  d'']; cbn [fst] in *; [done|naive_solver|done].
  - naive_solver.
  - done.
Qed.

(** A step that only changes the decision. *)
Lemma check_step (f : Decision -> Decision) (k : unit -> ST Decision unit) P :
  check_spec (k tt) P -> check_spec ((fun d => (Val tt, f d)) ≫= k) P.
Proof. intros Hk d. apply (Hk (f d)). Qed.

Ltac check_seq := first
  [ apply check_bind; [apply check_refuse_if; reflexivity|intros ?]
  | apply check_refuse_if; reflexivity | apply check_refuse; reflexivity ].

(** ** The checks *)
Lemma check_cluster_spec c : check_spec (check_cluster c) (cluster_admits c).
Proof.
  unfold check_cluster, cluster_admits. destruct (cl_state c);
    try (eapply check_iff; [|by apply check_refuse]; naive_solver).
  - eapply check_iff; [|apply (check_step (push_reason _)); by apply check_refuse]. naive_solver.
  - eapply check_iff; [|repeat check_seq]. naive_solver.
Qed.

Lemma check_endpoint_spec e is_source : check_spec (check_endpoint e is_source) (endpoint_admits e).
Proof.
  unfold check_endpoint, endpoint_admits. destruct (ep_state e);
    try (eapply check_iff; [|by apply check_refuse]; naive_solver).
  eapply check_iff; [|by apply check_refuse_if]. rewrite negb_false_iff. naive_solver.
Qed.

Lemma check_consent_spec registry c side :
  both_consented c = true -> check_spec (check_consent registry c side) (consent_current registry c side).
Proof.
  intros Hb. assert (exists consent, at_side (ct_consents c) side = Some consent) as [consent Hc].
  { unfold both_consented, consent_accepted in Hb. destruct (ct_consents c) as [[x|] [y|]]; rewrite ?andb_false_r in Hb; try done.
    destruct side; cbn; eauto. }
  unfold check_consent, consent_current. rewrite Hc.
  destruct (find_cluster registry _) as [cluster|].
  - eapply check_iff; [|repeat check_seq].
    rewrite ?negb_false_iff, ?orb_false_iff, ?negb_false_iff, ?bool_decide_eq_true, ?Z.eqb_eq. naive_solver.
  - eapply check_iff; [|repeat check_seq]. naive_solver.
Qed.

Lemma check_consents_spec registry c : check_spec (check_consents registry c) (contract_consented registry c).
Proof.
  unfold check_consents. eapply check_iff.
  2: { do 4 (apply check_bind; [by apply check_refuse_if|intros _]).
       apply check_bind; [by apply check_refuse_if|intros Hb%negb_false_iff].
       apply check_bind; [by apply check_consent_spec|intros _]. by apply check_consent_spec. }
  unfold contract_consented, contract_live. rewrite !bool_decide_eq_false, negb_false_iff. split.
  - intros (? & ? & ? & ? & _ & Hf & Ht). split; [done|]. by intros [].
  - intros [(? & ? & ? & ?) Hside]. split_and!; try done.
    unfold both_consented, consent_accepted.
    destruct (Hside false) as (x & ? & Hx & _ & Hdx & _), (Hside true) as (y & ? & Hy & _ & Hdy & _). cbn in Hx, Hy.
    rewrite Hx, Hy, Hdx, Hdy. done.
Qed.

(** ** The selected grant *)
Lemma newer_grant_iff a b :
  newer_grant a b = true <->
  gr_issued_at a < gr_issued_at b \/ (gr_issued_at a = gr_issued_at b /\ String.le (gr_id a) (gr_id b) /\ gr_id a <> gr_id b).
Proof. unfold newer_grant. rewrite orb_true_iff, andb_true_iff, Z.ltb_lt, Z.eqb_eq, str_ltb_spec. done. Qed.

Lemma newer_grant_trans a b c : newer_grant a b = true -> newer_grant b c = true -> newer_grant a c = true.
Proof.
  rewrite !newer_grant_iff. intros [H1|(H1 & L1 & N1)] [H2|(H2 & L2 & N2)]; [left; lia..|].
  right. split_and!; [lia|by etrans|]. intros Heq. apply N1.
  apply (anti_symm String.le); [done|]. by rewrite Heq.
Qed.

Lemma newer_grant_total a b : newer_grant a b = false -> newer_grant b a = false -> gr_id a = gr_id b.
Proof.
  intros H1 H2. destruct (base.decide (gr_id a = gr_id b)) as [|Hne]; [done|]. exfalso.
  apply not_true_iff_false in H1, H2. rewrite newer_grant_iff in H1, H2.
  destruct (Z.lt_trichotomy (gr_issued_at a) (gr_issued_at b)) as [?|[?|?]]; [tauto| |tauto].
  destruct (String.le_total (gr_id a) (gr_id b)); [apply H1|apply H2]; right; by repeat split.
Qed.

Lemma select_fold contract l acc :
  match foldl (select_step contract) acc l with
  | None => acc = None /\ Forall (fun g => gr_contract g <> contract) l
  | Some g =>
      (acc = Some g \/ (g ∈ l /\ gr_contract g = contract)) /\
      (forall s, acc = Some s -> newer_grant g s = false) /\
      Forall (fun g' => gr_contract g' = contract -> newer_grant g g' = false) l
  end.
Proof.
  assert (Hirr : forall g, newer_grant g g = false).
  { intros g. apply not_true_iff_false. rewrite newer_grant_iff. intros [?|(_ & _ & ?)]; [lia|done]. }
  assert (Hanti : forall a b, newer_grant a b = true -> newer_grant b a = false).
  { intros a b H. apply not_true_iff_false. intros H'. pose proof (newer_grant_trans _ _ _ H H') as K.
    by rewrite Hirr in K. }
  assert (Hstep : forall a b g, newer_grant a b = true -> newer_grant g b = false -> newer_grant g a = false).
  { intros a b g Hab Hgb. apply not_true_iff_false. intros Hga. rewrite (newer_grant_trans g a b Hga Hab) in Hgb. done. }
  revert acc. induction l as [|x l IH]; intros acc; cbn [foldl].
  - destruct acc as [g|]; [|by split; [|constructor]]. split_and!; [by left|naive_solver|constructor].
  - specialize (IH (select_step contract acc x)). remember (select_step contract acc x) as acc' eqn:Hacc. unfold select_step in Hacc.
    destruct (base.decide (gr_contract x = contract)) as [Hx|Hx].
    2: { rewrite bool_decide_eq_false_2 in Hacc by done. cbn [negb] in Hacc. subst acc'.
         destruct (foldl _ acc l) as [g|].
         - destruct IH as (H1 & H2 & H3). split_and!; [set_solver|done|by constructor].
         - destruct IH as [-> H]. split; [done|by constructor]. }
    rewrite bool_decide_eq_true_2 in Hacc by done. cbn [negb] in Hacc.
    destruct acc as [s|].
    + destruct (newer_grant s x) eqn:Hn; subst acc'.
      * destruct (foldl _ (Some x) l) as [g|]; [|by destruct IH].
        destruct IH as (H1 & H2 & H3). specialize (H2 x eq_refl). split_and!; [set_solver| |by constructor].
        intros ? [= <-]. by eapply Hstep.
      * destruct (foldl _ (Some s) l) as [g|]; [|by destruct IH].
        destruct IH as (H1 & H2 & H3). specialize (H2 s eq_refl). split_and!; [set_solver|naive_solver|].
        constructor; [|done]. intros _. destruct (newer_grant g x) eqn:Hgx; [|done]. exfalso.
        destruct (newer_grant x s) eqn:Hxs.
        -- rewrite (newer_grant_trans g x s Hgx Hxs) in H2. done.
        -- destruct H1 as [[= ->]|H1]; [by rewrite Hn in Hgx|].
           pose proof (newer_grant_total _ _ Hn Hxs). 
           rewrite newer_grant_iff in Hgx. apply not_true_iff_false in H2, Hn, Hxs. rewrite newer_grant_iff in H2, Hn, Hxs.
           apply H2. destruct Hgx as [?|(? & ? & ?)].
           ++ left. destruct (Z.lt_trichotomy (gr_issued_at s) (gr_issued_at x)) as [?|[?|?]]; [naive_solver|lia|naive_solver].
           ++ right. destruct (Z.lt_trichotomy (gr_issued_at s) (gr_issued_at x)) as [?|[?|?]]; [naive_solver| |naive_solver].
              split_and!; [lia|congruence|congruence].
    + subst acc'. destruct (foldl _ (Some x) l) as [g|]; [|by destruct IH].
      destruct IH as (H1 & H2 & H3). specialize (H2 x eq_refl). split_and!; [set_solver|done|by constructor].
Qed.

Lemma select_grant_spec registry contract g :
  registry_ok registry -> select_grant registry contract = Some g <-> latest_grant registry contract g.
Proof.
  intros Hok. unfold select_grant. pose proof (select_fold contract (values (rg_grants registry)) None) as H.
  destruct (foldl _ None _) as [s|].
  - destruct H as (Hs & _ & Hall). destruct Hs as [Hs|[Hs Hc]]; [done|]. apply elem_of_values in Hs as [k Hk].
    rewrite Forall_forall in Hall.
    assert (Hlatest : latest_grant registry contract s).
    { split_and!; [eauto|done|]. intros k' g' Hk' Hc'. apply Hall; [apply elem_of_values; eauto|done]. }
    split; [by intros [= <-]|]. intros ((k' & Hk') & Hc' & Hall').
    f_equal. pose proof (newer_grant_total s g) as Ht.
    assert (Hid : gr_id s = gr_id g).
    { apply Ht; [by apply (proj2 (proj2 Hlatest) k')|by apply (Hall' k)]. }
    destruct (map_ok_lookup _ _ _ _ _ _ (ok_grants registry Hok) Hk) as [E1 _].
    destruct (map_ok_lookup _ _ _ _ _ _ (ok_grants registry Hok) Hk') as [E2 _]. congruence.
  - destruct H as [_ Hall]. rewrite Forall_forall in Hall. split; [done|]. intros ((k & Hk) & Hc & _).
    destruct (Hall g); [apply elem_of_values; eauto|done].
Qed.

Lemma check_binding_spec registry c g side : check_spec (check_binding registry c g side) (bound_current registry c g side).
Proof.
  unfold check_binding, bound_current. destruct (find_cluster registry _) as [cluster|].
  - eapply check_iff; [|repeat check_seq].
    rewrite ?negb_false_iff, ?bool_decide_eq_true, ?Z.eqb_eq. naive_solver.
  - eapply check_iff; [|repeat check_seq]. naive_solver.
Qed.

Lemma check_grant_state_spec g : check_spec (check_grant_state g) (usable_state g = true).
Proof.
  unfold check_grant_state, usable_state. destruct (gr_state g);
    try (eapply check_iff; [|by apply check_refuse]; done); (eapply check_iff; [|apply check_ret]; done).
Qed.

Lemma check_grant_spec registry c q v :
  registry_ok registry ->
  check_spec (check_grant registry c q v) (exists g, latest_grant registry (ct_id c) g /\ grant_current registry c q v g).
Proof.
  intros Hok. unfold check_grant. destruct (select_grant registry (ct_id c)) as [g|] eqn:Hg.
  - pose proof Hg as Hl. apply select_grant_spec in Hl; [|done]. eapply check_iff.
    2: { apply (check_step (set_selected g)).
         apply check_bind; [apply check_grant_state_spec|intros _].
         do 3 (apply check_bind; [by apply check_refuse_if|intros _]).
         do 2 (apply check_bind; [apply check_binding_spec|intros _]).
         apply check_bind; [by apply check_refuse_if|intros _]. by apply check_refuse_if. }
    rewrite ?orb_false_iff, ?negb_false_iff, ?bool_decide_eq_true, ?Z.eqb_eq, ?Z.ltb_ge.
    unfold grant_current. split.
    + intros (? & ? & [? ?] & ? & Hf & Ht & ? & ?). exists g. split_and!; try done. by intros [].
    + intros (g' & Hl' & H). apply select_grant_spec in Hl'; [|done]. assert (g' = g) as -> by congruence.
      destruct H as (? & ? & ? & ? & ? & Hs & ? & ?). split_and!; try done; apply Hs.
  - eapply check_iff; [|by apply check_refuse]. split; [done|]. intros (g & Hl & _).
    apply select_grant_spec in Hl; [|done]. congruence.
Qed.

(** ** Paths *)
Lemma see_paths_bits source target l s :
  let p_ok st p := joins (pa_a p) (pa_b p) source target && negb (pa_contains_unsupported_edge p) &&
                   bool_decide (pa_state p = st) in
  sn_up (foldl (see_path source target) s l) = sn_up s || existsb (p_ok PathState_Up) l /\
  sn_degraded (foldl (see_path source target) s l) = sn_degraded s || existsb (p_ok PathState_Degraded) l.
Proof.
  cbv zeta. revert s. induction l as [|p l IH]; intros s; cbn [foldl existsb]; [by rewrite !orb_false_r|].
  destruct (IH (see_path source target s p)) as [-> ->]. unfold see_path.
  destruct (joins _ _ _ _); cbn [negb andb orb]; [|done].
  destruct (pa_contains_unsupported_edge p); cbn [negb andb orb sn_up sn_degraded]; [done|].
  destruct (pa_state p); cbn; repeat case_match; cbn [sn_up sn_degraded];
    rewrite ?orb_true_r, ?orb_true_l; split; try done; by rewrite ?orb_true_r.
Qed.

Lemma path_between_iff registry q st :
  existsb (fun p => joins (pa_a p) (pa_b p) (dq_source q) (dq_target q) && negb (pa_contains_unsupported_edge p) &&
             bool_decide (pa_state p = st)) (values (rg_paths registry)) = true <-> path_between registry q st.
Proof.
  rewrite existsb_exists. unfold path_between. split.
  - intros (p & Hp & H). apply list_elem_of_In, elem_of_values in Hp as [k Hk]. bool_prop. exists k, p. done.
  - intros (k & p & Hk & Hj & Hu & Hs). exists p. split; [apply list_elem_of_In, elem_of_values; eauto|].
    by rewrite Hj, Hu, Hs, bool_decide_eq_true_2.
Qed.

(** The path evaluation is usable exactly when a supported path is up or degraded, and degraded
    exactly when none is up. *)
Lemma evaluate_paths_spec registry q :
  let e := evaluate_paths registry (dq_source q) (dq_target q) in
  match ph_status e with
  | Val _ => if ph_degraded e then ~ path_between registry q PathState_Up /\ path_between registry q PathState_Degraded
             else path_between registry q PathState_Up
  | Err s => is_authorized (st_outcome s) = false /\
             ~ path_between registry q PathState_Up /\ ~ path_between registry q PathState_Degraded
  | Throw => False
  end.
Proof.
  cbv zeta. unfold evaluate_paths.
  destruct (see_paths_bits (dq_source q) (dq_target q) (values (rg_paths registry)) (mkSeen false false false false [] []))
    as [Hu Hd]. cbn [sn_up sn_degraded orb] in Hu, Hd.
  pose proof (path_between_iff registry q PathState_Up) as Ku. rewrite <- Hu in Ku.
  pose proof (path_between_iff registry q PathState_Degraded) as Kd. rewrite <- Hd in Kd.
  set (s := foldl _ _ _) in *. clearbody s.
  destruct (sn_up s), (sn_degraded s), (sn_unknown s), (sn_unsupported s); cbn; intuition congruence.
Qed.

(** ** Candidates *)
Lemma try_candidate_spec registry q v c :
  registry_ok registry ->
  check_spec (try_candidate registry q v c)
    (contract_consented registry c /\ exists g, latest_grant registry (ct_id c) g /\ grant_current registry c q v g).
Proof.
  intros Hok. apply (check_step (set_candidate (ct_id c) (ct_terms_digest c))).
  apply check_bind; [apply check_consents_spec|intros _].
  apply (check_step (push_reason ReasonCode_AuthoritySatisfied)). by apply check_grant_spec.
Qed.

Lemma elem_of_candidates registry q c :
  c ∈ candidates registry (dq_source q) (dq_target q) <->
  (exists k, rg_contracts registry !! k = Some c) /\ covers (dq_source q) (dq_target q) c = true.
Proof.
  unfold candidates. rewrite (merge_sort_Permutation candidate_le), list_elem_of_filter, elem_of_values. tauto.
Qed.

(** The failure that is kept never carries an authorizing outcome. *)
Lemma try_candidates_spec registry q v d best l :
  registry_ok registry ->
  (forall b, best = Some b -> authorized b = false) ->
  match try_candidates registry q v d best l with
  | inl trial => exists c, c ∈ l /\ try_candidate registry q v c d = (Val tt, trial) /\
      contract_consented registry c /\ exists g, latest_grant registry (ct_id c) g /\ grant_current registry c q v g
  | inr b => (forall b', b = Some b' -> authorized b' = false) /\
      Forall (fun c => ~ (contract_consented registry c /\
        exists g, latest_grant registry (ct_id c) g /\ grant_current registry c q v g)) l
  end.
Proof.
  intros Hok. revert best. induction l as [|c l IH]; intros best Hbest; cbn [try_candidates]; [by split; [|constructor]|].
  pose proof (try_candidate_spec registry q v c Hok d) as Hc.
  destruct (try_candidate registry q v c d) as [[[]|s|] trial] eqn:Htry; cbn [fst] in Hc; [|destruct Hc as [Hc Hs]|done].
  - exists c. split_and!; [left|done|by destruct Hc..].
  - specialize (IH (match best with Some b => Some b | None => Some (finish (st_outcome s) (st_message s) trial) end)).
    destruct (try_candidates _ _ _ _ _ l) as [t|b].
    + destruct IH as (c' & Hin & ?); [destruct best; naive_solver|]. exists c'. split; [by right|done].
    + destruct IH as [H1 H2]; [destruct best; naive_solver|]. split; [done|by constructor].
Qed.

(** ** The decision *)
Lemma finish_authorized o detail d : authorized (finish o detail d) = is_authorized o.
Proof. done. Qed.

(** The outcomes of [conclude]. *)
Lemma conclude_outcome q policy source target paths d :
  de_outcome (conclude q policy source target paths d) =
  if ph_degraded paths then
    if dq_allow_degraded q && pe_allow_degraded policy && ep_permits_degraded source && ep_permits_degraded target
    then Outcome_DegradedAuthorized else Outcome_Unauthorized
  else Outcome_Ok.
Proof.
  unfold conclude. destruct (ph_degraded paths); [|done].
  destruct (dq_allow_degraded q), (pe_allow_degraded policy), (ep_permits_degraded source),
    (ep_permits_degraded target); done.
Qed.

Section decide_facts.
Context (registry : Registry) (q : DecisionQuery) (v : EngineView).
Context (Hok : registry_ok registry).

Definition outcome_spec (o : Outcome) (up degraded : Prop) : Prop :=
  (o = Outcome_Ok <-> up) /\ (o = Outcome_DegradedAuthorized <-> degraded).

Lemma outcome_spec_neither o (P Q : Prop) : is_authorized o = false -> ~ P -> ~ Q -> outcome_spec o P Q.
Proof. intros Ho HP HQ. split; (split; [intros ->; done|tauto]). Qed.

Lemma decide_contract_spec policy source target d :
  outcome_spec (de_outcome (decide_contract registry q v policy source target d))
    ((exists c, contract_authorizes registry q v c) /\ path_between registry q PathState_Up)
    ((exists c, contract_authorizes registry q v c) /\ ~ path_between registry q PathState_Up /\
     path_between registry q PathState_Degraded /\ dq_allow_degraded q = true /\ pe_allow_degraded policy = true /\
     ep_permits_degraded source = true /\ ep_permits_degraded target = true).
Proof.
  unfold decide_contract. pose proof (evaluate_paths_spec registry q) as Hp. cbv zeta in Hp |- *.
  destruct (ph_status _) as [[]|s|] eqn:Hst; [|destruct Hp as (? & ? & ?); apply outcome_spec_neither; tauto|done].
  set (l := candidates registry (dq_source q) (dq_target q)).
  assert (Hno : Forall (fun c => ~ (contract_consented registry c /\
        exists g, latest_grant registry (ct_id c) g /\ grant_current registry c q v g)) l ->
      ~ exists c, contract_authorizes registry q v c).
  { intros Hf (c & Hk & Hcov & Hc). rewrite Forall_forall in Hf. apply (Hf c); [|done]. by apply elem_of_candidates. }
  case_bool_decide as Hl.
  { apply outcome_spec_neither; [done|intros [Hc _]; revert Hc; apply Hno; rewrite Hl; constructor..]. }
  pose proof (try_candidates_spec registry q v d None l Hok ltac:(done)) as Ht.
  destruct (try_candidates registry q v d None l) as [trial|b].
  - destruct Ht as (c & Hin & _ & Hc). apply elem_of_candidates in Hin as [Hk Hcov].
    assert (Hex : exists c, contract_authorizes registry q v c) by (exists c; done).
    rewrite conclude_outcome. destruct (ph_degraded _).
    + destruct (dq_allow_degraded q), (pe_allow_degraded policy), (ep_permits_degraded source),
        (ep_permits_degraded target); cbn [andb]; split; (split; [try done; intros _|intros]); intuition congruence.
    + split; (split; [try done; intros _|intros]); intuition congruence.
  - destruct Ht as [Hb Hf]. apply Hno in Hf. destruct b as [b|].
    + apply outcome_spec_neither; [by apply Hb|tauto..].
    + apply outcome_spec_neither; [done|tauto..].
Qed.

Lemma decide_spec_outcome :
  outcome_spec (de_outcome (decide registry q v))
    (exists source target, connectivity registry q v source target /\ path_between registry q PathState_Up)
    (exists source target, connectivity registry q v source target /\ ~ path_between registry q PathState_Up /\
       path_between registry q PathState_Degraded /\ degraded_permitted registry q source target).
Proof.
  unfold decide. cbv zeta.
  assert (Hres : forall a b, connectivity registry q v a b ->
    resolve registry (dq_source q) = Some a /\ resolve registry (dq_target q) = Some b /\ dq_source q <> dq_target q).
  { intros a b (? & ? & ? & _). done. }
  destruct (resolve registry (dq_source q)) as [source|] eqn:Hs.
  2: { apply outcome_spec_neither; [done|intros (a & b & (K & _)%Hres & _); done..]. }
  destruct (resolve registry (dq_target q)) as [target|] eqn:Ht.
  2: { apply outcome_spec_neither; [done|intros (a & b & (_ & K & _)%Hres & _); done..]. }
  case_bool_decide as Hne.
  { apply outcome_spec_neither; [done|intros (a & b & (_ & _ & K)%Hres & _); done..]. }
  assert (Hexp : forall a b, expectations_met q a b <->
      dq_expect_source_generation q && negb (dq_source_generation q =? cl_generation a) = false /\
      dq_expect_target_generation q && negb (dq_target_generation q =? cl_generation b) = false).
  { intros a b. unfold expectations_met. rewrite !andb_false_iff, !negb_false_iff, !Z.eqb_eq.
    destruct (dq_expect_source_generation q), (dq_expect_target_generation q); naive_solver. }
  unfold or_finish. set (m := _ ← check_cluster source.2; _). set (d0 := set_authorities _ _ _).
  assert (Hchk : check_spec m (cluster_admits source.2 /\ cluster_admits target.2 /\ endpoint_admits source.1 /\
      endpoint_admits target.1 /\
      dq_expect_source_generation q && negb (dq_source_generation q =? cl_generation source.2) = false /\
      dq_expect_target_generation q && negb (dq_target_generation q =? cl_generation target.2) = false)).
  { unfold m. do 2 (apply check_bind; [apply check_cluster_spec|intros _]).
    do 2 (apply check_bind; [apply check_endpoint_spec|intros _]). repeat check_seq. }
  eapply check_iff in Hchk; [|by rewrite <- Hexp]. specialize (Hchk d0). destruct (m d0) as [[[]|s|] d']; cbn [fst] in Hchk; [| |done].
  2: { destruct Hchk as [Hn Hau]. apply outcome_spec_neither; [done|..]; intros (a & b & Hc & _); apply Hn;
       destruct Hc as (Ka & Kb & _ & ? & ? & ? & ? & ? & _);
       rewrite Hs in Ka; rewrite Ht in Kb; simplify_eq; done. }
  unfold decide_policy. set (policy := evaluate_policy _ _ _ _ _).
  assert (Hpol : pe_decision policy <> PolicyDecision_Allowed -> forall P Q o, is_authorized o = false ->
     outcome_spec o (exists a b, connectivity registry q v a b /\ P a b)
       (exists a b, connectivity registry q v a b /\ Q a b)).
  { intros Hpe P Q o Ho. apply outcome_spec_neither; [done|..]; intros (a & b & Hc & _); apply Hpe;
      destruct Hc as (Ka & Kb & _ & _ & _ & _ & _ & _ & K & _);
      rewrite Hs in Ka; rewrite Ht in Kb; simplify_eq; done. }
  destruct (pe_decision policy) eqn:Hpe; try (apply Hpol; [done|done]).
  pose proof (decide_contract_spec policy source.1 target.1 (push_reason ReasonCode_PolicyAllowed d')) as Hdc.
  assert (Hconn : (exists c, contract_authorizes registry q v c) <-> connectivity registry q v source target).
  { unfold connectivity. split; [naive_solver|intros H; by destruct_and! H]. }
  assert (Huniq : forall a b, connectivity registry q v a b -> a = source /\ b = target).
  { intros a b (Ka & Kb & _). rewrite Hs in Ka. rewrite Ht in Kb. by simplify_eq. }
  destruct Hdc as [H1 H2]. rewrite Hconn in H1, H2. split.
  - rewrite H1. split; [naive_solver|]. intros (a & b & Hc & ?). by destruct (Huniq a b Hc) as [-> ->].
  - rewrite H2. unfold degraded_permitted. split; [|intros (a & b & Hc & ?); destruct (Huniq a b Hc) as [-> ->]; tauto].
    intros (? & ? & ? & ? & ? & ? & ?). exists source, target. done.
Qed.
End decide_facts.

(** C1. [decide] is sound and complete: it answers [Ok] exactly when the two endpoints resolve in
    admitting clusters and endpoints, the caller's expectations hold, the policy of both domains
    allows the pair, a supported path is up, and some contract carries current consents of both
    sides and a latest grant that is committed, acknowledged by both sides, issued in this
    coordinator term and incarnation, bound to the current incarnations and generations, unexpired
    and large enough. It answers [DegradedAuthorized] exactly when all this holds with only a
    degraded path that the query, the policy and both endpoints permit. *)
Theorem decide_sound_complete registry q v :
  registry_ok registry ->
  (de_outcome (decide registry q v) = Outcome_Ok <->
     exists source target, connectivity registry q v source target /\ path_between registry q PathState_Up) /\
  (de_outcome (decide registry q v) = Outcome_DegradedAuthorized <->
     exists source target, connectivity registry q v source target /\ ~ path_between registry q PathState_Up /\
       path_between registry q PathState_Degraded /\ degraded_permitted registry q source target).
Proof. intros Hok. apply (decide_spec_outcome registry q v Hok). Qed.

(** ** Fence plans *)
(** The contracts the plan covers when it is not cut at its bound. *)
Definition cluster_contracts (registry : Registry) (cluster : string) : list ContractRecord :=
  filter (fun c => is_Some (contract_side_of c cluster)) (values (rg_contracts registry)).

Lemma plan_contracts_full registry cluster reason acc l :
  zlen (plan_contracts registry cluster reason acc l) <= limits.kMaxFencePlanEntries ->
  plan_contracts registry cluster reason acc l =
  acc ++ concat (contract_actions registry reason <$> filter (fun c => is_Some (contract_side_of c cluster)) l).
Proof.
  revert acc. induction l as [|c l IH]; intros acc H; cbn [plan_contracts] in *; [by rewrite app_nil_r|].
  rewrite filter_cons. destruct (contract_side_of c cluster) as [s|] eqn:Hs.
  - rewrite decide_True by eauto. destruct (Z.ltb_spec limits.kMaxFencePlanEntries (zlen (acc ++ contract_actions registry reason c)));
      [lia|]. rewrite IH by done. cbn [fmap list_fmap concat]. by rewrite app_assoc.
  - rewrite decide_False by (by intros []). by apply IH.
Qed.

(** Every action comes from a contract of the cluster, cut or not. *)
Lemma plan_contracts_sound registry cluster reason acc l a :
  a ∈ plan_contracts registry cluster reason acc l ->
  a ∈ acc \/ exists c, c ∈ l /\ is_Some (contract_side_of c cluster) /\ a ∈ contract_actions registry reason c.
Proof.
  revert acc. induction l as [|c l IH]; intros acc Ha; cbn [plan_contracts] in Ha; [by left|].
  destruct (contract_side_of c cluster) as [s|] eqn:Hs.
  - assert (Hin : a ∈ acc ++ contract_actions registry reason c -> a ∈ acc \/ exists c', c' ∈ c :: l /\
        is_Some (contract_side_of c' cluster) /\ a ∈ contract_actions registry reason c').
    { intros [?|?]%elem_of_app; [by left|]. right. exists c. split_and!; [left|eauto|done]. }
    destruct (_ <? _); [by apply Hin|]. apply IH in Ha as [Ha|(c' & ? & ?)]; [by apply Hin|].
    right. exists c'. split; [by right|done].
  - apply IH in Ha as [Ha|(c' & ? & ?)]; [by left|]. right. exists c'. split; [by right|done].
Qed.

Lemma elem_of_grant_actions registry contract reason g a :
  a ∈ grant_actions registry contract reason g <->
  (fenceable g = true /\ a = mkAction FenceTarget_Grant (gr_id g) contract nil_uuid reason) \/
  (exists k s, rg_reservations registry !! k = Some s /\ rs_grant s = gr_id g /\ rs_released s = false /\
     a = mkAction FenceTarget_Reservation (gr_id g) contract (rs_id s) reason).
Proof.
  unfold grant_actions, reservation_actions. rewrite elem_of_app, list_elem_of_fmap.
  setoid_rewrite list_elem_of_filter. setoid_rewrite elem_of_values. split.
  - intros [Ha|(s & -> & [? ?] & [k ?])]; [left; destruct (fenceable g); set_solver|right; naive_solver].
  - intros [[-> ->]|(k & s & ? & ? & ? & ->)]; [left; set_solver|right; naive_solver].
Qed.

Lemma elem_of_contract_actions registry reason c a :
  a ∈ contract_actions registry reason c <->
  (exists k g, rg_grants registry !! k = Some g /\ gr_contract g = ct_id c /\ a ∈ grant_actions registry (ct_id c) reason g) \/
  (a = mkAction FenceTarget_Contract nil_uuid (ct_id c) nil_uuid reason /\ ct_state c <> ContractState_Withdrawn /\
   exists k g, rg_grants registry !! k = Some g /\ gr_contract g = ct_id c /\ fenceable g = true).
Proof.
  unfold contract_actions. set (gs := filter _ _).
  assert (Hg : forall g, g ∈ gs <-> gr_contract g = ct_id c /\ exists k, rg_grants registry !! k = Some g).
  { intros g. unfold gs. by rewrite list_elem_of_filter, elem_of_values. }
  assert (Haff : existsb fenceable gs = true <->
            exists k g, rg_grants registry !! k = Some g /\ gr_contract g = ct_id c /\ fenceable g = true).
  { rewrite existsb_exists. setoid_rewrite <- list_elem_of_In. setoid_rewrite Hg. naive_solver. }
  rewrite elem_of_app. rewrite <- Haff.
  assert (Hcat : a ∈ concat (grant_actions registry (ct_id c) reason <$> gs) <->
            exists g, g ∈ gs /\ a ∈ grant_actions registry (ct_id c) reason g).
  { rewrite list_elem_of_In, in_concat. setoid_rewrite <- list_elem_of_In. setoid_rewrite list_elem_of_fmap. naive_solver. }
  rewrite Hcat. setoid_rewrite Hg.
  destruct (existsb fenceable gs) eqn:E; cbn [andb].
  - destruct (bool_decide (ct_state c = ContractState_Withdrawn)) eqn:Ew; bool_prop; cbn [negb].
    + rewrite elem_of_nil. naive_solver.
    + rewrite list_elem_of_singleton. naive_solver.
  - rewrite elem_of_nil. naive_solver.
Qed.

(** A plan within its bound contains every action of every contract of the cluster. *)
Lemma plan_fence_full registry trigger cluster inc prev gen term k c a :
  let plan := plan_fence registry trigger cluster inc prev gen term in
  zlen (fp_actions plan) <= limits.kMaxFencePlanEntries ->
  rg_contracts registry !! k = Some c -> is_Some (contract_side_of c cluster) ->
  a ∈ contract_actions registry (grant_reason trigger) c -> a ∈ fp_actions plan.
Proof.
  cbv zeta. cbn [plan_fence fp_actions]. intros Hlen Hc Hs Ha. rewrite plan_contracts_full by done. cbn [app].
  apply list_elem_of_In, in_concat. eexists. split; [|by apply list_elem_of_In].
  apply list_elem_of_In, list_elem_of_fmap. exists c. split; [done|]. apply list_elem_of_filter.
  split; [done|]. apply elem_of_values. eauto.
Qed.

(** A fence plan names only live grants, unreleased reservations and affected contracts of the
    cluster it is for; and a plan within its bound names them all: every grant of a contract of the
    cluster that could still authorize, every capacity held under such a contract, and every
    contract with such a grant. *)
Theorem plan_fence_covers registry trigger cluster inc prev gen term :
  let plan := plan_fence registry trigger cluster inc prev gen term in
  let party c := (exists k, rg_contracts registry !! k = Some c) /\ is_Some (contract_side_of c cluster) in
  let held g c := (exists k, rg_grants registry !! k = Some g) /\ gr_contract g = ct_id c in
  (forall a, a ∈ fp_actions plan -> exists c, party c /\ fa_contract a = ct_id c /\
     match fa_target a with
     | FenceTarget_Grant => exists g, held g c /\ fenceable g = true /\ fa_grant a = gr_id g
     | FenceTarget_Reservation => exists g k s, held g c /\ rg_reservations registry !! k = Some s /\
         rs_grant s = gr_id g /\ rs_released s = false /\ fa_reservation a = rs_id s
     | FenceTarget_Contract => exists g, held g c /\ fenceable g = true
     end) /\
  (zlen (fp_actions plan) <= limits.kMaxFencePlanEntries ->
   forall c g, party c -> held g c ->
     (fenceable g = true ->
        mkAction FenceTarget_Grant (gr_id g) (ct_id c) nil_uuid (grant_reason trigger) ∈ fp_actions plan /\
        (ct_state c <> ContractState_Withdrawn ->
           mkAction FenceTarget_Contract nil_uuid (ct_id c) nil_uuid (grant_reason trigger) ∈ fp_actions plan)) /\
     (forall k s, rg_reservations registry !! k = Some s -> rs_grant s = gr_id g -> rs_released s = false ->
        mkAction FenceTarget_Reservation (gr_id g) (ct_id c) (rs_id s) (grant_reason trigger) ∈ fp_actions plan)).
Proof.
  cbv zeta. cbn [plan_fence fp_actions]. split.
  - intros a Ha. apply plan_contracts_sound in Ha as [?%not_elem_of_nil|(c & Hc & Hs & Ha)]; [done|].
    apply elem_of_values in Hc. exists c. split; [done|].
    apply elem_of_contract_actions in Ha as [(k & g & Hg & Hgc & Ha)|(-> & _ & (k & g & Hg & Hgc & Hf))]; [|cbn; eauto 10].
    apply elem_of_grant_actions in Ha as [[Hf ->]|(k' & s & Hs' & Hsg & Hsr & ->)]; cbn; [eauto 10|].
    split; [done|]. exists g, k', s. eauto 10.
  - intros Hlen c g [[kc Hc] Hs] [[k Hg] Hgc].
    pose proof (fun a => plan_fence_full registry trigger cluster inc prev gen term kc c a Hlen Hc Hs) as Hin.
    split; [intros Hf; split; [|intros Hw]|intros k' s Hs' Hsg Hsr]; apply Hin, elem_of_contract_actions.
    + left. exists k, g. split_and!; [done..|]. apply elem_of_grant_actions. by left.
    + right. eauto 10.
    + left. exists k, g. split_and!; [done..|]. apply elem_of_grant_actions. right. eauto 10.
Qed.
