(* ===== verification/Fencing.v ===== *)
(** * Applying fence plans

    Models src/runtime/audit.cpp and src/runtime/fencing.cpp. The registry is mutated in place and
    the mutations made before an error stay: the operations are [ST Registry]. [FenceOutcome] is
    threaded through the loop. *)
From S2P Require Import Prelude Status Bytes Ids Types Registry Hash Canonical Policy Decision Engine.

(** ** Audit records *)
Definition bounded (value : string) (limit : Z) : string :=
  if limit <? slen value then str_take limit value else value.

(** [trail.back().sequence.next().value()] throws when the sequence is exhausted. *)
Definition next_audit_sequence (trail : list AuditRecord) : Result Z :=
  match last trail with
  | None => Val 1
  | Some back => value_or_throw (counter_next (au_sequence back))
  end.

Definition append_audit (at_time : Z) (actor action subject : string) (outcome : Outcome) (detail : string)
    : ST Registry unit := fun r =>
  match next_audit_sequence (rg_audit r) with
  | Val sequence =>
      let record := mkAudit sequence at_time (bounded actor 64) (bounded action 64) (bounded subject 128) outcome
                      (bounded detail limits.kMaxStringField) in
      match registry_append_audit record r with
      | Val r' => (Val tt, r')
      | Err s => (Err s, r)
      | Throw => (Throw, r)
      end
  | Err s => (Err s, r)
  | Throw => (Throw, r)
  end.

(** ** Outcomes *)
Record FenceOutcome := mkFenceOutcome {
  fo_grants_fenced : Z;
  fo_contracts_fenced : Z;
  fo_reservations_released : Z;
  fo_capacity_released : Z;
  fo_already_fenced : Z;
}.

Definition outcome_zero : FenceOutcome := mkFenceOutcome 0 0 0 0 0.
Definition count_already (o : FenceOutcome) : FenceOutcome :=
  mkFenceOutcome (fo_grants_fenced o) (fo_contracts_fenced o) (fo_reservations_released o) (fo_capacity_released o)
    (fo_already_fenced o + 1).
Definition count_grant (o : FenceOutcome) : FenceOutcome :=
  mkFenceOutcome (fo_grants_fenced o + 1) (fo_contracts_fenced o) (fo_reservations_released o) (fo_capacity_released o)
    (fo_already_fenced o).
Definition count_contract (o : FenceOutcome) : FenceOutcome :=
  mkFenceOutcome (fo_grants_fenced o) (fo_contracts_fenced o + 1) (fo_reservations_released o) (fo_capacity_released o)
    (fo_already_fenced o).
(** [capacity_released] is a [std::uint64_t]. *)
Definition count_release (amount : Z) (o : FenceOutcome) : FenceOutcome :=
  mkFenceOutcome (fo_grants_fenced o) (fo_contracts_fenced o) (fo_reservations_released o + 1)
    ((fo_capacity_released o + amount) mod 2 ^ 64) (fo_already_fenced o).

(** ** Releasing a reservation *)
(** [reserved - amount], not below zero, and the observation time. *)
Definition return_capacity (amount at_time : Z) (e : EndpointRecord) : EndpointRecord :=
  set_ep_provenance (set_pv_observed_at at_time (ep_provenance e))
    (set_ep_reserved (if amount <=? ep_reserved e then ep_reserved e - amount else 0) e).

(** The inner loop: only the first endpoint with the identity ([break]). *)
Fixpoint release_endpoint (endpoint : string) (amount at_time : Z) (l : list EndpointRecord) : list EndpointRecord :=
  match l with
  | [] => []
  | e :: l =>
      if negb (bool_decide (ep_id e = endpoint)) then e :: release_endpoint endpoint amount at_time l
      else return_capacity amount at_time e :: l
  end.

Definition release_cluster (endpoint : string) (amount at_time : Z) (c : ClusterRecord) : ClusterRecord :=
  set_cl_endpoints (release_endpoint endpoint amount at_time (cl_endpoints c)) c.

(** The registry after the reservation was released. *)
Definition released_registry (s : ReservationRecord) (at_time : Z) (r : Registry) : Registry :=
  let s' := set_rs_released at_time (provenance_derived at_time) s in
  let r := match rg_reservations r !! rs_id s with
           | Some _ => with_reservations (<[rs_id s := s']> (rg_reservations r)) r
           | None => r
           end in
  with_clusters (release_cluster (rs_endpoint s) (rs_amount s) at_time <$> rg_clusters r) r.

Definition release_reservation (s : ReservationRecord) (at_time : Z) (o : FenceOutcome) : ST Registry FenceOutcome :=
  fun r => if rs_released s then (Val (count_already o), r)
           else (Val (count_release (rs_amount s) o), released_registry s at_time r).

(** ** Applying a plan *)
Definition fenced_grant (trigger : FenceTrigger) (at_time : Z) (g : GrantRecord) : GrantRecord :=
  set_gr_state GrantState_Fenced ("fenced by " ++ fence_trigger_to_string trigger) (counter_bump (gr_revision g))
    (provenance_derived at_time) g.

Definition fenced_contract (trigger : FenceTrigger) (at_time : Z) (c : ContractRecord) : ContractRecord :=
  set_ct_state (if bool_decide (trigger = FenceTrigger_ClusterWithdrawal) then ContractState_Withdrawn
                else ContractState_Fenced) at_time (counter_bump (ct_revision c)) c.

Definition settled_grant (g : GrantRecord) : bool :=
  bool_decide (gr_state g = GrantState_Fenced) || bool_decide (gr_state g = GrantState_Aborted) ||
  bool_decide (gr_state g = GrantState_Withdrawn).

Definition settled_contract (c : ContractRecord) : bool :=
  bool_decide (ct_state c = ContractState_Withdrawn) || bool_decide (ct_state c = ContractState_Fenced).

Definition apply_grant (plan : FencePlan) (at_time : Z) (actor : string) (id : string) (o : FenceOutcome)
    : ST Registry FenceOutcome := fun r =>
  match rg_grants r !! id with
  | None => (Val (count_already o), r)
  | Some g =>
      if settled_grant g then (Val (count_already o), r)
      else
        let r := with_grants (<[id := fenced_grant (fp_trigger plan) at_time g]> (rg_grants r)) r in
        (_ ← append_audit at_time actor "fence-grant" ("grant=" ++ uuid_to_string (gr_id g)) Outcome_Fenced
               (fence_trigger_to_string (fp_trigger plan));
         mret (count_grant o)) r
  end.

Definition apply_contract (plan : FencePlan) (at_time : Z) (actor : string) (id : string) (o : FenceOutcome)
    : ST Registry FenceOutcome := fun r =>
  match rg_contracts r !! id with
  | None => (Val o, r)
  | Some c =>
      if settled_contract c then (Val (count_already o), r)
      else
        let r := with_contracts (<[id := fenced_contract (fp_trigger plan) at_time c]> (rg_contracts r)) r in
        (_ ← append_audit at_time actor "fence-contract" ("contract=" ++ uuid_to_string (ct_id c)) Outcome_Fenced
               (fence_trigger_to_string (fp_trigger plan));
         mret (count_contract o)) r
  end.

Definition apply_reservation (at_time : Z) (id : string) (o : FenceOutcome) : ST Registry FenceOutcome := fun r =>
  match rg_reservations r !! id with
  | None => (Val (count_already o), r)
  | Some s => release_reservation s at_time o r
  end.

Definition apply_action (plan : FencePlan) (at_time : Z) (actor : string) (a : FenceAction) (o : FenceOutcome)
    : ST Registry FenceOutcome :=
  match fa_target a with
  | FenceTarget_Grant => apply_grant plan at_time actor (fa_grant a) o
  | FenceTarget_Contract => apply_contract plan at_time actor (fa_contract a) o
  | FenceTarget_Reservation => apply_reservation at_time (fa_reservation a) o
  end.

Fixpoint apply_actions (plan : FencePlan) (at_time : Z) (actor : string) (l : list FenceAction) (o : FenceOutcome)
    : ST Registry FenceOutcome :=
  match l with
  | [] => mret o
  | a :: l => o' ← apply_action plan at_time actor a o; apply_actions plan at_time actor l o'
  end.

Definition apply_fence_plan (plan : FencePlan) (at_time : Z) (actor : string) : ST Registry FenceOutcome :=
  apply_actions plan at_time actor (fp_actions plan) outcome_zero.

(** ** Recovery *)
Definition recovery_plan (previous_incarnation : string) (term : Z) (r : Registry) : FencePlan :=
  mkPlan FenceTrigger_CoordinatorReincarnation "" nil_uuid previous_incarnation 0 term (registry_digest r)
    (((fun g => mkAction FenceTarget_Grant (gr_id g) (gr_contract g) nil_uuid ReasonCode_EvidenceRecoveredFromStore)
        <$> filter (fun g => terminal_grant g = false) (values (rg_grants r))) ++
     ((fun s => mkAction FenceTarget_Reservation (rs_grant s) nil_uuid (rs_id s) ReasonCode_EvidenceRecoveredFromStore)
        <$> filter (fun s => rs_released s = false) (values (rg_reservations r))))
    "dynamic evidence recovered from the store is historical and is fenced until revalidated".

Definition fence_recovered_state (at_time : Z) (actor previous_incarnation : string) (term : Z)
    : ST Registry FenceOutcome := fun r =>
  apply_fence_plan (recovery_plan previous_incarnation term r) at_time actor r.

(** ** The effect of a plan, without the audit trail

    [fence_effect] is the registry a plan describes; [apply_actions_effect] shows that the loop of
    the code reaches it whenever it returns, and that it returns whenever the audit trail has
    room. *)
Definition fence_grant (plan : FencePlan) (at_time : Z) (g : GrantRecord) : GrantRecord :=
  if settled_grant g then g else fenced_grant (fp_trigger plan) at_time g.

Definition fence_contract (plan : FencePlan) (at_time : Z) (c : ContractRecord) : ContractRecord :=
  if settled_contract c then c else fenced_contract (fp_trigger plan) at_time c.

Definition effect_action (plan : FencePlan) (at_time : Z) (r : Registry) (a : FenceAction) : Registry :=
  match fa_target a with
  | FenceTarget_Grant => with_grants (alter (fence_grant plan at_time) (fa_grant a) (rg_grants r)) r
  | FenceTarget_Contract => with_contracts (alter (fence_contract plan at_time) (fa_contract a) (rg_contracts r)) r
  | FenceTarget_Reservation =>
      match rg_reservations r !! fa_reservation a with
      | Some s => if rs_released s then r else released_registry s at_time r
      | None => r
      end
  end.

Definition fence_effect (plan : FencePlan) (at_time : Z) (l : list FenceAction) (r : Registry) : Registry :=
  foldl (effect_action plan at_time) r l.

Definition same_but_audit (r r' : Registry) : Prop := with_audit [] r = with_audit [] r'.

#[export] Instance same_but_audit_equiv : Equivalence same_but_audit.
Proof. unfold same_but_audit. split; [done|by intros ? ? ->|by intros ? ? ? -> ->]. Qed.

Lemma with_audit_same l r : same_but_audit (with_audit l r) r.
Proof. done. Qed.

Lemma same_but_audit_fields r r' :
  same_but_audit r r' ->
  rg_clusters r = rg_clusters r' /\ rg_links r = rg_links r' /\ rg_paths r = rg_paths r' /\
  rg_policies r = rg_policies r' /\ rg_contracts r = rg_contracts r' /\ rg_grants r = rg_grants r' /\
  rg_reservations r = rg_reservations r'.
Proof. unfold same_but_audit, with_audit. destruct r, r'. by intros [= -> -> -> -> -> -> ->]. Qed.

#[export] Instance effect_action_proper plan at_time :
  Proper (same_but_audit ==> eq ==> same_but_audit) (effect_action plan at_time).
Proof.
  intros r r' Hr a ? <-. pose proof (same_but_audit_fields _ _ Hr) as (? & ? & ? & ? & ? & ? & Hs).
  unfold effect_action, released_registry, same_but_audit. destruct r, r'. cbn in *. subst.
  destruct (fa_target a); cbn; try done. destruct (_ !! _) as [s|]; [|done].
  destruct (rs_released s); [done|]. cbn. by destruct (_ !! rs_id s).
Qed.

#[export] Instance fence_effect_proper plan at_time l :
  Proper (same_but_audit ==> same_but_audit) (fence_effect plan at_time l).
Proof.
  unfold fence_effect. induction l as [|a l IH]; intros r r' Hr; [done|]. cbn [foldl]. apply IH. by apply effect_action_proper.
Qed.

(** *** Audit *)
Lemma append_audit_effect at_time actor action subject o detail r :
  exists l, (append_audit at_time actor action subject o detail r).2 = with_audit l r /\
    zlen (rg_audit r) <= zlen l /\ (registry_ok r -> registry_ok (with_audit l r)).
Proof.
  unfold append_audit. destruct (next_audit_sequence (rg_audit r)) as [n|s|].
  2, 3: exists (rg_audit r); split_and!; [by destruct r|done|by destruct r].
  destruct (registry_append_audit _ r) as [r'|s|] eqn:E.
  2, 3: exists (rg_audit r); split_and!; [by destruct r|done|by destruct r].
  pose proof E as E'. apply append_audit_Val in E' as (-> & _ & _). eexists. split_and!; [done| |].
  - rewrite zlen_app. unfold zlen at 3. simpl. lia.
  - intros Hok. by eapply append_audit_ok.
Qed.

(** Room for [n] more records: the trail is below its bound and its sequence does not run out. *)
Definition audit_room (n : Z) (r : Registry) : Prop :=
  zlen (rg_audit r) + n <= limits.kMaxAuditRecords /\
  match last (rg_audit r) with Some b => au_sequence b + n <= u64_max | None => n <= u64_max end.

Lemma append_audit_room n at_time actor action subject o detail r :
  0 <= n -> audit_room (n + 1) r ->
  exists r', append_audit at_time actor action subject o detail r = (Val tt, r') /\
    same_but_audit r' r /\ audit_room n r'.
Proof.
  intros Hn [Hlen Hseq]. unfold append_audit, next_audit_sequence.
  assert (Hgo : forall seq, seq <= u64_max -> n + seq <= u64_max ->
    (forall b, last (rg_audit r) = Some b -> seq = au_sequence b + 1) ->
    exists r', match registry_append_audit (mkAudit seq at_time (bounded actor 64) (bounded action 64)
        (bounded subject 128) o (bounded detail limits.kMaxStringField)) r with
      | Val r' => (Val tt, r') | Err s => (Err s, r) | Throw => (Throw, r) end = (Val tt, r') /\
      same_but_audit r' r /\ audit_room n r').
  { intros seq Hs Hns Hb. rewrite append_audit_accepts by (done || lia). eexists. split; [done|]. split; [done|].
    unfold audit_room. cbn [rg_audit with_audit]. rewrite zlen_app, last_snoc. cbn [au_sequence].
    unfold zlen at 2. cbn [length]. lia. }
  destruct (last (rg_audit r)) as [b|].
  - unfold counter_next, counter_increment. destruct (Z.eqb_spec (au_sequence b) u64_max); [lia|].
    cbn [value_or_throw]. apply Hgo; [lia|lia|]. by intros ? [= ->].
  - apply Hgo; [|unfold u64_max in *; lia|done]. unfold u64_max. lia.
Qed.

(** *** One action *)
Lemma fence_insert {V} (m : gmap string V) k v f : m !! k = Some v -> <[k := f v]> m = alter f k m.
Proof.
  intros Hk. apply map_eq. intros i. destruct (decide_rel eq i k) as [->|Hne].
  - by rewrite lookup_insert_eq, lookup_alter_eq, Hk.
  - by rewrite lookup_insert_ne, lookup_alter_ne.
Qed.

Lemma alter_fixpoint {V} (m : gmap string V) k v f : m !! k = Some v -> f v = v -> alter f k m = m.
Proof. intros Hk Hf. rewrite <- (fence_insert m k v f Hk), Hf. by apply insert_id. Qed.

Lemma alter_None {V} (m : gmap string V) k f : m !! k = None -> alter f k m = m.
Proof.
  intros Hk. apply map_eq. intros i. destruct (decide_rel eq i k) as [->|Hne].
  - by rewrite lookup_alter_eq, Hk.
  - by rewrite lookup_alter_ne.
Qed.

(** The mutation happens before the audit record is appended, so it takes place even when the
    audit trail refuses the record. *)
Lemma apply_action_effect plan at_time actor a o r :
  same_but_audit (apply_action plan at_time actor a o r).2 (effect_action plan at_time r a).
Proof.
  unfold apply_action, effect_action. destruct (fa_target a).
  - unfold apply_grant. destruct (rg_grants r !! fa_grant a) as [g|] eqn:Hg; cbn [snd].
    2: { rewrite alter_None by done. by destruct r. }
    unfold fence_grant at 1. destruct (settled_grant g) eqn:Hs; cbn [snd].
    { rewrite (alter_fixpoint _ _ g) by (done || by rewrite Hs). by destruct r. }
    unfold mbind, ST_bind. set (r1 := with_grants _ r).
    destruct (append_audit_effect at_time actor "fence-grant" ("grant=" ++ uuid_to_string (gr_id g)) Outcome_Fenced
      (fence_trigger_to_string (fp_trigger plan)) r1) as (l & Hl & _).
    destruct (append_audit _ _ _ _ _ _ r1) as [[[]| |] r2]; cbn [snd] in *; subst r2; unfold r1;
      unfold same_but_audit; cbn; rewrite <- (fence_insert _ _ g _ Hg), Hs; done.
  - unfold apply_contract. destruct (rg_contracts r !! fa_contract a) as [c|] eqn:Hc; cbn [snd].
    2: { rewrite alter_None by done. by destruct r. }
    unfold fence_contract at 1. destruct (settled_contract c) eqn:Hs; cbn [snd].
    { rewrite (alter_fixpoint _ _ c) by (done || by rewrite Hs). by destruct r. }
    unfold mbind, ST_bind. set (r1 := with_contracts _ r).
    destruct (append_audit_effect at_time actor "fence-contract" ("contract=" ++ uuid_to_string (ct_id c)) Outcome_Fenced
      (fence_trigger_to_string (fp_trigger plan)) r1) as (l & Hl & _).
    destruct (append_audit _ _ _ _ _ _ r1) as [[[]| |] r2]; cbn [snd] in *; subst r2; unfold r1;
      unfold same_but_audit; cbn; rewrite <- (fence_insert _ _ c _ Hc), Hs; done.
  - unfold apply_reservation, release_reservation. destruct (rg_reservations r !! _) as [s|]; [|done].
    by destruct (rs_released s).
Qed.

Lemma audit_room_weaken n r : audit_room (n + 1) r -> audit_room n r.
Proof. unfold audit_room. destruct (last _); lia. Qed.

Lemma apply_action_room n plan at_time actor a o r :
  0 <= n -> audit_room (n + 1) r ->
  exists o' r', apply_action plan at_time actor a o r = (Val o', r') /\ audit_room n r'.
Proof.
  intros Hn Hr. pose proof (audit_room_weaken _ _ Hr) as Hw. unfold apply_action. destruct (fa_target a).
  - unfold apply_grant. destruct (rg_grants r !! _) as [g|]; [|eauto]. destruct (settled_grant g); [eauto|].
    unfold mbind, ST_bind. destruct (append_audit_room n at_time actor "fence-grant" ("grant=" ++ uuid_to_string (gr_id g))
      Outcome_Fenced (fence_trigger_to_string (fp_trigger plan))
      (with_grants (<[fa_grant a:=fenced_grant (fp_trigger plan) at_time g]> (rg_grants r)) r) Hn Hr)
      as (r' & -> & _ & ?). eexists _, _. done.
  - unfold apply_contract. destruct (rg_contracts r !! _) as [c|]; [|eauto]. destruct (settled_contract c); [eauto|].
    unfold mbind, ST_bind. destruct (append_audit_room n at_time actor "fence-contract" ("contract=" ++ uuid_to_string (ct_id c))
      Outcome_Fenced (fence_trigger_to_string (fp_trigger plan))
      (with_contracts (<[fa_contract a:=fenced_contract (fp_trigger plan) at_time c]> (rg_contracts r)) r) Hn Hr)
      as (r' & -> & _ & ?). eexists _, _. done.
  - unfold apply_reservation, release_reservation. destruct (rg_reservations r !! _) as [s|]; [|eauto].
    destruct (rs_released s); [eauto|]. eexists _, _. split; [done|].
    unfold released_registry. by destruct (rg_reservations r !! rs_id s).
Qed.

(** *** The whole plan *)
Lemma apply_actions_effect plan at_time actor l o r o' r' :
  apply_actions plan at_time actor l o r = (Val o', r') -> same_but_audit r' (fence_effect plan at_time l r).
Proof.
  revert o r. induction l as [|a l IH]; intros o r H; cbn [apply_actions] in H; [by injection H as <- <-|].
  pose proof (apply_action_effect plan at_time actor a o r) as Ha. unfold mbind, ST_bind in H.
  destruct (apply_action plan at_time actor a o r) as [[o1| |] r1]; [|done..]. cbn [snd] in Ha.
  apply IH in H. rewrite H. unfold fence_effect. cbn [foldl]. by apply fence_effect_proper.
Qed.

Lemma apply_actions_total plan at_time actor l o r :
  audit_room (zlen l) r -> exists o' r', apply_actions plan at_time actor l o r = (Val o', r').
Proof.
  revert o r. induction l as [|a l IH]; intros o r H; cbn [apply_actions]; [by eexists _, _|].
  assert (Hz : zlen (a :: l) = zlen l + 1) by (unfold zlen; cbn [length]; lia). rewrite Hz in H.
  destruct (apply_action_room (zlen l) plan at_time actor a o r (zlen_nonneg l) H) as (o1 & r1 & Ha & Hr).
  unfold mbind, ST_bind. rewrite Ha. by apply IH.
Qed.

(** The identities an action list names. *)
Definition named (t : FenceTarget) (id : FenceAction -> string) (l : list FenceAction) : list string :=
  id <$> filter (fun a => fa_target a = t) l.

Lemma named_cons t id a l :
  named t id (a :: l) = if bool_decide (fa_target a = t) then id a :: named t id l else named t id l.
Proof. unfold named. rewrite filter_cons. case_bool_decide; by case_decide. Qed.

Lemma fence_grant_idem plan at_time g : fence_grant plan at_time (fence_grant plan at_time g) = fence_grant plan at_time g.
Proof. unfold fence_grant. destruct (settled_grant g) eqn:H; [by rewrite H|done]. Qed.

Lemma fence_contract_idem plan at_time c :
  fence_contract plan at_time (fence_contract plan at_time c) = fence_contract plan at_time c.
Proof.
  unfold fence_contract. destruct (settled_contract c) eqn:H; [by rewrite H|].
  unfold fenced_contract, settled_contract. cbn. by destruct (bool_decide (fp_trigger plan = _)).
Qed.

Lemma released_registry_fields s at_time r :
  rg_links (released_registry s at_time r) = rg_links r /\ rg_paths (released_registry s at_time r) = rg_paths r /\
  rg_policies (released_registry s at_time r) = rg_policies r /\
  rg_contracts (released_registry s at_time r) = rg_contracts r /\ rg_grants (released_registry s at_time r) = rg_grants r.
Proof. unfold released_registry. by destruct (rg_reservations r !! rs_id s). Qed.

(** Applying an idempotent update to the named keys, in any order and any number of times. *)
Lemma alter_named {V} (f : V -> V) (m : gmap string V) ks k :
  (forall v, f (f v) = f v) ->
  foldl (fun m k => alter f k m) m ks !! k = (fun v => if bool_decide (k ∈ ks) then f v else v) <$> m !! k.
Proof.
  intros Hf. revert m. induction ks as [|k' ks IH]; intros m; cbn [foldl].
  - rewrite bool_decide_eq_false_2 by apply not_elem_of_nil. by destruct (m !! k).
  - rewrite IH. destruct (decide_rel eq k' k) as [->|Hne].
    + rewrite lookup_alter_eq, (bool_decide_eq_true_2 (k ∈ k :: ks)) by left.
      destruct (m !! k); cbn; [|done]. f_equal. by case_bool_decide.
    + rewrite lookup_alter_ne by done. destruct (m !! k); cbn; [|done]. f_equal.
      destruct (bool_decide (k ∈ ks)) eqn:E; bool_prop.
      * by rewrite bool_decide_eq_true_2 by (by right).
      * rewrite bool_decide_eq_false_2; [done|]. intros [?|?]%elem_of_cons; congruence.
Qed.

Lemma fence_effect_grants plan at_time l r :
  rg_grants (fence_effect plan at_time l r) =
  foldl (fun m k => alter (fence_grant plan at_time) k m) (rg_grants r) (named FenceTarget_Grant fa_grant l).
Proof.
  revert r. induction l as [|a l IH]; intros r; [done|]. unfold fence_effect in *. cbn [foldl].
  rewrite IH, named_cons. unfold effect_action. destruct (fa_target a); cbn; try done.
  destruct (_ !! _) as [s|]; [|done]. destruct (rs_released s); [done|].
  by destruct (released_registry_fields s at_time r) as (_ & _ & _ & _ & ->).
Qed.

Lemma fence_effect_contracts plan at_time l r :
  rg_contracts (fence_effect plan at_time l r) =
  foldl (fun m k => alter (fence_contract plan at_time) k m) (rg_contracts r) (named FenceTarget_Contract fa_contract l).
Proof.
  revert r. induction l as [|a l IH]; intros r; [done|]. unfold fence_effect in *. cbn [foldl].
  rewrite IH, named_cons. unfold effect_action. destruct (fa_target a); cbn; try done.
  destruct (_ !! _) as [s|]; [|done]. destruct (rs_released s); [done|].
  by destruct (released_registry_fields s at_time r) as (_ & _ & _ & -> & _).
Qed.

Definition release_record (at_time : Z) (s : ReservationRecord) : ReservationRecord :=
  if rs_released s then s else set_rs_released at_time (provenance_derived at_time) s.

Definition reservation_keys (r : Registry) : Prop := map_Forall (fun k s => rs_id s = k) (rg_reservations r).

Lemma effect_reservations plan at_time a r :
  reservation_keys r ->
  reservation_keys (effect_action plan at_time r a) /\
  rg_reservations (effect_action plan at_time r a) =
    if bool_decide (fa_target a = FenceTarget_Reservation)
    then alter (release_record at_time) (fa_reservation a) (rg_reservations r) else rg_reservations r.
Proof.
  intros Hk. unfold effect_action. destruct (fa_target a); [split; done..|].
  rewrite bool_decide_eq_true_2 by done. destruct (rg_reservations r !! fa_reservation a) as [s|] eqn:Hs.
  2: { by rewrite alter_None. }
  destruct (rs_released s) eqn:Hr.
  { rewrite (alter_fixpoint _ _ s); [done|done|]. unfold release_record. by rewrite Hr. }
  pose proof (Hk _ _ Hs) as Hid. unfold released_registry, reservation_keys. rewrite Hid, Hs. cbn.
  rewrite <- (fence_insert _ _ s _ Hs). unfold release_record. rewrite Hr. split; [|done].
  apply map_Forall_insert_2; [|done]. done.
Qed.

Lemma fence_effect_reservations plan at_time l r :
  reservation_keys r ->
  rg_reservations (fence_effect plan at_time l r) =
  foldl (fun m k => alter (release_record at_time) k m) (rg_reservations r) (named FenceTarget_Reservation fa_reservation l).
Proof.
  revert r. induction l as [|a l IH]; intros r Hk; [done|]. unfold fence_effect in *. cbn [foldl].
  destruct (effect_reservations plan at_time a r Hk) as [Hk' Hr]. rewrite IH, Hr, named_cons by done.
  by case_bool_decide.
Qed.

Lemma release_record_idem at_time s : release_record at_time (release_record at_time s) = release_record at_time s.
Proof. unfold release_record. destruct (rs_released s) eqn:H; [by rewrite H|done]. Qed.

(** *** The invariant *)
(** Unsigned quantities are not negative. *)
Definition unsigned_ok (r : Registry) : Prop :=
  map_Forall (fun _ c => Forall (fun e => 0 <= ep_reserved e) (cl_endpoints c)) (rg_clusters r) /\
  map_Forall (fun _ s => 0 <= rs_amount s) (rg_reservations r).

Lemma release_endpoint_ids endpoint amount at_time l :
  ep_id <$> release_endpoint endpoint amount at_time l = ep_id <$> l.
Proof.
  induction l as [|e l IH]; [done|]. cbn [release_endpoint]. destruct (negb _); cbn; [by f_equal|done].
Qed.

Lemma sorted_by_ids l l' : ep_id <$> l = ep_id <$> l' -> StronglySorted ep_lt l -> StronglySorted ep_lt l'.
Proof.
  revert l'. induction l as [|e l IH]; intros [|e' l'] H Hs; try done. injection H as He Hl.
  inversion_clear Hs as [|? ? Hs' Hf]. constructor; [by apply IH|].
  revert Hf Hl. clear -He. revert l'. induction l as [|x l IH]; intros [|x' l'] Hf Hl; try done.
  injection Hl as Hx Hl. inversion_clear Hf. constructor; [|by apply IH]. unfold ep_lt in *. by rewrite <- He, <- Hx.
Qed.

Lemma release_endpoint_all (P : EndpointRecord -> Prop) endpoint amount at_time l :
  (forall e, P e -> P (return_capacity amount at_time e)) -> Forall P l -> Forall P (release_endpoint endpoint amount at_time l).
Proof.
  intros HP H. induction H as [|e l He Hl IH]; [constructor|]. cbn [release_endpoint].
  destruct (negb _); constructor; auto.
Qed.

Lemma return_capacity_range amount at_time e :
  0 <= amount -> 0 <= ep_reserved e -> 0 <= ep_reserved (return_capacity amount at_time e) <= ep_reserved e /\
  ep_reserved (return_capacity amount at_time e) = Z.max 0 (ep_reserved e - amount).
Proof. intros Ha He. cbn. destruct (Z.leb_spec amount (ep_reserved e)); lia. Qed.

Lemma release_cluster_ok endpoint amount at_time c :
  0 <= amount -> Forall (fun e => 0 <= ep_reserved e) (cl_endpoints c) -> cluster_ok c ->
  cluster_ok (release_cluster endpoint amount at_time c) /\
  Forall (fun e => 0 <= ep_reserved e) (cl_endpoints (release_cluster endpoint amount at_time c)).
Proof.
  intros Ha Hn (H1 & H2 & H3 & Hs & Hf). unfold release_cluster. split.
  - unfold cluster_ok. cbn [set_cl_endpoints cl_id cl_domain cl_endpoints]. split_and!; [done|done| | |].
    + unfold zlen in *. rewrite <- (length_fmap ep_id), release_endpoint_ids, length_fmap. done.
    + eapply sorted_by_ids; [|exact Hs]. by rewrite release_endpoint_ids.
    + apply Forall_impl with (P := fun e => 0 <= ep_reserved e /\ (ep_cluster e = cl_id c /\ ep_reserved e <= ep_capacity e)).
      * apply release_endpoint_all; [|by apply Forall_and].
        intros e (Hp & Hc & Hr). pose proof (return_capacity_range amount at_time e Ha Hp) as [? _].
        split_and!; [lia|done|]. cbn in *. lia.
      * by intros e [_ ?].
  - cbn [set_cl_endpoints cl_endpoints]. apply release_endpoint_all; [|done]. intros e He.
    by apply return_capacity_range.
Qed.

Lemma map_ok_alter {V} (id : V -> string) (P : V -> Prop) bound (m : gmap string V) f k :
  map_ok id P bound m -> (forall v, P v -> id (f v) = id v /\ P (f v)) -> map_ok id P bound (alter f k m).
Proof.
  intros Hm Hf. destruct (m !! k) as [v|] eqn:Hk; [|by rewrite alter_None].
  rewrite <- (fence_insert _ _ v _ Hk). destruct (map_ok_lookup _ _ _ _ _ _ Hm Hk) as [_ Hv]. apply Hf in Hv as [? ?].
  by eapply map_ok_update.
Qed.

Lemma effect_action_ok plan at_time a r :
  registry_ok r -> unsigned_ok r ->
  registry_ok (effect_action plan at_time r a) /\ unsigned_ok (effect_action plan at_time r a).
Proof.
  intros [] [Hu1 Hu2]. unfold effect_action. destruct (fa_target a).
  - split; [|done]. split; cbn; try assumption. apply map_ok_alter; [done|]. intros g Hg. unfold fence_grant.
    by destruct (settled_grant g).
  - split; [|done]. split; cbn; try assumption. apply map_ok_alter; [done|]. intros c Hc. unfold fence_contract.
    by destruct (settled_contract c).
  - destruct (rg_reservations r !! fa_reservation a) as [s|] eqn:Hs; [|done].
    destruct (rs_released s) eqn:Hr; [done|].
    destruct (map_ok_lookup _ _ _ _ _ _ ok_reservations Hs) as [Hid Hsok].
    pose proof (Hu2 _ _ Hs) as Hamt. cbn beta in Hamt. unfold released_registry. rewrite Hid, Hs.
    assert (Hall : map_Forall (fun k c => (cl_id c = k /\ cluster_ok c) /\ Forall (fun e => 0 <= ep_reserved e) (cl_endpoints c))
      (rg_clusters r)).
    { intros k c Hc. split; [by apply (proj1 ok_clusters)|by apply (Hu1 k)]. }
    split; [split; cbn; try assumption|split; cbn].
    + split; [|by rewrite map_size_fmap; apply ok_clusters].
      apply map_Forall_fmap. intros k c Hc. unfold compose. destruct (Hall k c Hc) as [[? ?] ?]. split; [done|].
      by apply release_cluster_ok.
    + eapply map_ok_update; [done|exact Hs|done|done].
    + apply map_Forall_fmap. intros k c Hc. unfold compose. destruct (Hall k c Hc) as [[? ?] ?].
      by apply release_cluster_ok.
    + by apply map_Forall_insert_2.
Qed.

Lemma registry_ok_same r r' : same_but_audit r r' -> registry_ok r' -> audit_ok (rg_audit r) -> registry_ok r.
Proof.
  intros (H1 & H2 & H3 & H4 & H5 & H6 & H7)%same_but_audit_fields [] Ha.
  split; rewrite ?H1, ?H2, ?H3, ?H4, ?H5, ?H6, ?H7; assumption.
Qed.

Lemma unsigned_ok_same r r' : same_but_audit r r' -> unsigned_ok r' -> unsigned_ok r.
Proof. intros (H1 & _ & _ & _ & _ & _ & H7)%same_but_audit_fields. unfold unsigned_ok. by rewrite H1, H7. Qed.

Lemma append_audit_keeps_ok at_time actor action subject o detail r :
  audit_ok (rg_audit r) -> audit_ok (rg_audit (append_audit at_time actor action subject o detail r).2).
Proof.
  intros Ha. destruct (append_audit_effect at_time actor action subject o detail (with_audit (rg_audit r) empty_registry))
    as (l & Hl & _ & Hok).
  assert (Hr : audit_ok l).
  { assert (registry_ok (with_audit l (with_audit (rg_audit r) empty_registry))) as [].
    { apply Hok. destruct empty_registry_ok. by split. } done. }
  revert Hl Hr. unfold append_audit. cbn [with_audit rg_audit].
  destruct (next_audit_sequence (rg_audit r)) as [n|s|]; cbn [snd rg_audit with_audit]; [|done..].
  unfold registry_append_audit. cbn [rg_audit with_audit].
  destruct (reject_if _ _ _); cbn [mbind Result_bind]; [|done..].
  destruct (match last (rg_audit r) with Some _ => _ | None => _ end); cbn [mbind Result_bind mret Result_ret snd];
    [|done..]. intros Hl. injection Hl as <-. done.
Qed.

Lemma apply_action_audit plan at_time actor a o r :
  audit_ok (rg_audit r) -> audit_ok (rg_audit (apply_action plan at_time actor a o r).2).
Proof.
  intros Ha. unfold apply_action. destruct (fa_target a).
  - unfold apply_grant. destruct (rg_grants r !! _) as [g|]; [|done]. destruct (settled_grant g); [done|].
    unfold mbind, ST_bind. set (r1 := with_grants _ r).
    pose proof (append_audit_keeps_ok at_time actor "fence-grant" ("grant=" ++ uuid_to_string (gr_id g))
      Outcome_Fenced (fence_trigger_to_string (fp_trigger plan)) r1 Ha) as H.
    by destruct (append_audit _ _ _ _ _ _ r1) as [[[]| |] r2].
  - unfold apply_contract. destruct (rg_contracts r !! _) as [c|]; [|done]. destruct (settled_contract c); [done|].
    unfold mbind, ST_bind. set (r1 := with_contracts _ r).
    pose proof (append_audit_keeps_ok at_time actor "fence-contract" ("contract=" ++ uuid_to_string (ct_id c))
      Outcome_Fenced (fence_trigger_to_string (fp_trigger plan)) r1 Ha) as H.
    by destruct (append_audit _ _ _ _ _ _ r1) as [[[]| |] r2].
  - unfold apply_reservation, release_reservation. destruct (rg_reservations r !! _) as [s|]; [|done].
    destruct (rs_released s); [done|]. cbn [snd]. unfold released_registry. by destruct (rg_reservations r !! rs_id s).
Qed.

Lemma apply_action_ok plan at_time actor a o r :
  registry_ok r -> unsigned_ok r ->
  registry_ok (apply_action plan at_time actor a o r).2 /\ unsigned_ok (apply_action plan at_time actor a o r).2.
Proof.
  intros Hok Hu. destruct (effect_action_ok plan at_time a r Hok Hu) as [H1 H2].
  pose proof (apply_action_effect plan at_time actor a o r) as He. split.
  - eapply registry_ok_same; [exact He|done|]. apply apply_action_audit. by destruct Hok.
  - by eapply unsigned_ok_same.
Qed.

Lemma apply_actions_ok plan at_time actor l o r :
  registry_ok r -> unsigned_ok r ->
  registry_ok (apply_actions plan at_time actor l o r).2 /\ unsigned_ok (apply_actions plan at_time actor l o r).2.
Proof.
  revert o r. induction l as [|a l IH]; intros o r Hok Hu; [done|]. cbn [apply_actions]. unfold mbind, ST_bind.
  destruct (apply_action_ok plan at_time actor a o r Hok Hu) as [H1 H2].
  destruct (apply_action plan at_time actor a o r) as [[o'| |] r']; cbn [snd] in *; [by apply IH|done..].
Qed.

(** Actions that find their target settled only count. *)
Definition settled_action (r : Registry) (a : FenceAction) : Prop :=
  match fa_target a with
  | FenceTarget_Grant => forall g, rg_grants r !! fa_grant a = Some g -> settled_grant g = true
  | FenceTarget_Contract => forall c, rg_contracts r !! fa_contract a = Some c -> settled_contract c = true
  | FenceTarget_Reservation => forall s, rg_reservations r !! fa_reservation a = Some s -> rs_released s = true
  end.

Lemma apply_settled plan at_time actor l o r :
  Forall (settled_action r) l ->
  exists n, apply_actions plan at_time actor l o r =
    (Val (mkFenceOutcome (fo_grants_fenced o) (fo_contracts_fenced o) (fo_reservations_released o)
            (fo_capacity_released o) (fo_already_fenced o + n)), r) /\ 0 <= n <= zlen l.
Proof.
  intros H. revert o. induction H as [|a l Ha _ IH]; intros o; cbn [apply_actions].
  { exists 0. rewrite Z.add_0_r. split; [by destruct o|unfold zlen; simpl; lia]. }
  assert (Hz : zlen (a :: l) = zlen l + 1) by (unfold zlen; cbn [length]; lia). rewrite Hz.
  assert (Hstep : apply_action plan at_time actor a o r = (Val (count_already o), r) \/
                  apply_action plan at_time actor a o r = (Val o, r)).
  { unfold apply_action, settled_action in *. destruct (fa_target a).
    - unfold apply_grant. destruct (rg_grants r !! _) as [g|]; [|by left]. rewrite (Ha g eq_refl). by left.
    - unfold apply_contract. destruct (rg_contracts r !! _) as [c|]; [|by right]. rewrite (Ha c eq_refl). by left.
    - unfold apply_reservation, release_reservation. destruct (rg_reservations r !! _) as [s|]; [|by left].
      rewrite (Ha s eq_refl). by left. }
  unfold mbind, ST_bind. destruct Hstep as [-> | ->].
  - destruct (IH (count_already o)) as (n & -> & Hn). exists (n + 1). split; [|lia]. cbn. do 3 f_equal. lia.
  - destruct (IH o) as (n & -> & Hn). exists n. split; [done|lia].
Qed.

(** What the plan leaves behind. *)
Lemma fence_effect_lookup plan at_time l r k :
  reservation_keys r ->
  rg_grants (fence_effect plan at_time l r) !! k =
    (fun g => if bool_decide (k ∈ named FenceTarget_Grant fa_grant l) then fence_grant plan at_time g else g)
      <$> rg_grants r !! k /\
  rg_contracts (fence_effect plan at_time l r) !! k =
    (fun c => if bool_decide (k ∈ named FenceTarget_Contract fa_contract l) then fence_contract plan at_time c else c)
      <$> rg_contracts r !! k /\
  rg_reservations (fence_effect plan at_time l r) !! k =
    (fun s => if bool_decide (k ∈ named FenceTarget_Reservation fa_reservation l) then release_record at_time s else s)
      <$> rg_reservations r !! k.
Proof.
  intros Hk. rewrite fence_effect_grants, fence_effect_contracts, fence_effect_reservations by done.
  rewrite !alter_named by (intros; first [apply fence_grant_idem|apply fence_contract_idem|apply release_record_idem]).
  done.
Qed.

Lemma registry_ok_keys r : registry_ok r -> reservation_keys r.
Proof. intros [] k s Hs. by destruct (map_ok_lookup _ _ _ _ _ _ ok_reservations Hs). Qed.


(** Applying a plan is idempotent: the second application returns normally, changes nothing,
    fences and releases nothing, and only reports actions as already done. *)
Theorem apply_fence_plan_idempotent plan at_time actor r o r' at_time' actor' :
  registry_ok r -> apply_fence_plan plan at_time actor r = (Val o, r') ->
  exists n, apply_fence_plan plan at_time' actor' r' = (Val (mkFenceOutcome 0 0 0 0 n), r') /\
    0 <= n <= zlen (fp_actions plan).
Proof.
  intros Hok H. unfold apply_fence_plan in *. apply apply_actions_effect in H.
  apply same_but_audit_fields in H as (_ & _ & _ & _ & Hc & Hg & Hs).
  destruct (apply_settled plan at_time' actor' (fp_actions plan) outcome_zero r') as (n & Hn & Hr).
  - apply Forall_forall. intros a Ha. pose proof (fun k => fence_effect_lookup plan at_time (fp_actions plan) r k
      (registry_ok_keys r Hok)) as Hl.
    assert (Hin : forall id, id a ∈ named (fa_target a) id (fp_actions plan)).
    { intros id. apply list_elem_of_fmap_2, list_elem_of_filter. done. }
    unfold settled_action. destruct (fa_target a) eqn:Ht.
    + intros g. rewrite Hg, (proj1 (Hl _)), bool_decide_eq_true_2 by apply Hin.
      destruct (rg_grants r !! _) as [g0|]; [|done]. intros [= <-]. unfold fence_grant.
      by destruct (settled_grant g0) eqn:E.
    + intros c. rewrite Hc, (proj1 (proj2 (Hl _))), bool_decide_eq_true_2 by apply Hin.
      destruct (rg_contracts r !! _) as [c0|]; [|done]. intros [= <-]. unfold fence_contract.
      destruct (settled_contract c0) eqn:E; [done|]. unfold fenced_contract, settled_contract. cbn.
      by destruct (bool_decide (fp_trigger plan = _)).
    + intros s. rewrite Hs, (proj2 (proj2 (Hl _))), bool_decide_eq_true_2 by apply Hin.
      destruct (rg_reservations r !! _) as [s0|]; [|done]. intros [= <-]. unfold release_record.
      by destruct (rs_released s0) eqn:E.
  - exists n. cbn in Hn. by rewrite Hn.
Qed.

(** *** No authority survives *)
Lemma fenced_not_authorized r q v :
  registry_ok r -> map_Forall (fun _ g => usable_state g = false) (rg_grants r) -> authorized (decide r q v) = false.
Proof.
  intros Hok Hall.
  assert (Hno : forall s t, ~ connectivity r q v s t).
  { intros s t (_ & _ & _ & _ & _ & _ & _ & _ & _ & c & _ & _ & _ & g & ((k & Hk) & _) & Hg & _).
    rewrite (Hall k g Hk) in Hg. done. }
  destruct (decide_spec_outcome r q v Hok) as [H1 H2]. unfold authorized, is_authorized.
  rewrite (bool_decide_eq_false_2 (_ = Outcome_Ok)) by (rewrite H1; naive_solver).
  by rewrite (bool_decide_eq_false_2 (_ = Outcome_DegradedAuthorized)) by (rewrite H2; naive_solver).
Qed.

Lemma recovery_grants at_time actor prev term r o r' :
  registry_ok r -> fence_recovered_state at_time actor prev term r = (Val o, r') ->
  map_Forall (fun _ g => usable_state g = false) (rg_grants r') /\
  map_Forall (fun _ s => rs_released s = true) (rg_reservations r').
Proof.
  intros Hok H. unfold fence_recovered_state, apply_fence_plan in H. set (plan := recovery_plan prev term r) in *.
  apply apply_actions_effect in H. apply same_but_audit_fields in H as (_ & _ & _ & _ & _ & Hg & Hs).
  pose proof (fun k => fence_effect_lookup plan at_time (fp_actions plan) r k (registry_ok_keys r Hok)) as Hl.
  assert (Hnamed : forall t id, named t id (fp_actions plan) =
    named t id ((fun g => mkAction FenceTarget_Grant (gr_id g) (gr_contract g) nil_uuid ReasonCode_EvidenceRecoveredFromStore)
        <$> filter (fun g => terminal_grant g = false) (values (rg_grants r))) ++
    named t id ((fun s => mkAction FenceTarget_Reservation (rs_grant s) nil_uuid (rs_id s) ReasonCode_EvidenceRecoveredFromStore)
        <$> filter (fun s => rs_released s = false) (values (rg_reservations r)))).
  { intros. unfold named. cbn [fp_actions plan recovery_plan]. by rewrite filter_app, fmap_app. }
  split.
  - intros k g. rewrite Hg, (proj1 (Hl k)). destruct (rg_grants r !! k) as [g0|] eqn:Hk; [|done].
    cbn [fmap option_fmap option_map]. intros [= <-].
    destruct (map_ok_lookup _ _ _ _ _ _ (ok_grants r Hok) Hk) as [Hid _].
    destruct (terminal_grant g0) eqn:Ht.
    + assert (Hnu : forall x, gr_state x = gr_state g0 \/ gr_state x = GrantState_Fenced -> usable_state x = false).
      { unfold terminal_grant, usable_state in *. intros x [->| ->]; [|done]. destruct (gr_state g0); done. }
      apply Hnu. case_bool_decide; [|by left]. unfold fence_grant. destruct (settled_grant g0); [by left|by right].
    + rewrite bool_decide_eq_true_2.
      * unfold terminal_grant in Ht. unfold fence_grant, settled_grant, usable_state.
        destruct (gr_state g0) eqn:E; try discriminate Ht; cbn; rewrite ?E; done.
      * rewrite Hnamed. apply elem_of_app. left. unfold named. apply list_elem_of_fmap.
        exists (mkAction FenceTarget_Grant (gr_id g0) (gr_contract g0) nil_uuid ReasonCode_EvidenceRecoveredFromStore).
        split; [by rewrite <- Hid|]. apply list_elem_of_filter. split; [done|]. apply list_elem_of_fmap.
        exists g0. split; [done|]. apply list_elem_of_filter. split; [done|]. apply elem_of_values. eauto.
  - intros k s. rewrite Hs, (proj2 (proj2 (Hl k))). destruct (rg_reservations r !! k) as [s0|] eqn:Hk; [|done].
    cbn [fmap option_fmap option_map]. intros [= <-]. destruct (map_ok_lookup _ _ _ _ _ _ (ok_reservations r Hok) Hk) as [Hid _].
    destruct (rs_released s0) eqn:Hr; [case_bool_decide; [|done]; unfold release_record; by rewrite Hr|].
    rewrite bool_decide_eq_true_2; [unfold release_record; by rewrite Hr|].
    rewrite Hnamed. apply elem_of_app. right. unfold named. apply list_elem_of_fmap.
    exists (mkAction FenceTarget_Reservation (rs_grant s0) nil_uuid (rs_id s0) ReasonCode_EvidenceRecoveredFromStore).
    split; [by rewrite <- Hid|]. apply list_elem_of_filter. split; [done|]. apply list_elem_of_fmap.
    exists s0. split; [done|]. apply list_elem_of_filter. split; [done|]. apply elem_of_values. eauto.
Qed.

(** State recovered from the store authorizes nothing: once [fence_recovered_state] has
    returned, no grant is usable, no capacity is held, and [decide] refuses every query under every
    coordinator view until new grants are issued. *)
Theorem recovered_state_authorizes_nothing at_time actor prev term r o r' :
  registry_ok r -> unsigned_ok r -> fence_recovered_state at_time actor prev term r = (Val o, r') ->
  map_Forall (fun _ g => usable_state g = false) (rg_grants r') /\
  map_Forall (fun _ s => rs_released s = true) (rg_reservations r') /\
  forall q v, authorized (decide r' q v) = false.
Proof.
  intros Hok Hu H. destruct (recovery_grants _ _ _ _ _ _ _ Hok H) as [Hg Hs]. split_and!; [done|done|].
  intros q v. apply fenced_not_authorized; [|done].
  pose proof (apply_actions_ok (recovery_plan prev term r) at_time actor (fp_actions (recovery_plan prev term r))
    outcome_zero r Hok Hu) as [K _].
  unfold fence_recovered_state, apply_fence_plan in H. by rewrite H in K.
Qed.

(** Capacity accounting closes on release: releasing a held reservation returns exactly its
    amount to the endpoint that held it (never below zero), reports that amount, leaves every other
    endpoint's counter alone, and releasing it a second time returns nothing. *)
Theorem release_returns_capacity s at_time o r :
  unsigned_ok r -> 0 <= rs_amount s -> rs_released s = false ->
  let '(res, r') := release_reservation s at_time o r in
  res = Val (count_release (rs_amount s) o) /\
  (forall k c e, rg_clusters r !! k = Some c -> e ∈ cl_endpoints c -> NoDup (ep_id <$> cl_endpoints c) ->
     exists c' e', rg_clusters r' !! k = Some c' /\ e' ∈ cl_endpoints c' /\ ep_id e' = ep_id e /\
       ep_capacity e' = ep_capacity e /\
       ep_reserved e' = if bool_decide (ep_id e = rs_endpoint s)
                        then Z.max 0 (ep_reserved e - rs_amount s) else ep_reserved e) /\
  (is_Some (rg_reservations r !! rs_id s) ->
     exists s', rg_reservations r' !! rs_id s = Some s' /\ rs_released s' = true /\ rs_released_at s' = at_time /\
       release_reservation s' at_time o r' = (Val (count_already o), r')).
Proof.
  intros [Hu _] Ha Hr. unfold release_reservation at 1. rewrite Hr. split; [done|]. split.
  - intros k c e Hk He Hnd. unfold released_registry.
    exists (release_cluster (rs_endpoint s) (rs_amount s) at_time c).
    assert (Hin : exists e', e' ∈ release_endpoint (rs_endpoint s) (rs_amount s) at_time (cl_endpoints c) /\
      ep_id e' = ep_id e /\ ep_capacity e' = ep_capacity e /\
      ep_reserved e' = if bool_decide (ep_id e = rs_endpoint s)
                       then Z.max 0 (ep_reserved e - rs_amount s) else ep_reserved e).
    { specialize (Hu k c Hk). cbn beta in Hu. revert He Hnd Hu. generalize (cl_endpoints c) as l. clear -Ha.
      induction l as [|x l IH]; intros He Hnd Hu; [by apply not_elem_of_nil in He|].
      cbn [fmap list_fmap] in Hnd. apply NoDup_cons in Hnd as [Hx Hnd]. inversion_clear Hu as [|? ? Hx0 Hl].
      cbn [release_endpoint]. destruct (bool_decide (ep_id x = rs_endpoint s)) eqn:Hb; bool_prop; cbn [negb].
      - apply elem_of_cons in He as [->|He].
        + exists (return_capacity (rs_amount s) at_time x). rewrite bool_decide_eq_true_2 by done.
          split_and!; [left|done|done|]. by apply return_capacity_range.
        + exists e. rewrite bool_decide_eq_false_2; [split_and!; [by right|done..]|].
          intros Hc. apply Hx. rewrite Hb, <- Hc. by apply list_elem_of_fmap_2.
      - apply elem_of_cons in He as [->|He].
        + exists x. rewrite bool_decide_eq_false_2 by done. split_and!; [left|done..].
        + destruct (IH He Hnd Hl) as (e' & ? & ?). exists e'. split; [by right|done]. }
    destruct Hin as (e' & Hin & ? & ? & ?). exists e'. split_and!; [|exact Hin|done..].
    destruct (rg_reservations r !! rs_id s); cbn; by rewrite lookup_fmap, Hk.
  - intros [s0 Hs0]. unfold released_registry. rewrite Hs0. cbn. eexists. rewrite lookup_insert_eq. done.
Qed.

