(* ===== verification/Mutation.v ===== *)
(** * Store mutations

    Models include/icf/store/mutation.hpp and src/store/mutation.cpp. The struct [Mutation] of the
    source has one member per kind and a tag that says which one is meaningful; every function reads
    the member its tag names and no other, so it is modelled as the tagged union it is used as. *)
From S2P Require Import Prelude Status Utf8 Bytes Ids Types Registry Canonical.

Inductive MutationKind :=
  | MutationKind_Invalid | MutationKind_ClusterPut | MutationKind_ClusterErase | MutationKind_LinkPut
  | MutationKind_LinkErase | MutationKind_PathPut | MutationKind_PathErase | MutationKind_PolicyPut
  | MutationKind_PolicyErase | MutationKind_ContractPut | MutationKind_ContractErase
  | MutationKind_GrantPut | MutationKind_GrantErase | MutationKind_ReservationPut
  | MutationKind_AuditAppend | MutationKind_MetaSet.

#[export] Instance MutationKind_eq_dec : EqDecision MutationKind.
Proof. solve_decision. Defined.

#[export] Program Instance MutationKind_enum : CEnum MutationKind := {|
  enumerators :=
    [MutationKind_Invalid; MutationKind_ClusterPut; MutationKind_ClusterErase; MutationKind_LinkPut;
     MutationKind_LinkErase; MutationKind_PathPut; MutationKind_PathErase; MutationKind_PolicyPut;
     MutationKind_PolicyErase; MutationKind_ContractPut; MutationKind_ContractErase;
     MutationKind_GrantPut; MutationKind_GrantErase; MutationKind_ReservationPut;
     MutationKind_AuditAppend; MutationKind_MetaSet];
  enum_first := MutationKind_Invalid |}.
Solve All Obligations with solve_enum.

Inductive Mutation :=
  | MInvalid
  | MClusterPut (cluster : ClusterRecord) | MClusterErase (cluster : ClusterRecord)
  | MLinkPut (link : LinkRecord) | MLinkErase (link : LinkRecord)
  | MPathPut (path : PathRecord) | MPathErase (path : PathRecord)
  | MPolicyPut (policy : PolicyRule) | MPolicyErase (policy : PolicyRule)
  | MContractPut (contract : ContractRecord) | MContractErase (contract : ContractRecord)
  | MGrantPut (grant : GrantRecord) | MGrantErase (grant : GrantRecord)
  | MReservationPut (reservation : ReservationRecord)
  | MAuditAppend (audit : AuditRecord)
  | MMetaSet (meta_term : Z) (meta_incarnation : string).

Definition mutation_kind (m : Mutation) : MutationKind :=
  match m with
  | MInvalid => MutationKind_Invalid
  | MClusterPut _ => MutationKind_ClusterPut | MClusterErase _ => MutationKind_ClusterErase
  | MLinkPut _ => MutationKind_LinkPut | MLinkErase _ => MutationKind_LinkErase
  | MPathPut _ => MutationKind_PathPut | MPathErase _ => MutationKind_PathErase
  | MPolicyPut _ => MutationKind_PolicyPut | MPolicyErase _ => MutationKind_PolicyErase
  | MContractPut _ => MutationKind_ContractPut | MContractErase _ => MutationKind_ContractErase
  | MGrantPut _ => MutationKind_GrantPut | MGrantErase _ => MutationKind_GrantErase
  | MReservationPut _ => MutationKind_ReservationPut
  | MAuditAppend _ => MutationKind_AuditAppend
  | MMetaSet _ _ => MutationKind_MetaSet
  end.

(** [mutation_kind_known], on the number that was read. *)
Definition mutation_kind_known (raw_kind : Z) : bool :=
  negb (raw_kind =? enum_code MutationKind_Invalid) && (raw_kind <=? enum_code MutationKind_MetaSet).

Definition encode_mutation_body (m : Mutation) : bytes :=
  match m with
  | MClusterPut c | MClusterErase c => encode_cluster c
  | MLinkPut l | MLinkErase l => encode_link l
  | MPathPut p | MPathErase p => encode_path p
  | MPolicyPut p | MPolicyErase p => encode_policy p
  | MContractPut c | MContractErase c => encode_contract c
  | MGrantPut g | MGrantErase g => encode_grant g
  | MReservationPut s => encode_reservation s
  | MAuditAppend a => encode_audit a
  | MMetaSet term incarnation => w_u64 term ++ w_uuid incarnation
  | MInvalid => []
  end.

Definition encode_mutation (m : Mutation) : bytes :=
  w_enum16 (mutation_kind m) ++ encode_mutation_body m.

(** The term and the incarnation of a [MetaSet] mutation and of a [Meta] record. *)
Definition decode_meta : Parser (Z * string) :=
  term ← r_u64;
  _ ← p_lift (reject_if (limits.kMaxGeneration <? term) Outcome_Overflow
                "term exceeds the maximum supported value");
  incarnation ← r_uuid;
  mret (term, incarnation).

Definition decode_mutation : Parser Mutation :=
  raw_kind ← r_u16;
  _ ← p_lift (reject_if (negb (mutation_kind_known raw_kind)) Outcome_Invalid
                "mutation kind is not recognised");
  match enum_cast (E := MutationKind) raw_kind with
  | MutationKind_ClusterPut => c ← decode_cluster; mret (MClusterPut c)
  | MutationKind_ClusterErase => c ← decode_cluster; mret (MClusterErase c)
  | MutationKind_LinkPut => l ← decode_link; mret (MLinkPut l)
  | MutationKind_LinkErase => l ← decode_link; mret (MLinkErase l)
  | MutationKind_PathPut => p ← decode_path; mret (MPathPut p)
  | MutationKind_PathErase => p ← decode_path; mret (MPathErase p)
  | MutationKind_PolicyPut => p ← decode_policy; mret (MPolicyPut p)
  | MutationKind_PolicyErase => p ← decode_policy; mret (MPolicyErase p)
  | MutationKind_ContractPut => c ← decode_contract; mret (MContractPut c)
  | MutationKind_ContractErase => c ← decode_contract; mret (MContractErase c)
  | MutationKind_GrantPut => g ← decode_grant; mret (MGrantPut g)
  | MutationKind_GrantErase => g ← decode_grant; mret (MGrantErase g)
  | MutationKind_ReservationPut => s ← decode_reservation; mret (MReservationPut s)
  | MutationKind_AuditAppend => a ← decode_audit; mret (MAuditAppend a)
  | MutationKind_MetaSet => tm ← decode_meta; mret (MMetaSet tm.1 tm.2)
  | MutationKind_Invalid => p_lift (invalid "mutation kind is not recognised")
  end.

(** [text.empty()] and [is_nil()] guards of [validate_mutation]. *)
Definition require_text (text message : string) : Result unit :=
  reject_if (bool_decide (text = ""%string)) Outcome_Invalid message.
Definition require_uuid (id message : string) : Result unit :=
  reject_if (uuid_is_nil id) Outcome_Invalid message.

Definition validate_mutation (r : Registry) (m : Mutation) : Result unit :=
  match m with
  | MClusterPut c =>
      _ ← require_text (cl_id c) "cluster mutation requires an identity";
      _ ← reject_if (bool_decide (find_cluster r (cl_id c) = None) &&
                     (limits.kMaxClusters <=? Z.of_nat (size (rg_clusters r))))
            Outcome_CapacityExceeded "cluster registry is full";
      reject_if (limits.kMaxEndpointsPerCluster <? zlen (cl_endpoints c))
        Outcome_CapacityExceeded "cluster declares too many endpoints"
  | MClusterErase c => require_text (cl_id c) "cluster erase requires an identity"
  | MLinkPut l =>
      _ ← reject_if (bool_decide (lk_id l = ""%string) || bool_decide (lk_a l = ""%string) ||
                     bool_decide (lk_b l = ""%string))
            Outcome_Invalid "link mutation requires an identity and two endpoints";
      reject_if (lk_capacity l <? lk_reserved l) Outcome_CapacityExceeded
        "link reservations exceed declared capacity"
  | MLinkErase l => require_text (lk_id l) "link erase requires an identity"
  | MPathPut p =>
      _ ← reject_if (bool_decide (pa_id p = ""%string) || bool_decide (pa_hops p = [])) Outcome_Invalid
            "path mutation requires an identity and at least one hop";
      reject_if (limits.kMaxPathHops <? zlen (pa_hops p)) Outcome_CapacityExceeded
        "path declares too many hops"
  | MPathErase p => require_text (pa_id p) "path erase requires an identity"
  | MPolicyPut p => require_text (pr_id p) "policy mutation requires an identity"
  | MPolicyErase p => require_text (pr_id p) "policy erase requires an identity"
  | MContractPut c => require_uuid (ct_id c) "contract mutation requires an identity"
  | MContractErase c => require_uuid (ct_id c) "contract erase requires an identity"
  | MGrantPut g =>
      _ ← require_uuid (gr_id g) "grant mutation requires an identity";
      reject_if (bool_decide (find_contract r (gr_contract g) = None)) Outcome_Invalid
        "grant mutation references an unknown contract"
  | MGrantErase g => require_uuid (gr_id g) "grant erase requires an identity"
  | MReservationPut s =>
      _ ← require_uuid (rs_id s) "reservation mutation requires an identity";
      reject_if (bool_decide (find_grant r (rs_grant s) = None)) Outcome_Invalid
        "reservation mutation references an unknown grant"
  | MAuditAppend _ => Val tt
  | MMetaSet _ _ => Val tt
  | MInvalid => invalid "mutation kind is not recognised"
  end.

(** On an error the registry is untouched: the caller keeps [r]. *)
Definition apply_mutation (m : Mutation) (r : Registry) : Result Registry :=
  _ ← validate_mutation r m;
  match m with
  | MClusterPut c => put_cluster c r
  | MClusterErase c => erase_cluster (cl_id c) r
  | MLinkPut l => put_link l r
  | MLinkErase l => erase_link (lk_id l) r
  | MPathPut p => put_path p r
  | MPathErase p => erase_path (pa_id p) r
  | MPolicyPut p => put_policy p r
  | MPolicyErase p => erase_policy (pr_id p) r
  | MContractPut c => put_contract c r
  | MContractErase c => erase_contract (ct_id c) r
  | MGrantPut g => put_grant g r
  | MGrantErase g => erase_grant (gr_id g) r
  | MReservationPut s => put_reservation s r
  | MAuditAppend a => registry_append_audit a r
  | MMetaSet _ _ => Val r
  | MInvalid => invalid "mutation kind is not recognised"
  end.

(** ** What a mutation does, without the guards *)
Definition mutation_effect (m : Mutation) (r : Registry) : Registry :=
  match m with
  | MClusterPut c =>
      with_clusters (<[cl_id c := set_cl_endpoints (sort_endpoints (cl_endpoints c)) c]> (rg_clusters r)) r
  | MClusterErase c => with_clusters (delete (cl_id c) (rg_clusters r)) r
  | MLinkPut l => with_links (<[lk_id l := l]> (rg_links r)) r
  | MLinkErase l => with_links (delete (lk_id l) (rg_links r)) r
  | MPathPut p => with_paths (<[pa_id p := p]> (rg_paths r)) r
  | MPathErase p => with_paths (delete (pa_id p) (rg_paths r)) r
  | MPolicyPut p => with_policies (<[pr_id p := p]> (rg_policies r)) r
  | MPolicyErase p => with_policies (delete (pr_id p) (rg_policies r)) r
  | MContractPut c => with_contracts (<[ct_id c := c]> (rg_contracts r)) r
  | MContractErase c => with_contracts (delete (ct_id c) (rg_contracts r)) r
  | MGrantPut g => with_grants (<[gr_id g := g]> (rg_grants r)) r
  | MGrantErase g => with_grants (delete (gr_id g) (rg_grants r)) r
  | MReservationPut s => with_reservations (<[rs_id s := s]> (rg_reservations r)) r
  | MAuditAppend a => with_audit (rg_audit r ++ [a]) r
  | MMetaSet _ _ | MInvalid => r
  end.

(** The mutations whose record survives the encoding. *)
Definition mutation_wf (m : Mutation) : Prop :=
  match m with
  | MClusterPut c | MClusterErase c => cluster_wf c
  | MLinkPut l | MLinkErase l => link_wf l
  | MPathPut p | MPathErase p => path_wf p
  | MPolicyPut p | MPolicyErase p => policy_wf p
  | MContractPut c | MContractErase c => contract_wf c
  | MGrantPut g | MGrantErase g => grant_wf g
  | MReservationPut s => reservation_wf s
  | MAuditAppend a => audit_wf a
  | MMetaSet term incarnation => wf_counter limits.kMaxGeneration term /\ wf_uuid incarnation
  | MInvalid => False
  end.

Definition encode_meta (tm : Z * string) : bytes := w_u64 tm.1 ++ w_uuid tm.2.

#[export] Instance meta_codec :
  Codec encode_meta decode_meta (fun tm => wf_counter limits.kMaxGeneration tm.1 /\ wf_uuid tm.2).
Proof.
  split.
  - intros [t i] rest [Ht Hi]. cbn [fst snd] in *. unfold encode_meta, decode_meta. cbn [fst snd].
    unfold wf_counter, limits.kMaxGeneration in Ht. rewrite <- app_assoc.
    eapply run_bind; [apply codec_roundtrip; cbn beta; lia|].
    apply run_reject; [unfold limits.kMaxGeneration; lia|]. eapply run_bind; [by apply codec_roundtrip|done].
  - intros data x rest H. unfold decode_meta in H. parse_inv H. injection H as <- <-. fields_sound.
    cbn [fst snd]. bool_prop. unfold wf_counter. split; [lia|done].
Qed.

#[export] Instance mutation_codec : Codec encode_mutation decode_mutation mutation_wf.
Proof.
  split.
  - intros m rest Hm. unfold encode_mutation, decode_mutation, w_enum16. rewrite <- app_assoc.
    eapply run_bind.
    { apply codec_roundtrip. cbn beta. pose proof (enum_code_range (mutation_kind m)) as Hr.
      change (enum_max (E := MutationKind)) with 15 in Hr. lia. }
    apply run_reject; [by destruct m|]. rewrite enum_cast_code.
    destruct m; cbn [mutation_kind encode_mutation_body mutation_wf] in *; try done;
      try (eapply run_bind; [by apply codec_roundtrip|done]).
    change (w_u64 ?t ++ w_uuid ?i) with (encode_meta (t, i)). eapply run_bind; [by apply codec_roundtrip|done].
  - intros data x rest H. unfold decode_mutation in H. parse_inv H.
    destruct (enum_cast _); try done; parse_inv H; injection H as <- <-; apply codec_sound in Hp1; exact Hp1.
Qed.

Ltac erase_Val H :=
  cbv delta [erase_cluster erase_link erase_path erase_policy erase_contract erase_grant] in H; cbn beta in H;
  inv_bind H; injection H as <-;
  match goal with Ha : erase_existing _ _ _ = Val _ |- _ => by apply erase_existing_Val in Ha as -> end.

Lemma apply_mutation_Val m r r' : apply_mutation m r = Val r' -> r' = mutation_effect m r.
Proof.
  intros H. unfold apply_mutation in H. inv_bind H. clear Ha.
  destruct m; cbn [mutation_effect]; try (by injection H as <-); try (erase_Val H).
  - done.
  - by apply put_cluster_Val in H as [-> _].
  - by apply put_link_Val in H as [-> _].
  - by apply put_path_Val in H as [-> _].
  - by apply put_policy_Val in H as [-> _].
  - by apply put_contract_Val in H as [-> _].
  - by apply put_grant_Val in H as [-> _].
  - by apply put_reservation_Val in H as [-> _].
  - by apply append_audit_Val in H as [-> _].
Qed.

Lemma apply_mutation_ok m r r' : registry_ok r -> apply_mutation m r = Val r' -> registry_ok r'.
Proof.
  intros Hr H. unfold apply_mutation in H. inv_bind H. clear Ha.
  destruct m; lazymatch type of H with
  | put_cluster _ _ = _ => exact (put_cluster_ok _ _ _ Hr H)
  | erase_cluster _ _ = _ => exact (erase_cluster_ok _ _ _ Hr H)
  | put_link _ _ = _ => exact (put_link_ok _ _ _ Hr H)
  | erase_link _ _ = _ => exact (erase_link_ok _ _ _ Hr H)
  | put_path _ _ = _ => exact (put_path_ok _ _ _ Hr H)
  | erase_path _ _ = _ => exact (erase_path_ok _ _ _ Hr H)
  | put_policy _ _ = _ => exact (put_policy_ok _ _ _ Hr H)
  | erase_policy _ _ = _ => exact (erase_policy_ok _ _ _ Hr H)
  | put_contract _ _ = _ => exact (put_contract_ok _ _ _ Hr H)
  | erase_contract _ _ = _ => exact (erase_contract_ok _ _ _ Hr H)
  | put_grant _ _ = _ => exact (put_grant_ok _ _ _ Hr H)
  | erase_grant _ _ = _ => exact (erase_grant_ok _ _ _ Hr H)
  | put_reservation _ _ = _ => exact (put_reservation_ok _ _ _ Hr H)
  | registry_append_audit _ _ = _ => exact (append_audit_ok _ _ _ Hr H)
  | Val _ = _ => injection H as <-; exact Hr
  | _ => discriminate H
  end.
Qed.
#[export] Hint Resolve apply_mutation_ok : icf.

