(* ===== verification/Files.v ===== *)
(** * Durable file primitives

    Models src/store/file_util.cpp (its POSIX branch). A [Disk] maps the path of a regular file to
    its contents. What the operating system answers is an argument: one [bool] per call that the
    code checks, and the bytes a failed append left behind; every other effect on the disk is the
    code's. Directories are not part of the disk. *)
From S2P Require Import Prelude Status Utf8 Bytes.

Abbreviation Disk := (gmap string bytes).

Definition to_status {A} (what path : string) : Result A :=
  fail Outcome_Internal (what ++ ": " ++ path).

Definition join_path (directory name : string) : string :=
  match last (str_bytes directory) with
  | None => name
  | Some c => if bool_decide (c = "/"%char) || bool_decide (c = "\"%char) then (directory ++ name)%string
              else (directory ++ "/" ++ name)%string
  end.

Definition file_exists (d : Disk) (path : string) : bool := bool_decide (is_Some (d !! path)).

Definition file_size (d : Disk) (path : string) : Result Z :=
  match d !! path with
  | Some contents => Val (zlen contents)
  | None => fail Outcome_NotFound ("cannot stat file: " ++ path)
  end.

(** [fopen] and [fread] of the whole file succeed. *)
Record ReadIo := mkReadIo { ri_open : bool; ri_read : bool }.

Definition read_file_bounded (io : ReadIo) (d : Disk) (path : string) (max_bytes : Z) : Result bytes :=
  size ← file_size d path;
  _ ← reject_if (max_bytes <? size) Outcome_CapacityExceeded
        ("file exceeds the configured maximum size: " ++ path);
  _ ← reject_if (negb (ri_open io)) Outcome_NotFound ("cannot open file: " ++ path);
  _ ← reject_if ((0 <? size) && negb (ri_read io)) Outcome_Internal ("short read while loading: " ++ path);
  Val (default [] (d !! path)).

(** [fopen], [fwrite], [fflush], [fsync] and [rename] succeed. *)
Record WriteIo := mkWriteIo { wi_create : bool; wi_write : bool; wi_flush : bool; wi_sync : bool; wi_rename : bool }.

Definition write_file_atomic (io : WriteIo) (path : string) (contents : bytes) : ST Disk unit := fun d =>
  let temporary := (path ++ ".tmp")%string in
  let removed := delete temporary d in
  if negb (wi_create io) then (to_status "cannot create file" temporary, d)
  else if negb (bool_decide (contents = [])) && negb (wi_write io) then
    (to_status "short write while saving" temporary, removed)
  else if negb (wi_flush io) then (to_status "flush failed while saving" temporary, removed)
  else if negb (wi_sync io) then (to_status "fsync failed while saving" temporary, removed)
  else if negb (wi_rename io) then (to_status "atomic rename failed" path, removed)
  else (Val tt, <[path := contents]> removed).

(** [fopen], [fwrite], [fflush] and [fsync] succeed; [ai_stored] is how many bytes reached the file
    when the write or the flush did not succeed. *)
Record AppendIo := mkAppendIo { ai_open : bool; ai_write : bool; ai_flush : bool; ai_sync : bool; ai_stored : nat }.

(** The bytes of [contents] that are in the file afterwards. *)
Definition appended (io : AppendIo) (contents : bytes) : bytes :=
  if negb (ai_open io) then []
  else if ai_write io && ai_flush io then contents
  else take (ai_stored io) contents.

Definition append_file (io : AppendIo) (path : string) (contents : bytes) (flush : bool) : ST Disk unit := fun d =>
  if bool_decide (contents = []) then (Val tt, d)
  else if negb (ai_open io) then (to_status "cannot open file for append" path, d)
  else
    let d' := <[path := default [] (d !! path) ++ appended io contents]> d in
    let short_write := negb (ai_write io) in
    let flush_failed := negb (ai_flush io) in
    let commit_failed := flush && negb short_write && negb flush_failed && negb (ai_sync io) in
    if short_write then (to_status "short append" path, d')
    else if flush_failed || commit_failed then (to_status "durable append failed" path, d')
    else (Val tt, d').

Definition truncate_file (ok : bool) (path : string) (length : Z) : ST Disk unit := fun d =>
  match d !! path with
  | Some contents =>
      if negb ok then (to_status "cannot truncate file" path, d)
      else (Val tt, <[path := take (Z.to_nat length) contents ++
                              replicate (Z.to_nat length - List.length contents) (byte_of 0)]> d)
  | None => (to_status "cannot truncate file" path, d)
  end.

(** ** Lemmas *)
Definition io_ok : WriteIo := mkWriteIo true true true true true.
Definition append_ok : AppendIo := mkAppendIo true true true true 0.
Definition read_ok : ReadIo := mkReadIo true true.

(** The path holds the old contents or the new ones, never a mixture. *)
Lemma write_file_atomic_spec io path contents d r d' :
  write_file_atomic io path contents d = (r, d') ->
  (r = Val tt /\ d' !! path = Some contents) \/ (is_val r = false /\ d' !! path = d !! path).
Proof.
  assert (Hne : (path ++ ".tmp")%string <> path).
  { induction path as [|c path IH]; [done|]. cbn. by intros [= H]. }
  unfold write_file_atomic, to_status, fail. intros H.
  destruct (negb (wi_create io)); [simplify_eq; by right|].
  repeat match type of H with
  | (if ?c then _ else _) = _ => destruct c; [simplify_eq; right; split; [done|by apply lookup_delete_ne]|]
  end.
  simplify_eq. left. split; [done|]. apply lookup_insert_eq.
Qed.

Lemma truncate_prefix path n (a b : bytes) d :
  d !! path = Some (a ++ b) -> n = zlen a ->
  truncate_file true path n d = (Val tt, <[path := a]> d).
Proof.
  intros Hd ->. unfold truncate_file, zlen. rewrite Hd, Nat2Z.id, take_app_length. cbn [negb].
  rewrite length_app. replace (length a - (length a + length b))%nat with 0%nat by lia.
  cbn [replicate]. by rewrite app_nil_r.
Qed.

Lemma write_file_atomic_Val io path contents d d' :
  write_file_atomic io path contents d = (Val tt, d') -> d' = <[path := contents]> (delete (path ++ ".tmp")%string d).
Proof.
  unfold write_file_atomic, to_status, fail. intros H.
  repeat match type of H with (if ?c then _ else _) = _ => destruct c; [discriminate H|] end. by injection H as <-.
Qed.
