(* ===== verification/Wal.v ===== *)
(** * The write-ahead log

    Models src/store/wal.cpp. A log file is a 64-byte header followed by records; [wal_open] reads
    it from the start, hands every intact record to the visitor (a state-passing function, as the
    code passes a closure over the recovery result), and truncates the file at the first record it
    cannot verify. *)
From S2P Require Import Prelude Status Utf8 Bytes Ids Hash Time Files.

Inductive RecordKind :=
  | RecordKind_Invalid | RecordKind_Mutation | RecordKind_Meta | RecordKind_SnapshotMarker
  | RecordKind_Incident.

#[export] Instance RecordKind_eq_dec : EqDecision RecordKind.
Proof. solve_decision. Defined.

#[export] Program Instance RecordKind_enum : CEnum RecordKind := {|
  enumerators := [RecordKind_Invalid; RecordKind_Mutation; RecordKind_Meta; RecordKind_SnapshotMarker;
                  RecordKind_Incident];
  enum_first := RecordKind_Invalid |}.
Solve All Obligations with solve_enum.

(** [record_kind_known], on the number that was read: the kinds 1 to 4. *)
Definition record_kind_known (raw_kind : Z) : bool := (1 <=? raw_kind) && (raw_kind <=? 4).

Definition kWalHeaderSize : Z := 64.
Definition kRecordHeaderSize : Z := 32.
Definition kRecordTrailerSize : Z := 4.
Definition kWalFormatVersion : Z := 1.
Definition kWalMagic : bytes := str_bytes "ICFWAL1" ++ [byte_of 0].

Record RecordHeader := mkRecordHeader {
  rh_length : Z;
  rh_kind : RecordKind;
  rh_flags : Z;
  rh_sequence : Z;
  rh_at : Z;
  rh_payload_crc : Z;
  rh_header_crc : Z;
}.

Record WalRecovery := mkWalRecovery {
  wr_created : bool;
  wr_truncated_tail : bool;
  wr_records : Z;
  wr_bytes : Z;
  wr_discarded_bytes : Z;
  wr_last_sequence : Z;
  wr_incidents : list string;
}.
Definition wal_recovery_default : WalRecovery := mkWalRecovery false false 0 0 0 0 [].

Record Wal := mkWal {
  wal_path : string;
  wal_max_bytes : Z;
  wal_max_records : Z;
  wal_durable : bool;
  wal_bytes : Z;
  wal_records : Z;
  wal_last_sequence : Z;
  wal_is_open : bool;
}.

(** [get_u16], [get_u32] and [get_u64] at an offset. *)
Definition get_be (width offset : nat) (data : bytes) : Z := be_value (take width (drop offset data)).

Definition header_body (stream : string) (created_at : Z) : bytes :=
  kWalMagic ++ w_u16 kWalFormatVersion ++ w_u16 0 ++ w_u32 kWalHeaderSize ++ w_uuid stream ++
  w_i64 created_at ++ w_u64 0 ++ w_u64 0.

Definition make_header (stream : string) (created_at : Z) : bytes :=
  header_body stream created_at ++ w_u32 (crc32c (header_body stream created_at)) ++ w_u32 0.

Definition validate_header (header : bytes) : Result unit :=
  _ ← reject_if (zlen header <? kWalHeaderSize) Outcome_Incomplete
        "log header is shorter than the fixed header size";
  _ ← reject_if (negb (bool_decide (take 8 header = kWalMagic))) Outcome_Corrupt
        "log header magic does not match ICFWAL1";
  _ ← reject_if (negb (get_be 2 8 header =? kWalFormatVersion)) Outcome_Incompatible
        "log format version is not supported";
  _ ← reject_if (negb (get_be 2 10 header =? 0)) Outcome_Invalid "log header flags must be zero";
  _ ← reject_if (negb (get_be 4 12 header =? kWalHeaderSize)) Outcome_Invalid
        "log header length field is inconsistent";
  reject_if (negb (get_be 4 56 header =? crc32c (take 56 header))) Outcome_Corrupt
    "log header CRC32C mismatch".

(** ** Reading one record

    [read_record first previous rest] is one turn of the loop of [open] up to the visitor call, on
    the bytes that remain in the file. *)
Inductive Step :=
  | StepEnd
  | StepDamaged (incident : string)
  | StepRefused (status : Status)
  | StepRecord (header : RecordHeader) (payload rest : bytes).

Definition read_record (first_record : bool) (previous : Z) (rest : bytes) : Step :=
  let header := take 32 rest in
  let tail := drop 32 rest in
  if bool_decide (rest = []) then StepEnd
  else if zlen header <? kRecordHeaderSize then StepDamaged "log ends inside a record header"
  else if negb (get_be 4 28 header =? crc32c (take 28 header)) then StepDamaged "record header CRC32C mismatch"
  else if negb (record_kind_known (get_be 2 4 header)) then StepDamaged "record kind is not recognised"
  else if negb (get_be 2 6 header =? 0) then StepDamaged "record flags must be zero"
  else
    let length := get_be 4 0 header in
    if limits.kMaxStoreRecordPayload <? length then StepDamaged "record payload length exceeds the maximum"
    else
      let sequence := get_be 8 8 header in
      if negb first_record && negb (previous <? sequence) then
        StepRefused (status_make Outcome_Replayed "log sequence numbers are not strictly increasing")
      else
        let payload := take (Z.to_nat length) tail in
        let tail := drop (Z.to_nat length) tail in
        let trailer := take 4 tail in
        if (0 <? length) && (zlen payload <? length) then StepDamaged "log ends inside a record payload"
        else if zlen trailer <? kRecordTrailerSize then StepDamaged "log ends inside a record trailer"
        else if negb (be_value trailer =? crc32c (header ++ payload)) then StepDamaged "record CRC32C mismatch"
        else if negb (get_be 4 24 header =? crc32c payload) then StepDamaged "record payload CRC32C mismatch"
        else
          StepRecord (mkRecordHeader length (enum_cast (get_be 2 4 header)) 0 sequence
                        (cast_i64 (get_be 8 16 header)) (get_be 4 24 header) (get_be 4 28 header))
            payload (drop 4 tail).

(** ** The scan *)
Record Scan := mkScan {
  sc_offset : Z;
  sc_records : Z;
  sc_last_sequence : Z;
  sc_incident : option string;
}.

Section scan.
Context {S : Type} (visitor : RecordHeader -> bytes -> ST S unit) (max_records : Z).

(** The loop of [open]. A record takes at least 36 bytes, so the length of the file bounds the number
    of turns. *)
Fixpoint scan_records (fuel : nat) (sc : Scan) (rest : bytes) : ST S Scan :=
  match fuel with
  | O => mret sc
  | Datatypes.S fuel =>
      match read_record (sc_records sc =? 0) (sc_last_sequence sc) rest with
      | StepEnd => mret sc
      | StepDamaged incident =>
          mret (mkScan (sc_offset sc) (sc_records sc) (sc_last_sequence sc) (Some incident))
      | StepRefused status => st_lift (Err status)
      | StepRecord header payload rest' =>
          _ ← visitor header payload;
          let sc' := mkScan (sc_offset sc + (kRecordHeaderSize + rh_length header + kRecordTrailerSize))
                       (sc_records sc + 1) (rh_sequence header) None in
          _ ← st_lift (reject_if (max_records <? sc_records sc') Outcome_CapacityExceeded
                         "log holds more records than the configured bound");
          scan_records fuel sc' rest'
      end
  end.
End scan.

(** What the operating system answers while a log is opened: creating it, opening it for reading, and
    truncating it; and the random identity of a new log. *)
Record WalIo := mkWalIo { wo_stream : string; wo_create : WriteIo; wo_open : bool; wo_truncate : bool }.

Definition or_default (value fallback : Z) : Z := if value =? 0 then fallback else value.

Definition to_string (v : Z) : string := bytes_str (dec_unsigned v).

Definition incident_text (incident : string) (offset discarded : Z) : string :=
  (incident ++ " at offset " ++ to_string offset ++ "; discarded " ++ to_string discarded ++ " bytes")%string.

Definition scan_start : Scan := mkScan kWalHeaderSize 0 0 None.

(** [Wal::open]; the visitor state and the disk are threaded, the recovery report is returned. *)
Definition wal_open {S} (io : WalIo) (path : string) (max_bytes max_records : Z) (durable : bool)
    (visitor : RecordHeader -> bytes -> ST S unit) : ST (S * Disk) (Wal * WalRecovery) := fun '(s, d) =>
  let max_bytes := or_default max_bytes limits.kMaxStoreBytes in
  let max_records := or_default max_records limits.kMaxStoreRecords in
  if bool_decide (path = ""%string) then (invalid "log path must not be empty", (s, d))
  else match d !! path with
  | None =>
      match write_file_atomic (wo_create io) path (make_header (wo_stream io) 0) d with
      | (Val _, d') =>
          (Val (mkWal path max_bytes max_records durable kWalHeaderSize 0 0 true,
                mkWalRecovery true false 0 0 0 0 []), (s, d'))
      | (Err e, d') => (Err e, (s, d'))
      | (Throw, d') => (Throw, (s, d'))
      end
  | Some contents =>
      if negb (wo_open io) then (fail Outcome_NotFound ("cannot open log file: " ++ path), (s, d))
      else if zlen contents <? kWalHeaderSize then
        (fail Outcome_Corrupt "log file is shorter than the fixed header", (s, d))
      else match validate_header (take 64 contents) with
      | Err e => (Err e, (s, d))
      | Throw => (Throw, (s, d))
      | Val _ =>
          match scan_records visitor max_records (length contents) scan_start (drop 64 contents) s with
          | (Err e, s') => (Err e, (s', d))
          | (Throw, s') => (Throw, (s', d))
          | (Val sc, s') =>
              match sc_incident sc with
              | None =>
                  let file_bytes := zlen contents in
                  (Val (mkWal path max_bytes max_records durable file_bytes (sc_records sc) (sc_last_sequence sc) true,
                        mkWalRecovery false false (sc_records sc) file_bytes 0 (sc_last_sequence sc) []), (s', d))
              | Some incident =>
                  let bad_offset := sc_offset sc in
                  match truncate_file (wo_truncate io) path bad_offset d with
                  | (Err e, d') => (Err e, (s', d'))
                  | (Throw, d') => (Throw, (s', d'))
                  | (Val _, d') =>
                      let discarded := if bad_offset <? zlen contents then zlen contents - bad_offset else 0 in
                      (Val (mkWal path max_bytes max_records durable bad_offset (sc_records sc)
                              (sc_last_sequence sc) true,
                            mkWalRecovery false true (sc_records sc) bad_offset discarded (sc_last_sequence sc)
                              [incident_text incident bad_offset discarded]), (s', d'))
                  end
              end
          end
      end
  end.

(** ** Appending *)
Definition record_header (kind : RecordKind) (sequence at_time : Z) (payload : bytes) : bytes :=
  let fields := w_u32 (zlen payload) ++ w_u16 (enum_code kind) ++ w_u16 0 ++ w_u64 sequence ++ w_i64 at_time ++
                w_u32 (crc32c payload) in
  fields ++ w_u32 (crc32c fields).

Definition encode_record (kind : RecordKind) (sequence at_time : Z) (payload : bytes) : bytes :=
  let body := record_header kind sequence at_time payload ++ payload in
  body ++ w_u32 (crc32c body).

Definition wal_append (io : AppendIo) (kind : RecordKind) (sequence at_time : Z) (payload : bytes) :
    ST (Wal * Disk) unit := fun '(w, d) =>
  let guards :=
    _ ← reject_if (negb (wal_is_open w)) Outcome_Internal "log is not open";
    _ ← reject_if (negb (record_kind_known (enum_code kind))) Outcome_Invalid "record kind is not recognised";
    _ ← reject_if (limits.kMaxStoreRecordPayload <? zlen payload) Outcome_CapacityExceeded
          "record payload exceeds the maximum size";
    _ ← reject_if (wal_max_records w <=? wal_records w) Outcome_CapacityExceeded
          "log reached the configured record bound";
    added ← match add_u64 (kRecordHeaderSize + kRecordTrailerSize) (zlen payload) ≫= add_u64 (wal_bytes w) with
            | Some added => Val added
            | None => fail Outcome_Overflow "record size computation overflow"
            end;
    reject_if (wal_max_bytes w <? added) Outcome_CapacityExceeded "log reached the configured size bound" in
  match guards with
  | Err e => (Err e, (w, d))
  | Throw => (Throw, (w, d))
  | Val _ =>
      let bytes := encode_record kind sequence at_time payload in
      match append_file io (wal_path w) bytes (wal_durable w) d with
      | (Err e, d') => (Err e, (w, d'))
      | (Throw, d') => (Throw, (w, d'))
      | (Val _, d') =>
          (Val tt, (mkWal (wal_path w) (wal_max_bytes w) (wal_max_records w) (wal_durable w)
                      (wal_bytes w + zlen bytes) (wal_records w + 1) sequence (wal_is_open w), d'))
      end
  end.

(** [Wal::reset] keeps the last sequence. *)
Definition wal_reset (io : WriteIo) (stream : string) : ST (Wal * Disk) unit := fun '(w, d) =>
  if negb (wal_is_open w) then (fail Outcome_Internal "log is not open", (w, d))
  else match write_file_atomic io (wal_path w) (make_header stream 0) d with
  | (Err e, d') => (Err e, (w, d'))
  | (Throw, d') => (Throw, (w, d'))
  | (Val _, d') =>
      (Val tt, (mkWal (wal_path w) (wal_max_bytes w) (wal_max_records w) (wal_durable w) kWalHeaderSize 0
                  (wal_last_sequence w) (wal_is_open w), d'))
  end.

Definition wal_needs_compaction (w : Wal) (byte_threshold record_threshold : Z) : bool :=
  (byte_threshold <=? wal_bytes w) || (record_threshold <=? wal_records w).

(** ** The contents of a log *)
Record LogRecord := mkLogRecord { lr_kind : RecordKind; lr_sequence : Z; lr_at : Z; lr_payload : bytes }.

Definition encode_log (x : LogRecord) : bytes :=
  encode_record (lr_kind x) (lr_sequence x) (lr_at x) (lr_payload x).

Definition log_bytes (l : list LogRecord) : bytes := concat (encode_log <$> l).

Definition log_wf (x : LogRecord) : Prop :=
  lr_kind x <> RecordKind_Invalid /\ is_u64 (lr_sequence x) /\ is_i64 (lr_at x) /\
  zlen (lr_payload x) <= limits.kMaxStoreRecordPayload.

(** The fields of a record header before its CRC. *)
Definition log_fields (x : LogRecord) : bytes :=
  w_u32 (zlen (lr_payload x)) ++ w_u16 (enum_code (lr_kind x)) ++ w_u16 0 ++ w_u64 (lr_sequence x) ++
  w_i64 (lr_at x) ++ w_u32 (crc32c (lr_payload x)).

Definition log_header (x : LogRecord) : bytes := log_fields x ++ w_u32 (crc32c (log_fields x)).

(** The header [open] hands to the visitor for a record. *)
Definition header_of (x : LogRecord) : RecordHeader :=
  mkRecordHeader (zlen (lr_payload x)) (lr_kind x) 0 (lr_sequence x) (lr_at x) (crc32c (lr_payload x))
    (crc32c (log_fields x)).

Definition visit_all {S} (visitor : RecordHeader -> bytes -> ST S unit) (l : list LogRecord) : ST S unit :=
  foldr (fun x k => _ ← visitor (header_of x) (lr_payload x); k) (mret tt) l.

(** Strictly increasing sequence numbers. *)
Definition increasing (l : list LogRecord) : Prop := Sorted (fun x y => lr_sequence x < lr_sequence y) l.

(** What an interrupted append or a corrupted byte leaves of a record, and whatever follows it. *)
Inductive damaged (x : LogRecord) : bytes -> Prop :=
  | torn n : (0 < n < length (encode_log x))%nat -> damaged x (take n (encode_log x))
  | corrupted p b b' s rest : encode_log x = p ++ b :: s -> b <> b' -> damaged x (p ++ b' :: s ++ rest).

(** ** Lemmas on fields *)
Lemma length_w_u16 v : length (w_u16 v) = 2%nat. Proof. done. Qed.
Lemma length_w_u32 v : length (w_u32 v) = 4%nat. Proof. done. Qed.
Lemma length_w_u64 v : length (w_u64 v) = 8%nat. Proof. done. Qed.
Lemma length_w_i64 v : length (w_i64 v) = 8%nat. Proof. done. Qed.
Lemma length_w_uuid s : slen s = 16 -> length (w_uuid s) = 16%nat.
Proof. intros H. unfold w_uuid, w_raw. rewrite length_str_bytes. unfold slen in H. lia. Qed.

Lemma get_be_app width offset pre v post :
  length pre = offset ->
  get_be width offset (pre ++ append_be width v ++ post) = v mod 2 ^ (8 * Z.of_nat width).
Proof.
  intros <-. unfold get_be. rewrite drop_app_length, take_app_length' by (by rewrite length_append_be).
  apply be_value_append.
Qed.

Lemma be_value_u32 v : 0 <= v < 2 ^ 32 -> be_value (w_u32 v) = v.
Proof. intros. unfold w_u32. rewrite be_value_append. by apply Z.mod_small. Qed.

Lemma length_log_fields x : length (log_fields x) = 28%nat. Proof. done. Qed.
Lemma length_log_header x : length (log_header x) = 32%nat. Proof. done. Qed.

Lemma encode_log_eq x :
  encode_log x = log_header x ++ lr_payload x ++ w_u32 (crc32c (log_header x ++ lr_payload x)).
Proof. unfold encode_log, encode_record. fold (log_fields x). by rewrite <- app_assoc. Qed.

Lemma length_encode_log x : length (encode_log x) = (36 + length (lr_payload x))%nat.
Proof. rewrite encode_log_eq, !length_app, length_log_header. simpl. lia. Qed.

Lemma record_kind_known_code k : record_kind_known (enum_code k) = negb (bool_decide (k = RecordKind_Invalid)).
Proof. by destruct k. Qed.

Lemma log_header_fields x :
  log_wf x ->
  get_be 4 0 (log_header x) = zlen (lr_payload x) /\ get_be 2 4 (log_header x) = enum_code (lr_kind x) /\
  get_be 2 6 (log_header x) = 0 /\ get_be 8 8 (log_header x) = lr_sequence x /\
  cast_i64 (get_be 8 16 (log_header x)) = lr_at x /\ get_be 4 24 (log_header x) = crc32c (lr_payload x) /\
  get_be 4 28 (log_header x) = crc32c (log_fields x) /\ take 28 (log_header x) = log_fields x.
Proof.
  intros (_ & Hs & Ha & Hp). unfold limits.kMaxStoreRecordPayload, is_u64, u64_max in *.
  pose proof (zlen_nonneg (lr_payload x)). pose proof (enum_code_range (lr_kind x)) as Hk.
  change (enum_max (E := RecordKind)) with 4 in Hk.
  pose proof (crc32c_range (lr_payload x)). pose proof (crc32c_range (log_fields x)).
  unfold log_header. generalize dependent (crc32c (log_fields x)). intros c Hc. unfold log_fields.
  set (l := zlen (lr_payload x)) in *. set (k := enum_code (lr_kind x)) in *.
  set (pc := crc32c (lr_payload x)) in *. rewrite <- !app_assoc. split_and!.
  - etrans; [apply (get_be_app 4 0 [] l); done|]. apply Z.mod_small. lia.
  - etrans; [apply (get_be_app 2 4 (w_u32 l) k); done|]. apply Z.mod_small. lia.
  - etrans; [apply (get_be_app 2 6 (w_u32 l ++ w_u16 k) 0); done|]. done.
  - etrans; [apply (get_be_app 8 8 (w_u32 l ++ w_u16 k ++ w_u16 0) (lr_sequence x)); done|]. apply Z.mod_small. lia.
  - etrans; [apply f_equal; apply (get_be_app 8 16 (w_u32 l ++ w_u16 k ++ w_u16 0 ++ w_u64 (lr_sequence x))
      (lr_at x mod 2 ^ 64)); done|]. rewrite Z.mod_small by (apply Z.mod_pos_bound; lia). by apply cast_i64_mod.
  - etrans; [apply (get_be_app 4 24 (w_u32 l ++ w_u16 k ++ w_u16 0 ++ w_u64 (lr_sequence x) ++ w_i64 (lr_at x)) pc);
      done|]. apply Z.mod_small. lia.
  - etrans; [apply (get_be_app 4 28 (w_u32 l ++ w_u16 k ++ w_u16 0 ++ w_u64 (lr_sequence x) ++ w_i64 (lr_at x) ++
      w_u32 pc) c []); done|]. apply Z.mod_small. lia.
  - done.
Qed.

(** The record may follow what was read before. *)
Definition follows (first_record : bool) (previous : Z) (x : LogRecord) : Prop :=
  first_record = true \/ previous < lr_sequence x.

(** Reading on after an intact record header. *)
Lemma read_record_header first_record previous x tail :
  log_wf x -> follows first_record previous x ->
  read_record first_record previous (log_header x ++ tail) =
    let n := length (lr_payload x) in
    let payload := take n tail in
    let trailer := take 4 (drop n tail) in
    if (0 <? Z.of_nat n) && (zlen payload <? Z.of_nat n) then StepDamaged "log ends inside a record payload"
    else if zlen trailer <? kRecordTrailerSize then StepDamaged "log ends inside a record trailer"
    else if negb (be_value trailer =? crc32c (log_header x ++ payload)) then StepDamaged "record CRC32C mismatch"
    else if negb (crc32c (lr_payload x) =? crc32c payload) then StepDamaged "record payload CRC32C mismatch"
    else StepRecord (header_of x) payload (drop 4 (drop n tail)).
Proof.
  intros Hwf Hf. destruct (log_header_fields x Hwf) as (H0 & H4 & H6 & H8 & H16 & H24 & H28 & Ht).
  unfold read_record. rewrite take_app_length', drop_app_length' by (by rewrite length_log_header).
  rewrite bool_decide_eq_false_2 by (intros E; apply (f_equal length) in E; by rewrite length_app, length_log_header in E).
  cbv zeta. rewrite H0, H4, H6, H8, H16, H24, H28, Ht.
  rewrite Z.eqb_refl, record_kind_known_code, enum_cast_code. destruct Hwf as (Hk & _ & _ & Hp).
  rewrite bool_decide_eq_false_2 by done. cbn [negb]. change (zlen (log_header x) <? kRecordHeaderSize) with false.
  cbn [negb].
  destruct (Z.ltb_spec limits.kMaxStoreRecordPayload (zlen (lr_payload x))); [lia|].
  replace (negb first_record && negb (previous <? lr_sequence x)) with false.
  2:{ destruct Hf as [->|Hf]; [done|]. destruct (Z.ltb_spec previous (lr_sequence x)); [|lia]. by destruct first_record. }
  rewrite (eq_refl : zlen (lr_payload x) = Z.of_nat (length (lr_payload x))), Nat2Z.id. reflexivity.
Qed.

Lemma read_record_intact first_record previous x rest :
  log_wf x -> follows first_record previous x ->
  read_record first_record previous (encode_log x ++ rest) = StepRecord (header_of x) (lr_payload x) rest.
Proof.
  intros Hwf Hf. rewrite encode_log_eq, <- !app_assoc, read_record_header by done. cbv zeta.
  rewrite take_app_length, drop_app_length. unfold zlen at 1. rewrite Z.ltb_irrefl, andb_false_r.
  rewrite take_app_length', drop_app_length' by done. rewrite be_value_u32 by apply crc32c_range.
  by rewrite !Z.eqb_refl.
Qed.

(** ** Damage is detected *)
Lemma crc32c_insert (l : bytes) i b b' :
  l !! i = Some b -> b <> b' -> crc32c (<[i := b']> l) <> crc32c l.
Proof.
  intros Hi Hb Hc. apply Hb. rewrite insert_take_drop in Hc by (by eapply lookup_lt_Some).
  rewrite <- (take_drop_middle l i b Hi) in Hc at 3. by apply crc32c_byte_inj in Hc.
Qed.

Lemma be_value_inj (a b : bytes) : length a = length b -> be_value a = be_value b -> a = b.
Proof.
  revert b. induction a as [|x a IH]; intros [|y b]; try done. intros [= Hl] H. rewrite !be_value_cons in H.
  pose proof (be_value_range a) as Ra. pose proof (be_value_range b) as Rb. unfold zlen in *. rewrite Hl in *.
  set (M := 2 ^ (8 * Z.of_nat (length b))) in *. assert (0 < M) by (unfold M; lia).
  assert (Hx : byte_val x = byte_val y) by nia. f_equal; [by apply byte_val_inj|]. apply IH; [done|]. rewrite Hx in H. lia.
Qed.

Lemma read_record_torn first_record previous x n :
  log_wf x -> follows first_record previous x -> (0 < n < length (encode_log x))%nat ->
  exists incident, read_record first_record previous (take n (encode_log x)) = StepDamaged incident.
Proof.
  intros Hwf Hf Hn. rewrite length_encode_log in Hn. rewrite encode_log_eq.
  destruct (decide (n < 32)%nat) as [Hs|Hs].
  - rewrite take_app_le by (rewrite length_log_header; lia). unfold read_record.
    rewrite bool_decide_eq_false_2, take_take.
    2:{ intros E. apply (f_equal length) in E. rewrite length_take, length_log_header in E. simpl in E. lia. }
    cbv zeta. unfold zlen, kRecordHeaderSize. rewrite length_take, length_log_header.
    destruct (Z.ltb_spec (Z.of_nat (Init.Nat.min (Init.Nat.min 32 n) 32)) 32); [eauto|lia].
  - rewrite take_app_ge by (rewrite length_log_header; lia). rewrite length_log_header, read_record_header by done.
    cbv zeta. set (m := (n - 32)%nat). destruct (decide (m < length (lr_payload x))%nat) as [Hm|Hm].
    + rewrite take_app_le, take_take by lia. unfold zlen. rewrite length_take_le by lia.
      rewrite (proj2 (Z.ltb_lt _ _)), (proj2 (Z.ltb_lt _ _)) by lia. cbn [andb]. eauto.
    + rewrite take_app_ge by lia. rewrite take_app_length, drop_app_length. unfold zlen at 1. rewrite Z.ltb_irrefl, andb_false_r.
      unfold zlen, kRecordTrailerSize. rewrite !length_take, length_w_u32. rewrite (proj2 (Z.ltb_lt _ _)) by lia. eauto.
Qed.

(** Bytes followed by their CRC: one changed byte, in the bytes or in the CRC, makes the two differ. *)
Lemma crc_guard (a post : bytes) i b b' :
  (a ++ w_u32 (crc32c a)) !! i = Some b -> b <> b' ->
  let data := <[i := b']> (a ++ w_u32 (crc32c a)) ++ post in
  get_be 4 (length a) data <> crc32c (take (length a) data).
Proof.
  intros Hi Hb. unfold get_be. cbv zeta. destruct (decide (i < length a)%nat) as [Hs|Hs].
  - rewrite lookup_app_l in Hi by done. rewrite insert_app_l, <- app_assoc by done.
    rewrite drop_app_length' by (by rewrite length_insert). rewrite (take_app_length' (w_u32 _)) by done.
    rewrite take_app_length' by (by rewrite length_insert). rewrite be_value_u32 by apply crc32c_range.
    intros E. by eapply crc32c_insert.
  - rewrite lookup_app_r in Hi by lia. rewrite insert_app_r_alt, <- app_assoc by lia.
    rewrite drop_app_length' by done. rewrite (take_app_length' (<[_ := _]> _)) by (by rewrite length_insert).
    rewrite take_app_length' by done. intros E. rewrite <- (be_value_u32 (crc32c a)) in E by apply crc32c_range.
    apply be_value_inj in E; [|by rewrite length_insert]. rewrite <- E, list_lookup_insert_eq in Hi; [congruence|].
    apply lookup_lt_Some in Hi. by rewrite length_insert in Hi.
Qed.

Lemma read_record_corrupted_header first_record previous x i b b' rest :
  log_header x !! i = Some b -> b <> b' ->
  exists incident, read_record first_record previous (<[i := b']> (log_header x) ++ rest) = StepDamaged incident.
Proof.
  intros Hi Hb. unfold read_record.
  rewrite take_app_length' by (by rewrite length_insert, length_log_header). rewrite bool_decide_eq_false_2.
  2:{ intros E. apply (f_equal length) in E. by rewrite length_app, length_insert, length_log_header in E. }
  cbv zeta. unfold zlen. rewrite length_insert. change (Z.of_nat (length (log_header x)) <? kRecordHeaderSize) with false.
  pose proof (crc_guard (log_fields x) [] i b b' Hi Hb) as Hne. cbv zeta in Hne. rewrite app_nil_r in Hne.
  apply Z.eqb_neq in Hne. rewrite length_log_fields in Hne. fold (log_header x) in Hne. rewrite Hne. cbn [negb]. eauto.
Qed.

Lemma read_record_corrupted first_record previous x i b b' rest :
  log_wf x -> follows first_record previous x -> encode_log x !! i = Some b -> b <> b' ->
  exists incident, read_record first_record previous (<[i := b']> (encode_log x) ++ rest) = StepDamaged incident.
Proof.
  intros Hwf Hf Hi Hb. pose proof Hi as Hg. rewrite encode_log_eq in Hi |- *.
  destruct (decide (i < 32)%nat) as [Hs|Hs].
  { rewrite lookup_app_l in Hi by (by rewrite length_log_header). rewrite insert_app_l, <- !app_assoc by (by rewrite length_log_header).
    by eapply read_record_corrupted_header. }
  rewrite encode_log_eq, app_assoc in Hg. apply (fun H => crc_guard _ rest _ _ _ H Hb) in Hg. cbv zeta in Hg. rewrite <- app_assoc in Hg.
  rewrite insert_app_r_alt, <- app_assoc in Hg |- * by (rewrite length_log_header; lia). rewrite length_log_header in *.
  set (tail := <[(i - 32)%nat := b']> (lr_payload x ++ w_u32 (crc32c (log_header x ++ lr_payload x))) ++ rest) in *.
  assert (Ht : (length (lr_payload x) + 4 <= length tail)%nat)
    by (unfold tail; rewrite length_app, length_insert, length_app, length_w_u32; lia).
  rewrite read_record_header by done. cbv zeta. unfold get_be in Hg. rewrite length_app, length_log_header in Hg.
  rewrite drop_app_ge, take_app_ge, length_log_header in Hg by (rewrite length_log_header; lia).
  replace (32 + length (lr_payload x) - 32)%nat with (length (lr_payload x)) in Hg by lia.
  unfold zlen, kRecordTrailerSize. rewrite !length_take, length_drop.
  rewrite (proj2 (Z.ltb_ge (Z.of_nat (length (lr_payload x) `min` length tail)) _)) by lia. rewrite andb_false_r.
  rewrite (proj2 (Z.ltb_ge _ 4)) by lia. apply Z.eqb_neq in Hg. rewrite Hg. cbn [negb]. eauto.
Qed.

Lemma read_record_damaged first_record previous x t :
  log_wf x -> follows first_record previous x -> damaged x t ->
  exists incident, read_record first_record previous t = StepDamaged incident.
Proof.
  intros Hwf Hf [n Hn|p b b' s rest He Hb]; [by apply read_record_torn|].
  replace (p ++ b' :: s ++ rest) with (<[length p := b']> (encode_log x) ++ rest).
  - eapply read_record_corrupted; [done|done| |done]. by rewrite He, list_lookup_middle.
  - rewrite He, insert_app_r_alt, Nat.sub_diag, <- app_assoc by lia. done.
Qed.

(** ** The scan visits exactly the intact prefix *)
Lemma make_header_valid stream created_at :
  slen stream = 16 -> length (make_header stream created_at) = 64%nat /\
  validate_header (make_header stream created_at) = Val tt.
Proof.
  intros Hs. pose proof (length_w_uuid stream Hs) as Hl.
  assert (Hb : length (header_body stream created_at) = 56%nat)
    by (unfold header_body; rewrite !length_app, Hl; done).
  assert (Hlen : length (make_header stream created_at) = 64%nat)
    by (unfold make_header; rewrite !length_app, Hb; done).
  split; [done|]. unfold validate_header, zlen. rewrite Hlen. cbn [Z.of_nat].
  assert (H56 : get_be 4 56 (make_header stream created_at) = crc32c (take 56 (make_header stream created_at))).
  { unfold make_header. rewrite take_app_length' by done. etrans; [by apply get_be_app|].
    apply Z.mod_small, crc32c_range. }
  rewrite H56, Z.eqb_refl. unfold make_header, header_body. rewrite <- !app_assoc. reflexivity.
Qed.

Section scan_facts.
Context {S : Type} (visitor : RecordHeader -> bytes -> ST S unit) (max_records : Z).

(** A tail at which the scan stops without an error. *)
Definition stops (previous : Z) (first_record : bool) (tail : bytes) (incident : option string) : Prop :=
  read_record first_record previous tail =
    match incident with None => StepEnd | Some text => StepDamaged text end.

Definition last_of (previous : Z) (l : list LogRecord) : Z :=
  match last l with Some x => lr_sequence x | None => previous end.

Lemma last_of_cons previous x l : last_of previous (x :: l) = last_of (lr_sequence x) l.
Proof. unfold last_of. rewrite last_cons. by destruct (last l). Qed.

Lemma scan_records_spec l : forall fuel sc tail incident s u s',
  (length l < fuel)%nat -> Forall log_wf l -> increasing l ->
  match l with x :: _ => follows (sc_records sc =? 0) (sc_last_sequence sc) x | [] => True end ->
  0 <= sc_records sc -> sc_records sc + zlen l <= max_records -> sc_incident sc = None ->
  stops (last_of (sc_last_sequence sc) l) (sc_records sc + zlen l =? 0) tail incident ->
  visit_all visitor l s = (Val u, s') ->
  scan_records visitor max_records fuel sc (log_bytes l ++ tail) s =
    (Val (mkScan (sc_offset sc + zlen (log_bytes l)) (sc_records sc + zlen l)
            (last_of (sc_last_sequence sc) l) incident), s').
Proof.
  induction l as [|x l IH]; intros fuel [off n last inc] tail incident s u s' Hfuel Hwf Hinc Hf Hn Hm Hi Hstop Hv;
    cbn [sc_offset sc_records sc_last_sequence sc_incident] in *; destruct fuel as [|fuel]; try (simpl in Hfuel; lia);
    cbn [scan_records sc_records sc_last_sequence].
  - injection Hv as <- <-. change (log_bytes [] ++ tail) with tail. unfold stops in Hstop. change (last_of last []) with last in *.
    change (zlen []) with 0 in *. rewrite Z.add_0_r in Hstop. rewrite Hstop. destruct incident; cbn; [by rewrite !Z.add_0_r|].
    by rewrite !Z.add_0_r, Hi.
  - inversion_clear Hwf as [|? ? Hx Hl]. unfold log_bytes. cbn [fmap list_fmap concat]. rewrite <- app_assoc.
    rewrite read_record_intact by done. cbn [visit_all foldr] in Hv. unfold mbind, ST_bind in Hv |- *.
    destruct (visitor (header_of x) (lr_payload x) s) as [[[]| |] s1] eqn:Ev; try discriminate Hv.
    change (foldr _ _ l s1) with (visit_all visitor l s1) in Hv. cbn [sc_records].
    assert (Hz : zlen (x :: l) = 1 + zlen l) by (unfold zlen; simpl; lia). rewrite Hz in *. pose proof (zlen_nonneg l).
    unfold reject_if. destruct (Z.ltb_spec max_records (n + 1)); [lia|]. cbn [st_lift].
    fold (log_bytes l). rewrite last_of_cons in *. cbn [header_of rh_length rh_sequence].
    erewrite (IH fuel _ tail incident s1 u s'); cbn [sc_offset sc_records sc_last_sequence sc_incident]; try done.
    + assert (He : zlen (encode_log x ++ log_bytes l) = 32 + zlen (lr_payload x) + 4 + zlen (log_bytes l))
        by (rewrite zlen_app; unfold zlen at 1; rewrite length_encode_log; unfold zlen; lia).
      rewrite He, !Z.add_assoc. done.
    + simpl in Hfuel. lia.
    + by inversion Hinc.
    + destruct l as [|y l]; [done|]. right. cbn. inversion_clear Hinc as [|? ? _ Hd]. by inversion Hd.
    + lia.
    + lia.
    + by replace (n + 1 + zlen l) with (n + (1 + zlen l)) by lia.
Qed.
End scan_facts.

(** ** Opening a log *)
Definition log_file (stream : string) (l : list LogRecord) : bytes := make_header stream 0 ++ log_bytes l.

(** A log that the code wrote: a header, and records with strictly increasing sequence numbers. *)
Definition log_ok (stream : string) (l : list LogRecord) : Prop :=
  slen stream = 16 /\ Forall log_wf l /\ increasing l.

(** Nothing, or what is left of a record that would have come next. *)
Definition tail_ok (l : list LogRecord) (tail : bytes) : Prop :=
  tail = [] \/ exists x, log_wf x /\ follows (zlen l =? 0) (last_of 0 l) x /\ damaged x tail.

Lemma damaged_nonempty x t : damaged x t -> t <> [].
Proof.
  intros [n Hn|p b b' s rest _ _].
  - intros E. apply (f_equal length) in E. rewrite length_take in E. simpl in E. lia.
  - by destruct p.
Qed.

Lemma log_file_length stream l : slen stream = 16 -> zlen (log_file stream l) = 64 + zlen (log_bytes l).
Proof. intros Hs. unfold log_file. rewrite zlen_app. unfold zlen at 1. by rewrite (proj1 (make_header_valid stream 0 Hs)). Qed.

Lemma length_log_bytes l : (length l <= length (log_bytes l))%nat.
Proof.
  induction l as [|x l IH]; [done|]. unfold log_bytes in *. cbn [fmap list_fmap concat length].
  rewrite length_app, length_encode_log. lia.
Qed.

Lemma tail_stops l tail :
  tail_ok l tail -> exists incident, stops (last_of 0 l) (zlen l =? 0) tail incident /\ (incident = None <-> tail = []).
Proof.
  intros [->|(x & Hx & Hf & Hd)]; [by exists None|].
  destruct (read_record_damaged _ _ _ _ Hx Hf Hd) as [text Ht]. exists (Some text).
  split; [exact Ht|]. split; [done|]. intros E. by apply damaged_nonempty in Hd.
Qed.

Lemma wal_open_spec {S} io path max_bytes max_records durable (visitor : RecordHeader -> bytes -> ST S unit)
    stream l tail s s' d :
  path <> ""%string -> wo_open io = true -> wo_truncate io = true ->
  log_ok stream l -> tail_ok l tail -> zlen l <= or_default max_records limits.kMaxStoreRecords ->
  d !! path = Some (log_file stream l ++ tail) -> visit_all visitor l s = (Val tt, s') ->
  exists discarded incidents d',
    wal_open io path max_bytes max_records durable visitor (s, d) =
      (Val (mkWal path (or_default max_bytes limits.kMaxStoreBytes) (or_default max_records limits.kMaxStoreRecords)
              durable (zlen (log_file stream l)) (zlen l) (last_of 0 l) true,
            mkWalRecovery false (negb (bool_decide (tail = []))) (zlen l) (zlen (log_file stream l)) discarded
              (last_of 0 l) incidents), (s', d')) /\
    d' = <[path := log_file stream l]> d.
Proof.
  intros Hp Hopen Htr (Hs & Hwf & Hinc) Htail Hm Hd Hv.
  destruct (make_header_valid stream 0 Hs) as [Hhl Hhv].
  destruct (tail_stops l tail Htail) as (incident & Hstop & Hnone).
  unfold wal_open. rewrite bool_decide_eq_false_2, Hd, Hopen by done. cbn [negb].
  assert (Hlen : zlen (log_file stream l ++ tail) = 64 + zlen (log_bytes l) + zlen tail)
    by (by rewrite zlen_app, log_file_length).
  rewrite Hlen. pose proof (zlen_nonneg (log_bytes l)). pose proof (zlen_nonneg tail). unfold kWalHeaderSize at 1.
  destruct (Z.ltb_spec (64 + zlen (log_bytes l) + zlen tail) 64); [lia|].
  unfold log_file at 1 2 3. rewrite <- app_assoc, take_app_length', drop_app_length' by done. rewrite Hhv.
  erewrite (scan_records_spec visitor _ l _ scan_start tail incident s tt s'); try done.
  2:{ unfold zlen in Hlen. rewrite !length_app, Hhl. pose proof (length_log_bytes l). lia. }
  2:{ destruct l; [done|by left]. }
  cbn [sc_incident sc_records sc_last_sequence sc_offset scan_start]. change (0 + zlen l) with (zlen l).
  destruct incident as [text|]; cbn [sc_incident].
  - rewrite bool_decide_eq_false_2 by (intros E; by apply Hnone in E). rewrite Htr.
    rewrite (truncate_prefix path _ (log_file stream l) tail) by (by rewrite ?log_file_length).
    rewrite log_file_length by done. unfold kWalHeaderSize. repeat eexists.
  - assert (Ht : tail = []) by (by apply Hnone). subst tail. rewrite app_nil_r in Hd.
    rewrite bool_decide_eq_true_2, log_file_length by done. cbn [negb]. change (zlen []) with 0. rewrite Z.add_0_r.
    do 3 eexists. split; [reflexivity|]. symmetry. by apply insert_id.
Qed.

(** Opening a log trusts exactly the longest intact prefix. When the file holds intact records
    followed by nothing, by any part of a record whose append was interrupted, or by a record with a
    corrupted byte (and anything after it), the visitor is called for the intact records, in order and
    for nothing else, and the file is left with exactly those records. *)
Theorem wal_open_recovers_prefix {S} io path max_bytes max_records durable
    (visitor : RecordHeader -> bytes -> ST S unit) stream l tail s s' d :
  path <> ""%string -> wo_open io = true -> wo_truncate io = true ->
  log_ok stream l -> tail_ok l tail -> zlen l <= or_default max_records limits.kMaxStoreRecords ->
  d !! path = Some (log_file stream l ++ tail) -> visit_all visitor l s = (Val tt, s') ->
  exists w rec,
    wal_open io path max_bytes max_records durable visitor (s, d) =
      (Val (w, rec), (s', <[path := log_file stream l]> d)) /\
    wr_records rec = zlen l /\ wr_last_sequence rec = last_of 0 l /\
    (wr_truncated_tail rec = true <-> tail <> []) /\
    wal_is_open w = true /\ wal_records w = zlen l /\ wal_bytes w = zlen (log_file stream l).
Proof.
  intros. destruct (wal_open_spec io path max_bytes max_records durable visitor stream l tail s s' d)
    as (dis & inc & d' & -> & ->); try done. do 2 eexists. split; [done|]. cbn. split_and!; try done.
  case_bool_decide; naive_solver.
Qed.
