(* ===== verification/Snapshot.v ===== *)
(** * Snapshots

    Models src/store/snapshot.cpp and [StoreMeta] of include/icf/store/mutation.hpp. *)
From S2P Require Import Prelude Status Utf8 Bytes Ids Types Registry Hash Canonical Files Wal.

Record StoreMeta := mkMeta {
  me_term : Z;
  me_incarnation : string;
  me_revision : Z;
  me_sequence : Z;
  me_written_at : Z;
  me_truncations : Z;
  me_state_digest : string;
}.
Definition meta_default : StoreMeta := mkMeta 0 nil_uuid 0 0 0 0 zero_digest.

Definition set_me_digest (digest : string) (m : StoreMeta) : StoreMeta :=
  mkMeta (me_term m) (me_incarnation m) (me_revision m) (me_sequence m) (me_written_at m) (me_truncations m) digest.

Record Snapshot := mkSnapshot { sn_meta : StoreMeta; sn_registry : Registry }.

Definition kSnapshotHeaderSize : Z := 112.
Definition kSnapshotFormatVersion : Z := 1.
Definition kSnapshotMagic : bytes := str_bytes "ICFSNP1" ++ [byte_of 0].

(** Bytes 0 to 19, the part under the header CRC. *)
Definition snapshot_prefix (payload : bytes) : bytes :=
  kSnapshotMagic ++ w_u16 kSnapshotFormatVersion ++ w_u16 0 ++ w_u32 (zlen payload) ++ w_u32 (crc32c payload).

(** Bytes 24 to 111. *)
Definition snapshot_meta (m : StoreMeta) (digest : string) : bytes :=
  w_uuid (me_incarnation m) ++ w_u64 (me_term m) ++ w_u64 (me_revision m) ++ w_u64 (me_sequence m) ++
  w_i64 (me_written_at m) ++ w_u64 (me_truncations m) ++ w_digest digest.

Definition snapshot_body (m : StoreMeta) (digest : string) (payload : bytes) : bytes :=
  snapshot_prefix payload ++ w_u32 (crc32c (snapshot_prefix payload)) ++ snapshot_meta m digest ++ payload.

Definition encode_snapshot (m : StoreMeta) (r : Registry) : Result bytes :=
  let payload := encode_registry r true in
  _ ← reject_if (limits.kMaxStoreRecordPayload <? zlen payload) Outcome_CapacityExceeded
        "snapshot payload exceeds the maximum record size";
  let body := snapshot_body m (registry_digest r) payload in
  Val (body ++ w_u32 (crc32c body)).

Definition span (offset length : nat) (data : bytes) : bytes := take length (drop offset data).

Definition decode_snapshot (data : bytes) : Result Snapshot :=
  _ ← reject_if (zlen data <? kSnapshotHeaderSize + 4) Outcome_Incomplete
        "snapshot is shorter than the fixed header";
  _ ← reject_if (negb (bool_decide (take 8 data = kSnapshotMagic))) Outcome_Corrupt
        "snapshot magic does not match ICFSNP1";
  _ ← reject_if (negb (get_be 2 8 data =? kSnapshotFormatVersion)) Outcome_Incompatible
        "snapshot format version is not supported";
  _ ← reject_if (negb (get_be 2 10 data =? 0)) Outcome_Invalid "snapshot flags must be zero";
  _ ← reject_if (negb (get_be 4 20 data =? crc32c (take 20 data))) Outcome_Corrupt
        "snapshot header CRC32C mismatch";
  let payload_length := get_be 4 12 data in
  _ ← reject_if (limits.kMaxStoreRecordPayload <? payload_length) Outcome_CapacityExceeded
        "snapshot payload exceeds the maximum record size";
  total ← match add_u64 kSnapshotHeaderSize payload_length ≫= (fun t => add_u64 t 4) with
          | Some total => Val total
          | None => fail Outcome_Overflow "snapshot length computation overflow"
          end;
  _ ← reject_if (negb (zlen data =? total)) Outcome_Incomplete
        "snapshot length does not match the declared payload length";
  let n := Z.to_nat payload_length in
  let payload := span 112 n data in
  _ ← reject_if (negb (get_be 4 (112 + n) data =? crc32c (take (112 + n) data))) Outcome_Corrupt
        "snapshot record CRC32C mismatch";
  _ ← reject_if (negb (get_be 4 16 data =? crc32c payload)) Outcome_Corrupt "snapshot payload CRC32C mismatch";
  '(r, _) ← decode_registry payload;
  let declared := array_from_bytes 32 (span 80 32 data) in
  let actual := registry_digest r in
  _ ← reject_if (negb (bool_decide (declared = actual))) Outcome_Corrupt
        "snapshot contents do not match the digest recorded in the header";
  Val (mkSnapshot
         (mkMeta (get_be 8 40 data) (array_from_bytes 16 (span 24 16 data)) (get_be 8 48 data) (get_be 8 56 data)
            (cast_i64 (get_be 8 64 data)) (get_be 8 72 data) actual) r).

Definition save_snapshot (io : WriteIo) (path : string) (m : StoreMeta) (r : Registry) : ST Disk unit :=
  bytes ← st_lift (encode_snapshot m r); write_file_atomic io path bytes.

Definition load_snapshot (io : ReadIo) (d : Disk) (path : string) : Result Snapshot :=
  bytes ← read_file_bounded io d path (limits.kMaxStoreRecordPayload + kSnapshotHeaderSize + 4);
  decode_snapshot bytes.

(** ** The format *)
Definition meta_wf (m : StoreMeta) : Prop :=
  is_u64 (me_term m) /\ wf_uuid (me_incarnation m) /\ is_u64 (me_revision m) /\ is_u64 (me_sequence m) /\
  is_i64 (me_written_at m) /\ is_u64 (me_truncations m).

Definition storable (r : Registry) : Prop :=
  registry_ok r /\ registry_wf r /\ zlen (encode_registry r true) <= limits.kMaxStoreRecordPayload.

Lemma length_snapshot_prefix payload : length (snapshot_prefix payload) = 20%nat.
Proof. done. Qed.

Lemma length_w_digest s : wf_digest s -> length (w_digest s) = 32%nat.
Proof. unfold wf_digest, slen, kDigestSize. intros H. unfold w_digest, w_raw. rewrite length_str_bytes. lia. Qed.

Lemma length_snapshot_meta m digest : meta_wf m -> wf_digest digest -> length (snapshot_meta m digest) = 88%nat.
Proof.
  intros (_ & Hu & _) Hd. unfold snapshot_meta. rewrite !length_app, length_w_uuid, length_w_digest by done. done.
Qed.

Lemma registry_digest_wf r : wf_digest (registry_digest r).
Proof. apply slen_sha256. Qed.

Lemma get_at width offset data pre v post :
  data = pre ++ append_be width v ++ post -> length pre = offset -> 0 <= v < 2 ^ (8 * Z.of_nat width) ->
  get_be width offset data = v.
Proof. intros -> Hl Hv. rewrite get_be_app by done. by apply Z.mod_small. Qed.

Lemma span_at offset length data pre x post :
  data = pre ++ x ++ post -> List.length pre = offset -> List.length x = length -> span offset length data = x.
Proof. intros -> <- <-. unfold span. by rewrite drop_app_length, take_app_length. Qed.

Lemma array_from_bytes_id n s : slen s = Z.of_nat n -> array_from_bytes n (str_bytes s) = s.
Proof.
  intros H. unfold array_from_bytes. rewrite take_app_length', bytes_str_bytes; [done|].
  rewrite length_str_bytes. unfold slen in H. lia.
Qed.

(** The CRC of the first 20 bytes and the fields it protects. *)
Lemma prefix_fields payload post :
  zlen payload <= limits.kMaxStoreRecordPayload ->
  let data := snapshot_prefix payload ++ w_u32 (crc32c (snapshot_prefix payload)) ++ post in
  take 8 data = kSnapshotMagic /\ get_be 2 8 data = kSnapshotFormatVersion /\ get_be 2 10 data = 0 /\
  get_be 4 20 data = crc32c (take 20 data) /\ get_be 4 12 data = zlen payload /\ get_be 4 16 data = crc32c payload.
Proof.
  intros Hp data. unfold limits.kMaxStoreRecordPayload in Hp. pose proof (zlen_nonneg payload).
  pose proof (crc32c_range payload). pose proof (crc32c_range (snapshot_prefix payload)). split_and!.
  - done.
  - done.
  - done.
  - unfold data at 2. rewrite take_app_length' by done.
    by eapply (get_at 4 20 _ (snapshot_prefix payload) _ post).
  - eapply (get_at 4 12 _ (kSnapshotMagic ++ w_u16 kSnapshotFormatVersion ++ w_u16 0)); [|done|lia].
    unfold data, snapshot_prefix. rewrite <- !app_assoc. done.
  - eapply (get_at 4 16 _ (kSnapshotMagic ++ w_u16 kSnapshotFormatVersion ++ w_u16 0 ++ w_u32 (zlen payload))); [|done|done].
    unfold data, snapshot_prefix. rewrite <- !app_assoc. done.
Qed.

(** The rest of the header. *)
Lemma meta_fields m digest pre post :
  meta_wf m -> wf_digest digest -> length pre = 24%nat ->
  let data := pre ++ snapshot_meta m digest ++ post in
  mkMeta (get_be 8 40 data) (array_from_bytes 16 (span 24 16 data)) (get_be 8 48 data) (get_be 8 56 data)
    (cast_i64 (get_be 8 64 data)) (get_be 8 72 data) digest = set_me_digest digest m /\
  array_from_bytes 32 (span 80 32 data) = digest.
Proof.
  intros (Ht & Hu & Hr & Hq & Hw & Hc) Hd Hl data. unfold is_u64, u64_max in *.
  pose proof (length_w_uuid _ Hu) as Lu. pose proof (length_w_digest _ Hd) as Ld.
  unfold data, snapshot_meta. rewrite <- !app_assoc. clear data.
  set (p40 := pre ++ w_uuid (me_incarnation m)). set (p48 := p40 ++ w_u64 (me_term m)).
  set (p56 := p48 ++ w_u64 (me_revision m)). set (p64 := p56 ++ w_u64 (me_sequence m)).
  set (p72 := p64 ++ w_i64 (me_written_at m)). set (p80 := p72 ++ w_u64 (me_truncations m)).
  assert (L40 : length p40 = 40%nat) by (unfold p40; rewrite length_app; lia).
  assert (L48 : length p48 = 48%nat) by (unfold p48; rewrite length_app, length_w_u64; lia).
  assert (L56 : length p56 = 56%nat) by (unfold p56; rewrite length_app, length_w_u64; lia).
  assert (L64 : length p64 = 64%nat) by (unfold p64; rewrite length_app, length_w_u64; lia).
  assert (L72 : length p72 = 72%nat) by (unfold p72; rewrite length_app, length_w_i64; lia).
  assert (L80 : length p80 = 80%nat) by (unfold p80; rewrite length_app, length_w_u64; lia).
  split.
  - rewrite (get_at 8 40 _ p40 (me_term m) _ ltac:(unfold p40; rewrite <- !app_assoc; reflexivity)) by (done || lia).
    rewrite (get_at 8 48 _ p48 (me_revision m) _ ltac:(unfold p48, p40; rewrite <- !app_assoc; reflexivity)) by (done || lia).
    rewrite (get_at 8 56 _ p56 (me_sequence m) _ ltac:(unfold p56, p48, p40; rewrite <- !app_assoc; reflexivity)) by (done || lia).
    rewrite (get_at 8 64 _ p64 (me_written_at m mod 2 ^ 64) _ ltac:(unfold p64, p56, p48, p40; rewrite <- !app_assoc; reflexivity))
      by (done || (apply Z.mod_pos_bound; lia)).
    rewrite (get_at 8 72 _ p72 (me_truncations m) _ ltac:(unfold p72, p64, p56, p48, p40; rewrite <- !app_assoc; reflexivity)) by (done || lia).
    rewrite (span_at 24 16 _ pre (w_uuid (me_incarnation m)) _ eq_refl Hl Lu), cast_i64_mod by done.
    rewrite array_from_bytes_id by done. done.
  - rewrite (span_at 80 32 _ p80 (w_digest digest) _ ltac:(unfold p80, p72, p64, p56, p48, p40; rewrite <- !app_assoc; reflexivity) L80 Ld).
    by apply array_from_bytes_id.
Qed.

(** Decoding succeeds on bytes whose fields are the ones of a snapshot of [r]. *)
Lemma decode_snapshot_intro data n r :
  Z.of_nat n <= limits.kMaxStoreRecordPayload -> length data = (112 + n + 4)%nat ->
  take 8 data = kSnapshotMagic -> get_be 2 8 data = kSnapshotFormatVersion -> get_be 2 10 data = 0 ->
  get_be 4 20 data = crc32c (take 20 data) -> get_be 4 12 data = Z.of_nat n ->
  get_be 4 16 data = crc32c (span 112 n data) -> get_be 4 (112 + n) data = crc32c (take (112 + n) data) ->
  decode_registry (span 112 n data) = Val (r, []) ->
  array_from_bytes 32 (span 80 32 data) = registry_digest r ->
  decode_snapshot data = Val (mkSnapshot
    (mkMeta (get_be 8 40 data) (array_from_bytes 16 (span 24 16 data)) (get_be 8 48 data) (get_be 8 56 data)
       (cast_i64 (get_be 8 64 data)) (get_be 8 72 data) (registry_digest r)) r).
Proof.
  intros Hn Hl F0 F8 F10 F20 F12 F16 Ft Hr Hd.
  unfold decode_snapshot, kSnapshotHeaderSize. unfold limits.kMaxStoreRecordPayload in *.
  apply bind_reject; [unfold zlen; lia|]. apply bind_reject; [by rewrite bool_decide_eq_true_2|].
  apply bind_reject; [by rewrite F8|]. apply bind_reject; [by rewrite F10|].
  apply bind_reject; [by rewrite F20, Z.eqb_refl|]. rewrite F12. cbv zeta. rewrite Nat2Z.id.
  apply bind_reject; [lia|]. eapply bind_value.
  { unfold add_u64, u64_max. rewrite (proj2 (Z.ltb_ge _ _)) by lia. cbn [mbind option_bind].
    rewrite (proj2 (Z.ltb_ge _ _)) by lia. reflexivity. }
  apply bind_reject; [unfold zlen; lia|]. apply bind_reject; [by rewrite Ft, Z.eqb_refl|].
  apply bind_reject; [by rewrite F16, Z.eqb_refl|]. eapply bind_value; [exact Hr|]. cbv iota beta.
  apply bind_reject; [by rewrite bool_decide_eq_true_2|]. done.
Qed.

Lemma length_snapshot_body m r payload :
  meta_wf m -> length (snapshot_body m (registry_digest r) payload) = (112 + length payload)%nat.
Proof.
  intros Hm. unfold snapshot_body.
  rewrite !length_app, (length_snapshot_meta m _ Hm (registry_digest_wf r)), length_snapshot_prefix, length_w_u32. lia.
Qed.

Lemma decode_encode_snapshot m r :
  meta_wf m -> storable r ->
  exists data, encode_snapshot m r = Val data /\ zlen data <= limits.kMaxStoreRecordPayload + kSnapshotHeaderSize + 4 /\
    decode_snapshot data = Val (mkSnapshot (set_me_digest (registry_digest r) m) r).
Proof.
  intros Hm (Hok & Hwf & Hlen). pose proof (decode_encode_registry r true Hok Hwf) as Hdec.
  unfold encode_snapshot. generalize dependent (encode_registry r true). intros payload Hlen Hdec.
  pose proof (registry_digest_wf r) as Hd. pose proof (length_snapshot_body m r payload Hm) as Lb.
  destruct (prefix_fields payload (snapshot_meta m (registry_digest r) ++ payload ++
    w_u32 (crc32c (snapshot_body m (registry_digest r) payload)))) as (F0 & F8 & F10 & F20 & F12 & F16); [done|].
  destruct (meta_fields m (registry_digest r) (snapshot_prefix payload ++ w_u32 (crc32c (snapshot_prefix payload)))
    (payload ++ w_u32 (crc32c (snapshot_body m (registry_digest r) payload)))) as [Fm Fd]; [done|done|done|].
  rewrite <- !app_assoc in Fm, Fd. set (body := snapshot_body m (registry_digest r) payload) in *.
  assert (E : body ++ w_u32 (crc32c body) = snapshot_prefix payload ++ w_u32 (crc32c (snapshot_prefix payload)) ++
    snapshot_meta m (registry_digest r) ++ payload ++ w_u32 (crc32c body))
    by (unfold body at 1, snapshot_body; by rewrite <- !app_assoc).
  exists (body ++ w_u32 (crc32c body)). split_and!.
  - apply bind_reject; [unfold limits.kMaxStoreRecordPayload in *; lia|done].
  - rewrite zlen_app. unfold zlen, limits.kMaxStoreRecordPayload, kSnapshotHeaderSize in *. rewrite Lb, length_w_u32. lia.
  - rewrite <- E in F0, F8, F10, F20, F12, F16, Fm, Fd. rewrite <- Fm.
    assert (Hspan : span 112 (length payload) (body ++ w_u32 (crc32c body)) = payload).
    { eapply (span_at _ _ _ (snapshot_prefix payload ++ w_u32 (crc32c (snapshot_prefix payload)) ++
        snapshot_meta m (registry_digest r))); [rewrite E; by rewrite <- !app_assoc| |done].
      rewrite !length_app, (length_snapshot_meta m _ Hm Hd). done. }
    apply (decode_snapshot_intro _ (length payload)); rewrite ?Hspan; try assumption.
    + rewrite length_app, Lb, length_w_u32. lia.
    + rewrite <- Lb, take_app_length.
      apply (get_at 4 _ _ body _ []); [by rewrite app_nil_r|done|apply crc32c_range].
Qed.

(** What an accepted snapshot has checked. *)
Lemma decode_snapshot_checks data sn :
  decode_snapshot data = Val sn ->
  let n := Z.to_nat (get_be 4 12 data) in
  get_be 4 20 data = crc32c (take 20 data) /\ get_be 4 (112 + n) data = crc32c (take (112 + n) data) /\
  registry_ok (sn_registry sn) /\ me_state_digest (sn_meta sn) = registry_digest (sn_registry sn).
Proof.
  intros H. unfold decode_snapshot in H. do 5 inv_bind H. cbv zeta in H. do 6 inv_bind H.
  match goal with Hr : decode_registry _ = Val ?p |- _ => destruct p as [r rest]; apply decode_registry_ok in Hr as [Hok _] end.
  inv_bind H. injection H as <-. cbv zeta. cbn [sn_registry sn_meta me_state_digest].
  apply reject_if_Val in Ha3, Ha7. bool_prop. by split_and!.
Qed.

Lemma get_be_insert width offset i b (data : bytes) :
  (offset + width <= i)%nat -> get_be width offset (<[i := b]> data) = get_be width offset data.
Proof.
  intros Hi. unfold get_be. rewrite !firstn_skipn_comm. by rewrite take_insert_ge by lia.
Qed.

Lemma corrupted_snapshot_refused m r data i b b' sn :
  meta_wf m -> encode_snapshot m r = Val data -> data !! i = Some b -> b <> b' ->
  decode_snapshot (<[i := b']> data) <> Val sn.
Proof.
  intros Hm He Hi Hb Hd. unfold encode_snapshot in He. inv_bind He. apply reject_if_Val in Ha. bool_prop.
  generalize dependent (encode_registry r true). intros payload Hlen He. cbv zeta in He. apply Val_inj in He. subst data.
  pose proof (length_snapshot_body m r payload Hm) as Lb.
  destruct (prefix_fields payload (snapshot_meta m (registry_digest r) ++ payload ++
    w_u32 (crc32c (snapshot_body m (registry_digest r) payload)))) as (_ & _ & _ & _ & F12 & _); [done|].
  apply decode_snapshot_checks in Hd as (H20 & Hrec & _). cbv zeta in Hrec.
  set (body := snapshot_body m (registry_digest r) payload) in *.
  assert (E : body ++ w_u32 (crc32c body) = (snapshot_prefix payload ++ w_u32 (crc32c (snapshot_prefix payload))) ++
    snapshot_meta m (registry_digest r) ++ payload ++ w_u32 (crc32c body))
    by (unfold body at 1, snapshot_body; by rewrite <- !app_assoc).
  destruct (decide (i < 24)%nat) as [Hs|Hs].
  - rewrite E, insert_app_l in H20 by done. rewrite E, lookup_app_l in Hi by done.
    exact (crc_guard (snapshot_prefix payload) _ i b b' Hi Hb H20).
  - rewrite (get_be_insert 4 12) in Hrec by lia. rewrite app_assoc, <- E in F12.
    rewrite F12 in Hrec. unfold zlen in Hrec. rewrite Nat2Z.id, <- Lb in Hrec.
    pose proof (crc_guard body [] i b b' Hi Hb) as Hg. cbv zeta in Hg. rewrite app_nil_r in Hg. by apply Hg.
Qed.

(** C18. A snapshot is trusted only when it is what was written: decoding the bytes of a snapshot gives
    back the registry, audit trail included, and the metadata with the registry's digest; bytes in
    which any one byte was changed are refused; and whatever bytes are accepted, the registry satisfies
    the invariant and has the recorded digest. *)
Theorem snapshot_roundtrip_and_integrity m r :
  meta_wf m -> storable r ->
  exists data, encode_snapshot m r = Val data /\
    decode_snapshot data = Val (mkSnapshot (set_me_digest (registry_digest r) m) r) /\
    (forall i b b' sn, data !! i = Some b -> b <> b' -> decode_snapshot (<[i := b']> data) <> Val sn) /\
    (forall other sn, decode_snapshot other = Val sn ->
       registry_ok (sn_registry sn) /\ me_state_digest (sn_meta sn) = registry_digest (sn_registry sn)).
Proof.
  intros Hm Hr. destruct (decode_encode_snapshot m r Hm Hr) as (data & He & _ & Hd). exists data. split_and!; [done|done| |].
  - intros i b b' sn. by eapply corrupted_snapshot_refused.
  - intros other sn H. by apply decode_snapshot_checks in H as (_ & _ & ? & ?).
Qed.
