(* ===== verification/DurableStore.v ===== *)
(** * The durable store

    Models src/store/durable_store.cpp: a snapshot for the bulk state and a log of mutations since. *)
From S2P Require Import Prelude Status Utf8 Bytes Ids Types Registry Hash Canonical Mutation Files Wal Snapshot.

Record Options := mkOptions {
  op_directory : string;
  op_snapshot_name : string;
  op_wal_name : string;
  op_compact_bytes : Z;
  op_compact_records : Z;
  op_durable : bool;
}.

Record Recovery := mkRecovery {
  rc_registry : Registry;
  rc_meta : StoreMeta;
  rc_wal : WalRecovery;
  rc_snapshot_loaded : bool;
  rc_recovered_from_store : bool;
  rc_created_fresh : bool;
  rc_mutations_applied : Z;
  rc_incidents : list string;
}.
Definition recovery_default : Recovery :=
  mkRecovery empty_registry meta_default wal_recovery_default false false false 0 [].

Record DurableStore := mkStore {
  ds_options : Options;
  ds_wal : Wal;
  ds_next_sequence : Z;
  ds_open : bool;
}.

Definition snapshot_path (o : Options) : string := join_path (op_directory o) (op_snapshot_name o).
Definition wal_path_of (o : Options) : string := join_path (op_directory o) (op_wal_name o).

(** ** Replay *)
Definition set_me_term (term : Z) (incarnation : string) (m : StoreMeta) : StoreMeta :=
  mkMeta term incarnation (me_revision m) (me_sequence m) (me_written_at m) (me_truncations m) (me_state_digest m).

Definition set_rc_meta (m : StoreMeta) (rc : Recovery) : Recovery :=
  mkRecovery (rc_registry rc) m (rc_wal rc) (rc_snapshot_loaded rc) (rc_recovered_from_store rc)
    (rc_created_fresh rc) (rc_mutations_applied rc) (rc_incidents rc).
Definition set_rc_applied (r : Registry) (rc : Recovery) : Recovery :=
  mkRecovery r (rc_meta rc) (rc_wal rc) (rc_snapshot_loaded rc) (rc_recovered_from_store rc)
    (rc_created_fresh rc) (rc_mutations_applied rc + 1) (rc_incidents rc).
Definition set_rc_incidents (l : list string) (rc : Recovery) : Recovery :=
  mkRecovery (rc_registry rc) (rc_meta rc) (rc_wal rc) (rc_snapshot_loaded rc) (rc_recovered_from_store rc)
    (rc_created_fresh rc) (rc_mutations_applied rc) l.

(** A decoded mutation of the log, replayed into the recovery. *)
Definition replay_mutation (m : Mutation) (rc : Recovery) : Result Recovery :=
  match m with
  | MMetaSet term incarnation => Val (set_rc_meta (set_me_term term incarnation (rc_meta rc)) rc)
  | _ => r ← apply_mutation m (rc_registry rc); Val (set_rc_applied r rc)
  end.

(** [recovery.incidents.push_back] up to the bound. *)
Definition push_incident (text : string) (rc : Recovery) : Recovery :=
  if zlen (rc_incidents rc) <? 64 then set_rc_incidents (rc_incidents rc ++ [text]) rc else rc.

(** Keeps the recovery as it was when the result is an error. *)
Definition st_try {S} (f : S -> Result S) : ST S unit := fun s =>
  match f s with Val s' => (Val tt, s') | Err e => (Err e, s) | Throw => (Throw, s) end.

Definition visit_record (header : RecordHeader) (payload : bytes) : ST Recovery unit :=
  match rh_kind header with
  | RecordKind_Mutation =>
      st_try (fun rc =>
        '(m, rest) ← decode_mutation payload;
        _ ← expect_end rest;
        replay_mutation m rc)
  | RecordKind_Meta =>
      st_try (fun rc =>
        '(tm, _) ← decode_meta payload;
        Val (set_rc_meta (set_me_term tm.1 tm.2 (rc_meta rc)) rc))
  | RecordKind_SnapshotMarker => mret tt
  | RecordKind_Incident => st_try (fun rc => Val (push_incident (bytes_str payload) rc))
  | RecordKind_Invalid => st_lift (invalid "log record kind is not recognised")
  end.

(** ** Opening *)
Record StoreIo := mkStoreIo { so_directory : Result unit; so_read : ReadIo; so_wal : WalIo }.

(** [next_sequence_] after a sequence: the next one, saturated. *)
Definition sequence_after (sequence : Z) : Z :=
  match counter_next sequence with Val next => next | _ => u64_max end.

(** The part of [open] that reads the snapshot. *)
Definition load_base (io : ReadIo) (o : Options) (d : Disk) (rc : Recovery) : Result Recovery :=
  let had_state := file_exists d (snapshot_path o) || file_exists d (wal_path_of o) in
  if file_exists d (snapshot_path o) then
    sn ← load_snapshot io d (snapshot_path o);
    Val (mkRecovery (sn_registry sn) (sn_meta sn) (rc_wal rc) true (rc_recovered_from_store rc)
           (rc_created_fresh rc) (rc_mutations_applied rc) (rc_incidents rc))
  else if negb had_state then
    Val (mkRecovery (rc_registry rc) (rc_meta rc) (rc_wal rc) (rc_snapshot_loaded rc) (rc_recovered_from_store rc)
           true (rc_mutations_applied rc) (rc_incidents rc))
  else Val rc.

(** The part of [open] after the log was read. *)
Definition finish_open (wr : WalRecovery) (rc : Recovery) : Recovery :=
  let truncations := me_truncations (rc_meta rc) + (if wr_truncated_tail wr then 1 else 0) in
  let meta := mkMeta (me_term (rc_meta rc)) (me_incarnation (rc_meta rc)) (me_revision (rc_meta rc))
                (wr_last_sequence wr) 0 (truncations mod 2 ^ 64) (me_state_digest (rc_meta rc)) in
  let rc' := mkRecovery (rc_registry rc) meta wr (rc_snapshot_loaded rc)
               (rc_snapshot_loaded rc || (0 <? wr_records wr)) (rc_created_fresh rc) (rc_mutations_applied rc)
               (rc_incidents rc) in
  if wr_truncated_tail wr then foldl (fun rc text => push_incident text rc) rc' (wr_incidents wr) else rc'.

Definition store_open (io : StoreIo) (o : Options) : ST (Recovery * Disk) DurableStore := fun '(rc, d) =>
  if bool_decide (op_directory o = ""%string) then (invalid "store directory must not be empty", (rc, d))
  else match so_directory io with
  | Err e => (Err e, (rc, d))
  | Throw => (Throw, (rc, d))
  | Val _ =>
      match load_base (so_read io) o d rc with
      | Err e => (Err e, (rc, d))
      | Throw => (Throw, (rc, d))
      | Val rc1 =>
          match wal_open (so_wal io) (wal_path_of o) 0 0 (op_durable o) visit_record (rc1, d) with
          | (Err e, s) => (Err e, s)
          | (Throw, s) => (Throw, s)
          | (Val (w, wr), (rc2, d')) =>
              let last := wr_last_sequence wr in
              (Val (mkStore o w (if last =? 0 then 1 else sequence_after last) true), (finish_open wr rc2, d'))
          end
      end
  end.

(** ** Appending and compacting *)
Definition append_record (io : AppendIo) (kind : RecordKind) (at_time : Z) (payload : bytes) :
    ST (DurableStore * Disk) Z := fun '(ds, d) =>
  let sequence := ds_next_sequence ds in
  match wal_append io kind sequence at_time payload (ds_wal ds, d) with
  | (Err e, (w, d')) => (Err e, (mkStore (ds_options ds) w (ds_next_sequence ds) (ds_open ds), d'))
  | (Throw, (w, d')) => (Throw, (mkStore (ds_options ds) w (ds_next_sequence ds) (ds_open ds), d'))
  | (Val _, (w, d')) => (Val sequence, (mkStore (ds_options ds) w (sequence_after sequence) (ds_open ds), d'))
  end.

Definition store_append (io : AppendIo) (m : Mutation) (at_time : Z) : ST (DurableStore * Disk) Z := fun '(ds, d) =>
  if negb (ds_open ds) then (fail Outcome_Internal "store is not open", (ds, d))
  else append_record io RecordKind_Mutation at_time (encode_mutation m) (ds, d).

Definition append_meta (io : AppendIo) (meta : StoreMeta) (at_time : Z) : ST (DurableStore * Disk) Z :=
  store_append io (MMetaSet (me_term meta) (me_incarnation meta)) at_time.

Definition append_incident (io : AppendIo) (text : string) (at_time : Z) : ST (DurableStore * Disk) Z := fun '(ds, d) =>
  if negb (ds_open ds) then (fail Outcome_Internal "store is not open", (ds, d))
  else if limits.kMaxStoreRecordPayload <? slen text then
    (fail Outcome_CapacityExceeded "incident text exceeds the maximum record size", (ds, d))
  else append_record io RecordKind_Incident at_time (str_bytes text) (ds, d).

(** [io_save] and [io_reset] are what the system answers while the snapshot and the fresh log are
    written, [stream] the random identity of the fresh log. *)
Definition compact (io_save io_reset : WriteIo) (stream : string) (r : Registry) (meta : StoreMeta) (at_time : Z) :
    ST (DurableStore * Disk) unit := fun '(ds, d) =>
  if negb (ds_open ds) then (fail Outcome_Internal "store is not open", (ds, d))
  else
    let effective := mkMeta (me_term meta) (me_incarnation meta) (me_revision meta) (wal_last_sequence (ds_wal ds))
                       at_time (me_truncations meta) (registry_digest r) in
    match save_snapshot io_save (snapshot_path (ds_options ds)) effective r d with
    | (Err e, d') => (Err e, (ds, d'))
    | (Throw, d') => (Throw, (ds, d'))
    | (Val _, d') =>
        match wal_reset io_reset stream (ds_wal ds, d') with
        | (res, (w, d'')) => (res, (mkStore (ds_options ds) w (ds_next_sequence ds) (ds_open ds), d''))
        end
    end.

Definition needs_compaction (ds : DurableStore) : bool :=
  wal_needs_compaction (ds_wal ds) (op_compact_bytes (ds_options ds)) (op_compact_records (ds_options ds)).

(** ** The abstract store

    What the store promises: the registry, the term and the incarnation that the accepted mutations
    produce, kept across restarts. *)
Record Durable := mkDurable { du_registry : Registry; du_term : Z; du_incarnation : string }.

Definition durable_initial : Durable := mkDurable empty_registry 0 nil_uuid.

Definition durable_apply (m : Mutation) (s : Durable) : Result Durable :=
  match m with
  | MMetaSet term incarnation => Val (mkDurable (du_registry s) term incarnation)
  | _ => r ← apply_mutation m (du_registry s); Val (mkDurable r (du_term s) (du_incarnation s))
  end.

Fixpoint durable_apply_all (l : list Mutation) (s : Durable) : Result Durable :=
  match l with
  | [] => Val s
  | m :: l => s' ← durable_apply m s; durable_apply_all l s'
  end.

(** The durable part of a recovery. *)
Definition recovered (rc : Recovery) : Durable :=
  mkDurable (rc_registry rc) (me_term (rc_meta rc)) (me_incarnation (rc_meta rc)).

(** A mutation in the log. *)
Record Entry := mkEntry { en_sequence : Z; en_at : Z; en_mutation : Mutation }.
Definition log_of (es : list Entry) : list LogRecord :=
  (fun e => mkLogRecord RecordKind_Mutation (en_sequence e) (en_at e) (encode_mutation (en_mutation e))) <$> es.

(** The snapshot file holds [base], or there is none and [base] is the initial state. *)
Definition base_holds (o : Options) (d : Disk) (base : Durable) : Prop :=
  (d !! snapshot_path o = None /\ base = durable_initial) \/
  exists data meta, d !! snapshot_path o = Some data /\
    zlen data <= limits.kMaxStoreRecordPayload + kSnapshotHeaderSize + 4 /\
    decode_snapshot data = Val (mkSnapshot meta (du_registry base)) /\
    du_term base = me_term meta /\ du_incarnation base = me_incarnation meta.

(** The open store [ds] and the log file agree on the entries. *)
Record log_holds (ds : DurableStore) (d : Disk) (stream : string) (es : list Entry) : Prop := mkLogHolds {
  lh_open : ds_open ds = true /\ wal_is_open (ds_wal ds) = true;
  lh_path : wal_path (ds_wal ds) = wal_path_of (ds_options ds);
  lh_bound : wal_max_records (ds_wal ds) = limits.kMaxStoreRecords /\ zlen es <= limits.kMaxStoreRecords;
  lh_records : wal_records (ds_wal ds) = zlen es;
  lh_file : d !! wal_path_of (ds_options ds) = Some (log_file stream (log_of es));
  lh_ok : log_ok stream (log_of es);
  lh_wf : Forall (fun e => mutation_wf (en_mutation e)) es;
  lh_next : last_of 0 (log_of es) < ds_next_sequence ds <= u64_max;
  lh_last : is_u64 (wal_last_sequence (ds_wal ds));
}.

(** The store [ds] on the disk [d] implements the abstract state [s]. *)
Definition implements (ds : DurableStore) (d : Disk) (s : Durable) : Prop :=
  exists stream es base, log_holds ds d stream es /\ base_holds (ds_options ds) d base /\
    durable_apply_all (en_mutation <$> es) base = Val s.

(** The two files of the store, and the temporary files of their replacement, are different files. *)
Definition options_ok (o : Options) : Prop :=
  op_directory o <> ""%string /\ wal_path_of o <> ""%string /\ snapshot_path o <> wal_path_of o /\
  wal_path_of o <> (snapshot_path o ++ ".tmp")%string /\ snapshot_path o <> (wal_path_of o ++ ".tmp")%string.

(** The operating system answers every call while the store is opened. *)
Definition open_io_ok (io : StoreIo) : Prop :=
  so_directory io = Val tt /\ so_read io = read_ok /\ wo_create (so_wal io) = io_ok /\ slen (wo_stream (so_wal io)) = 16 /\
  wo_open (so_wal io) = true /\ wo_truncate (so_wal io) = true.

(** ** Replaying the log *)
Lemma replay_recovered m rc s :
  durable_apply m (recovered rc) = Val s -> exists rc', replay_mutation m rc = Val rc' /\ recovered rc' = s.
Proof.
  intros H. unfold durable_apply, replay_mutation in *.
  destruct m; cbn [recovered du_registry] in H; try (injection H as <-; by eexists);
    inv_bind H; injection H as <-; eexists; (split; [by eapply bind_value|done]).
Qed.

Lemma visit_mutation e rc rc' :
  mutation_wf (en_mutation e) -> replay_mutation (en_mutation e) rc = Val rc' ->
  visit_record (header_of (mkLogRecord RecordKind_Mutation (en_sequence e) (en_at e) (encode_mutation (en_mutation e))))
    (encode_mutation (en_mutation e)) rc = (Val tt, rc').
Proof.
  intros Hw H. unfold visit_record, header_of, st_try. cbn [rh_kind lr_kind].
  rewrite <- (app_nil_r (encode_mutation _)), (codec_roundtrip (dec := decode_mutation)) by done.
  cbn [mbind Result_bind expect_end]. by rewrite H.
Qed.

Lemma visit_log es : forall rc s,
  Forall (fun e => mutation_wf (en_mutation e)) es ->
  durable_apply_all (en_mutation <$> es) (recovered rc) = Val s ->
  exists rc', visit_all visit_record (log_of es) rc = (Val tt, rc') /\ recovered rc' = s.
Proof.
  induction es as [|e es IH]; intros rc s Hw H; cbn [fmap list_fmap durable_apply_all] in H.
  - injection H as <-. by exists rc.
  - inv_bind H. inversion_clear Hw as [|? ? He Hes]. apply replay_recovered in Ha as (rc1 & Hr & <-).
    destruct (IH rc1 s Hes H) as (rc' & Hv & Hs). exists rc'. split; [|done].
    unfold visit_all, log_of in *. cbn [fmap list_fmap foldr]. unfold mbind, ST_bind. cbn [lr_payload].
    by rewrite (visit_mutation e rc rc1 He Hr).
Qed.

Lemma recovered_finish wr rc : recovered (finish_open wr rc) = recovered rc.
Proof.
  unfold finish_open. destruct (wr_truncated_tail wr); [|done].
  assert (Hf : forall l rc, recovered (foldl (fun rc text => push_incident text rc) rc l) = recovered rc).
  { induction l as [|t l IH]; intros rc'; [done|]. cbn [foldl]. rewrite IH. unfold push_incident.
    by destruct (zlen (rc_incidents rc') <? 64). }
  by rewrite Hf.
Qed.

Lemma load_base_spec o d base contents :
  base_holds o d base -> d !! wal_path_of o = Some contents ->
  exists rc, load_base read_ok o d recovery_default = Val rc /\ recovered rc = base.
Proof.
  intros Hb Hw. unfold load_base, file_exists. rewrite Hw.
  destruct Hb as [[Hs ->]|(data & meta & Hs & Hl & Hd & Ht & Hi)]; rewrite Hs.
  - rewrite bool_decide_eq_false_2, bool_decide_eq_true_2 by (done || by intros [? ?]). cbn [orb negb]. by eexists.
  - rewrite bool_decide_eq_true_2 by done. eexists. split.
    + eapply bind_value; [|reflexivity]. unfold load_snapshot, read_file_bounded, file_size. rewrite Hs.
      eapply bind_value; [|exact Hd]. eapply bind_value; [done|]. apply bind_reject; [lia|].
      apply bind_reject; [done|]. apply bind_reject; [by rewrite andb_false_r|]. done.
    + unfold recovered. cbn. rewrite <- Ht, <- Hi. by destruct base.
Qed.

(** ** The operations implement the abstract store *)
Lemma zlen_log_of es : zlen (log_of es) = zlen es.
Proof. unfold zlen, log_of. by rewrite length_fmap. Qed.

Lemma base_holds_wal o d base contents :
  options_ok o -> base_holds o d base -> base_holds o (<[wal_path_of o := contents]> d) base.
Proof.
  intros (_ & _ & Hne & _) Hb. unfold base_holds in *. by rewrite lookup_insert_ne by done.
Qed.

Lemma last_of_range stream l : log_ok stream l -> 0 <= last_of 0 l <= u64_max.
Proof.
  intros (_ & Hwf & _). unfold last_of. destruct (last l) as [x|] eqn:E; [|unfold u64_max; lia].
  apply last_Some_elem_of in E. rewrite Forall_forall in Hwf. apply Hwf in E as (_ & ? & _). done.
Qed.

(** Restart: the files as the store left them, the log possibly followed by what an interrupted or a
    corrupted append left. *)
Lemma reopen_implements io o ds d stream es base s tail :
  options_ok o -> open_io_ok io -> ds_options ds = o -> log_holds ds d stream es -> last_of 0 (log_of es) < u64_max ->
  base_holds o d base -> durable_apply_all (en_mutation <$> es) base = Val s -> tail_ok (log_of es) tail ->
  exists ds' rc d', store_open io o (recovery_default, <[wal_path_of o := log_file stream (log_of es) ++ tail]> d) =
      (Val ds', (rc, d')) /\
    recovered rc = s /\ ds_options ds' = o /\ log_holds ds' d' stream es /\ base_holds o d' base.
Proof.
  intros Ho (Hdir & Hread & _ & _ & Hop & Htr) Hds [Hopen Hp [Hm Hz] Hrec Hfile Hok Hwf Hnext Hlast] Hlt Hb Hs Ht. subst o.
  set (o := ds_options ds) in *. set (d1 := <[wal_path_of o := log_file stream (log_of es) ++ tail]> d).
  assert (Hd1 : d1 !! wal_path_of o = Some (log_file stream (log_of es) ++ tail)) by apply lookup_insert_eq.
  destruct (load_base_spec o d1 base _ (base_holds_wal o d base _ Ho Hb) Hd1) as (rc1 & Hl & Hr1).
  rewrite <- Hr1 in Hs. destruct (visit_log es rc1 s Hwf Hs) as (rc2 & Hv & Hr2).
  destruct (wal_open_spec (so_wal io) (wal_path_of o) 0 0 (op_durable o) visit_record stream (log_of es) tail rc1 rc2 d1)
    as (dis & inc & d' & Hw & Hd'); try done; [apply Ho|by rewrite zlen_log_of|].
  unfold store_open. rewrite bool_decide_eq_false_2 by apply Ho. rewrite Hdir, Hread, Hl, Hw. cbn [wr_last_sequence].
  do 3 eexists. split; [reflexivity|]. pose proof (last_of_range _ _ Hok) as Hr. subst d'.
  unfold d1. rewrite insert_insert_eq. split_and!; [by rewrite recovered_finish|done| |by apply base_holds_wal].
  split; cbn [ds_options ds_open ds_wal ds_next_sequence wal_is_open wal_path wal_max_records wal_records wal_last_sequence];
    try done; try (by rewrite ?zlen_log_of); try apply lookup_insert_eq.
  destruct (Z.eqb_spec (last_of 0 (log_of es)) 0); [unfold u64_max; lia|].
  unfold sequence_after, counter_next, counter_increment. destruct (Z.eqb_spec (last_of 0 (log_of es)) u64_max); [lia|].
  cbn. unfold u64_max in *. lia.
Qed.

(** What a successful append leaves. *)
Lemma append_file_Val io path contents flush d d' :
  contents <> [] -> append_file io path contents flush d = (Val tt, d') ->
  d' = <[path := default [] (d !! path) ++ contents]> d.
Proof.
  intros Hc H. unfold append_file in H. rewrite bool_decide_eq_false_2 in H by done. unfold to_status, fail in H.
  unfold appended in H. destruct (ai_open io), (ai_write io), (ai_flush io); cbn [negb andb orb] in H; try done.
  destruct (flush && true && true && negb (ai_sync io)); [done|]. by injection H as <-.
Qed.

Lemma increasing_snoc l x :
  increasing l -> (l = [] \/ last_of 0 l < lr_sequence x) -> increasing (l ++ [x]).
Proof.
  intros Hi Hx. induction Hi as [|y l Hi IH Hd]; [by repeat constructor|].
  cbn [app]. destruct Hx as [?|Hx]; [done|]. constructor.
  - apply IH. destruct l as [|z l]; [by left|]. right. by rewrite !last_of_cons in *.
  - destruct l as [|z l]; [|by inversion_clear Hd; constructor]. constructor. by rewrite last_of_cons in Hx.
Qed.

Lemma wal_append_Val io kind sequence at_time payload w d w' d' :
  wal_append io kind sequence at_time payload (w, d) = (Val tt, (w', d')) ->
  wal_is_open w = true /\ kind <> RecordKind_Invalid /\ zlen payload <= limits.kMaxStoreRecordPayload /\
  wal_records w < wal_max_records w /\
  d' = <[wal_path w := default [] (d !! wal_path w) ++ encode_record kind sequence at_time payload]> d /\
  w' = mkWal (wal_path w) (wal_max_bytes w) (wal_max_records w) (wal_durable w)
         (wal_bytes w + zlen (encode_record kind sequence at_time payload)) (wal_records w + 1) sequence (wal_is_open w).
Proof.
  intros H. unfold wal_append in H. cbv zeta in H.
  match type of H with match ?g with _ => _ end = _ => destruct g as [u| |] eqn:Hg; try discriminate H end.
  destruct (append_file io (wal_path w) _ (wal_durable w) d) as [[[]| |] d1] eqn:Ha; try discriminate H.
  injection H as <- <-. do 5 inv_bind Hg. apply reject_if_Val in Ha0, Ha1, Ha2, Ha3.
  rewrite record_kind_known_code in Ha1. bool_prop. apply append_file_Val in Ha as ->; [by split_and!|].
  unfold encode_record, record_header. done.
Qed.

Lemma append_implements io m at_time ds d sequence ds' d' stream es :
  options_ok (ds_options ds) -> log_holds ds d stream es -> mutation_wf m -> is_i64 at_time ->
  ds_next_sequence ds < u64_max -> store_append io m at_time (ds, d) = (Val sequence, (ds', d')) ->
  ds_options ds' = ds_options ds /\ log_holds ds' d' stream (es ++ [mkEntry sequence at_time m]) /\
  exists contents, d' = <[wal_path_of (ds_options ds) := contents]> d.
Proof.
  intros Ho [Hopen Hp [Hm Hz] Hrec Hfile [Hs [Hlw Hinc]] Hwf Hnext Hlast] Hmw Hat Hlt H. unfold store_append, append_record in H.
  destruct (negb (ds_open ds)); [discriminate H|].
  destruct (wal_append io _ _ _ _ _) as [[[]| |] [w d1]] eqn:Ha; try discriminate H. injection H as <- <- <-.
  apply wal_append_Val in Ha as (Hwo & _ & Hpl & Hroom & Hd & Hw). rewrite Hp in *. rewrite Hfile in Hd. cbn [default] in Hd.
  pose proof (last_of_range stream (log_of es) (conj Hs (conj Hlw Hinc))) as Hrange.
  set (x := mkLogRecord RecordKind_Mutation (ds_next_sequence ds) at_time (encode_mutation m)).
  assert (Hlog : log_of (es ++ [mkEntry (ds_next_sequence ds) at_time m]) = log_of es ++ [x])
    by (unfold log_of; by rewrite fmap_app).
  assert (Hx : log_wf x) by (unfold log_wf, is_u64; cbn; split_and!; [done|lia|lia|done|done]).
  assert (Hz' : zlen (es ++ [mkEntry (ds_next_sequence ds) at_time m]) = zlen es + 1) by (by rewrite zlen_app).
  split; [done|]. split; [|by eexists]. split; cbn [ds_options ds_open ds_wal ds_next_sequence]; subst w;
    cbn [wal_is_open wal_path wal_max_records wal_records wal_last_sequence]; try done; rewrite ?Hlog, ?Hz'.
  - split; [done|lia].
  - lia.
  - rewrite Hd, lookup_insert_eq. unfold log_file, log_bytes. rewrite fmap_app, concat_app. cbn [fmap list_fmap concat].
    by rewrite app_nil_r, app_assoc.
  - split_and!; [done|by apply Forall_app; split; [|constructor]|]. apply increasing_snoc; [done|]. right. cbn. lia.
  - apply Forall_app. by split; [|constructor].
  - unfold last_of. rewrite last_snoc. cbn. unfold sequence_after, counter_next, counter_increment.
    destruct (Z.eqb_spec (ds_next_sequence ds) u64_max); [lia|]. cbn. lia.
  - unfold is_u64. lia.
Qed.

Lemma compact_implements io_save io_reset stream' meta at_time ds d ds' d' stream es s :
  options_ok (ds_options ds) -> log_holds ds d stream es -> slen stream' = 16 -> storable (du_registry s) ->
  meta_wf meta -> is_i64 at_time -> me_term meta = du_term s -> me_incarnation meta = du_incarnation s ->
  compact io_save io_reset stream' (du_registry s) meta at_time (ds, d) = (Val tt, (ds', d')) ->
  ds_options ds' = ds_options ds /\ log_holds ds' d' stream' [] /\ base_holds (ds_options ds) d' s.
Proof.
  intros (_ & _ & Hne & Ht1 & Ht2) [Hopen Hp [Hm Hz] Hrec Hfile Hok Hwf Hnext Hlast] Hst Hstor Hmeta Hat Hterm Hinc H.
  pose proof (last_of_range _ _ Hok) as Hrange.
  unfold compact in H. destruct (negb (ds_open ds)); [discriminate H|]. cbv zeta in H.
  set (eff := mkMeta _ _ _ _ _ _ _) in H.
  assert (Heff : meta_wf eff) by (unfold meta_wf in *; cbn; naive_solver).
  destruct (decode_encode_snapshot eff (du_registry s) Heff Hstor) as (data & He & Hl & Hd).
  unfold save_snapshot, mbind, ST_bind, st_lift in H. rewrite He in H.
  destruct (write_file_atomic io_save _ data d) as [[[]| |] d1] eqn:Hw; try discriminate H.
  apply write_file_atomic_Val in Hw. unfold wal_reset in H. destruct (negb (wal_is_open (ds_wal ds))); [discriminate H|].
  destruct (write_file_atomic io_reset _ _ d1) as [[[]| |] d2] eqn:Hw2; try discriminate H.
  apply write_file_atomic_Val in Hw2. rewrite Hp in Hw2. injection H as <- <-. split; [done|]. split.
  - split; cbn [ds_options ds_open ds_wal ds_next_sequence wal_is_open wal_path wal_max_records wal_records wal_last_sequence];
      try done.
    + rewrite Hw2, lookup_insert_eq. unfold log_file. cbn. by rewrite app_nil_r.
    + split_and!; [done|constructor..].
    + change (last_of 0 (log_of [])) with 0. lia.
  - right. exists data, (set_me_digest (registry_digest (du_registry s)) eff). cbn [set_me_digest me_term me_incarnation eff].
    split_and!; try done. rewrite Hw2, lookup_insert_ne, lookup_delete_ne, Hw by done. apply lookup_insert_eq.
Qed.

Lemma fresh_implements io o d ds rc d' :
  options_ok o -> slen (wo_stream (so_wal io)) = 16 -> d !! snapshot_path o = None -> d !! wal_path_of o = None ->
  store_open io o (recovery_default, d) = (Val ds, (rc, d')) ->
  recovered rc = durable_initial /\ rc_created_fresh rc = true /\ ds_options ds = o /\
  log_holds ds d' (wo_stream (so_wal io)) [] /\ base_holds o d' durable_initial.
Proof.
  intros (Hdir & Hwp & Hne & Ht1 & Ht2) Hst Hs Hw H. unfold store_open in H.
  rewrite bool_decide_eq_false_2 in H by done. destruct (so_directory io); try discriminate H.
  unfold load_base, file_exists in H. rewrite Hs, Hw in H. rewrite !bool_decide_eq_false_2 in H by (by intros [? ?]).
  cbn [orb negb] in H. unfold wal_open in H. rewrite bool_decide_eq_false_2, Hw in H by done.
  destruct (write_file_atomic _ _ _ d) as [[[]| |] d1] eqn:Hwr; try discriminate H.
  apply write_file_atomic_Val in Hwr. cbn in H. injection H as <- <- <-. split_and!; try done.
  - split; cbn [ds_options ds_open ds_wal ds_next_sequence wal_is_open wal_path wal_max_records wal_records wal_last_sequence];
      try done.
    + rewrite Hwr, lookup_insert_eq. unfold log_file. cbn. by rewrite app_nil_r.
    + split_and!; [done|constructor..].
  - left. split; [|done]. by rewrite Hwr, lookup_insert_ne, lookup_delete_ne, Hs by done.
Qed.

(** ** Runs of the store

    [reachable o ds d s]: starting from an empty directory, appends and compactions that succeeded, and
    restarts, brought the store to [ds] with the files [d], and the accepted mutations built [s]. A
    restart may find, after the log, what is left of the record whose append was interrupted. *)
Definition interrupted (ds : DurableStore) (tail : bytes) : Prop :=
  tail = [] \/ exists x, log_wf x /\ lr_sequence x = ds_next_sequence ds /\ damaged x tail.

Definition with_tail (o : Options) (d : Disk) (tail : bytes) : Disk :=
  <[wal_path_of o := default [] (d !! wal_path_of o) ++ tail]> d.

Inductive reachable (o : Options) : DurableStore -> Disk -> Durable -> Prop :=
  | reach_fresh io d ds rc d' :
      open_io_ok io -> d !! snapshot_path o = None -> d !! wal_path_of o = None ->
      store_open io o (recovery_default, d) = (Val ds, (rc, d')) -> reachable o ds d' durable_initial
  | reach_append io m at_time ds d s s' sequence ds' d' :
      reachable o ds d s -> durable_apply m s = Val s' -> mutation_wf m -> is_i64 at_time ->
      ds_next_sequence ds < u64_max -> store_append io m at_time (ds, d) = (Val sequence, (ds', d')) ->
      reachable o ds' d' s'
  | reach_compact io_save io_reset stream meta at_time ds d s ds' d' :
      reachable o ds d s -> slen stream = 16 -> storable (du_registry s) -> meta_wf meta -> is_i64 at_time ->
      me_term meta = du_term s -> me_incarnation meta = du_incarnation s ->
      compact io_save io_reset stream (du_registry s) meta at_time (ds, d) = (Val tt, (ds', d')) ->
      reachable o ds' d' s
  | reach_restart io tail ds d s ds' rc d' :
      reachable o ds d s -> open_io_ok io -> interrupted ds tail ->
      store_open io o (recovery_default, with_tail o d tail) = (Val ds', (rc, d')) -> reachable o ds' d' s.

Lemma durable_apply_all_app l1 l2 s : durable_apply_all (l1 ++ l2) s = durable_apply_all l1 s ≫= durable_apply_all l2.
Proof.
  revert s. induction l1 as [|m l1 IH]; intros s; [done|]. cbn [app durable_apply_all].
  destruct (durable_apply m s); cbn [mbind Result_bind]; [apply IH|done..].
Qed.

Lemma interrupted_tail ds d stream es tail :
  log_holds ds d stream es -> interrupted ds tail -> tail_ok (log_of es) tail.
Proof.
  intros Hl [->|(x & Hx & Hseq & Hd)]; [by left|]. right. exists x. split_and!; [done| |done].
  right. rewrite Hseq. apply Hl.
Qed.

Lemma reopen_reachable io o tail ds d s :
  options_ok o -> open_io_ok io -> ds_options ds = o -> implements ds d s -> interrupted ds tail ->
  exists ds' rc d', store_open io o (recovery_default, with_tail o d tail) = (Val ds', (rc, d')) /\
    recovered rc = s /\ ds_options ds' = o /\ implements ds' d' s.
Proof.
  intros Ho Hio Hds (stream & es & base & Hl & Hb & Hs) Hi. rewrite Hds in Hb.
  destruct (reopen_implements io o ds d stream es base s tail) as (ds' & rc & d' & H & Hr & Ho' & Hl' & Hb'); try done.
  - pose proof (lh_next _ _ _ _ Hl). lia.
  - by eapply interrupted_tail.
  - unfold with_tail. rewrite <- Hds, (lh_file _ _ _ _ Hl), Hds. cbn [default]. exists ds', rc, d'. split_and!; try done.
    exists stream, es, base. rewrite Ho'. done.
Qed.

Lemma reachable_implements o ds d s : options_ok o -> reachable o ds d s -> ds_options ds = o /\ implements ds d s.
Proof.
  intros Ho H. induction H as
    [io d ds rc d' Hio Hs Hw H
    |io m at_time ds d s s' sequence ds' d' _ [Hds (stream & es & base & Hl & Hb & Hes)] Hm Hmw Hat Hlt H
    |io1 io2 stream' meta at_time ds d s ds' d' _ [Hds (stream & es & base & Hl & Hb & Hes)] Hst Hstor Hmeta Hat Hte Hi H
    |io tail ds d s ds' rc d' _ [Hds Himp] Hio Hi H].
  - apply fresh_implements in H as (_ & _ & Ho' & Hl & Hb); try done; [|apply Hio]. split; [done|].
    exists (wo_stream (so_wal io)), [], durable_initial. by rewrite Ho'.
  - eapply append_implements in H as (Ho' & Hl' & contents & ->); [|by rewrite Hds|done..]. split; [congruence|].
    exists stream, (es ++ [mkEntry sequence at_time m]), base. split_and!; [done| |].
    + rewrite Ho', Hds in *. by apply base_holds_wal.
    + rewrite fmap_app, durable_apply_all_app, Hes. eapply bind_value; [done|].
      change (durable_apply m s ≫= durable_apply_all [] = Val s'). by rewrite Hm.
  - eapply compact_implements in H as (Ho' & Hl' & Hb'); [|by rewrite Hds|done..]. split; [congruence|].
    exists stream', [], s. by rewrite Ho'.
  - destruct (reopen_reachable io o tail ds d s) as (ds1 & rc1 & d1 & H1 & _ & Ho1 & Hi1); try done.
    rewrite H in H1. by injection H1 as -> -> ->.
Qed.

