(* ===== verification/Recovery.v ===== *)
(** * What a recovery brings back

    [stored_ok]: the invariant that every registry read from files satisfies, whatever the files hold. *)
From S2P Require Import Prelude Status Utf8 Bytes Ids Types Registry Hash Time Canonical Terms Policy Decision Engine.
From S2P Require Import Fencing Mutation Files Wal Snapshot DurableStore.

Lemma wf_reserved cl : cluster_wf cl -> Forall (fun e => 0 <= ep_reserved e) (cl_endpoints cl).
Proof.
  intros (_ & _ & _ & _ & _ & _ & _ & Hf & _). eapply Forall_impl; [exact Hf|].
  intros e (_ & _ & _ & _ & [? _] & _). done.
Qed.

(** The invariant but for the acknowledgements: a file may hold any grants. *)
Definition stored_ok (r : Registry) : Prop :=
  registry_ok r /\ unsigned_ok r /\ map_Forall (fun _ g => 0 <= gr_capacity g) (rg_grants r) /\
  map_Forall (fun _ ct => 0 <= ct_capacity ct) (rg_contracts r).

Lemma stored_ok_empty : stored_ok empty_registry.
Proof. split; [apply empty_registry_ok|]. split; [split|split]; apply map_Forall_empty. Qed.

Section puts.
Context (r r' : Registry).

Lemma stored_put_cluster cl : cluster_wf cl -> stored_ok r -> put_cluster cl r = Val r' -> stored_ok r'.
Proof.
  intros Hwf (Hok & [Hu1 Hu2] & Hg & Hc) H. split; [by eapply put_cluster_ok|]. apply put_cluster_Val in H as [-> _].
  split; [|done]. split; [|done]. apply map_Forall_insert_2; [|done]. cbn. unfold sort_endpoints.
  rewrite merge_sort_Permutation. by apply wf_reserved.
Qed.

Lemma stored_put_contract ct : contract_wf ct -> stored_ok r -> put_contract ct r = Val r' -> stored_ok r'.
Proof.
  intros (_ & _ & _ & _ & [Hcap _] & _) (Hok & Hu & Hg & Hc) H. split; [by eapply put_contract_ok|].
  apply put_contract_Val in H as [-> _]. split_and!; [done|done|]. by apply map_Forall_insert_2.
Qed.

Lemma stored_put_grant g : grant_wf g -> stored_ok r -> put_grant g r = Val r' -> stored_ok r'.
Proof.
  intros Hwf (Hok & Hu & Hg & Hc) H. split; [by eapply put_grant_ok|].
  apply put_grant_Val in H as [-> _]. split_and!; [done| |done]. apply map_Forall_insert_2; [|done].
  unfold grant_wf in Hwf. destruct_and? Hwf. match goal with H : wf_counter _ (gr_capacity g) |- _ => apply H end.
Qed.

Lemma stored_put_reservation s : reservation_wf s -> stored_ok r -> put_reservation s r = Val r' -> stored_ok r'.
Proof.
  intros Hwf (Hok & [Hu1 Hu2] & Hg & Hc) H. split; [by eapply put_reservation_ok|].
  apply put_reservation_Val in H as [-> _]. split; [|done]. split; [done|]. apply map_Forall_insert_2; [|done].
  unfold reservation_wf in Hwf. destruct_and? Hwf. match goal with H : wf_counter _ (rs_amount s) |- _ => apply H end.
Qed.

(** A change of links, paths, policies or the audit trail. *)
Lemma stored_other :
  stored_ok r -> registry_ok r' -> rg_clusters r' = rg_clusters r -> rg_contracts r' = rg_contracts r ->
  rg_grants r' = rg_grants r -> rg_reservations r' = rg_reservations r -> stored_ok r'.
Proof.
  intros (_ & [? ?] & ? & ?) Hok Hc Hct Hg Hs. split; [done|]. unfold unsigned_ok. by rewrite Hc, Hct, Hg, Hs.
Qed.
End puts.

Lemma decode_registry_stored data r rest : decode_registry data = Val (r, rest) -> stored_ok r /\ rest = [].
Proof.
  apply decode_registry_inv; [apply stored_ok_empty|intros x a b Hwf Ha H..].
  - by eapply stored_put_cluster.
  - apply (stored_other a); [done|by eapply put_link_ok; [apply Ha|]|..]; by apply put_link_Val in H as [-> _].
  - apply (stored_other a); [done|by eapply put_path_ok; [apply Ha|]|..]; by apply put_path_Val in H as [-> _].
  - apply (stored_other a); [done|by eapply put_policy_ok; [apply Ha|]|..]; by apply put_policy_Val in H as [-> _].
  - by eapply stored_put_contract.
  - by eapply stored_put_grant.
  - by eapply stored_put_reservation.
  - apply (stored_other a); [done|by eapply append_audit_ok; [apply Ha|]|..]; by apply append_audit_Val in H as [-> _].
Qed.

Lemma load_snapshot_stored io d path sn : load_snapshot io d path = Val sn -> stored_ok (sn_registry sn).
Proof.
  unfold load_snapshot. intros H. inv_bind H. unfold decode_snapshot in H. do 5 inv_bind H. cbv zeta in H. do 6 inv_bind H.
  match goal with Hr : decode_registry _ = Val ?p |- _ => destruct p as [r rest]; apply decode_registry_stored in Hr as [Hok _] end.
  inv_bind H. by injection H as <-.
Qed.

Lemma apply_mutation_stored m r r' : mutation_wf m -> stored_ok r -> apply_mutation m r = Val r' -> stored_ok r'.
Proof.
  intros Hwf Hr H. pose proof (apply_mutation_ok _ _ _ (proj1 Hr) H) as Hok.
  pose proof (apply_mutation_Val _ _ _ H) as Heff. unfold apply_mutation in H. inv_bind H. clear Ha.
  destruct m; cbn [mutation_wf mutation_effect] in *; try (by subst r');
    try (by subst r'; apply (stored_other r)).
  - by eapply stored_put_cluster.
  - subst r'. destruct Hr as (_ & [Hu1 Hu2] & Hg & Hc). split; [done|]. split; [|done]. split; [|done].
    by apply map_Forall_delete.
  - by eapply stored_put_contract.
  - subst r'. destruct Hr as (_ & Hu & Hg & Hc). split_and!; [done..|]. by apply map_Forall_delete.
  - by eapply stored_put_grant.
  - subst r'. destruct Hr as (_ & Hu & Hg & Hc). split_and!; [done..| |done]. by apply map_Forall_delete.
  - by eapply stored_put_reservation.
Qed.

(** *** Scanning the log *)
(** What a visited record keeps, the scan keeps; a scan that counts no record visits none. *)
Lemma scan_records_inv {S} (visitor : RecordHeader -> bytes -> ST S unit) max (P : S -> Prop) fuel sc rest s sc' s' :
  (forall h p s s', P s -> visitor h p s = (Val tt, s') -> P s') -> P s ->
  scan_records visitor max fuel sc rest s = (Val sc', s') ->
  P s' /\ sc_records sc <= sc_records sc' /\ (sc_records sc' = sc_records sc -> s' = s).
Proof.
  intros Hv. revert sc rest s. induction fuel as [|fuel IH]; intros sc rest s Hs H; cbn [scan_records] in H.
  { injection H as <- <-. by split_and!. }
  destruct (read_record _ _ _) as [|incident|status|header payload rest'].
  - injection H as <- <-. by split_and!.
  - injection H as <- <-. by split_and!.
  - done.
  - unfold mbind, ST_bind in H. destruct (visitor header payload s) as [[[]|e|] s1] eqn:Hvis; [|done..].
    unfold st_lift in H. destruct (reject_if _ _ _) as [[]|e|]; [|done..].
    apply IH in H as (HP & Hle & _); [|by eapply Hv]. cbn [sc_records] in Hle. split_and!; [done|lia|lia].
Qed.

Lemma visit_record_ok h p rc rc' :
  stored_ok (rc_registry rc) -> visit_record h p rc = (Val tt, rc') ->
  stored_ok (rc_registry rc') /\ rc_snapshot_loaded rc' = rc_snapshot_loaded rc.
Proof.
  intros Hr H. unfold visit_record, st_try in H. destruct (rh_kind h).
  - done.
  - destruct (decode_mutation p) as [[m rest]|e|] eqn:Hm; cbn in H; [|done..].
    destruct (expect_end rest) as [[[] rest']|e|]; cbn in H; [|done..]. apply codec_sound in Hm.
    unfold replay_mutation in H.
    destruct m; try (destruct (apply_mutation _ _) as [r'|e|] eqn:Ha; cbn in H; [|done..]); injection H as <-;
      (split; [|done]); try done; by eapply apply_mutation_stored.
  - destruct (decode_meta p) as [[tm rest]|e|]; cbn in H; [|done..]. by injection H as <-.
  - by injection H as <-.
  - injection H as <-. unfold push_incident. by case_match.
Qed.

Lemma wal_open_inv {S} io path mb mr durable (visitor : RecordHeader -> bytes -> ST S unit) (P : S -> Prop) s d w wr s' d' :
  (forall h p s s', P s -> visitor h p s = (Val tt, s') -> P s') -> P s ->
  wal_open io path mb mr durable visitor (s, d) = (Val (w, wr), (s', d')) ->
  P s' /\ 0 <= wr_records wr /\ (wr_records wr = 0 -> s' = s).
Proof.
  intros Hv Hs H. unfold wal_open in H. case_bool_decide; [done|]. destruct (d !! path) as [contents|].
  2: { destruct (write_file_atomic _ _ _ _) as [[u|e|] d1]; [|done..]. by injection H as <- <- <- <-. }
  destruct (negb (wo_open io)); [done|]. destruct (_ <? _); [done|]. destruct (validate_header _); [|done..].
  destruct (scan_records _ _ _ _ _ _) as [[sc|e|] s1] eqn:Hscan; [|done..].
  apply (scan_records_inv _ _ P) in Hscan as (HP & Hle & Heq); [|done..]. cbn [scan_start sc_records] in *.
  destruct (sc_incident sc).
  - destruct (truncate_file _ _ _ _) as [[u|e|] d1]; [|done..]. by injection H as <- <- <- <-.
  - by injection H as <- <- <- <-.
Qed.

Lemma finish_open_keeps wr rc :
  rc_registry (finish_open wr rc) = rc_registry rc /\
  rc_recovered_from_store (finish_open wr rc) = rc_snapshot_loaded rc || (0 <? wr_records wr).
Proof.
  assert (Hf : forall l rc, rc_registry (foldl (fun rc text => push_incident text rc) rc l) = rc_registry rc /\
    rc_recovered_from_store (foldl (fun rc text => push_incident text rc) rc l) = rc_recovered_from_store rc).
  { induction l as [|t l IH]; intros rc0; [done|]. cbn [foldl]. destruct (IH (push_incident t rc0)) as [-> ->].
    unfold push_incident. by case_match. }
  unfold finish_open. destruct (wr_truncated_tail wr); [|done]. by rewrite !(proj1 (Hf _ _)), !(proj2 (Hf _ _)).
Qed.

(** Whatever the files hold, an opened store recovers a well-formed registry, and an empty one when it
    says that nothing was recovered. *)
Lemma store_open_stored io o d ds rc d' :
  store_open io o (recovery_default, d) = (Val ds, (rc, d')) ->
  stored_ok (rc_registry rc) /\ (rc_recovered_from_store rc = false -> rc_registry rc = empty_registry).
Proof.
  intros H. unfold store_open in H. case_bool_decide; [done|]. destruct (so_directory io); [|done..].
  destruct (load_base _ _ _ _) as [rc1|e|] eqn:Hbase; [|done..].
  assert (Hb : stored_ok (rc_registry rc1) /\ (rc_snapshot_loaded rc1 = false -> rc_registry rc1 = empty_registry)).
  { unfold load_base in Hbase. destruct (file_exists d (snapshot_path o)).
    - destruct (load_snapshot _ _ _) as [sn|e|] eqn:Hsn; cbn in Hbase; [|done..]. injection Hbase as <-.
      split; [|done]. by eapply load_snapshot_stored.
    - split; [|by intros _; destruct (negb _) in Hbase; injection Hbase as <-].
      destruct (negb _) in Hbase; injection Hbase as <-; apply stored_ok_empty. }
  destruct (wal_open _ _ _ _ _ _ _) as [[[w wr]|e|] [rc2 d2]] eqn:Hwal; [|done..]. injection H as <- <- <-.
  destruct (finish_open_keeps wr rc2) as [-> ->].
  apply (wal_open_inv _ _ _ _ _ _ (fun x => stored_ok (rc_registry x) /\ rc_snapshot_loaded x = rc_snapshot_loaded rc1))
    in Hwal as ([Hok Hs] & Hle & Heq); [|by intros h p x x' [Hx <-] Hv; apply visit_record_ok in Hv|by split; [apply Hb|]].
  split; [done|]. intros [Hl Hn]%orb_false_iff. rewrite Heq by lia. apply Hb. congruence.
Qed.
