(* ===== verification/Frame.v ===== *)
(** * Framed transport

    Models src/wire/frame.cpp. *)
From S2P Require Import Prelude Status Utf8 Bytes Ids Hash Wal.

Definition kFlagSigned : Z := 1.
Definition kKnownFlags : Z := kFlagSigned.
Definition kMacSize : Z := 32.
Definition kMagic : bytes := str_bytes "ICF1".

Inductive MessageType :=
  | MessageType_Invalid | MessageType_Hello | MessageType_HelloAck | MessageType_Refuse | MessageType_Ping
  | MessageType_Pong | MessageType_ReportCluster | MessageType_ReportAck | MessageType_ProposeContract
  | MessageType_ContractConsent | MessageType_PrepareGrant | MessageType_GrantPrepared
  | MessageType_CommitGrant | MessageType_GrantCommitted | MessageType_AbortGrant
  | MessageType_GrantAborted | MessageType_Fence | MessageType_FenceAck | MessageType_Withdraw
  | MessageType_WithdrawAck | MessageType_StatusRequest | MessageType_StatusReport | MessageType_Query
  | MessageType_QueryResult | MessageType_Admin | MessageType_AdminResult | MessageType_Error.

#[export] Instance MessageType_eq_dec : EqDecision MessageType.
Proof. solve_decision. Defined.

#[export] Program Instance MessageType_enum : CEnum MessageType := {|
  enumerators :=
    [MessageType_Invalid; MessageType_Hello; MessageType_HelloAck; MessageType_Refuse; MessageType_Ping;
     MessageType_Pong; MessageType_ReportCluster; MessageType_ReportAck; MessageType_ProposeContract;
     MessageType_ContractConsent; MessageType_PrepareGrant; MessageType_GrantPrepared;
     MessageType_CommitGrant; MessageType_GrantCommitted; MessageType_AbortGrant;
     MessageType_GrantAborted; MessageType_Fence; MessageType_FenceAck; MessageType_Withdraw;
     MessageType_WithdrawAck; MessageType_StatusRequest; MessageType_StatusReport; MessageType_Query;
     MessageType_QueryResult; MessageType_Admin; MessageType_AdminResult; MessageType_Error];
  enum_first := MessageType_Invalid |}.
Solve All Obligations with solve_enum.

Definition message_type_to_string (t : MessageType) : string :=
  match t with
  | MessageType_Invalid => "INVALID" | MessageType_Hello => "HELLO" | MessageType_HelloAck => "HELLO_ACK"
  | MessageType_Refuse => "REFUSE" | MessageType_Ping => "PING" | MessageType_Pong => "PONG"
  | MessageType_ReportCluster => "REPORT_CLUSTER" | MessageType_ReportAck => "REPORT_ACK"
  | MessageType_ProposeContract => "PROPOSE_CONTRACT" | MessageType_ContractConsent => "CONTRACT_CONSENT"
  | MessageType_PrepareGrant => "PREPARE_GRANT" | MessageType_GrantPrepared => "GRANT_PREPARED"
  | MessageType_CommitGrant => "COMMIT_GRANT" | MessageType_GrantCommitted => "GRANT_COMMITTED"
  | MessageType_AbortGrant => "ABORT_GRANT" | MessageType_GrantAborted => "GRANT_ABORTED"
  | MessageType_Fence => "FENCE" | MessageType_FenceAck => "FENCE_ACK" | MessageType_Withdraw => "WITHDRAW"
  | MessageType_WithdrawAck => "WITHDRAW_ACK" | MessageType_StatusRequest => "STATUS_REQUEST"
  | MessageType_StatusReport => "STATUS_REPORT" | MessageType_Query => "QUERY"
  | MessageType_QueryResult => "QUERY_RESULT" | MessageType_Admin => "ADMIN"
  | MessageType_AdminResult => "ADMIN_RESULT" | MessageType_Error => "ERROR"
  end.

Definition message_type_from_string (text : string) : option MessageType :=
  find (fun t => bool_decide (text = message_type_to_string t)) (enumerators (E := MessageType)).

(** On the number that was read. *)
Definition message_type_known (raw_type : Z) : bool :=
  negb (raw_type =? enum_code MessageType_Invalid) && (raw_type <=? enum_code MessageType_Error).

Record FrameHeader := mkFrameHeader {
  fh_version : Z;
  fh_type : MessageType;
  fh_flags : Z;
  fh_payload_length : Z;
}.

Record Frame := mkFrame { fr_header : FrameHeader; fr_payload : bytes; fr_signed : bool }.

Definition is_signed (flags : Z) : bool := negb (Z.land flags kFlagSigned =? 0).

Definition frame_wire_size (payload_length : Z) (signed_frame : bool) : Z :=
  limits.kFrameHeaderSize + limits.kFrameTrailerSize + payload_length + (if signed_frame then kMacSize else 0).

Definition header_fields (h : FrameHeader) : bytes :=
  kMagic ++ w_u16 (fh_version h) ++ w_u16 (enum_code (fh_type h)) ++ w_u32 (fh_flags h) ++ w_u32 (fh_payload_length h).

Definition encode_frame_header (h : FrameHeader) : bytes :=
  header_fields h ++ w_u32 (crc32c (header_fields h)).

Definition decode_frame_header (header : bytes) : Result FrameHeader :=
  _ ← reject_if (zlen header <? limits.kFrameHeaderSize) Outcome_Incomplete "frame header is shorter than 20 bytes";
  _ ← reject_if (negb (bool_decide (take 4 header = kMagic))) Outcome_Invalid "frame magic does not match ICF1";
  _ ← reject_if (negb (get_be 4 16 header =? crc32c (take 16 header))) Outcome_Corrupt "frame header CRC32C mismatch";
  let version := get_be 2 4 header in
  _ ← reject_if ((version <? limits.kProtocolVersionMin) || (limits.kProtocolVersionMax <? version))
        Outcome_Incompatible "frame protocol version is not supported";
  let raw_type := get_be 2 6 header in
  _ ← reject_if (negb (message_type_known raw_type)) Outcome_Invalid "frame message type is not recognised";
  let flags := get_be 4 8 header in
  _ ← reject_if (negb (Z.land flags (Z.lxor kKnownFlags u32_max) =? 0)) Outcome_Invalid "frame carries unknown flags";
  let payload_length := get_be 4 12 header in
  _ ← reject_if (limits.kMaxFramePayload <? payload_length) Outcome_Invalid
        "frame payload length exceeds the maximum";
  Val (mkFrameHeader version (enum_cast raw_type) flags payload_length).

(** The bytes [append_frame] appends: header, payload and CRC, and the tag over them. *)
Definition frame_body (h : FrameHeader) (payload : bytes) : bytes :=
  encode_frame_header (mkFrameHeader (fh_version h) (fh_type h) (fh_flags h) (zlen payload)) ++ payload ++
  w_u32 (crc32c payload).

Definition frame_bytes (h : FrameHeader) (payload key : bytes) : bytes :=
  frame_body h payload ++
  (if is_signed (fh_flags h) then str_bytes (hmac_sha256 key (frame_body h payload)) else []).

Definition append_frame (out : bytes) (h : FrameHeader) (payload key : bytes) : Result bytes :=
  _ ← reject_if (limits.kMaxFramePayload <? zlen payload) Outcome_Invalid "frame payload exceeds the maximum";
  let signed_frame := is_signed (fh_flags h) in
  _ ← reject_if (signed_frame && bool_decide (key = [])) Outcome_Invalid "a signed frame requires a channel key";
  _ ← checked_sum (frame_wire_size (zlen payload) signed_frame) (zlen out);
  Val (out ++ frame_bytes h payload key).

(** ** The incremental parser *)
Record FrameParser := mkParser { fp_buffer : bytes; fp_max_payload : Z }.

Definition frame_parser (max_payload : Z) : FrameParser :=
  mkParser [] (if limits.kMaxFramePayload <? max_payload then limits.kMaxFramePayload else max_payload).

Definition parser_push (data : bytes) (p : FrameParser) : Result FrameParser :=
  let bound := fp_max_payload p + limits.kFrameHeaderSize + limits.kFrameTrailerSize + kMacSize in
  total ← checked_sum (zlen (fp_buffer p)) (zlen data);
  _ ← reject_if (bound <? total) Outcome_Invalid "framed input exceeds the maximum frame size";
  Val (mkParser (fp_buffer p ++ data) (fp_max_payload p)).

(** [None] is an empty optional: more bytes are needed. On an error the buffer is untouched. *)
Definition parser_next (key : bytes) (p : FrameParser) : Result (option Frame * FrameParser) :=
  let buffer := fp_buffer p in
  if zlen buffer <? limits.kFrameHeaderSize then Val (None, p)
  else
    header ← decode_frame_header (take 20 buffer);
    let signed_frame := is_signed (fh_flags header) in
    _ ← reject_if (signed_frame && bool_decide (key = [])) Outcome_Invalid
          "received a signed frame but no channel key is configured";
    _ ← reject_if (negb signed_frame && negb (bool_decide (key = []))) Outcome_Invalid
          "received an unsigned frame on a channel that requires signing";
    let n := Z.to_nat (fh_payload_length header) in
    let total := frame_wire_size (fh_payload_length header) signed_frame in
    if zlen buffer <? total then Val (None, p)
    else
      let payload := take n (drop 20 buffer) in
      _ ← reject_if (negb (get_be 4 (20 + n) buffer =? crc32c payload)) Outcome_Corrupt
            "frame payload CRC32C mismatch";
      _ ← (if signed_frame then
             reject_if (negb (constant_time_equal (str_bytes (hmac_sha256 key (take (20 + n + 4) buffer)))
                                (take 32 (drop (20 + n + 4) buffer))))
               Outcome_Unauthorized "frame MAC does not verify under the channel key"
           else Val tt);
      Val (Some (mkFrame header payload signed_frame), mkParser (drop (Z.to_nat total) buffer) (fp_max_payload p)).

(** ** One frame *)
(** A frame that may be sent on a channel with the given key ([[]] on an unsigned channel). *)
Definition frame_ok (key : bytes) (f : FrameHeader * bytes) : Prop :=
  fh_version f.1 = 1 /\ fh_type f.1 <> MessageType_Invalid /\
  fh_flags f.1 = (if bool_decide (key = []) then 0 else kFlagSigned) /\ zlen f.2 <= limits.kMaxFramePayload.

(** What the receiver gets for it. *)
Definition frame_of (f : FrameHeader * bytes) : Frame :=
  mkFrame (mkFrameHeader (fh_version f.1) (fh_type f.1) (fh_flags f.1) (zlen f.2)) f.2 (is_signed (fh_flags f.1)).

Definition wire (key : bytes) (f : FrameHeader * bytes) : bytes := frame_bytes f.1 f.2 key.

Lemma frame_ok_signed key f : frame_ok key f -> is_signed (fh_flags f.1) = negb (bool_decide (key = [])).
Proof. intros (_ & _ & -> & _). by case_bool_decide. Qed.

Lemma length_header h : length (encode_frame_header h) = 20%nat.
Proof. done. Qed.

Lemma length_hmac key m : length (str_bytes (hmac_sha256 key m)) = 32%nat.
Proof. rewrite length_str_bytes. pose proof (slen_hmac key m) as H. unfold slen, kDigestSize in H. lia. Qed.

Lemma length_frame_body h payload : length (frame_body h payload) = (24 + length payload)%nat.
Proof. unfold frame_body. rewrite !length_app, length_header, length_w_u32. lia. Qed.

Lemma length_wire key f :
  frame_ok key f -> zlen (wire key f) = frame_wire_size (zlen f.2) (is_signed (fh_flags f.1)).
Proof.
  intros Hf. unfold wire, frame_bytes, frame_wire_size, zlen, limits.kFrameHeaderSize, limits.kFrameTrailerSize, kMacSize.
  rewrite length_app, length_frame_body. destruct (is_signed _); [rewrite length_hmac|cbn [length]]; lia.
Qed.

Lemma decode_encode_header key f rest :
  frame_ok key f ->
  decode_frame_header (take 20 (wire key f ++ rest)) = Val (fr_header (frame_of f)).
Proof.
  intros (Hv & Ht & Hfl & Hlen). unfold wire, frame_bytes, frame_body. rewrite <- !app_assoc.
  rewrite take_app_length' by done. unfold frame_of. cbn [fr_header]. unfold limits.kMaxFramePayload in Hlen.
  set (h := mkFrameHeader _ _ _ _). pose proof (zlen_nonneg f.2). pose proof (crc32c_range (header_fields h)).
  pose proof (enum_code_range (fh_type f.1)) as Hr. change (enum_max (E := MessageType)) with 26 in Hr.
  assert (Hf : 0 <= fh_flags f.1 < 2) by (rewrite Hfl; by case_bool_decide).
  assert (G4 : get_be 2 4 (encode_frame_header h) = 1).
  { etrans; [apply (get_be_app 2 4 kMagic (fh_version h)); done|]. by cbn [h fh_version]; rewrite Hv. }
  assert (G6 : get_be 2 6 (encode_frame_header h) = enum_code (fh_type f.1)).
  { etrans; [apply (get_be_app 2 6 (kMagic ++ w_u16 (fh_version h)) (enum_code (fh_type h))); done|].
    apply Z.mod_small. cbn. lia. }
  assert (G8 : get_be 4 8 (encode_frame_header h) = fh_flags f.1).
  { etrans; [apply (get_be_app 4 8 (kMagic ++ w_u16 (fh_version h) ++ w_u16 (enum_code (fh_type h))) (fh_flags h)); done|].
    apply Z.mod_small. cbn. lia. }
  assert (G12 : get_be 4 12 (encode_frame_header h) = zlen f.2).
  { etrans; [apply (get_be_app 4 12 (kMagic ++ w_u16 (fh_version h) ++ w_u16 (enum_code (fh_type h)) ++ w_u32 (fh_flags h))
      (fh_payload_length h)); done|]. apply Z.mod_small. cbn. lia. }
  assert (G16 : get_be 4 16 (encode_frame_header h) = crc32c (take 16 (encode_frame_header h))).
  { unfold encode_frame_header at 1. etrans; [apply (get_be_app 4 16 (header_fields h) _ []); done|]. by apply Z.mod_small. }
  unfold decode_frame_header. apply bind_reject; [done|]. apply bind_reject; [done|].
  apply bind_reject; [by rewrite G16, Z.eqb_refl|]. rewrite G4, G6, G8, G12. cbv zeta. apply bind_reject; [done|].
  apply bind_reject; [by destruct (fh_type f.1)|].
  apply bind_reject; [rewrite Hfl; by case_bool_decide|]. apply bind_reject; [unfold limits.kMaxFramePayload; lia|].
  rewrite enum_cast_code. unfold h. by rewrite Hv.
Qed.

Lemma next_frame key f rest max_payload :
  frame_ok key f ->
  parser_next key (mkParser (wire key f ++ rest) max_payload) = Val (Some (frame_of f), mkParser rest max_payload).
Proof.
  intros Hf. pose proof (length_wire key f Hf) as Hl. pose proof (frame_ok_signed key f Hf) as Hs.
  pose proof (zlen_nonneg rest). pose proof (zlen_nonneg f.2). unfold parser_next. cbn [fp_buffer fp_max_payload].
  rewrite zlen_app, Hl. unfold frame_wire_size at 1, limits.kFrameHeaderSize, limits.kFrameTrailerSize.
  rewrite (proj2 (Z.ltb_ge _ 20)) by (unfold kMacSize; destruct (is_signed _); lia).
  eapply bind_value; [by apply decode_encode_header|]. cbn [frame_of fr_header fh_flags fh_payload_length].
  apply bind_reject; [rewrite Hs; by case_bool_decide|]. apply bind_reject; [rewrite Hs; by case_bool_decide|].
  rewrite (proj2 (Z.ltb_ge _ (frame_wire_size _ _))) by lia.
  assert (Hn : Z.to_nat (zlen f.2) = length f.2) by (unfold zlen; lia). rewrite Hn.
  assert (Hb : wire key f ++ rest = encode_frame_header (mkFrameHeader (fh_version f.1) (fh_type f.1) (fh_flags f.1) (zlen f.2)) ++
    f.2 ++ w_u32 (crc32c f.2) ++ (if is_signed (fh_flags f.1) then str_bytes (hmac_sha256 key (frame_body f.1 f.2)) else []) ++ rest)
    by (unfold wire, frame_bytes, frame_body at 1; by rewrite <- !app_assoc).
  assert (Hp : take (length f.2) (drop 20 (wire key f ++ rest)) = f.2)
    by (rewrite Hb, drop_app_length', take_app_length by done; done).
  assert (Hg : get_be 4 (20 + length f.2) (wire key f ++ rest) = crc32c f.2).
  { rewrite Hb, app_assoc. etrans; [apply (get_be_app 4); by rewrite length_app, length_header|].
    apply Z.mod_small, crc32c_range. }
  rewrite Hp, Hg. apply bind_reject; [by rewrite Z.eqb_refl|].
  eapply (bind_value _ tt).
  { destruct (is_signed (fh_flags f.1)) eqn:Es; [|done].
    assert (Hw : wire key f = frame_body f.1 f.2 ++ str_bytes (hmac_sha256 key (frame_body f.1 f.2)))
      by (unfold wire, frame_bytes; by rewrite Es).
    rewrite Hw, <- app_assoc. replace (20 + length f.2 + 4)%nat with (length (frame_body f.1 f.2)) by (rewrite length_frame_body; lia).
    rewrite take_app_length, drop_app_length, take_app_length' by (by rewrite length_hmac).
    by rewrite (proj2 (constant_time_equal_spec _ _)). }
  assert (Ht : Z.to_nat (frame_wire_size (zlen f.2) (is_signed (fh_flags f.1))) = length (wire key f))
    by (rewrite <- Hl; unfold zlen; lia).
  by rewrite Ht, drop_app_length.
Qed.

Lemma next_partial key f n max_payload :
  frame_ok key f -> (n < length (wire key f))%nat ->
  parser_next key (mkParser (take n (wire key f)) max_payload) = Val (None, mkParser (take n (wire key f)) max_payload).
Proof.
  intros Hf Hn. pose proof (length_wire key f Hf) as Hl. pose proof (frame_ok_signed key f Hf) as Hs.
  unfold parser_next. cbn [fp_buffer]. unfold zlen at 1 2, limits.kFrameHeaderSize. rewrite length_take_le by lia.
  destruct (Z.ltb_spec (Z.of_nat n) 20) as [Hs20|Hs20]; [done|].
  eapply bind_value.
  { rewrite take_take, Nat.min_l by lia. rewrite <- (app_nil_r (wire key f)). by apply decode_encode_header. }
  cbn [frame_of fr_header fh_flags fh_payload_length].
  apply bind_reject; [rewrite Hs; by case_bool_decide|]. apply bind_reject; [rewrite Hs; by case_bool_decide|].
  rewrite <- Hl. unfold zlen at 1. by rewrite (proj2 (Z.ltb_lt _ _)) by lia.
Qed.

(** ** A stream of frames

    [drain] takes frames until more bytes are needed; [feed] is what a receiver does with the chunks it
    reads: push each, and drain. A frame takes at least 24 bytes, so the length of the buffer bounds
    the number of frames in it. *)
Fixpoint drain (fuel : nat) (key : bytes) (p : FrameParser) : Result (list Frame * FrameParser) :=
  match fuel with
  | O => Val ([], p)
  | S fuel =>
      '(found, p') ← parser_next key p;
      match found with
      | None => Val ([], p')
      | Some f => '(l, p'') ← drain fuel key p'; Val (f :: l, p'')
      end
  end.

Fixpoint feed (key : bytes) (chunks : list bytes) (p : FrameParser) : Result (list Frame * FrameParser) :=
  match chunks with
  | [] => Val ([], p)
  | c :: chunks =>
      p ← parser_push c p;
      '(l, p) ← drain (S (length (fp_buffer p))) key p;
      '(l', p) ← feed key chunks p;
      Val (l ++ l', p)
  end.

Definition stream (key : bytes) (fs : list (FrameHeader * bytes)) : bytes := concat (wire key <$> fs).

(** The buffer ends before the first outstanding frame does. *)
Definition short_of (key : bytes) (buffer : bytes) (fs : list (FrameHeader * bytes)) : Prop :=
  match fs with [] => buffer = [] | f :: _ => (length buffer < length (wire key f))%nat end.

Lemma app_eq_prefix {A} (a b c d : list A) : a ++ b = c ++ d -> (length a < length c)%nat -> a = take (length a) c.
Proof.
  intros H Hl. rewrite <- (take_app_length a b) at 1. rewrite H, take_app_le by lia. done.
Qed.

Lemma drain_spec key fs : forall fuel buffer rest max_payload,
  Forall (frame_ok key) fs -> (length buffer < fuel)%nat -> buffer ++ rest = stream key fs ->
  exists done_fs fs' buffer', fs = done_fs ++ fs' /\ buffer' ++ rest = stream key fs' /\ short_of key buffer' fs' /\
    drain fuel key (mkParser buffer max_payload) = Val (frame_of <$> done_fs, mkParser buffer' max_payload).
Proof.
  induction fs as [|f fs IH]; intros fuel buffer rest max_payload Hok Hfuel Hs; destruct fuel as [|fuel]; try lia.
  - unfold stream in Hs. cbn in Hs. apply app_eq_nil in Hs as [-> ->]. by exists [], [], [].
  - inversion_clear Hok as [|? ? Hf Hfs]. unfold stream in Hs. cbn [fmap list_fmap concat] in Hs. fold (stream key fs) in Hs.
    destruct (decide (length buffer < length (wire key f))%nat) as [Hlt|Hge].
    + exists [], (f :: fs), buffer. split_and!; try done. cbn [drain].
      pose proof (app_eq_prefix _ _ _ _ Hs Hlt) as Hb. rewrite Hb at 1.
      eapply bind_value; [by apply next_partial|]. cbv iota beta. by rewrite <- Hb.
    + assert (Hb : buffer = wire key f ++ drop (length (wire key f)) buffer).
      { apply (f_equal (take (length (wire key f)))) in Hs as Ht. rewrite take_app_length, take_app_le in Ht by lia.
        rewrite <- Ht at 1. by rewrite take_drop. }
      set (b1 := drop (length (wire key f)) buffer) in *. pose proof (length_wire key f Hf) as Hl.
      destruct (IH fuel b1 rest max_payload Hfs) as (dn & fs' & b' & -> & Hr & Hsh & Hd).
      { rewrite Hb, length_app in Hfuel. unfold zlen, frame_wire_size, limits.kFrameHeaderSize, limits.kFrameTrailerSize, kMacSize in Hl.
        destruct (is_signed _); lia. }
      { rewrite Hb, <- app_assoc in Hs. by apply app_inv_head in Hs. }
      exists (f :: dn), fs', b'. split_and!; try done. cbn [drain]. rewrite Hb.
      eapply bind_value; [by apply next_frame|]. cbv iota beta. eapply bind_value; [exact Hd|]. done.
Qed.

Lemma push_accepts key buffer c fs rest max_payload :
  Forall (frame_ok key) fs -> short_of key buffer fs -> 0 <= max_payload <= limits.kMaxFramePayload ->
  buffer ++ c ++ rest = stream key fs -> (forall f, f ∈ fs -> zlen f.2 + zlen c <= max_payload + 1) ->
  parser_push c (mkParser buffer max_payload) = Val (mkParser (buffer ++ c) max_payload).
Proof.
  intros Hok Hsh Hm Hs Hc. unfold limits.kMaxFramePayload in Hm. pose proof (zlen_nonneg c).
  assert (Hb : 0 <= zlen buffer /\ zlen buffer + zlen c <= max_payload + 56).
  { split; [apply zlen_nonneg|]. destruct fs as [|f fs]; cbn [short_of] in Hsh.
    - subst buffer. unfold stream in Hs. cbn in Hs. apply app_eq_nil in Hs as [-> _]. change (0 + 0 <= max_payload + 56). lia.
    - inversion_clear Hok as [|? ? Hf _]. pose proof (length_wire key f Hf) as Hl. specialize (Hc f ltac:(left)).
      unfold frame_wire_size, limits.kFrameHeaderSize, limits.kFrameTrailerSize, kMacSize, zlen in *.
      destruct (is_signed _); lia. }
  unfold parser_push. cbn [fp_buffer fp_max_payload]. eapply bind_value.
  { unfold checked_sum, add_u64, u64_max. rewrite (proj2 (Z.ltb_ge _ _)) by lia. reflexivity. }
  apply bind_reject; [|done]. unfold limits.kFrameHeaderSize, limits.kFrameTrailerSize, kMacSize. lia.
Qed.

(** C20. Framing loses and invents nothing: a sequence of frames sent on a channel, cut into chunks at
    arbitrary places, comes out of the incremental parser as exactly that sequence, with nothing left
    in the buffer, whenever each chunk and each payload together stay within the parser's bound (byte
    by byte, every legal frame does). *)
Theorem frame_stream_received key max_payload : forall chunks fs,
  0 <= max_payload <= limits.kMaxFramePayload -> Forall (frame_ok key) fs -> concat chunks = stream key fs ->
  (forall c f, c ∈ chunks -> f ∈ fs -> zlen f.2 + zlen c <= max_payload + 1) ->
  feed key chunks (frame_parser max_payload) = Val (frame_of <$> fs, mkParser [] max_payload).
Proof.
  intros chunks fs Hm Hok Hs Hc. unfold frame_parser.
  replace (if limits.kMaxFramePayload <? max_payload then _ else _) with max_payload
    by (destruct (Z.ltb_spec limits.kMaxFramePayload max_payload); lia).
  assert (Hgen : forall chunks fs buffer, Forall (frame_ok key) fs -> buffer ++ concat chunks = stream key fs ->
    short_of key buffer fs -> (forall c f, c ∈ chunks -> f ∈ fs -> zlen f.2 + zlen c <= max_payload + 1) ->
    feed key chunks (mkParser buffer max_payload) = Val (frame_of <$> fs, mkParser [] max_payload)).
  { clear chunks fs Hok Hs Hc. induction chunks as [|c chunks IH]; intros fs buffer Hok Hs Hsh Hc; cbn [feed].
    - rewrite app_nil_r in Hs. destruct fs as [|f fs]; [by rewrite Hsh|]. cbn [short_of] in Hsh. exfalso.
      apply (f_equal length) in Hs. unfold stream in Hs. cbn [fmap list_fmap concat] in Hs. rewrite length_app in Hs. lia.
    - cbn [concat] in Hs. eapply bind_value.
      { eapply push_accepts; try done. intros f Hf. apply Hc; [left|done]. }
      rewrite app_assoc in Hs. cbn [fp_buffer].
      destruct (drain_spec key fs (S (length (buffer ++ c))) (buffer ++ c) (concat chunks) max_payload)
        as (dn & fs' & b' & -> & Hr & Hsh' & Hd); [done|lia|done|].
      eapply bind_value; [exact Hd|]. cbv iota beta. apply Forall_app in Hok as [_ Hok'].
      eapply bind_value.
      { apply (IH fs' b'); try done. intros c' f Hc' Hf. apply Hc; [by right|]. apply elem_of_app. by right. }
      cbv iota beta. by rewrite fmap_app. }
  apply Hgen; try done. destruct fs as [|f fs]; [done|]. cbn [short_of length].
  inversion_clear Hok as [|? ? Hf _]. pose proof (length_wire key f Hf) as Hl. pose proof (zlen_nonneg f.2).
  unfold frame_wire_size, limits.kFrameHeaderSize, limits.kFrameTrailerSize, kMacSize, zlen in *. destruct (is_signed _); lia.
Qed.

(** ** What an accepted frame has passed *)
Lemma decode_frame_header_checks header h :
  decode_frame_header header = Val h ->
  get_be 4 16 header = crc32c (take 16 header) /\ fh_payload_length h = get_be 4 12 header /\
  0 <= fh_payload_length h <= limits.kMaxFramePayload.
Proof.
  intros H. unfold decode_frame_header in H. do 3 inv_bind H. cbv zeta in H. do 4 inv_bind H. apply Val_inj in H. subst h.
  apply reject_if_Val in Ha1, Ha5. bool_prop. cbn [fh_payload_length]. split_and!; try done.
  apply be_value_range.
Qed.

Lemma parser_next_checks key p f p' :
  parser_next key p = Val (Some f, p') ->
  let n := length (fr_payload f) in
  let buffer := fp_buffer p in
  fr_payload f = take n (drop 20 buffer) /\ Z.of_nat n = get_be 4 12 (take 20 buffer) /\
  get_be 4 16 (take 20 buffer) = crc32c (take 16 (take 20 buffer)) /\
  get_be 4 (20 + n) buffer = crc32c (fr_payload f) /\ fr_signed f = negb (bool_decide (key = [])) /\
  (fr_signed f = true -> take 32 (drop (24 + n) buffer) = str_bytes (hmac_sha256 key (take (24 + n) buffer))).
Proof.
  intros H. unfold parser_next in H. cbv zeta in H. destruct (Z.ltb_spec (zlen (fp_buffer p)) limits.kFrameHeaderSize); [done|].
  do 3 inv_bind H. destruct (Z.ltb_spec (zlen (fp_buffer p)) (frame_wire_size (fh_payload_length a) (is_signed (fh_flags a)))) as [|Hlen]; [done|].
  do 2 inv_bind H. injection H as <- <-. apply decode_frame_header_checks in Ha as (Hc & Hn & Hr).
  apply reject_if_Val in Ha0, Ha1, Ha2. bool_prop. cbn [fr_payload fr_signed].
  assert (Hl : length (take (Z.to_nat (fh_payload_length a)) (drop 20 (fp_buffer p))) = Z.to_nat (fh_payload_length a)).
  { apply length_take_le. rewrite length_drop. unfold frame_wire_size, limits.kFrameHeaderSize, limits.kFrameTrailerSize, kMacSize, zlen in Hlen.
    destruct (is_signed _); lia. }
  rewrite Hl. split_and!; try done; try lia.
  - destruct (is_signed (fh_flags a)), (bool_decide (key = [])); done.
  - intros Es. rewrite Es in Ha3. apply reject_if_Val in Ha3. apply negb_false_iff, constant_time_equal_spec in Ha3.
    replace (24 + Z.to_nat (fh_payload_length a))%nat with (20 + Z.to_nat (fh_payload_length a) + 4)%nat by lia. done.
Qed.

Lemma corrupted_frame_not_accepted key f i b b' rest max_payload found p' :
  frame_ok key f -> frame_body f.1 f.2 !! i = Some b -> b <> b' ->
  parser_next key (mkParser (<[i := b']> (wire key f) ++ rest) max_payload) <> Val (Some found, p').
Proof.
  intros Hf Hi Hb H. apply parser_next_checks in H as (Hp & Hn & H16 & Hc & _). cbn [fp_buffer] in *.
  set (h := mkFrameHeader (fh_version f.1) (fh_type f.1) (fh_flags f.1) (zlen f.2)).
  pose proof (decode_encode_header key f rest Hf) as Hdec. apply decode_frame_header_checks in Hdec as (_ & Hl12 & _).
  cbn [frame_of fr_header fh_payload_length] in Hl12.
  assert (Hw : wire key f = encode_frame_header h ++ (f.2 ++ w_u32 (crc32c f.2)) ++
    (if is_signed (fh_flags f.1) then str_bytes (hmac_sha256 key (frame_body f.1 f.2)) else []))
    by (unfold wire, frame_bytes, frame_body at 1; by rewrite <- !app_assoc).
  set (mac := if is_signed _ then _ else _) in Hw. rewrite Hw in Hp, Hn, H16, Hc, Hl12.
  unfold frame_body in Hi. fold h in Hi. destruct (decide (i < 20)%nat) as [Hs|Hs].
  - rewrite lookup_app_l in Hi by done. rewrite insert_app_l, <- app_assoc in H16 by done.
    rewrite take_app_length' in H16 by (by rewrite length_insert).
    pose proof (crc_guard (header_fields h) [] i b b' Hi Hb) as Hg. cbv zeta in Hg. rewrite app_nil_r in Hg. by apply Hg.
  - rewrite lookup_app_r, length_header in Hi by (rewrite length_header; lia).
    assert (Hi2 := lookup_lt_Some _ _ _ Hi). rewrite length_app, length_w_u32 in Hi2.
    rewrite insert_app_r_alt, length_header in Hp, Hn, Hc by (rewrite length_header; lia).
    rewrite insert_app_l in Hp, Hn, Hc by (rewrite length_app, length_w_u32; lia). rewrite <- !app_assoc in Hp, Hn, Hc.
    rewrite <- app_assoc, take_app_length' in Hl12 by done. rewrite take_app_length', <- Hl12 in Hn by done.
    unfold zlen in Hn. apply Nat2Z.inj in Hn. rewrite Hn in Hp, Hc. rewrite drop_app_length' in Hp by done.
    rewrite Hp in Hc. unfold get_be in Hc. rewrite drop_app_ge, length_header in Hc by (rewrite length_header; lia).
    replace (20 + length f.2 - 20)%nat with (length f.2) in Hc by lia.
    exact (crc_guard f.2 (mac ++ rest) (i - 20) b b' Hi Hb Hc).
Qed.

(** C21. A frame that is accepted is authentic and intact. On a channel with a key, an accepted frame was
    signed, and the buffer holds the bytes of the frame followed by their HMAC under the key; and on any
    channel, when one byte of the header, the payload or the CRC of a sent frame was changed, the parser
    does not accept a frame. *)
Theorem accepted_frames_are_authentic :
  (forall key p f p', parser_next key p = Val (Some f, p') -> key <> [] ->
     fr_signed f = true /\
     exists covered rest, fp_buffer p = covered ++ str_bytes (hmac_sha256 key covered) ++ rest /\
       fr_payload f = take (length (fr_payload f)) (drop 20 covered) /\ length covered = (24 + length (fr_payload f))%nat) /\
  (forall key f i b b' rest max_payload found p',
     frame_ok key f -> frame_body f.1 f.2 !! i = Some b -> b <> b' ->
     parser_next key (mkParser (<[i := b']> (wire key f) ++ rest) max_payload) <> Val (Some found, p')).
Proof.
  split; [|exact corrupted_frame_not_accepted]. intros key p f p' H Hk.
  apply parser_next_checks in H as (Hp & _ & _ & _ & Hs & Hm). rewrite bool_decide_eq_false_2 in Hs by done. split; [done|].
  specialize (Hm Hs). set (n := length (fr_payload f)) in *. set (buffer := fp_buffer p) in *.
  exists (take (24 + n) buffer), (drop (24 + n + 32) buffer).
  assert (Hlen : (24 + n + 32 <= length buffer)%nat).
  { apply (f_equal length) in Hm. rewrite length_hmac, length_take, length_drop in Hm. lia. }
  split_and!.
  - rewrite <- Hm. replace (drop (24 + n + 32) buffer) with (drop 32 (drop (24 + n) buffer)) by (rewrite drop_drop; f_equal; lia).
    by rewrite !take_drop.
  - rewrite skipn_firstn_comm, take_take, Nat.min_l by lia. done.
  - rewrite length_take. lia.
Qed.

(** ** Reading from a connection

    [Connection::fill] of src/net/reactor.cpp pushes everything the socket has before any frame is taken
    out. [socket] holds what [receive] answers, until it would block: the bytes it read (none when the peer
    closed), or an error. *)
Definition kReadChunk : Z := 16384.

Fixpoint fill (socket : list (Result bytes)) : ST FrameParser unit := fun p =>
  match socket with
  | [] => (Val tt, p)
  | Err e :: _ => (if bool_decide (st_outcome e = Outcome_Busy) then Val tt else Err e, p)
  | Throw :: _ => (Throw, p)
  | Val data :: socket =>
      if bool_decide (data = []) then (fail Outcome_Unreachable "peer closed the connection", p)
      else match parser_push data p with
      | Err e => (Err e, p)
      | Throw => (Throw, p)
      | Val p => if zlen data <? kReadChunk then (Val tt, p) else fill socket p
      end
  end.

(** The size of the largest frame a parser admits. *)
Definition push_bound (p : FrameParser) : Z :=
  fp_max_payload p + limits.kFrameHeaderSize + limits.kFrameTrailerSize + kMacSize.

Lemma parser_push_eq c p :
  zlen (fp_buffer p) + zlen c < 2 ^ 64 ->
  parser_push c p =
    if push_bound p <? zlen (fp_buffer p) + zlen c
    then fail Outcome_Invalid "framed input exceeds the maximum frame size"
    else Val (mkParser (fp_buffer p ++ c) (fp_max_payload p)).
Proof.
  intros H. unfold parser_push, checked_sum, add_u64, u64_max. fold (push_bound p).
  rewrite (proj2 (Z.ltb_ge (2 ^ 64 - 1 - zlen c) (zlen (fp_buffer p)))) by lia.
  cbn [mbind Result_bind]. unfold reject_if. by destruct (push_bound p <? zlen (fp_buffer p) + zlen c).
Qed.

(** A backlog of legal frames closes the connection: [fill] buffers all that has arrived before a
    frame is dispatched, and refuses the input as soon as the total exceeds the size of one maximal
    frame, however small the frames are. *)
Theorem fill_refuses_backlog p chunks :
  Forall (fun c => zlen c = kReadChunk) chunks -> fp_max_payload p <= limits.kMaxFramePayload -> zlen (concat chunks) < 2 ^ 63 ->
  zlen (fp_buffer p) <= push_bound p < zlen (fp_buffer p) + zlen (concat chunks) ->
  (fill (Val <$> chunks) p).1 = fail Outcome_Invalid "framed input exceeds the maximum frame size".
Proof.
  revert p. induction chunks as [|c chunks IH]; intros p Hc Hp Ht Hb; [change (zlen (concat [])) with 0 in Hb; lia|].
  inversion_clear Hc as [|? ? Hl Hcs]. cbn [concat fill fmap list_fmap] in *. rewrite zlen_app in *.
  pose proof (zlen_nonneg (concat chunks)). pose proof (zlen_nonneg (fp_buffer p)). unfold kReadChunk in *.
  rewrite bool_decide_eq_false_2 by (intros ->; discriminate Hl).
  unfold push_bound, limits.kMaxFramePayload, limits.kFrameHeaderSize, limits.kFrameTrailerSize, kMacSize in *.
  rewrite parser_push_eq by lia. unfold push_bound, limits.kFrameHeaderSize, limits.kFrameTrailerSize, kMacSize.
  destruct (Z.ltb_spec (fp_max_payload p + 20 + 4 + 32) (zlen (fp_buffer p) + zlen c)); [done|].
  rewrite (proj2 (Z.ltb_ge (zlen c) 16384)) by lia.
  apply IH; cbn [fp_buffer fp_max_payload]; rewrite ?zlen_app; try done; lia.
Qed.

(** ** The theorems at concrete frames *)
Definition sample_ping : FrameHeader * bytes := (mkFrameHeader 1 MessageType_Ping kFlagSigned 0, str_bytes "ping").
Definition sample_pong : FrameHeader * bytes := (mkFrameHeader 1 MessageType_Pong kFlagSigned 0, []).
Definition sample_key : bytes := str_bytes "channel key".

Lemma frame_stream_received_witness :
  feed sample_key [take 30 (stream sample_key [sample_ping; sample_pong]); drop 30 (stream sample_key [sample_ping; sample_pong])]
    (frame_parser 128) = Val ([frame_of sample_ping; frame_of sample_pong], mkParser [] 128).
Proof.
  apply (frame_stream_received sample_key 128 [_; _] [sample_ping; sample_pong]).
  - vm_compute. split; discriminate.
  - repeat constructor; vm_compute; discriminate.
  - vm_compute. reflexivity.
  - intros c f Hc Hf. repeat (apply elem_of_cons in Hc as [->|Hc] || apply elem_of_nil in Hc as []);
      repeat (apply elem_of_cons in Hf as [->|Hf] || apply elem_of_nil in Hf as []); vm_compute; discriminate.
Defined.

Lemma fill_refuses_backlog_witness :
  (fill (Val <$> replicate 65 (replicate 16384 (byte_of 0))) (frame_parser limits.kMaxFramePayload)).1 =
    fail Outcome_Invalid "framed input exceeds the maximum frame size".
Proof.
  apply fill_refuses_backlog.
  - apply Forall_replicate. reflexivity.
  - vm_compute. discriminate.
  - vm_compute. reflexivity.
  - vm_compute. split; [discriminate|reflexivity].
Defined.
