(* ===== verification/Messages.v ===== *)
(** * The protocol messages

    Models include/icf/wire/messages.hpp and src/wire/messages.cpp: the schema of every message and
    its encoder and decoder. A decoder is a [Parser] that ends in [expect_end]; an [encode_message]
    overload is named after its message. [PeerRole], [QueryKind] and [AdminAction] start at 1, but
    [read_enum8] only checks the upper bound, so the byte 0 becomes a value with no enumerator; it is
    the constructor [*_Zero]. The field prefixes name the message. *)
From S2P Require Import Prelude Status Utf8 Bytes Ids Types Registry Hash Canonical Terms Decision Frame.

Inductive PeerRole := PeerRole_Zero | PeerRole_Agent | PeerRole_Observer.
#[export] Instance PeerRole_eq_dec : EqDecision PeerRole.
Proof. solve_decision. Defined.
#[export] Program Instance PeerRole_enum : CEnum PeerRole :=
  {| enumerators := [PeerRole_Zero; PeerRole_Agent; PeerRole_Observer]; enum_first := PeerRole_Zero |}.
Solve All Obligations with solve_enum.

Inductive QueryKind :=
  | QueryKind_Zero | QueryKind_Status | QueryKind_ListClusters | QueryKind_ShowCluster | QueryKind_ListLinks
  | QueryKind_ListPaths | QueryKind_ListPolicies | QueryKind_ListContracts | QueryKind_ShowContract
  | QueryKind_ListGrants | QueryKind_ShowGrant | QueryKind_ListReservations | QueryKind_ListAudit
  | QueryKind_Decide | QueryKind_FencePlan | QueryKind_Accounting.
#[export] Instance QueryKind_eq_dec : EqDecision QueryKind.
Proof. solve_decision. Defined.
#[export] Program Instance QueryKind_enum : CEnum QueryKind :=
  {| enumerators := [QueryKind_Zero; QueryKind_Status; QueryKind_ListClusters; QueryKind_ShowCluster;
                     QueryKind_ListLinks; QueryKind_ListPaths; QueryKind_ListPolicies; QueryKind_ListContracts;
                     QueryKind_ShowContract; QueryKind_ListGrants; QueryKind_ShowGrant; QueryKind_ListReservations;
                     QueryKind_ListAudit; QueryKind_Decide; QueryKind_FencePlan; QueryKind_Accounting];
     enum_first := QueryKind_Zero |}.
Solve All Obligations with solve_enum.

Inductive AdminAction :=
  | AdminAction_Zero | AdminAction_UpsertCluster | AdminAction_DeleteCluster | AdminAction_SetClusterState
  | AdminAction_UpsertLink | AdminAction_SetLinkState | AdminAction_DeleteLink | AdminAction_UpsertPath
  | AdminAction_DeletePath | AdminAction_UpsertPolicy | AdminAction_DeletePolicy | AdminAction_WithdrawConsent
  | AdminAction_RestoreConsent | AdminAction_ResolveConflict | AdminAction_AuthorizeContract
  | AdminAction_IssueGrant | AdminAction_RevalidateGrant | AdminAction_FenceGrant | AdminAction_ReloadStore.
#[export] Instance AdminAction_eq_dec : EqDecision AdminAction.
Proof. solve_decision. Defined.
#[export] Program Instance AdminAction_enum : CEnum AdminAction :=
  {| enumerators := [AdminAction_Zero; AdminAction_UpsertCluster; AdminAction_DeleteCluster;
                     AdminAction_SetClusterState; AdminAction_UpsertLink; AdminAction_SetLinkState;
                     AdminAction_DeleteLink; AdminAction_UpsertPath; AdminAction_DeletePath;
                     AdminAction_UpsertPolicy; AdminAction_DeletePolicy; AdminAction_WithdrawConsent;
                     AdminAction_RestoreConsent; AdminAction_ResolveConflict; AdminAction_AuthorizeContract;
                     AdminAction_IssueGrant; AdminAction_RevalidateGrant; AdminAction_FenceGrant;
                     AdminAction_ReloadStore];
     enum_first := AdminAction_Zero |}.
Solve All Obligations with solve_enum.

Definition query_kind_to_string (k : QueryKind) : string :=
  match k with
  | QueryKind_Status => "status"
  | QueryKind_ListClusters => "clusters"
  | QueryKind_ShowCluster => "cluster"
  | QueryKind_ListLinks => "links"
  | QueryKind_ListPaths => "paths"
  | QueryKind_ListPolicies => "policies"
  | QueryKind_ListContracts => "contracts"
  | QueryKind_ShowContract => "contract"
  | QueryKind_ListGrants => "grants"
  | QueryKind_ShowGrant => "grant"
  | QueryKind_ListReservations => "reservations"
  | QueryKind_ListAudit => "audit"
  | QueryKind_Decide => "decide"
  | QueryKind_FencePlan => "fence-plan"
  | QueryKind_Accounting => "accounting"
  | QueryKind_Zero => "status"
  end%string.

Definition admin_action_to_string (a : AdminAction) : string :=
  match a with
  | AdminAction_UpsertCluster => "upsert-cluster"
  | AdminAction_DeleteCluster => "delete-cluster"
  | AdminAction_SetClusterState => "set-cluster-state"
  | AdminAction_UpsertLink => "upsert-link"
  | AdminAction_SetLinkState => "set-link-state"
  | AdminAction_DeleteLink => "delete-link"
  | AdminAction_UpsertPath => "upsert-path"
  | AdminAction_DeletePath => "delete-path"
  | AdminAction_UpsertPolicy => "upsert-policy"
  | AdminAction_DeletePolicy => "delete-policy"
  | AdminAction_WithdrawConsent => "withdraw-consent"
  | AdminAction_RestoreConsent => "restore-consent"
  | AdminAction_ResolveConflict => "resolve-conflict"
  | AdminAction_AuthorizeContract => "authorize-contract"
  | AdminAction_IssueGrant => "issue-grant"
  | AdminAction_RevalidateGrant => "revalidate-grant"
  | AdminAction_FenceGrant => "fence-grant"
  | AdminAction_ReloadStore => "reload-store"
  | AdminAction_Zero => "upsert-cluster"
  end%string.

(** The loops run over the values from 1. *)
Definition query_kind_from_string (text : string) : option QueryKind :=
  list_find (fun k => text = query_kind_to_string k) (tail enumerators) ≫= fun e => Some e.2.

Definition admin_action_from_string (text : string) : option AdminAction :=
  list_find (fun a => text = admin_action_to_string a) (tail enumerators) ≫= fun e => Some e.2.

Definition kCapabilityFencing : Z := 1.
Definition kCapabilityRevalidation : Z := 2.
Definition kCapabilityStatusReport : Z := 4.
Definition kCapabilityTwoSidedConsent : Z := 8.
Definition kCapabilityAll : Z :=
  Z.lor (Z.lor (Z.lor kCapabilityFencing kCapabilityRevalidation) kCapabilityStatusReport) kCapabilityTwoSidedConsent.

(** ** Schemas *)
Record HelloMessage := mkHello {
  he_role : PeerRole; he_cluster : string; he_domain : string; he_incarnation : string; he_generation : Z;
  he_policy_generation : Z; he_agent_term : Z; he_protocol_min : Z; he_protocol_max : Z; he_capabilities : Z;
  he_content_digest : string; he_started_at : Z }.

Record HelloAckMessage := mkHelloAck {
  ha_session : string; ha_coordinator : string; ha_coordinator_term : Z; ha_outcome : Outcome;
  ha_negotiated_version : Z; ha_view_digest : string; ha_revalidate : list string; ha_detail : string }.

Record RefuseMessage := mkRefuse { rf_outcome : Outcome; rf_detail : string }.
Record PingMessage := mkPing { pi_sequence : Z; pi_sent_at : Z }.
Record PongMessage := mkPong { po_sequence : Z }.
Record ReportClusterMessage := mkReportCluster { rc_session : string; rc_cluster : ClusterRecord }.

Record ReportAckMessage := mkReportAck {
  ra_session : string; ra_outcome : Outcome; ra_revision : Z; ra_view_digest : string; ra_detail : string }.

Record ProposeContractMessage := mkProposeContract {
  pc_session : string; pc_contract : string; pc_terms : ContractTerms; pc_attempt : string }.

Record ContractConsentMessage := mkContractConsent {
  cc_session : string; cc_contract : string; cc_terms_digest : string; cc_decision : ConsentDecision;
  cc_endpoint : string; cc_incarnation : string; cc_generation : Z; cc_policy_generation : Z; cc_agent_term : Z;
  cc_reason : string }.

Record PrepareGrantMessage := mkPrepareGrant { pg_session : string; pg_grant : GrantRecord }.

Record GrantPreparedMessage := mkGrantPrepared {
  gp_session : string; gp_grant : string; gp_attempt : string; gp_accepted : bool; gp_agent_term : Z;
  gp_enforcement_digest : string; gp_detail : string }.

Record CommitGrantMessage := mkCommitGrant { cg_session : string; cg_grant : string; cg_attempt : string }.

Record GrantCommittedMessage := mkGrantCommitted {
  gc_session : string; gc_grant : string; gc_attempt : string; gc_installed : bool; gc_agent_term : Z;
  gc_enforcement_digest : string; gc_detail : string }.

Record AbortGrantMessage := mkAbortGrant {
  ag_session : string; ag_grant : string; ag_attempt : string; ag_reason : string }.

Record GrantAbortedMessage := mkGrantAborted {
  ga_session : string; ga_grant : string; ga_attempt : string; ga_reason : string }.

Record FenceMessage := mkFence {
  fm_session : string; fm_coordinator_term : Z; fm_grants : list string; fm_reason : string }.

Record FenceResult := mkFenceResult { fx_grant : string; fx_outcome : Outcome }.
Record FenceAckMessage := mkFenceAck { fk_session : string; fk_results : list FenceResult }.

Record WithdrawMessage := mkWithdraw {
  wd_session : string; wd_cluster : string; wd_incarnation : string; wd_generation : Z; wd_reason : string }.

Record WithdrawAckMessage := mkWithdrawAck {
  wk_session : string; wk_outcome : Outcome; wk_fenced_grants : Z; wk_detail : string }.

Record StatusRequestMessage := mkStatusRequest { sr_session : string; sr_request : string }.

Record GrantStatusEntry := mkGrantStatus {
  gs_grant : string; gs_attempt : string; gs_state : GrantState; gs_agent_term : Z; gs_enforcement_digest : string }.

Record StatusReportMessage := mkStatusReport {
  sp_session : string; sp_request : string; sp_cluster : string; sp_incarnation : string; sp_generation : Z;
  sp_policy_generation : Z; sp_agent_term : Z; sp_grants : list GrantStatusEntry }.

Record QueryMessage := mkQueryMessage {
  qm_request : string; qm_kind : QueryKind; qm_cluster : string; qm_cluster_b : string; qm_endpoint : string;
  qm_endpoint_b : string; qm_contract : string; qm_grant : string; qm_edge : string; qm_policy_id : string;
  qm_capacity : Z; qm_allow_degraded : bool; qm_limit : Z; qm_expect_source_generation : bool;
  qm_source_generation : Z; qm_expect_target_generation : bool; qm_target_generation : Z; qm_at : Z }.

Record QueryResultMessage := mkQueryResult {
  qr_request : string; qr_kind : QueryKind; qr_outcome : Outcome; qr_detail : string;
  qr_clusters : list ClusterRecord; qr_links : list LinkRecord; qr_paths : list PathRecord;
  qr_policies : list PolicyRule; qr_contracts : list ContractRecord; qr_grants : list GrantRecord;
  qr_reservations : list ReservationRecord; qr_audit : list AuditRecord; qr_accounting : list AccountingEntry;
  qr_decision : option Decision; qr_fence_plan : option FencePlan; qr_status : option CoordinatorStatus }.

Record AdminMessage := mkAdmin {
  am_request : string; am_action : AdminAction; am_cluster : option ClusterRecord; am_link : option LinkRecord;
  am_path : option PathRecord; am_policy : option PolicyRule; am_cluster_id : string; am_cluster_b : string;
  am_endpoint : string; am_endpoint_b : string; am_contract : string; am_grant : string; am_edge : string;
  am_policy_id : string; am_generation : Z; am_cluster_state : ClusterState; am_link_state : LinkState;
  am_capacity : Z; am_lease_duration : Z; am_reason : string }.

Record AdminResultMessage := mkAdminResult {
  ar_request : string; ar_outcome : Outcome; ar_detail : string; ar_view_digest : string; ar_revision : Z;
  ar_contract : string; ar_grant : string }.

Definition set_result (outcome : Outcome) (detail : string) (a : AdminResultMessage) : AdminResultMessage :=
  mkAdminResult (ar_request a) outcome detail (ar_view_digest a) (ar_revision a) (ar_contract a) (ar_grant a).

Record ErrorMessage := mkError { em_request : string; em_outcome : Outcome; em_detail : string }.

(** ** Fields *)

(** [write_text]: an over-long text is refused and the caller drops the refusal, so nothing is written. *)
Definition write_text (value : string) : bytes :=
  if limits.kMaxStringField <? slen value then [] else w_blob value.

Definition read_outcome : Parser Outcome := r_enum16 Outcome_Internal "outcome value is out of range".

(** The [has_value] flag, then the value. *)
Definition w_optional {A} (enc : A -> bytes) (x : option A) : bytes :=
  w_boolean (bool_decide (is_Some x)) ++ from_option enc [] x.

Definition r_optional {A} (dec : Parser A) : Parser (option A) :=
  present ← r_boolean;
  if present : bool then record ← dec; mret (Some record) else mret None.

(** A decoder that ends in [check_end]. *)
Definition whole {A} (p : Parser A) : Parser A := message ← p; _ ← expect_end; mret message.

(** ** Encoders and decoders *)
Definition encode_hello (m : HelloMessage) : bytes :=
  w_enum8 (he_role m) ++ w_blob (he_cluster m) ++ w_blob (he_domain m) ++ w_uuid (he_incarnation m) ++
  w_u64 (he_generation m) ++ w_u64 (he_policy_generation m) ++ w_u64 (he_agent_term m) ++
  w_u16 (he_protocol_min m) ++ w_u16 (he_protocol_max m) ++ w_u32 (he_capabilities m) ++
  w_digest (he_content_digest m) ++ w_i64 (he_started_at m).

Definition decode_hello : Parser HelloMessage := whole (
  role ← decode_enum8 2;
  cluster ← decode_optional_name IdTag limits.kMaxNameLength;
  domain ← decode_optional_name IdTag limits.kMaxNameLength;
  incarnation ← r_uuid;
  generation ← decode_counter limits.kMaxGeneration;
  policy ← decode_counter limits.kMaxGeneration;
  term ← decode_counter limits.kMaxGeneration;
  protocol_min ← r_u16;
  protocol_max ← r_u16;
  _ ← p_lift (reject_if (protocol_max <? protocol_min) Outcome_Invalid
                "peer declared an inverted protocol version range");
  capabilities ← r_u32;
  digest ← r_digest;
  started ← r_i64;
  mret (mkHello role cluster domain incarnation generation policy term protocol_min protocol_max capabilities digest
    started)).

Definition encode_hello_ack (m : HelloAckMessage) : bytes :=
  w_uuid (ha_session m) ++ w_uuid (ha_coordinator m) ++ w_u64 (ha_coordinator_term m) ++ w_enum16 (ha_outcome m) ++
  w_u16 (ha_negotiated_version m) ++ w_digest (ha_view_digest m) ++ encode_list w_uuid (ha_revalidate m) ++
  write_text (ha_detail m).

Definition decode_hello_ack : Parser HelloAckMessage := whole (
  session ← r_uuid;
  coordinator ← r_uuid;
  term ← decode_counter limits.kMaxGeneration;
  outcome ← read_outcome;
  version ← r_u16;
  digest ← r_digest;
  revalidate ← decode_list limits.kMaxGrants r_uuid;
  detail ← decode_text;
  mret (mkHelloAck session coordinator term outcome version digest revalidate detail)).

Definition encode_refuse (m : RefuseMessage) : bytes := w_enum16 (rf_outcome m) ++ write_text (rf_detail m).

Definition decode_refuse : Parser RefuseMessage := whole (
  outcome ← read_outcome;
  detail ← decode_text;
  mret (mkRefuse outcome detail)).

Definition encode_ping (m : PingMessage) : bytes := w_u64 (pi_sequence m) ++ w_i64 (pi_sent_at m).

Definition decode_ping : Parser PingMessage := whole (
  sequence ← decode_counter limits.kMaxGeneration;
  sent ← r_i64;
  mret (mkPing sequence sent)).

Definition encode_pong (m : PongMessage) : bytes := w_u64 (po_sequence m).

Definition decode_pong : Parser PongMessage := whole (
  sequence ← decode_counter limits.kMaxGeneration;
  mret (mkPong sequence)).

Definition encode_report_cluster (m : ReportClusterMessage) : bytes :=
  w_uuid (rc_session m) ++ encode_cluster (rc_cluster m).

Definition decode_report_cluster : Parser ReportClusterMessage := whole (
  session ← r_uuid;
  cluster ← decode_cluster;
  mret (mkReportCluster session cluster)).

Definition encode_report_ack (m : ReportAckMessage) : bytes :=
  w_uuid (ra_session m) ++ w_enum16 (ra_outcome m) ++ w_u64 (ra_revision m) ++ w_digest (ra_view_digest m) ++
  write_text (ra_detail m).

Definition decode_report_ack : Parser ReportAckMessage := whole (
  session ← r_uuid;
  outcome ← read_outcome;
  revision ← decode_counter limits.kMaxGeneration;
  digest ← r_digest;
  detail ← decode_text;
  mret (mkReportAck session outcome revision digest detail)).

Definition encode_propose_contract (m : ProposeContractMessage) : bytes :=
  w_uuid (pc_session m) ++ w_uuid (pc_contract m) ++ encode_terms (pc_terms m) ++ w_uuid (pc_attempt m).

Definition decode_propose_contract : Parser ProposeContractMessage := whole (
  session ← r_uuid;
  contract ← r_uuid;
  terms ← decode_terms;
  attempt ← r_uuid;
  mret (mkProposeContract session contract terms attempt)).

Definition encode_contract_consent (m : ContractConsentMessage) : bytes :=
  w_uuid (cc_session m) ++ w_uuid (cc_contract m) ++ w_digest (cc_terms_digest m) ++ w_enum8 (cc_decision m) ++
  w_blob (cc_endpoint m) ++ w_uuid (cc_incarnation m) ++ w_u64 (cc_generation m) ++ w_u64 (cc_policy_generation m) ++
  w_u64 (cc_agent_term m) ++ write_text (cc_reason m).

Definition decode_contract_consent : Parser ContractConsentMessage := whole (
  session ← r_uuid;
  contract ← r_uuid;
  terms ← r_digest;
  decision ← decode_enum8 1;
  endpoint ← decode_name IdTag limits.kMaxNameLength;
  incarnation ← r_uuid;
  generation ← decode_counter limits.kMaxGeneration;
  policy ← decode_counter limits.kMaxGeneration;
  term ← decode_counter limits.kMaxGeneration;
  reason ← decode_text;
  mret (mkContractConsent session contract terms decision endpoint incarnation generation policy term reason)).

Definition encode_prepare_grant (m : PrepareGrantMessage) : bytes := w_uuid (pg_session m) ++ encode_grant (pg_grant m).

Definition decode_prepare_grant : Parser PrepareGrantMessage := whole (
  session ← r_uuid;
  grant ← decode_grant;
  mret (mkPrepareGrant session grant)).

Definition encode_grant_prepared (m : GrantPreparedMessage) : bytes :=
  w_uuid (gp_session m) ++ w_uuid (gp_grant m) ++ w_uuid (gp_attempt m) ++ w_boolean (gp_accepted m) ++
  w_u64 (gp_agent_term m) ++ w_digest (gp_enforcement_digest m) ++ write_text (gp_detail m).

Definition decode_grant_prepared : Parser GrantPreparedMessage := whole (
  session ← r_uuid;
  grant ← r_uuid;
  attempt ← r_uuid;
  accepted ← r_boolean;
  term ← decode_counter limits.kMaxGeneration;
  digest ← r_digest;
  detail ← decode_text;
  mret (mkGrantPrepared session grant attempt accepted term digest detail)).

Definition encode_commit_grant (m : CommitGrantMessage) : bytes :=
  w_uuid (cg_session m) ++ w_uuid (cg_grant m) ++ w_uuid (cg_attempt m).

Definition decode_commit_grant : Parser CommitGrantMessage := whole (
  session ← r_uuid;
  grant ← r_uuid;
  attempt ← r_uuid;
  mret (mkCommitGrant session grant attempt)).

Definition encode_grant_committed (m : GrantCommittedMessage) : bytes :=
  w_uuid (gc_session m) ++ w_uuid (gc_grant m) ++ w_uuid (gc_attempt m) ++ w_boolean (gc_installed m) ++
  w_u64 (gc_agent_term m) ++ w_digest (gc_enforcement_digest m) ++ write_text (gc_detail m).

Definition decode_grant_committed : Parser GrantCommittedMessage := whole (
  session ← r_uuid;
  grant ← r_uuid;
  attempt ← r_uuid;
  installed ← r_boolean;
  term ← decode_counter limits.kMaxGeneration;
  digest ← r_digest;
  detail ← decode_text;
  mret (mkGrantCommitted session grant attempt installed term digest detail)).

Definition encode_abort_grant (m : AbortGrantMessage) : bytes :=
  w_uuid (ag_session m) ++ w_uuid (ag_grant m) ++ w_uuid (ag_attempt m) ++ write_text (ag_reason m).

Definition decode_abort_grant : Parser AbortGrantMessage := whole (
  session ← r_uuid;
  grant ← r_uuid;
  attempt ← r_uuid;
  reason ← decode_text;
  mret (mkAbortGrant session grant attempt reason)).

Definition encode_grant_aborted (m : GrantAbortedMessage) : bytes :=
  w_uuid (ga_session m) ++ w_uuid (ga_grant m) ++ w_uuid (ga_attempt m) ++ write_text (ga_reason m).

Definition decode_grant_aborted : Parser GrantAbortedMessage := whole (
  session ← r_uuid;
  grant ← r_uuid;
  attempt ← r_uuid;
  reason ← decode_text;
  mret (mkGrantAborted session grant attempt reason)).

Definition encode_fence (m : FenceMessage) : bytes :=
  w_uuid (fm_session m) ++ w_u64 (fm_coordinator_term m) ++ encode_list w_uuid (fm_grants m) ++ write_text (fm_reason m).

Definition decode_fence : Parser FenceMessage := whole (
  session ← r_uuid;
  term ← decode_counter limits.kMaxGeneration;
  grants ← decode_list limits.kMaxGrants r_uuid;
  reason ← decode_text;
  mret (mkFence session term grants reason)).

Definition encode_fence_result (x : FenceResult) : bytes := w_uuid (fx_grant x) ++ w_enum16 (fx_outcome x).

Definition decode_fence_result : Parser FenceResult :=
  grant ← r_uuid;
  outcome ← read_outcome;
  mret (mkFenceResult grant outcome).

Definition encode_fence_ack (m : FenceAckMessage) : bytes :=
  w_uuid (fk_session m) ++ encode_list encode_fence_result (fk_results m).

Definition decode_fence_ack : Parser FenceAckMessage := whole (
  session ← r_uuid;
  results ← decode_list limits.kMaxGrants decode_fence_result;
  mret (mkFenceAck session results)).

Definition encode_withdraw (m : WithdrawMessage) : bytes :=
  w_uuid (wd_session m) ++ w_blob (wd_cluster m) ++ w_uuid (wd_incarnation m) ++ w_u64 (wd_generation m) ++
  write_text (wd_reason m).

Definition decode_withdraw : Parser WithdrawMessage := whole (
  session ← r_uuid;
  cluster ← decode_name IdTag limits.kMaxNameLength;
  incarnation ← r_uuid;
  generation ← decode_counter limits.kMaxGeneration;
  reason ← decode_text;
  mret (mkWithdraw session cluster incarnation generation reason)).

Definition encode_withdraw_ack (m : WithdrawAckMessage) : bytes :=
  w_uuid (wk_session m) ++ w_enum16 (wk_outcome m) ++ w_u64 (wk_fenced_grants m) ++ write_text (wk_detail m).

Definition decode_withdraw_ack : Parser WithdrawAckMessage := whole (
  session ← r_uuid;
  outcome ← read_outcome;
  fenced ← r_u64;
  detail ← decode_text;
  mret (mkWithdrawAck session outcome fenced detail)).

Definition encode_status_request (m : StatusRequestMessage) : bytes := w_uuid (sr_session m) ++ w_uuid (sr_request m).

Definition decode_status_request : Parser StatusRequestMessage := whole (
  session ← r_uuid;
  request ← r_uuid;
  mret (mkStatusRequest session request)).

Definition encode_grant_status (e : GrantStatusEntry) : bytes :=
  w_uuid (gs_grant e) ++ w_uuid (gs_attempt e) ++ w_enum8 (gs_state e) ++ w_u64 (gs_agent_term e) ++
  w_digest (gs_enforcement_digest e).

Definition decode_grant_status : Parser GrantStatusEntry :=
  grant ← r_uuid;
  attempt ← r_uuid;
  state ← decode_enum8 8;
  entry_term ← decode_counter limits.kMaxGeneration;
  digest ← r_digest;
  mret (mkGrantStatus grant attempt state entry_term digest).

Definition encode_status_report (m : StatusReportMessage) : bytes :=
  w_uuid (sp_session m) ++ w_uuid (sp_request m) ++ w_blob (sp_cluster m) ++ w_uuid (sp_incarnation m) ++
  w_u64 (sp_generation m) ++ w_u64 (sp_policy_generation m) ++ w_u64 (sp_agent_term m) ++
  encode_list encode_grant_status (sp_grants m).

Definition decode_status_report : Parser StatusReportMessage := whole (
  session ← r_uuid;
  request ← r_uuid;
  cluster ← decode_name IdTag limits.kMaxNameLength;
  incarnation ← r_uuid;
  generation ← decode_counter limits.kMaxGeneration;
  policy ← decode_counter limits.kMaxGeneration;
  term ← decode_counter limits.kMaxGeneration;
  grants ← decode_list limits.kMaxGrants decode_grant_status;
  mret (mkStatusReport session request cluster incarnation generation policy term grants)).

Definition encode_query (m : QueryMessage) : bytes :=
  w_uuid (qm_request m) ++ w_enum8 (qm_kind m) ++ w_blob (qm_cluster m) ++ w_blob (qm_cluster_b m) ++
  w_blob (qm_endpoint m) ++ w_blob (qm_endpoint_b m) ++ w_uuid (qm_contract m) ++ w_uuid (qm_grant m) ++
  w_blob (qm_edge m) ++ write_text (qm_policy_id m) ++ w_u64 (qm_capacity m) ++ w_boolean (qm_allow_degraded m) ++
  w_u32 (qm_limit m) ++ w_boolean (qm_expect_source_generation m) ++ w_u64 (qm_source_generation m) ++
  w_boolean (qm_expect_target_generation m) ++ w_u64 (qm_target_generation m) ++ w_i64 (qm_at m).

Definition decode_query : Parser QueryMessage := whole (
  request ← r_uuid;
  kind ← decode_enum8 (enum_code QueryKind_Accounting);
  cluster ← decode_optional_name IdTag limits.kMaxNameLength;
  cluster_b ← decode_optional_name IdTag limits.kMaxNameLength;
  endpoint ← decode_optional_name IdTag limits.kMaxNameLength;
  endpoint_b ← decode_optional_name IdTag limits.kMaxNameLength;
  contract ← r_uuid;
  grant ← r_uuid;
  edge ← decode_optional_name IdTag limits.kMaxNameLength;
  policy ← decode_text;
  capacity ← decode_counter limits.kMaxCapacity;
  allow_degraded ← r_boolean;
  limit ← r_u32;
  _ ← p_lift (reject_if (limits.kMaxQueryResults <? limit) Outcome_Invalid "query result limit exceeds the maximum");
  expect_source ← r_boolean;
  source_generation ← decode_counter limits.kMaxGeneration;
  expect_target ← r_boolean;
  target_generation ← decode_counter limits.kMaxGeneration;
  at_time ← r_i64;
  mret (mkQueryMessage request kind cluster cluster_b endpoint endpoint_b contract grant edge policy capacity
    allow_degraded limit expect_source source_generation expect_target target_generation at_time)).

(** The part of a query result that its kind selects. *)
Definition encode_query_body (m : QueryResultMessage) : bytes :=
  match qr_kind m with
  | QueryKind_Status => w_optional encode_status (qr_status m)
  | QueryKind_ListClusters | QueryKind_ShowCluster => encode_list encode_cluster (qr_clusters m)
  | QueryKind_ListLinks => encode_list encode_link (qr_links m)
  | QueryKind_ListPaths => encode_list encode_path (qr_paths m)
  | QueryKind_ListPolicies => encode_list encode_policy (qr_policies m)
  | QueryKind_ListContracts | QueryKind_ShowContract => encode_list encode_contract (qr_contracts m)
  | QueryKind_ListGrants | QueryKind_ShowGrant => encode_list encode_grant (qr_grants m)
  | QueryKind_ListReservations => encode_list encode_reservation (qr_reservations m)
  | QueryKind_ListAudit => encode_list encode_audit (qr_audit m)
  | QueryKind_Decide => w_optional encode_decision (qr_decision m)
  | QueryKind_FencePlan => w_optional encode_fence_plan (qr_fence_plan m)
  | QueryKind_Accounting => encode_list encode_accounting (qr_accounting m)
  | QueryKind_Zero => []
  end.

Definition encode_query_result (m : QueryResultMessage) : bytes :=
  w_uuid (qr_request m) ++ w_enum8 (qr_kind m) ++ w_enum16 (qr_outcome m) ++ write_text (qr_detail m) ++
  encode_query_body m.

(** A result with no payload, and the assignment of each payload field. *)
Definition blank_result (request : string) (kind : QueryKind) (outcome : Outcome) (detail : string)
    : QueryResultMessage :=
  mkQueryResult request kind outcome detail [] [] [] [] [] [] [] [] [] None None None.

Section result_fields.
Context (m : QueryResultMessage).
Let mk := mkQueryResult (qr_request m) (qr_kind m) (qr_outcome m) (qr_detail m).
Definition result_clusters l := mk l (qr_links m) (qr_paths m) (qr_policies m) (qr_contracts m) (qr_grants m)
  (qr_reservations m) (qr_audit m) (qr_accounting m) (qr_decision m) (qr_fence_plan m) (qr_status m).
Definition result_links l := mk (qr_clusters m) l (qr_paths m) (qr_policies m) (qr_contracts m) (qr_grants m)
  (qr_reservations m) (qr_audit m) (qr_accounting m) (qr_decision m) (qr_fence_plan m) (qr_status m).
Definition result_paths l := mk (qr_clusters m) (qr_links m) l (qr_policies m) (qr_contracts m) (qr_grants m)
  (qr_reservations m) (qr_audit m) (qr_accounting m) (qr_decision m) (qr_fence_plan m) (qr_status m).
Definition result_policies l := mk (qr_clusters m) (qr_links m) (qr_paths m) l (qr_contracts m) (qr_grants m)
  (qr_reservations m) (qr_audit m) (qr_accounting m) (qr_decision m) (qr_fence_plan m) (qr_status m).
Definition result_contracts l := mk (qr_clusters m) (qr_links m) (qr_paths m) (qr_policies m) l (qr_grants m)
  (qr_reservations m) (qr_audit m) (qr_accounting m) (qr_decision m) (qr_fence_plan m) (qr_status m).
Definition result_grants l := mk (qr_clusters m) (qr_links m) (qr_paths m) (qr_policies m) (qr_contracts m) l
  (qr_reservations m) (qr_audit m) (qr_accounting m) (qr_decision m) (qr_fence_plan m) (qr_status m).
Definition result_reservations l := mk (qr_clusters m) (qr_links m) (qr_paths m) (qr_policies m) (qr_contracts m)
  (qr_grants m) l (qr_audit m) (qr_accounting m) (qr_decision m) (qr_fence_plan m) (qr_status m).
Definition result_audit l := mk (qr_clusters m) (qr_links m) (qr_paths m) (qr_policies m) (qr_contracts m)
  (qr_grants m) (qr_reservations m) l (qr_accounting m) (qr_decision m) (qr_fence_plan m) (qr_status m).
Definition result_accounting l := mk (qr_clusters m) (qr_links m) (qr_paths m) (qr_policies m) (qr_contracts m)
  (qr_grants m) (qr_reservations m) (qr_audit m) l (qr_decision m) (qr_fence_plan m) (qr_status m).
Definition result_decision d := mk (qr_clusters m) (qr_links m) (qr_paths m) (qr_policies m) (qr_contracts m)
  (qr_grants m) (qr_reservations m) (qr_audit m) (qr_accounting m) d (qr_fence_plan m) (qr_status m).
Definition result_fence_plan p := mk (qr_clusters m) (qr_links m) (qr_paths m) (qr_policies m) (qr_contracts m)
  (qr_grants m) (qr_reservations m) (qr_audit m) (qr_accounting m) (qr_decision m) p (qr_status m).
Definition result_status s := mk (qr_clusters m) (qr_links m) (qr_paths m) (qr_policies m) (qr_contracts m)
  (qr_grants m) (qr_reservations m) (qr_audit m) (qr_accounting m) (qr_decision m) (qr_fence_plan m) s.
Definition result_outcome o d := mkQueryResult (qr_request m) (qr_kind m) o d (qr_clusters m) (qr_links m) (qr_paths m)
  (qr_policies m) (qr_contracts m) (qr_grants m) (qr_reservations m) (qr_audit m) (qr_accounting m) (qr_decision m)
  (qr_fence_plan m) (qr_status m).
End result_fields.

Definition decode_query_body (m : QueryResultMessage) : Parser QueryResultMessage :=
  match qr_kind m with
  | QueryKind_Status => status ← r_optional decode_status; mret (result_status m status)
  | QueryKind_ListClusters | QueryKind_ShowCluster =>
      records ← decode_list limits.kMaxClusters decode_cluster; mret (result_clusters m records)
  | QueryKind_ListLinks => records ← decode_list limits.kMaxEdges decode_link; mret (result_links m records)
  | QueryKind_ListPaths => records ← decode_list limits.kMaxPaths decode_path; mret (result_paths m records)
  | QueryKind_ListPolicies => records ← decode_list limits.kMaxPolicyRules decode_policy; mret (result_policies m records)
  | QueryKind_ListContracts | QueryKind_ShowContract =>
      records ← decode_list limits.kMaxContracts decode_contract; mret (result_contracts m records)
  | QueryKind_ListGrants | QueryKind_ShowGrant =>
      records ← decode_list limits.kMaxGrants decode_grant; mret (result_grants m records)
  | QueryKind_ListReservations =>
      records ← decode_list limits.kMaxReservations decode_reservation; mret (result_reservations m records)
  | QueryKind_ListAudit => records ← decode_list limits.kMaxAuditRecords decode_audit; mret (result_audit m records)
  | QueryKind_Decide => decision ← r_optional decode_decision; mret (result_decision m decision)
  | QueryKind_FencePlan => plan ← r_optional decode_fence_plan; mret (result_fence_plan m plan)
  | QueryKind_Accounting =>
      records ← decode_list limits.kMaxReservations decode_accounting; mret (result_accounting m records)
  | QueryKind_Zero => mret m
  end.

Definition decode_query_result : Parser QueryResultMessage := whole (
  request ← r_uuid;
  kind ← decode_enum8 (enum_code QueryKind_Accounting);
  outcome ← read_outcome;
  detail ← decode_text;
  decode_query_body (blank_result request kind outcome detail)).

Definition encode_admin (m : AdminMessage) : bytes :=
  w_uuid (am_request m) ++ w_enum8 (am_action m) ++ w_optional encode_cluster (am_cluster m) ++
  w_optional encode_link (am_link m) ++ w_optional encode_path (am_path m) ++ w_optional encode_policy (am_policy m) ++
  w_blob (am_cluster_id m) ++ w_blob (am_cluster_b m) ++ w_blob (am_endpoint m) ++ w_blob (am_endpoint_b m) ++
  w_uuid (am_contract m) ++ w_uuid (am_grant m) ++ w_blob (am_edge m) ++ write_text (am_policy_id m) ++
  w_u64 (am_generation m) ++ w_enum8 (am_cluster_state m) ++ w_enum8 (am_link_state m) ++ w_u64 (am_capacity m) ++
  w_i64 (am_lease_duration m) ++ write_text (am_reason m).

Definition decode_admin : Parser AdminMessage := whole (
  request ← r_uuid;
  action ← decode_enum8 (enum_code AdminAction_ReloadStore);
  cluster ← r_optional decode_cluster;
  link ← r_optional decode_link;
  path ← r_optional decode_path;
  policy ← r_optional decode_policy;
  cluster_id ← decode_optional_name IdTag limits.kMaxNameLength;
  cluster_b ← decode_optional_name IdTag limits.kMaxNameLength;
  endpoint ← decode_optional_name IdTag limits.kMaxNameLength;
  endpoint_b ← decode_optional_name IdTag limits.kMaxNameLength;
  contract ← r_uuid;
  grant ← r_uuid;
  edge ← decode_optional_name IdTag limits.kMaxNameLength;
  policy_id ← decode_text;
  generation ← decode_counter limits.kMaxGeneration;
  cluster_state ← decode_enum8 4;
  link_state ← decode_enum8 4;
  capacity ← decode_counter limits.kMaxCapacity;
  lease ← r_i64;
  _ ← p_lift (reject_if ((lease <? 0) || (limits.kMaxDurationNanos <? lease)) Outcome_Invalid
                "lease duration is out of range");
  reason ← decode_text;
  mret (mkAdmin request action cluster link path policy cluster_id cluster_b endpoint endpoint_b contract grant edge
    policy_id generation cluster_state link_state capacity lease reason)).

Definition encode_admin_result (m : AdminResultMessage) : bytes :=
  w_uuid (ar_request m) ++ w_enum16 (ar_outcome m) ++ write_text (ar_detail m) ++ w_digest (ar_view_digest m) ++
  w_u64 (ar_revision m) ++ w_uuid (ar_contract m) ++ w_uuid (ar_grant m).

Definition decode_admin_result : Parser AdminResultMessage := whole (
  request ← r_uuid;
  outcome ← read_outcome;
  detail ← decode_text;
  digest ← r_digest;
  revision ← decode_counter limits.kMaxGeneration;
  contract ← r_uuid;
  grant ← r_uuid;
  mret (mkAdminResult request outcome detail digest revision contract grant)).

Definition encode_error (m : ErrorMessage) : bytes :=
  w_uuid (em_request m) ++ w_enum16 (em_outcome m) ++ write_text (em_detail m).

Definition decode_error : Parser ErrorMessage := whole (
  request ← r_uuid;
  outcome ← read_outcome;
  detail ← decode_text;
  mret (mkError request outcome detail)).

(** ** The union of the messages, as a connection carries them *)
Inductive Message :=
  | MHello (m : HelloMessage) | MHelloAck (m : HelloAckMessage) | MRefuse (m : RefuseMessage)
  | MPing (m : PingMessage) | MPong (m : PongMessage) | MReportCluster (m : ReportClusterMessage)
  | MReportAck (m : ReportAckMessage) | MProposeContract (m : ProposeContractMessage)
  | MContractConsent (m : ContractConsentMessage) | MPrepareGrant (m : PrepareGrantMessage)
  | MGrantPrepared (m : GrantPreparedMessage) | MCommitGrant (m : CommitGrantMessage)
  | MGrantCommitted (m : GrantCommittedMessage) | MAbortGrant (m : AbortGrantMessage)
  | MGrantAborted (m : GrantAbortedMessage) | MFence (m : FenceMessage) | MFenceAck (m : FenceAckMessage)
  | MWithdraw (m : WithdrawMessage) | MWithdrawAck (m : WithdrawAckMessage)
  | MStatusRequest (m : StatusRequestMessage) | MStatusReport (m : StatusReportMessage)
  | MQuery (m : QueryMessage) | MQueryResult (m : QueryResultMessage) | MAdmin (m : AdminMessage)
  | MAdminResult (m : AdminResultMessage) | MError (m : ErrorMessage).

Definition encode_message (m : Message) : bytes :=
  match m with
  | MHello m => encode_hello m | MHelloAck m => encode_hello_ack m | MRefuse m => encode_refuse m
  | MPing m => encode_ping m | MPong m => encode_pong m | MReportCluster m => encode_report_cluster m
  | MReportAck m => encode_report_ack m | MProposeContract m => encode_propose_contract m
  | MContractConsent m => encode_contract_consent m | MPrepareGrant m => encode_prepare_grant m
  | MGrantPrepared m => encode_grant_prepared m | MCommitGrant m => encode_commit_grant m
  | MGrantCommitted m => encode_grant_committed m | MAbortGrant m => encode_abort_grant m
  | MGrantAborted m => encode_grant_aborted m | MFence m => encode_fence m | MFenceAck m => encode_fence_ack m
  | MWithdraw m => encode_withdraw m | MWithdrawAck m => encode_withdraw_ack m
  | MStatusRequest m => encode_status_request m | MStatusReport m => encode_status_report m
  | MQuery m => encode_query m | MQueryResult m => encode_query_result m | MAdmin m => encode_admin m
  | MAdminResult m => encode_admin_result m | MError m => encode_error m
  end.

Definition message_type (m : Message) : MessageType :=
  match m with
  | MHello _ => MessageType_Hello | MHelloAck _ => MessageType_HelloAck | MRefuse _ => MessageType_Refuse
  | MPing _ => MessageType_Ping | MPong _ => MessageType_Pong | MReportCluster _ => MessageType_ReportCluster
  | MReportAck _ => MessageType_ReportAck | MProposeContract _ => MessageType_ProposeContract
  | MContractConsent _ => MessageType_ContractConsent | MPrepareGrant _ => MessageType_PrepareGrant
  | MGrantPrepared _ => MessageType_GrantPrepared | MCommitGrant _ => MessageType_CommitGrant
  | MGrantCommitted _ => MessageType_GrantCommitted | MAbortGrant _ => MessageType_AbortGrant
  | MGrantAborted _ => MessageType_GrantAborted | MFence _ => MessageType_Fence | MFenceAck _ => MessageType_FenceAck
  | MWithdraw _ => MessageType_Withdraw | MWithdrawAck _ => MessageType_WithdrawAck
  | MStatusRequest _ => MessageType_StatusRequest | MStatusReport _ => MessageType_StatusReport
  | MQuery _ => MessageType_Query | MQueryResult _ => MessageType_QueryResult | MAdmin _ => MessageType_Admin
  | MAdminResult _ => MessageType_AdminResult | MError _ => MessageType_Error
  end.

Definition tag {A} (constructor : A -> Message) (p : Parser A) : Parser Message :=
  message ← p; mret (constructor message).

(** The decoder the handlers of either side choose by the type of the frame. *)
Definition decode_message (t : MessageType) : Parser Message :=
  match t with
  | MessageType_Hello => tag MHello decode_hello | MessageType_HelloAck => tag MHelloAck decode_hello_ack
  | MessageType_Refuse => tag MRefuse decode_refuse | MessageType_Ping => tag MPing decode_ping
  | MessageType_Pong => tag MPong decode_pong | MessageType_ReportCluster => tag MReportCluster decode_report_cluster
  | MessageType_ReportAck => tag MReportAck decode_report_ack
  | MessageType_ProposeContract => tag MProposeContract decode_propose_contract
  | MessageType_ContractConsent => tag MContractConsent decode_contract_consent
  | MessageType_PrepareGrant => tag MPrepareGrant decode_prepare_grant
  | MessageType_GrantPrepared => tag MGrantPrepared decode_grant_prepared
  | MessageType_CommitGrant => tag MCommitGrant decode_commit_grant
  | MessageType_GrantCommitted => tag MGrantCommitted decode_grant_committed
  | MessageType_AbortGrant => tag MAbortGrant decode_abort_grant
  | MessageType_GrantAborted => tag MGrantAborted decode_grant_aborted
  | MessageType_Fence => tag MFence decode_fence | MessageType_FenceAck => tag MFenceAck decode_fence_ack
  | MessageType_Withdraw => tag MWithdraw decode_withdraw
  | MessageType_WithdrawAck => tag MWithdrawAck decode_withdraw_ack
  | MessageType_StatusRequest => tag MStatusRequest decode_status_request
  | MessageType_StatusReport => tag MStatusReport decode_status_report
  | MessageType_Query => tag MQuery decode_query | MessageType_QueryResult => tag MQueryResult decode_query_result
  | MessageType_Admin => tag MAdmin decode_admin | MessageType_AdminResult => tag MAdminResult decode_admin_result
  | MessageType_Error => tag MError decode_error
  | MessageType_Invalid => fun _ => fail Outcome_Unsupported "no message has this type"
  end.

(** ** Well-formed messages *)
Definition list_wf {A} (wf : A -> Prop) (bound : Z) (l : list A) : Prop := Forall wf l /\ zlen l <= bound.
Definition option_wf {A} (wf : A -> Prop) (x : option A) : Prop := from_option wf True x.

Definition hello_wf (m : HelloMessage) : Prop :=
  wf_optional_id (he_cluster m) /\ wf_optional_id (he_domain m) /\ wf_uuid (he_incarnation m) /\
  wf_gen (he_generation m) /\ wf_gen (he_policy_generation m) /\ wf_gen (he_agent_term m) /\
  0 <= he_protocol_min m < 2 ^ 16 /\ 0 <= he_protocol_max m < 2 ^ 16 /\ he_protocol_min m <= he_protocol_max m /\
  0 <= he_capabilities m < 2 ^ 32 /\ wf_digest (he_content_digest m) /\ is_i64 (he_started_at m).
Definition hello_ack_wf (m : HelloAckMessage) : Prop :=
  wf_uuid (ha_session m) /\ wf_uuid (ha_coordinator m) /\ wf_gen (ha_coordinator_term m) /\
  0 <= ha_negotiated_version m < 2 ^ 16 /\ wf_digest (ha_view_digest m) /\
  list_wf wf_uuid limits.kMaxGrants (ha_revalidate m) /\ wf_text (ha_detail m).
Definition refuse_wf (m : RefuseMessage) : Prop := wf_text (rf_detail m).
Definition ping_wf (m : PingMessage) : Prop := wf_gen (pi_sequence m) /\ is_i64 (pi_sent_at m).
Definition pong_wf (m : PongMessage) : Prop := wf_gen (po_sequence m).
Definition report_cluster_wf (m : ReportClusterMessage) : Prop := wf_uuid (rc_session m) /\ cluster_wf (rc_cluster m).
Definition report_ack_wf (m : ReportAckMessage) : Prop :=
  wf_uuid (ra_session m) /\ wf_gen (ra_revision m) /\ wf_digest (ra_view_digest m) /\ wf_text (ra_detail m).
Definition propose_contract_wf (m : ProposeContractMessage) : Prop :=
  wf_uuid (pc_session m) /\ wf_uuid (pc_contract m) /\ terms_wf (pc_terms m) /\ wf_uuid (pc_attempt m).
Definition contract_consent_wf (m : ContractConsentMessage) : Prop :=
  wf_uuid (cc_session m) /\ wf_uuid (cc_contract m) /\ wf_digest (cc_terms_digest m) /\ wf_id (cc_endpoint m) /\
  wf_uuid (cc_incarnation m) /\ wf_gen (cc_generation m) /\ wf_gen (cc_policy_generation m) /\
  wf_gen (cc_agent_term m) /\ wf_text (cc_reason m).
Definition prepare_grant_wf (m : PrepareGrantMessage) : Prop := wf_uuid (pg_session m) /\ grant_wf (pg_grant m).
Definition grant_prepared_wf (m : GrantPreparedMessage) : Prop :=
  wf_uuid (gp_session m) /\ wf_uuid (gp_grant m) /\ wf_uuid (gp_attempt m) /\ wf_gen (gp_agent_term m) /\
  wf_digest (gp_enforcement_digest m) /\ wf_text (gp_detail m).
Definition commit_grant_wf (m : CommitGrantMessage) : Prop :=
  wf_uuid (cg_session m) /\ wf_uuid (cg_grant m) /\ wf_uuid (cg_attempt m).
Definition grant_committed_wf (m : GrantCommittedMessage) : Prop :=
  wf_uuid (gc_session m) /\ wf_uuid (gc_grant m) /\ wf_uuid (gc_attempt m) /\ wf_gen (gc_agent_term m) /\
  wf_digest (gc_enforcement_digest m) /\ wf_text (gc_detail m).
Definition abort_grant_wf (m : AbortGrantMessage) : Prop :=
  wf_uuid (ag_session m) /\ wf_uuid (ag_grant m) /\ wf_uuid (ag_attempt m) /\ wf_text (ag_reason m).
Definition grant_aborted_wf (m : GrantAbortedMessage) : Prop :=
  wf_uuid (ga_session m) /\ wf_uuid (ga_grant m) /\ wf_uuid (ga_attempt m) /\ wf_text (ga_reason m).
Definition fence_wf (m : FenceMessage) : Prop :=
  wf_uuid (fm_session m) /\ wf_gen (fm_coordinator_term m) /\ list_wf wf_uuid limits.kMaxGrants (fm_grants m) /\
  wf_text (fm_reason m).
Definition fence_result_wf (x : FenceResult) : Prop := wf_uuid (fx_grant x).
Definition fence_ack_wf (m : FenceAckMessage) : Prop :=
  wf_uuid (fk_session m) /\ list_wf fence_result_wf limits.kMaxGrants (fk_results m).
Definition withdraw_wf (m : WithdrawMessage) : Prop :=
  wf_uuid (wd_session m) /\ wf_id (wd_cluster m) /\ wf_uuid (wd_incarnation m) /\ wf_gen (wd_generation m) /\
  wf_text (wd_reason m).
Definition withdraw_ack_wf (m : WithdrawAckMessage) : Prop :=
  wf_uuid (wk_session m) /\ 0 <= wk_fenced_grants m < 2 ^ 64 /\ wf_text (wk_detail m).
Definition status_request_wf (m : StatusRequestMessage) : Prop := wf_uuid (sr_session m) /\ wf_uuid (sr_request m).
Definition grant_status_wf (e : GrantStatusEntry) : Prop :=
  wf_uuid (gs_grant e) /\ wf_uuid (gs_attempt e) /\ wf_gen (gs_agent_term e) /\ wf_digest (gs_enforcement_digest e).
Definition status_report_wf (m : StatusReportMessage) : Prop :=
  wf_uuid (sp_session m) /\ wf_uuid (sp_request m) /\ wf_id (sp_cluster m) /\ wf_uuid (sp_incarnation m) /\
  wf_gen (sp_generation m) /\ wf_gen (sp_policy_generation m) /\ wf_gen (sp_agent_term m) /\
  list_wf grant_status_wf limits.kMaxGrants (sp_grants m).
Definition query_wf (m : QueryMessage) : Prop :=
  wf_uuid (qm_request m) /\ wf_optional_id (qm_cluster m) /\ wf_optional_id (qm_cluster_b m) /\
  wf_optional_id (qm_endpoint m) /\ wf_optional_id (qm_endpoint_b m) /\ wf_uuid (qm_contract m) /\
  wf_uuid (qm_grant m) /\ wf_optional_id (qm_edge m) /\ wf_text (qm_policy_id m) /\ wf_cap (qm_capacity m) /\
  0 <= qm_limit m < 2 ^ 32 /\ qm_limit m <= limits.kMaxQueryResults /\ wf_gen (qm_source_generation m) /\ wf_gen (qm_target_generation m) /\
  is_i64 (qm_at m).

(** Only the field the kind selects is carried. *)
Definition query_body_wf (m : QueryResultMessage) : Prop :=
  let blank := blank_result (qr_request m) (qr_kind m) (qr_outcome m) (qr_detail m) in
  match qr_kind m with
  | QueryKind_Status => option_wf status_wf (qr_status m) /\ m = result_status blank (qr_status m)
  | QueryKind_ListClusters | QueryKind_ShowCluster =>
      list_wf cluster_wf limits.kMaxClusters (qr_clusters m) /\ m = result_clusters blank (qr_clusters m)
  | QueryKind_ListLinks => list_wf link_wf limits.kMaxEdges (qr_links m) /\ m = result_links blank (qr_links m)
  | QueryKind_ListPaths => list_wf path_wf limits.kMaxPaths (qr_paths m) /\ m = result_paths blank (qr_paths m)
  | QueryKind_ListPolicies =>
      list_wf policy_wf limits.kMaxPolicyRules (qr_policies m) /\ m = result_policies blank (qr_policies m)
  | QueryKind_ListContracts | QueryKind_ShowContract =>
      list_wf contract_wf limits.kMaxContracts (qr_contracts m) /\ m = result_contracts blank (qr_contracts m)
  | QueryKind_ListGrants | QueryKind_ShowGrant =>
      list_wf grant_wf limits.kMaxGrants (qr_grants m) /\ m = result_grants blank (qr_grants m)
  | QueryKind_ListReservations =>
      list_wf reservation_wf limits.kMaxReservations (qr_reservations m) /\
      m = result_reservations blank (qr_reservations m)
  | QueryKind_ListAudit => list_wf audit_wf limits.kMaxAuditRecords (qr_audit m) /\ m = result_audit blank (qr_audit m)
  | QueryKind_Decide => option_wf decision_wf (qr_decision m) /\ m = result_decision blank (qr_decision m)
  | QueryKind_FencePlan => option_wf plan_wf (qr_fence_plan m) /\ m = result_fence_plan blank (qr_fence_plan m)
  | QueryKind_Accounting =>
      list_wf accounting_wf limits.kMaxReservations (qr_accounting m) /\ m = result_accounting blank (qr_accounting m)
  | QueryKind_Zero => m = blank
  end.
Definition query_result_wf (m : QueryResultMessage) : Prop :=
  wf_uuid (qr_request m) /\ wf_text (qr_detail m) /\ query_body_wf m.

Definition admin_wf (m : AdminMessage) : Prop :=
  wf_uuid (am_request m) /\ option_wf cluster_wf (am_cluster m) /\ option_wf link_wf (am_link m) /\
  option_wf path_wf (am_path m) /\ option_wf policy_wf (am_policy m) /\ wf_optional_id (am_cluster_id m) /\
  wf_optional_id (am_cluster_b m) /\ wf_optional_id (am_endpoint m) /\ wf_optional_id (am_endpoint_b m) /\
  wf_uuid (am_contract m) /\ wf_uuid (am_grant m) /\ wf_optional_id (am_edge m) /\ wf_text (am_policy_id m) /\
  wf_gen (am_generation m) /\ wf_cap (am_capacity m) /\ 0 <= am_lease_duration m <= limits.kMaxDurationNanos /\
  wf_text (am_reason m).
Definition admin_result_wf (m : AdminResultMessage) : Prop :=
  wf_uuid (ar_request m) /\ wf_text (ar_detail m) /\ wf_digest (ar_view_digest m) /\ wf_gen (ar_revision m) /\
  wf_uuid (ar_contract m) /\ wf_uuid (ar_grant m).
Definition error_wf (m : ErrorMessage) : Prop := wf_uuid (em_request m) /\ wf_text (em_detail m).

Definition message_wf (m : Message) : Prop :=
  match m with
  | MHello m => hello_wf m | MHelloAck m => hello_ack_wf m | MRefuse m => refuse_wf m
  | MPing m => ping_wf m | MPong m => pong_wf m | MReportCluster m => report_cluster_wf m
  | MReportAck m => report_ack_wf m | MProposeContract m => propose_contract_wf m
  | MContractConsent m => contract_consent_wf m | MPrepareGrant m => prepare_grant_wf m
  | MGrantPrepared m => grant_prepared_wf m | MCommitGrant m => commit_grant_wf m
  | MGrantCommitted m => grant_committed_wf m | MAbortGrant m => abort_grant_wf m
  | MGrantAborted m => grant_aborted_wf m | MFence m => fence_wf m | MFenceAck m => fence_ack_wf m
  | MWithdraw m => withdraw_wf m | MWithdrawAck m => withdraw_ack_wf m
  | MStatusRequest m => status_request_wf m | MStatusReport m => status_report_wf m
  | MQuery m => query_wf m | MQueryResult m => query_result_wf m | MAdmin m => admin_wf m
  | MAdminResult m => admin_result_wf m | MError m => error_wf m
  end.

(** ** Codecs *)
#[export] Instance write_text_codec : Codec write_text decode_text wf_text.
Proof.
  split; [|intros data s rest H; by apply codec_sound in H].
  intros s rest Hs. unfold write_text. destruct Hs as [Hl Hu].
  destruct (Z.ltb_spec limits.kMaxStringField (slen s)); [unfold kMaxText in Hl; lia|].
  by apply (codec_roundtrip (enc := w_blob)).
Qed.

#[export] Instance read_outcome_codec : Codec w_enum16 read_outcome (fun _ => True).
Proof. apply r_enum16_codec. done. Qed.

#[export] Instance optional_codec {A} (enc : A -> bytes) (dec : Parser A) dom `{!Codec enc dec dom} :
  Codec (w_optional enc) (r_optional dec) (option_wf dom).
Proof.
  split.
  - intros [x|] rest Hx; unfold w_optional, r_optional; rewrite <- app_assoc;
      (eapply run_bind; [by apply codec_roundtrip|]); cbn; [|done].
    eapply run_bind; [by apply codec_roundtrip|]. done.
  - intros data x rest H. unfold r_optional in H. parse_inv H. destruct x0; [|by injection H as <- <-].
    parse_inv H. injection H as <- <-. by apply codec_sound in Hp0.
Qed.

#[export] Instance list_wf_codec {A} (enc : A -> bytes) (dec : Parser A) dom `{!Codec enc dec dom} bound :
  TCEq (bound <? 4294967296) true -> Codec (encode_list enc) (decode_list bound dec) (list_wf dom bound).
Proof. intros Hb. exact (list_codec enc dec dom bound Hb). Qed.

#[export] Instance fence_result_codec : Codec encode_fence_result decode_fence_result fence_result_wf.
Proof. record_codec fence_result_wf encode_fence_result decode_fence_result. Qed.

#[export] Instance grant_status_codec : Codec encode_grant_status decode_grant_status grant_status_wf.
Proof. record_codec grant_status_wf encode_grant_status decode_grant_status. Qed.

(** A decoder that consumes its whole input. *)
Class WholeCodec {A} (enc : A -> bytes) (dec : Parser A) (dom : A -> Prop) := {
  whole_roundtrip : forall m, dom m -> dec (enc m) = Val (m, []);
  whole_sound : forall data m rest, dec data = Val (m, rest) -> dom m /\ rest = [];
}.

Lemma whole_codec {A} (enc : A -> bytes) (p : Parser A) dom : Codec enc p dom -> WholeCodec enc (whole p) dom.
Proof.
  intros Hc. split.
  - intros m Hm. unfold whole. rewrite <- (app_nil_r (enc m)). eapply run_bind; [by apply codec_roundtrip|]. done.
  - intros data m rest H. unfold whole in H. parse_inv H. injection H as <- <-. apply codec_sound in Hp.
    split; [done|]. unfold expect_end in Hp0. by destruct d; simplify_eq.
Qed.

Ltac message_codec wf enc dec :=
  unfold dec; apply whole_codec; split;
  [ intros x rest Hx; unfold wf in Hx; destruct_and? Hx; unfold enc; repeat codec_step; destruct x; reflexivity
  | let H := fresh "H" in intros data x rest H; parse_inv H; injection H as <- <-;
    fields_sound; unfold wf; cbn -[Z.pow]; cbn beta in *; bool_prop; split_and?; try assumption; try lia ].

#[export] Instance hello_message_codec : WholeCodec encode_hello decode_hello hello_wf.
Proof. message_codec hello_wf encode_hello decode_hello. Qed.

#[export] Instance hello_ack_message_codec : WholeCodec encode_hello_ack decode_hello_ack hello_ack_wf.
Proof. message_codec hello_ack_wf encode_hello_ack decode_hello_ack. Qed.

#[export] Instance refuse_message_codec : WholeCodec encode_refuse decode_refuse refuse_wf.
Proof. message_codec refuse_wf encode_refuse decode_refuse. Qed.

#[export] Instance ping_message_codec : WholeCodec encode_ping decode_ping ping_wf.
Proof. message_codec ping_wf encode_ping decode_ping. Qed.

#[export] Instance pong_message_codec : WholeCodec encode_pong decode_pong pong_wf.
Proof. message_codec pong_wf encode_pong decode_pong. Qed.

#[export] Instance report_cluster_message_codec : WholeCodec encode_report_cluster decode_report_cluster report_cluster_wf.
Proof. message_codec report_cluster_wf encode_report_cluster decode_report_cluster. Qed.

#[export] Instance report_ack_message_codec : WholeCodec encode_report_ack decode_report_ack report_ack_wf.
Proof. message_codec report_ack_wf encode_report_ack decode_report_ack. Qed.

#[export] Instance propose_contract_message_codec : WholeCodec encode_propose_contract decode_propose_contract propose_contract_wf.
Proof. message_codec propose_contract_wf encode_propose_contract decode_propose_contract. Qed.

#[export] Instance contract_consent_message_codec : WholeCodec encode_contract_consent decode_contract_consent contract_consent_wf.
Proof. message_codec contract_consent_wf encode_contract_consent decode_contract_consent. Qed.

#[export] Instance prepare_grant_message_codec : WholeCodec encode_prepare_grant decode_prepare_grant prepare_grant_wf.
Proof. message_codec prepare_grant_wf encode_prepare_grant decode_prepare_grant. Qed.

#[export] Instance grant_prepared_message_codec : WholeCodec encode_grant_prepared decode_grant_prepared grant_prepared_wf.
Proof. message_codec grant_prepared_wf encode_grant_prepared decode_grant_prepared. Qed.

#[export] Instance commit_grant_message_codec : WholeCodec encode_commit_grant decode_commit_grant commit_grant_wf.
Proof. message_codec commit_grant_wf encode_commit_grant decode_commit_grant. Qed.

#[export] Instance grant_committed_message_codec : WholeCodec encode_grant_committed decode_grant_committed grant_committed_wf.
Proof. message_codec grant_committed_wf encode_grant_committed decode_grant_committed. Qed.

#[export] Instance abort_grant_message_codec : WholeCodec encode_abort_grant decode_abort_grant abort_grant_wf.
Proof. message_codec abort_grant_wf encode_abort_grant decode_abort_grant. Qed.

#[export] Instance grant_aborted_message_codec : WholeCodec encode_grant_aborted decode_grant_aborted grant_aborted_wf.
Proof. message_codec grant_aborted_wf encode_grant_aborted decode_grant_aborted. Qed.

#[export] Instance fence_message_codec : WholeCodec encode_fence decode_fence fence_wf.
Proof. message_codec fence_wf encode_fence decode_fence. Qed.

#[export] Instance fence_ack_message_codec : WholeCodec encode_fence_ack decode_fence_ack fence_ack_wf.
Proof. message_codec fence_ack_wf encode_fence_ack decode_fence_ack. Qed.

#[export] Instance withdraw_message_codec : WholeCodec encode_withdraw decode_withdraw withdraw_wf.
Proof. message_codec withdraw_wf encode_withdraw decode_withdraw. Qed.

#[export] Instance withdraw_ack_message_codec : WholeCodec encode_withdraw_ack decode_withdraw_ack withdraw_ack_wf.
Proof. message_codec withdraw_ack_wf encode_withdraw_ack decode_withdraw_ack. Qed.

#[export] Instance status_request_message_codec : WholeCodec encode_status_request decode_status_request status_request_wf.
Proof. message_codec status_request_wf encode_status_request decode_status_request. Qed.

#[export] Instance status_report_message_codec : WholeCodec encode_status_report decode_status_report status_report_wf.
Proof. message_codec status_report_wf encode_status_report decode_status_report. Qed.

#[export] Instance query_message_codec : WholeCodec encode_query decode_query query_wf.
Proof. message_codec query_wf encode_query decode_query. Qed.

#[export] Instance admin_message_codec : WholeCodec encode_admin decode_admin admin_wf.
Proof.
  unfold decode_admin. apply whole_codec. split.
  - intros x rest Hx. unfold admin_wf in Hx. destruct_and? Hx.
    assert (is_i64 (am_lease_duration x)) by (unfold is_i64, i64_min, i64_max, limits.kMaxDurationNanos in *; lia).
    unfold encode_admin. repeat codec_step. by destruct x.
  - intros data x rest H. parse_inv H. injection H as <- <-. fields_sound. unfold admin_wf. cbn -[Z.pow].
    bool_prop. split_and?; try assumption; lia.
Qed.

#[export] Instance admin_result_message_codec : WholeCodec encode_admin_result decode_admin_result admin_result_wf.
Proof. message_codec admin_result_wf encode_admin_result decode_admin_result. Qed.

#[export] Instance error_message_codec : WholeCodec encode_error decode_error error_wf.
Proof. message_codec error_wf encode_error decode_error. Qed.

(** The carried field determines the message. *)
#[export] Instance query_result_message_codec : WholeCodec encode_query_result decode_query_result query_result_wf.
Proof.
  unfold decode_query_result. apply whole_codec. split.
  - intros x rest (Hr & Hd & Hb). unfold encode_query_result. do 4 codec_step.
    unfold encode_query_body, decode_query_body. cbn [qr_kind blank_result]. unfold query_body_wf in Hb.
    destruct (qr_kind x) eqn:Hk; cbv iota; [unfold mret, Parser_ret; by rewrite <- Hb|..]; destruct Hb as [Hb Hx].
    all: eapply run_bind; [by apply codec_roundtrip|]; unfold mret, Parser_ret; by rewrite <- Hx.
  - intros data x rest H. parse_inv H. fields_sound. unfold decode_query_body in H. cbn [qr_kind blank_result] in H.
    destruct x1 eqn:Hk; parse_inv H; injection H as <- <-; fields_sound; unfold query_result_wf, query_body_wf; cbn;
      split_and?; done.
Qed.

Lemma tag_roundtrip {A} (constructor : A -> Message) (enc : A -> bytes) dec dom `{!WholeCodec enc dec dom} m :
  dom m -> tag constructor dec (enc m) = Val (constructor m, []).
Proof. intros Hm. unfold tag. eapply run_bind; [by apply whole_roundtrip|]. done. Qed.

Lemma tag_sound {A} (constructor : A -> Message) (enc : A -> bytes) dec dom `{!WholeCodec enc dec dom} data m rest :
  tag constructor dec data = Val (m, rest) -> exists x, m = constructor x /\ dom x /\ rest = [].
Proof. intros H. unfold tag in H. parse_inv H. injection H as <- <-. apply whole_sound in Hp as []. eauto. Qed.

(** C28. Every protocol message survives its encoding: the decoder of its type reads a well-formed
    message back from exactly its encoding; and, whatever the bytes, a decoder returns only well-formed
    messages of its type and accepts no trailing bytes. *)
Theorem messages_roundtrip :
  (forall m, message_wf m -> decode_message (message_type m) (encode_message m) = Val (m, [])) /\
  (forall t data m rest, decode_message t data = Val (m, rest) -> message_type m = t /\ message_wf m /\ rest = []).
Proof.
  split.
  - intros [] Hm; cbn [decode_message message_type encode_message message_wf] in *;
      (eapply tag_roundtrip; [apply _|exact Hm]).
  - intros [] data m rest H; cbn [decode_message] in H;
      [discriminate|..]; (eapply tag_sound in H; [|apply _]); by destruct H as (x & -> & Hx & ->).
Qed.
