(* ===== verification/Connection.v ===== *)
(** * The outbound side of a connection

    Models [Connection] of include/icf/net/reactor.hpp and src/net/reactor.cpp: the bounded queue of
    encoded frames, signing, closing and flushing. What the socket answers to each [send] is an
    argument of [flush]. *)
From S2P Require Import Prelude Status Utf8 Bytes Ids Hash Frame.

Record ConnectionConfig := mkConnectionConfig {
  nc_max_payload : Z;
  nc_max_queued_bytes : Z;
  nc_max_pending_frames : Z;
  nc_idle_deadline : Z;
  nc_verify_key : bytes;
  nc_sign_outbound : bool;
}.

(** [Connection::Config{}]: the limits of the runtime, no key. *)
Definition config_default : ConnectionConfig :=
  mkConnectionConfig limits.kMaxFramePayload limits.kMaxSendQueueBytes limits.kMaxPendingSends
    (limits.kDefaultReadDeadlineMillis * 1000000) [] false.

Record Connection := mkConnection {
  cn_id : Z;
  cn_config : ConnectionConfig;
  cn_queue : list bytes;
  cn_queue_offset : nat;
  cn_queued_bytes : Z;
  cn_close_reason : Status;
  cn_closed : bool;
  cn_parser : FrameParser;
  cn_last_activity : Z;
  cn_close_reported : bool;
}.

(** [Status::ok()] in a member that holds a status. *)
Definition status_ok : Status := mkStatus Outcome_Ok "".

Definition connection_new (id : Z) (config : ConnectionConfig) : Connection :=
  mkConnection id config [] 0 0 status_ok false (frame_parser (nc_max_payload config)) 0 false.

Definition queue_frame (type : MessageType) (payload : bytes) (sign : bool) : ST Connection unit := fun cn =>
  let config := cn_config cn in
  if cn_closed cn then (fail Outcome_Cancelled "connection is closed", cn)
  else if nc_max_payload config <? zlen payload then
    (fail Outcome_CapacityExceeded "outbound frame exceeds the negotiated payload limit", cn)
  else if nc_max_pending_frames config <=? zlen (cn_queue cn) then
    (fail Outcome_Busy "outbound frame queue is full", cn)
  else if sign && bool_decide (nc_verify_key config = []) then
    (fail Outcome_Unauthorized "cannot sign a frame without a channel key", cn)
  else
    let header := mkFrameHeader limits.kProtocolVersionMax type (if sign then kFlagSigned else 0) 0 in
    match append_frame [] header payload (if sign then nc_verify_key config else []) with
    | Err e => (Err e, cn)
    | Throw => (Throw, cn)
    | Val encoded =>
        if nc_max_queued_bytes config <? (cn_queued_bytes cn + zlen encoded) mod 2 ^ 64 then
          (fail Outcome_Busy "outbound byte queue is full", cn)
        else
          (Val tt, mkConnection (cn_id cn) config (cn_queue cn ++ [encoded]) (cn_queue_offset cn)
                     ((cn_queued_bytes cn + zlen encoded) mod 2 ^ 64) (cn_close_reason cn) (cn_closed cn) (cn_parser cn)
                     (cn_last_activity cn) (cn_close_reported cn))
    end.

Definition queue (type : MessageType) (payload : bytes) : ST Connection unit := fun cn =>
  queue_frame type payload (nc_sign_outbound (cn_config cn)) cn.

(** An assignment to [config_]. *)
Definition set_cn_config (config : ConnectionConfig) (cn : Connection) : Connection :=
  mkConnection (cn_id cn) config (cn_queue cn) (cn_queue_offset cn) (cn_queued_bytes cn) (cn_close_reason cn)
    (cn_closed cn) (cn_parser cn) (cn_last_activity cn) (cn_close_reported cn).

Definition enable_signing (key : bytes) (cn : Connection) : Connection :=
  let c := cn_config cn in
  set_cn_config (mkConnectionConfig (nc_max_payload c) (nc_max_queued_bytes c) (nc_max_pending_frames c)
    (nc_idle_deadline c) key (negb (bool_decide (key = [])))) cn.

Definition enable_outbound_signing (cn : Connection) : Connection :=
  enable_signing (nc_verify_key (cn_config cn)) cn.

Definition close (reason : Status) (cn : Connection) : Connection :=
  if cn_closed cn then cn
  else mkConnection (cn_id cn) (cn_config cn) [] 0 0 reason true (cn_parser cn) (cn_last_activity cn)
         (cn_close_reported cn).

(** The front of the queue after the socket took some bytes. *)
Definition set_queue (queue : list bytes) (offset : nat) (queued : Z) (cn : Connection) : Connection :=
  mkConnection (cn_id cn) (cn_config cn) queue offset queued (cn_close_reason cn) (cn_closed cn) (cn_parser cn)
    (cn_last_activity cn) (cn_close_reported cn).

(** The loop of [flush]. The socket gets the unsent part of the first frame and answers how many bytes
    it took, or an error; [sent] collects the bytes that left. The list holds the answers of one call
    of [flush]; it ends where the operating system is not asked any more. *)
Fixpoint flush_loop (socket : list (Z -> Result Z)) (sent : bytes) : ST Connection bytes := fun cn =>
  match cn_queue cn, socket with
  | [], _ | _, [] => (Val sent, cn)
  | front :: rest, answer :: socket =>
      match answer (zlen (drop (cn_queue_offset cn) front)) with
      | Err e => if bool_decide (st_outcome e = Outcome_Busy) then (Val sent, cn) else (Err e, cn)
      | Throw => (Throw, cn)
      | Val written =>
          if written =? 0 then (Val sent, cn)
          else
            let offset := (cn_queue_offset cn + Z.to_nat written)%nat in
            let queued := (cn_queued_bytes cn - written) mod 2 ^ 64 in
            flush_loop socket (sent ++ take (Z.to_nat written) (drop (cn_queue_offset cn) front))
              (if (offset =? length front)%nat
               then set_queue rest 0 queued cn else set_queue (front :: rest) offset queued cn)
      end
  end.

Definition flush (socket : list (Z -> Result Z)) : ST Connection bytes := flush_loop socket [].

(** ** Invariant: the counters describe the queue, within their bounds. *)
Definition unsent (cn : Connection) : bytes := drop (cn_queue_offset cn) (concat (cn_queue cn)).

Record connection_ok (cn : Connection) : Prop := mkConnectionOk {
  cn_ok_bytes : cn_queued_bytes cn = zlen (unsent cn);
  cn_ok_offset : match cn_queue cn with [] => cn_queue_offset cn = 0%nat
                 | front :: _ => (cn_queue_offset cn < length front)%nat end;
  cn_ok_frames : Forall (fun f => f <> []) (cn_queue cn);
  cn_ok_bound : cn_queued_bytes cn <= nc_max_queued_bytes (cn_config cn);
  cn_ok_pending : zlen (cn_queue cn) <= nc_max_pending_frames (cn_config cn);
}.

(** The limits of a connection, small enough for 64-bit arithmetic. *)
Definition config_ok (c : ConnectionConfig) : Prop :=
  0 <= nc_max_payload c <= limits.kMaxFramePayload /\ 0 <= nc_max_queued_bytes c <= 2 ^ 62 /\
  0 <= nc_max_pending_frames c.

(** The socket takes at most what it is given. *)
Definition socket_ok (answer : Z -> Result Z) : Prop :=
  forall remaining n, 0 <= remaining -> answer remaining = Val n -> 0 <= n <= remaining.

Lemma zlen_concat_drop (front : bytes) rest offset :
  (offset <= length front)%nat -> zlen (drop offset (concat (front :: rest))) = zlen (drop offset front) + zlen (concat rest).
Proof. intros H. cbn [concat]. rewrite drop_app_le by done. by rewrite zlen_app. Qed.

Lemma queue_frame_spec type payload sign cn :
  config_ok (cn_config cn) -> connection_ok cn ->
  (exists e, queue_frame type payload sign cn = (Err e, cn)) \/
  let h := mkFrameHeader limits.kProtocolVersionMax type (if sign then kFlagSigned else 0) 0 in
  let encoded := frame_bytes h payload (if sign then nc_verify_key (cn_config cn) else []) in
  exists cn', queue_frame type payload sign cn = (Val tt, cn') /\ unsent cn' = unsent cn ++ encoded /\
    connection_ok cn' /\ cn_config cn' = cn_config cn /\ cn_queue cn' = cn_queue cn ++ [encoded].
Proof.
  intros (Hp & Hm & Hf) [Hb Ho Hn Hq Hz]. unfold queue_frame, fail. destruct (cn_closed cn); [by left; eexists|].
  destruct (Z.ltb_spec (nc_max_payload (cn_config cn)) (zlen payload)); [by left; eexists|].
  destruct (Z.leb_spec (nc_max_pending_frames (cn_config cn)) (zlen (cn_queue cn))) as [|Hpend]; [by left; eexists|].
  destruct (sign && bool_decide (nc_verify_key (cn_config cn) = [])) eqn:Hk; [by left; eexists|].
  set (h := mkFrameHeader _ _ _ _). set (key := if sign then _ else _). set (enc := frame_bytes h payload key).
  assert (Hsig : is_signed (fh_flags h) = sign) by (by destruct sign).
  assert (Ha : append_frame [] h payload key = Val enc).
  { unfold append_frame. apply bind_reject; [apply Z.ltb_ge; unfold limits.kMaxFramePayload in *; lia|]. cbv zeta.
    apply bind_reject; [rewrite Hsig; by destruct sign|]. eapply bind_value; [|done]. unfold checked_sum, add_u64.
    change (zlen []) with 0. pose proof (zlen_nonneg payload). unfold limits.kMaxFramePayload in Hp.
    rewrite (proj2 (Z.ltb_ge _ _)); [done|]. unfold u64_max, frame_wire_size, limits.kFrameHeaderSize, limits.kFrameTrailerSize, kMacSize.
    destruct (is_signed _); lia. }
  rewrite Ha. assert (He : 24 <= zlen enc <= 2 ^ 20 + 60).
  { unfold enc, frame_bytes. rewrite zlen_app. unfold zlen. rewrite length_frame_body. unfold zlen, limits.kMaxFramePayload in *.
    destruct (is_signed _); [rewrite length_hmac|cbn [length]]; lia. }
  clearbody enc. pose proof (zlen_nonneg (unsent cn)). rewrite Z.mod_small by lia.
  destruct (Z.ltb_spec (nc_max_queued_bytes (cn_config cn)) (cn_queued_bytes cn + zlen enc)); [by left; eexists|].
  assert (Hu : unsent (mkConnection (cn_id cn) (cn_config cn) (cn_queue cn ++ [enc]) (cn_queue_offset cn)
    (cn_queued_bytes cn + zlen enc) (cn_close_reason cn) false (cn_parser cn) (cn_last_activity cn)
    (cn_close_reported cn)) = unsent cn ++ enc).
  { unfold unsent. cbn [cn_queue cn_queue_offset]. rewrite concat_app. cbn [concat]. rewrite app_nil_r.
    apply drop_app_le. destruct (cn_queue cn) as [|f r]; [by rewrite Ho; cbn; lia|]. cbn [concat]. rewrite length_app. lia. }
  right. cbv zeta. eexists. split; [reflexivity|]. split_and!; [exact Hu| |done|done].
  split; cbn [cn_queue cn_queue_offset cn_queued_bytes cn_config]; try done.
  - rewrite Hu, zlen_app. lia.
  - destruct (cn_queue cn) as [|f r]; [rewrite Ho; cbn; unfold zlen in He; lia|done].
  - apply Forall_app. split; [done|]. constructor; [|constructor]. intros E. rewrite E in He. change (zlen []) with 0 in He. lia.
  - rewrite zlen_app. change (zlen [enc]) with 1. lia.
Qed.

(** One answer of the socket: the bytes it took leave the front of what is unsent. *)
Lemma flush_step cn front rest written :
  connection_ok cn -> nc_max_queued_bytes (cn_config cn) <= 2 ^ 62 -> cn_queue cn = front :: rest ->
  0 < written <= zlen (drop (cn_queue_offset cn) front) ->
  let offset := (cn_queue_offset cn + Z.to_nat written)%nat in
  let queued := (cn_queued_bytes cn - written) mod 2 ^ 64 in
  let cn' := if (offset =? length front)%nat
             then set_queue rest 0 queued cn else set_queue (front :: rest) offset queued cn in
  connection_ok cn' /\
  unsent cn = take (Z.to_nat written) (drop (cn_queue_offset cn) front) ++ unsent cn'.
Proof.
  intros [Hb Ho Hn Hq Hz] Hm Hf Hw. rewrite Hf in *. cbv zeta. inversion_clear Hn as [|? ? Hfr Hr].
  set (o := cn_queue_offset cn) in *. unfold zlen in Hw. rewrite length_drop in Hw. pose proof (zlen_nonneg (concat rest)).
  pose proof (zlen_nonneg rest). assert (Hlen : zlen (unsent cn) = zlen (drop o front) + zlen (concat rest)).
  { unfold unsent. rewrite Hf. apply zlen_concat_drop. unfold o in *. lia. }
  assert (Hq' : (cn_queued_bytes cn - written) mod 2 ^ 64 = cn_queued_bytes cn - written).
  { apply Z.mod_small. unfold zlen at 2 in Hlen. rewrite length_drop in Hlen. lia. }
  assert (Hun : unsent cn = take (Z.to_nat written) (drop o front) ++ drop (o + Z.to_nat written) (concat (front :: rest))).
  { unfold unsent. fold o. rewrite Hf, <- drop_drop. cbn [concat]. rewrite drop_app_le by lia.
    rewrite drop_app_le by (rewrite length_drop; lia). by rewrite app_assoc, take_drop. }
  rewrite zlen_cons in Hz. destruct (Nat.eqb_spec (o + Z.to_nat written) (length front)) as [He|He].
  - assert (Hu : drop (o + Z.to_nat written) (concat (front :: rest)) = concat rest) by (rewrite He; apply drop_app_length).
    rewrite Hun, Hu. split; [|done]. split; cbn [set_queue cn_queue cn_queue_offset cn_queued_bytes cn_config]; try done; try lia.
    + rewrite Hq'. unfold unsent. cbn [set_queue cn_queue cn_queue_offset]. rewrite drop_0.
      rewrite Hb, Hlen. unfold zlen at 1. rewrite length_drop. lia.
    + destruct rest as [|f r]; [done|]. inversion_clear Hr as [|? ? Hff _]. destruct f; [done|cbn; lia].
  - rewrite Hun. split; [|done]. split; cbn [set_queue cn_queue cn_queue_offset cn_queued_bytes cn_config]; try done; try lia.
    + rewrite Hq'. unfold unsent. cbn [set_queue cn_queue cn_queue_offset]. rewrite zlen_concat_drop by lia.
      rewrite Hb, Hlen. unfold zlen. rewrite !length_drop. lia.
    + by constructor.
    + by rewrite zlen_cons.
Qed.

Lemma flush_loop_spec socket : forall sent cn,
  Forall socket_ok socket -> connection_ok cn -> nc_max_queued_bytes (cn_config cn) <= 2 ^ 62 ->
  exists r cn' out, flush_loop socket sent cn = (r, cn') /\ unsent cn = out ++ unsent cn' /\ connection_ok cn' /\
    cn_config cn' = cn_config cn /\ (forall s, r = Val s -> s = sent ++ out).
Proof.
  induction socket as [|a socket IH]; intros sent cn Hs Hok Hm; cbn [flush_loop].
  { destruct (cn_queue cn); (eexists; exists cn, []); rewrite app_nil_r; naive_solver. }
  inversion_clear Hs as [|? ? Ha Hss]. destruct (cn_queue cn) as [|front rest] eqn:Hq.
  { eexists. exists cn, []. rewrite app_nil_r. naive_solver. }
  destruct (a _) as [n|e|] eqn:Ea; cycle 1.
  { case_bool_decide; (eexists; exists cn, []); rewrite app_nil_r; naive_solver. }
  { eexists. exists cn, []. rewrite app_nil_r. naive_solver. }
  apply Ha in Ea; [|apply zlen_nonneg]. destruct (Z.eqb_spec n 0) as [->|Hn].
  { eexists. exists cn, []. rewrite app_nil_r. naive_solver. }
  cbv zeta. destruct (flush_step cn front rest n Hok Hm Hq ltac:(lia)) as [Hok' Hu].
  set (cn1 := if (_ =? length front)%nat then _ else _) in *. assert (Hc : cn_config cn1 = cn_config cn) by (unfold cn1; by destruct (Nat.eqb _ _)).
  destruct (IH (sent ++ take (Z.to_nat n) (drop (cn_queue_offset cn) front)) cn1 Hss Hok') as (r & cn' & out & Hr & Ho & Hk & Hcc & Hv).
  { by rewrite Hc. }
  exists r, cn', (take (Z.to_nat n) (drop (cn_queue_offset cn) front) ++ out). split_and!; try done.
  - by rewrite Hu, Ho, app_assoc.
  - by rewrite Hcc.
  - intros s ->. rewrite (Hv s eq_refl). by rewrite app_assoc.
Qed.

(** ** A run of a connection: frames are queued and the queue is flushed, in any order. *)
Inductive run : Connection -> list bytes -> bytes -> Connection -> Prop :=
  | run_start cn : run cn [] [] cn
  | run_queue cn frames sent cn1 type payload sign cn2 encoded :
      run cn frames sent cn1 -> queue_frame type payload sign cn1 = (Val tt, cn2) ->
      cn_queue cn2 = cn_queue cn1 ++ [encoded] -> run cn (frames ++ [encoded]) sent cn2
  | run_refused cn frames sent cn1 type payload sign e cn2 :
      run cn frames sent cn1 -> queue_frame type payload sign cn1 = (Err e, cn2) -> run cn frames sent cn2
  | run_flush cn frames sent cn1 socket out cn2 :
      run cn frames sent cn1 -> Forall socket_ok socket -> flush socket cn1 = (Val out, cn2) ->
      run cn frames (sent ++ out) cn2.


