(* ===== verification/Reactor.v ===== *)
(** * The event loop: connections and timers

    Models [EventLoop] of include/icf/net/reactor.hpp and src/net/reactor.cpp: the connections it owns, the
    ordered timers and how long it may sleep. The type [T] names the callbacks a daemon schedules. *)
From S2P Require Import Prelude Status Utf8 Bytes Ids Hash Frame Connection.

Record Loop (T : Type) := mkLoop {
  lp_connections : gmap Z Connection;
  lp_pending_erase : list Z;
  lp_timers : list ((Z * Z) * T);
  lp_next_connection_id : Z;
  lp_next_timer_id : Z;
  lp_max_connections : Z;
}.
Arguments mkLoop {T}.
Arguments lp_connections {T}.
Arguments lp_pending_erase {T}.
Arguments lp_timers {T}.
Arguments lp_next_connection_id {T}.
Arguments lp_next_timer_id {T}.
Arguments lp_max_connections {T}.

Section loop.
Context {T : Type}.
Implicit Types (l : Loop T).

Definition loop_new : Loop T := mkLoop ∅ [] [] 1 1 limits.kMaxConnections.

Definition with_connections (m : gmap Z Connection) l : Loop T :=
  mkLoop m (lp_pending_erase l) (lp_timers l) (lp_next_connection_id l) (lp_next_timer_id l) (lp_max_connections l).
Definition with_pending_erase (ids : list Z) l : Loop T :=
  mkLoop (lp_connections l) ids (lp_timers l) (lp_next_connection_id l) (lp_next_timer_id l) (lp_max_connections l).
Definition with_timers (ts : list ((Z * Z) * T)) l : Loop T :=
  mkLoop (lp_connections l) (lp_pending_erase l) ts (lp_next_connection_id l) (lp_next_timer_id l) (lp_max_connections l).

(** Keys of the timer map: the deadline, then the identity. *)
Definition timer_lt (a b : Z * Z) : bool := (a.1 <? b.1) || ((a.1 =? b.1) && (a.2 <? b.2)).

(** [timers_.emplace(key, callback)]: the map is ordered, and an existing key is kept. *)
Fixpoint emplace_timer (key : Z * Z) (callback : T) (ts : list ((Z * Z) * T)) : list ((Z * Z) * T) :=
  match ts with
  | [] => [(key, callback)]
  | (k, cb) :: rest =>
      if timer_lt key k then (key, callback) :: ts
      else if timer_lt k key then (k, cb) :: emplace_timer key callback rest
      else ts
  end.

(** The connection is stamped with the present time; the socket is valid. *)
Definition adopt (config : ConnectionConfig) (at_time : Z) : ST (Loop T) Z := fun l =>
  if lp_max_connections l <=? Z.of_nat (size (lp_connections l)) then
    (fail Outcome_CapacityExceeded "connection limit reached", l)
  else
    let id := lp_next_connection_id l in
    let connection := connection_new id config in
    let connection := mkConnection (cn_id connection) (cn_config connection) (cn_queue connection)
                        (cn_queue_offset connection) (cn_queued_bytes connection) (cn_close_reason connection)
                        (cn_closed connection) (cn_parser connection) at_time (cn_close_reported connection) in
    (Val id, mkLoop (match lp_connections l !! id with
                     | Some _ => lp_connections l
                     | None => <[id := connection]> (lp_connections l)
                     end) (lp_pending_erase l) (lp_timers l) ((id + 1) mod 2 ^ 64)
               (lp_next_timer_id l) (lp_max_connections l)).

Definition schedule (deadline : Z) (callback : T) : ST (Loop T) Z := fun l =>
  let id := lp_next_timer_id l in
  (Val id, mkLoop (lp_connections l) (lp_pending_erase l) (emplace_timer (deadline, id) callback (lp_timers l))
             (lp_next_connection_id l) ((id + 1) mod 2 ^ 64) (lp_max_connections l)).

Definition cancel (timer_id : Z) l : Loop T :=
  with_timers (filter (fun t => t.1.2 <> timer_id) (lp_timers l)) l.

(** The first loop of [fire_due_timers]: the due prefix, and what stays. *)
Fixpoint take_due (at_time : Z) (ts : list ((Z * Z) * T)) : list T * list ((Z * Z) * T) :=
  match ts with
  | (key, callback) :: rest =>
      if key.1 <=? at_time then let '(due, later) := take_due at_time rest in (callback :: due, later)
      else ([], ts)
  | [] => ([], [])
  end.

(** The loop of [compute_timeout]; [None] is the early return. *)
Fixpoint best_delta (at_time best : Z) (ts : list ((Z * Z) * T)) : option Z :=
  match ts with
  | [] => Some best
  | (key, _) :: rest =>
      let delta := key.1 - at_time in
      if delta <=? 0 then None
      else best_delta at_time (if (best <? 0) || (delta <? best) then delta else best) rest
  end.

Definition compute_timeout (at_time : Z) l : Z :=
  match best_delta at_time (if bool_decide (lp_connections l = ∅) then -1 else 1000000000) (lp_timers l) with
  | None => 0
  | Some best =>
      if best <? 0 then -1
      else
        let millis := Z.quot best 1000000 in
        let millis := if millis =? 0 then 1 else millis in
        if 1000 <? millis then 1000 else millis
  end.
End loop.

(** ** The timers are ordered by their deadline. *)
Section timers.
Context {T : Type}.
Implicit Types (ts : list ((Z * Z) * T)).

Definition timers_ok ts : Prop := StronglySorted (fun a b => timer_lt a.1 b.1 = true) ts.

Lemma timer_lt_spec a b : timer_lt a b = true <-> a.1 < b.1 \/ (a.1 = b.1 /\ a.2 < b.2).
Proof. unfold timer_lt. rewrite orb_true_iff, andb_true_iff, !Z.ltb_lt, Z.eqb_eq. done. Qed.

Lemma elem_of_emplace key cb ts x : x ∈ emplace_timer key cb ts -> x = (key, cb) \/ x ∈ ts.
Proof.
  induction ts as [|[k c] ts IH]; cbn [emplace_timer].
  - intros ->%list_elem_of_singleton. by left.
  - destruct (timer_lt key k); [|destruct (timer_lt k key)]; rewrite ?elem_of_cons; intuition auto.
Qed.

Lemma emplace_timer_ok key cb ts : timers_ok ts -> timers_ok (emplace_timer key cb ts).
Proof.
  induction 1 as [|[k c] ts Hs IH Hk]; cbn [emplace_timer]; [by repeat constructor|].
  destruct (timer_lt key k) eqn:E1; [|destruct (timer_lt k key) eqn:E2].
  - constructor; [by constructor|]. constructor; [done|]. eapply Forall_impl; [exact Hk|]. intros [k' c'] H. cbn in *.
    apply timer_lt_spec in E1, H. apply timer_lt_spec. lia.
  - constructor; [done|]. apply Forall_forall. intros x [->|Hx]%elem_of_emplace; [done|]. by rewrite Forall_forall in Hk; apply Hk.
  - by constructor.
Qed.

(** The due prefix holds every callback whose deadline has passed, and what stays is in the future. *)
Lemma take_due_spec at_time ts due later :
  timers_ok ts -> take_due at_time ts = (due, later) ->
  due = (filter (fun t => t.1.1 <= at_time) ts).*2 /\ later = filter (fun t => at_time < t.1.1) ts /\ timers_ok later.
Proof.
  intros Hs. revert due later. induction Hs as [|[k c] ts Hs IH Hk]; intros due later H; cbn [take_due] in H.
  { injection H as <- <-. by repeat constructor. }
  destruct (Z.leb_spec k.1 at_time) as [Hle|Hgt].
  - destruct (take_due at_time ts) as [d l] eqn:E. injection H as <- <-. destruct (IH d l eq_refl) as (-> & -> & Hok).
    rewrite filter_cons_True by done. rewrite filter_cons_False by (cbn; lia). done.
  - injection H as <- <-. assert (Hall : Forall (fun t => at_time < t.1.1) ((k, c) :: ts)).
    { constructor; [done|]. eapply Forall_impl; [exact Hk|]. intros [k' c'] H%timer_lt_spec. cbn in *. lia. }
    split_and!; [|by rewrite filter_all|by constructor].
    rewrite filter_none; [done|]. eapply Forall_impl; [exact Hall|]. cbn. lia.
Qed.
End timers.

(** ** Sleeping *)
Section sleeping.
Context {T : Type}.
Implicit Types (ts : list ((Z * Z) * T)) (l : Loop T).

(** [best_delta] is the least positive distance, and gives up at a due timer. *)
Lemma best_delta_spec at_time best ts :
  match best_delta at_time best ts with
  | None => Exists (fun t => t.1.1 <= at_time) ts
  | Some d =>
      Forall (fun t => at_time < t.1.1 /\ d <= t.1.1 - at_time) ts /\ (0 <= best -> d <= best) /\
      (d < 0 <-> best < 0 /\ ts = []) /\ (0 <= d -> d = best \/ 0 < d)
  end.
Proof.
  revert best. induction ts as [|[k c] ts IH]; intros best; cbn [best_delta].
  { split_and!; [constructor|done| |by left]. naive_solver. }
  destruct (Z.leb_spec (k.1 - at_time) 0) as [Hdue|Hpos]; [left; cbn; lia|].
  set (b := if _ || _ then _ else _). assert (Hb : 0 <= b /\ b <= k.1 - at_time /\ (0 <= best -> b <= best) /\ (b = best \/ 0 < b)).
  { unfold b. destruct (Z.ltb_spec best 0), (Z.ltb_spec (k.1 - at_time) best); cbn; lia. }
  specialize (IH b). destruct (best_delta at_time b ts) as [d|]; [|by right].
  destruct IH as (Hf & Hle & Hneg & Hz). split_and!.
  - constructor; [cbn; lia|done].
  - lia.
  - split; [intros Hd; apply Hneg in Hd; lia|intros [_ [=]]].
  - intros Hd. destruct (Hz Hd); lia.
Qed.

(** C30. How long the event loop sleeps: not at all when a timer is due, otherwise at most a second and never past
    the next deadline by more than the granularity of one millisecond; without a limit only when there is neither a
    timer nor a connection. *)
Theorem compute_timeout_bounds at_time l :
  let t := compute_timeout at_time l in
  -1 <= t <= 1000 /\
  (t = -1 <-> lp_connections l = ∅ /\ lp_timers l = []) /\
  (t = 0 <-> Exists (fun x => x.1.1 <= at_time) (lp_timers l)) /\
  Forall (fun x => at_time < x.1.1 -> t * 1000000 <= Z.max (x.1.1 - at_time) 1000000) (lp_timers l).
Proof.
  cbv zeta. unfold compute_timeout. set (b := if bool_decide _ then _ else _).
  pose proof (best_delta_spec at_time b (lp_timers l)) as H. destruct (best_delta at_time b (lp_timers l)) as [d|].
  - destruct H as (Hf & _ & Hneg & Hz). assert (Hno : ~ Exists (fun x => x.1.1 <= at_time) (lp_timers l)).
    { rewrite Exists_exists. intros (x & Hx & Hle). rewrite Forall_forall in Hf. destruct (Hf x Hx). lia. }
    destruct (Z.ltb_spec d 0) as [Hd|Hd].
    + apply Hneg in Hd as [Hb Hts]. split; [lia|]. split; [|split; [|by rewrite Hts; constructor]].
      * split; [|done]. intros _. split; [|done]. unfold b in Hb. by case_bool_decide.
      * split; [lia|]. by intros.
    + pose proof (Z.quot_div_nonneg d 1000000 ltac:(lia) ltac:(lia)) as Hq.
      pose proof (Z.div_mod d 1000000 ltac:(lia)). pose proof (Z.mod_pos_bound d 1000000 ltac:(lia)).
      set (m := if Z.quot d 1000000 =? 0 then 1 else Z.quot d 1000000).
      assert (Hm : 1 <= m /\ m * 1000000 <= Z.max d 1000000).
      { unfold m. destruct (Z.eqb_spec (Z.quot d 1000000) 0); [lia|]. split; [|lia].
        pose proof (Z.div_pos d 1000000 Hd ltac:(lia)). lia. }
      set (t := if 1000 <? m then 1000 else m).
      assert (Ht : 1 <= t <= 1000 /\ t * 1000000 <= Z.max d 1000000) by (unfold t; destruct (Z.ltb_spec 1000 m); lia).
      split_and!; [lia|lia| | |].
      * split; [lia|]. intros [Hc Hts]. unfold b in Hneg. rewrite Hc, bool_decide_eq_true_2 in Hneg by done. assert (d < 0) by (apply Hneg; split; [lia|done]). lia.
      * split; [lia|by intros].
      * eapply Forall_impl; [exact Hf|]. cbn. intros x [Hx Hle] _. lia.
  - split; [lia|]. split; [|split; [done|]].
    + split; [lia|]. intros [_ Hts]. rewrite Hts in H. by apply Exists_nil in H.
    + apply Forall_forall. intros x _ Hx. lia.
Qed.
End sleeping.
