(* ===== verification/Effects.v ===== *)
(** * Effects of the two daemons

    What a method of the coordinator or of the agent is made of. A method is a computation of [ST S]: state
    passing over the members of the object, with the errors of [Result]; an error keeps the state as it was
    when the method returned. Both objects own a registry, a durable store, the connections of an event loop
    and the environment; [Host S] is that part of the object, and the operations below are defined for every
    host. The members [clock_] and [rng_] and the system calls below the store are the [World]: each question
    the code asks gets the answer of the current index, and the index advances. A pointer into a map of the
    registry is the key it was found under; a write through it is an [alter] of the map. *)
From S2P Require Import Prelude Status Utf8 Bytes Ids Types Registry Hash Time Canonical Decision Fencing.
From S2P Require Import Mutation Files Wal Snapshot DurableStore Frame Messages Connection.

(** ** Statements *)
Definition gets {S A} (f : S -> A) : ST S A := fun c => (Val (f c), c).
Definition modify {S} (f : S -> S) : ST S unit := fun c => (Val tt, f c).
Definition err {S A} (o : Outcome) (message : string) : ST S A := st_lift (fail o message).

(** [const Status s = f(); if (!s) { ... }]: the error as a value. An exception is not caught. *)
Definition attempt {S A} (m : ST S A) : ST S (Status + A) := fun c =>
  match m c with
  | (Val a, c') => (Val (inr a), c')
  | (Err e, c') => (Val (inl e), c')
  | (Throw, c') => (Throw, c')
  end.

(** [(void)f();] *)
Definition ignore {S A} (m : ST S A) : ST S unit := _ ← attempt m; mret tt.

(** [for (x : l) { body; if (failed) return error; }] *)
Fixpoint each {S A} (body : A -> ST S unit) (l : list A) : ST S unit :=
  match l with
  | [] => mret tt
  | x :: l => _ ← body x; each body l
  end.

Fixpoint fold_m {S A B} (body : B -> A -> ST S B) (b : B) (l : list A) : ST S B :=
  match l with
  | [] => mret b
  | x :: l => b' ← body b x; fold_m body b' l
  end.

(** ** The environment *)
(** The clock, the random source and the system calls of the store. *)
Record World := mkWorld {
  wl_now : nat -> Z;
  wl_monotonic : nat -> Z;
  wl_uuid : nat -> string;
  wl_append : nat -> AppendIo;
  wl_save : nat -> WriteIo;
  wl_reset : nat -> WriteIo;
  wl_next : nat;
}.
Definition world_step (w : World) : World :=
  mkWorld (wl_now w) (wl_monotonic w) (wl_uuid w) (wl_append w) (wl_save w) (wl_reset w) (S (wl_next w)).

(** ** Hosts *)
Class Host (S : Type) := {
  host_registry : S -> Registry;
  host_set_registry : S -> Registry -> S;
  host_store : S -> DurableStore;
  host_disk : S -> Disk;
  host_set_store : S -> DurableStore -> Disk -> S;
  host_connections : S -> gmap Z Connection;
  host_set_connections : S -> gmap Z Connection -> S;
  host_world : S -> World;
  host_set_world : S -> World -> S;
}.

Section host.
Context {S : Type} `{Host S}.

Definition in_registry {A} (f : ST Registry A) : ST S A := fun c =>
  match f (host_registry c) with (r, reg) => (r, host_set_registry c reg) end.
Definition in_store {A} (f : ST (DurableStore * Disk) A) : ST S A := fun c =>
  match f (host_store c, host_disk c) with (r, (ds, d)) => (r, host_set_store c ds d) end.

(** A [put_*] or [erase_*] of the registry. *)
Definition put (f : Registry -> Result Registry) : ST S unit := in_registry (st_try f).

(** Writes through a pointer into the registry. *)
Definition on_tables (f : Registry -> Registry) : ST S unit :=
  modify (fun c => host_set_registry c (f (host_registry c))).
Definition update_cluster (id : string) (f : ClusterRecord -> ClusterRecord) : ST S unit :=
  on_tables (fun r => with_clusters (alter f id (rg_clusters r)) r).
Definition update_link (id : string) (f : LinkRecord -> LinkRecord) : ST S unit :=
  on_tables (fun r => with_links (alter f id (rg_links r)) r).
Definition update_contract (id : string) (f : ContractRecord -> ContractRecord) : ST S unit :=
  on_tables (fun r => with_contracts (alter f id (rg_contracts r)) r).
Definition update_grant (id : string) (f : GrantRecord -> GrantRecord) : ST S unit :=
  on_tables (fun r => with_grants (alter f id (rg_grants r)) r).

Definition ask {A} (question : World -> nat -> A) : ST S A := fun c =>
  (Val (question (host_world c) (wl_next (host_world c))), host_set_world c (world_step (host_world c))).
Definition now : ST S Z := ask wl_now.
Definition random_uuid : ST S string := ask wl_uuid.

(** [append_mutation] of both classes. *)
Definition append_mutation (m : Mutation) : ST S unit :=
  at_time ← now;
  io ← ask wl_append;
  _ ← in_store (store_append io m at_time);
  mret tt.

(** [mutation.grant = *grant; append_mutation(mutation)] through the pointer. *)
Definition persist_grant (id : string) : ST S unit :=
  found ← gets (fun c => find_grant (host_registry c) id);
  match found with
  | Some grant => append_mutation (MGrantPut grant)
  | None => mret tt
  end.

(** [loop_.find(id)], and a method of the connection that was found. *)
Definition on_connection {A} (id : Z) (absent : Result A) (f : ST Connection A) : ST S A := fun c =>
  match host_connections c !! id with
  | None => (absent, c)
  | Some connection =>
      match f connection with
      | (r, connection') => (r, host_set_connections c (<[id := connection']> (host_connections c)))
      end
  end.
End host.

(** [connection->queue_frame(type, encode_message(message), connection->signing_enabled())] *)
Definition queue_message (message : Message) : ST Connection unit := fun connection =>
  queue_frame (message_type message) (encode_message message) (nc_sign_outbound (cn_config connection)) connection.

(** ** Values *)
(** [std::to_string] of an unsigned value. *)
Definition num (v : Z) : string := bytes_str (dec_unsigned v).

(** [++counter] of a [std::uint64_t]. *)
Definition inc (v : Z) : Z := (v + 1) mod 2 ^ 64.

(** Assignments to three members of a [Provenance]. *)
Definition set_pv (source : EvidenceSource) (at_time : Z) (p : Provenance) : Provenance :=
  mkProvenance source VerificationState_Verified at_time (pv_revision p) (pv_session p) (pv_evidence_digest p).

(** The first endpoint with the identity. *)
Definition endpoint_of (l : list EndpointRecord) (id : string) : option EndpointRecord :=
  snd <$> list_find (fun e => ep_id e = id) l.

(** [grant->state = state; grant->note = note;] *)
Definition mark_grant (state : GrantState) (note : string) (g : GrantRecord) : GrantRecord :=
  set_gr_state state note (gr_revision g) (gr_provenance g) g.
