(* ===== verification/Logic.v ===== *)
(** * Reasoning about methods

    [runs R c m]: from the state [c] the method [m] ends, with whatever result, in a state related to [c] by
    [R]. The rules follow the structure of the methods; [HostFrame R] says that [R] does not look at the
    connections and the environment, so that sending and asking are free, and [StoreFrame R] that it does not
    look at the store either. The tactic [walk] applies the rules and the lemmas of the hint database [runs]. *)
From S2P Require Import Prelude Status Utf8 Bytes Ids Types Registry Canonical Fencing Mutation Files Wal Snapshot DurableStore.
From S2P Require Import Frame Messages Connection Effects.

Definition runs {S A} (R : S -> S -> Prop) (c : S) (m : ST S A) : Prop := R c (m c).2.

Class HostFrame {S} `{Host S} (R : S -> S -> Prop) := {
  hf_preorder :: PreOrder R;
  hf_connections c m : R c (host_set_connections c m);
  hf_world c w : R c (host_set_world c w);
}.

Class StoreFrame {S} `{Host S} (R : S -> S -> Prop) := {
  sf_host :: HostFrame R;
  sf_store c ds d : R c (host_set_store c ds d);
}.

(** A relation between the registries. *)
Definition on_registry {S} `{Host S} (P : Registry -> Registry -> Prop) (c c' : S) : Prop :=
  P (host_registry c) (host_registry c').

(** The registry is untouched. *)
Definition registry_eq (r r' : Registry) : Prop := r' = r.
#[export] Instance registry_eq_preorder : PreOrder registry_eq.
Proof. split; [done|]. unfold registry_eq. congruence. Qed.

Create HintDb runs.
#[export] Hint Extern 0 (HostFrame _) => apply _ : runs.
#[export] Hint Extern 0 (StoreFrame _) => apply _ : runs.
#[export] Hint Extern 0 (PreOrder _) => apply _ : runs.

Lemma runs_result {S A} (R : S -> S -> Prop) c (m : ST S A) a c' : runs R c m -> m c = (a, c') -> R c c'.
Proof. unfold runs. intros H E. by rewrite E in H. Qed.

Lemma bind_inv {S A B} (m : ST S A) (k : A -> ST S B) c b c' :
  (m ≫= k) c = (Val b, c') -> exists a c1, m c = (Val a, c1) /\ k a c1 = (Val b, c').
Proof. unfold mbind, ST_bind. destruct (m c) as [[a|e|] c1]; [eauto|done..]. Qed.

(** What every turn of a loop establishes for its element and keeps for the others holds after the loop. *)
Lemma each_establish {S A} (P : A -> S -> Prop) (body : A -> ST S unit) l c c' :
  (forall x c c', body x c = (Val tt, c') -> P x c') ->
  (forall x y c c', body y c = (Val tt, c') -> P x c -> P x c') ->
  each body l c = (Val tt, c') -> forall x, x ∈ l \/ P x c -> P x c'.
Proof.
  intros Hnew Hkeep. revert c. induction l as [|y l IH]; intros c H x Hx; cbn [each] in H.
  { injection H as <-. by destruct Hx as [Hx%elem_of_nil|]. }
  apply bind_inv in H as ([] & c1 & H1 & H). apply (IH c1 H). destruct Hx as [[->|Hx]%elem_of_cons|Hx]; eauto.
Qed.

Lemma fold_establish {S A B} (P : A -> S -> Prop) (body : B -> A -> ST S B) l b c b' c' :
  (forall b x c b' c', body b x c = (Val b', c') -> P x c') ->
  (forall b x y c b' c', body b y c = (Val b', c') -> P x c -> P x c') ->
  fold_m body b l c = (Val b', c') -> forall x, x ∈ l \/ P x c -> P x c'.
Proof.
  intros Hnew Hkeep. revert b c. induction l as [|y l IH]; intros b c H x Hx; cbn [fold_m] in H.
  { injection H as _ <-. by destruct Hx as [Hx%elem_of_nil|]. }
  apply bind_inv in H as (b1 & c1 & H1 & H). apply (IH b1 c1 H). destruct Hx as [[->|Hx]%elem_of_cons|Hx]; eauto.
Qed.

(** ** Statements *)
Section statements.
Context {S : Type} (R : S -> S -> Prop) {HR : PreOrder R}.
Implicit Types (c : S).

Lemma runs_ret {A} c (a : A) : runs R c (mret a).
Proof. unfold runs. cbn. reflexivity. Qed.

Lemma runs_lift {A} c (r : Result A) : runs R c (st_lift r).
Proof. unfold runs. cbn. reflexivity. Qed.

Lemma runs_err {A} c o s : runs R c (@err S A o s).
Proof. apply runs_lift. Qed.

Lemma runs_gets {A} c (f : S -> A) : runs R c (gets f).
Proof. unfold runs. cbn. reflexivity. Qed.

Lemma runs_bind {A B} c (m : ST S A) (k : A -> ST S B) :
  runs R c m -> (forall a c', m c = (Val a, c') -> runs R c' (k a)) -> runs R c (m ≫= k).
Proof.
  unfold runs, mbind, ST_bind. intros Hm Hk. destruct (m c) as [[a|e|] c'] eqn:E; cbn in *; [|done..].
  etransitivity; [exact Hm|]. by apply Hk.
Qed.

Lemma runs_gets_bind {A B} c (f : S -> A) (k : A -> ST S B) : runs R c (k (f c)) -> runs R c (gets f ≫= k).
Proof. done. Qed.

Lemma runs_modify c f : R c (f c) -> runs R c (modify f).
Proof. done. Qed.

Lemma runs_attempt {A} c (m : ST S A) : runs R c m -> runs R c (attempt m).
Proof. unfold runs, attempt. by destruct (m c) as [[] ?]. Qed.

Lemma runs_ignore {A} c (m : ST S A) : runs R c m -> runs R c (ignore m).
Proof. intros. apply runs_bind; [by apply runs_attempt|]. intros. apply runs_ret. Qed.

Lemma runs_each {A} c (body : A -> ST S unit) l : (forall x c, x ∈ l -> runs R c (body x)) -> runs R c (each body l).
Proof.
  revert c. induction l as [|x l IH]; intros c Hb; [apply runs_ret|]. cbn [each]. apply runs_bind.
  - apply Hb. by left.
  - intros _ c' _. apply IH. intros. apply Hb. by right.
Qed.

Lemma runs_fold {A B} c (body : B -> A -> ST S B) b l :
  (forall b x c, x ∈ l -> runs R c (body b x)) -> runs R c (fold_m body b l).
Proof.
  revert b c. induction l as [|x l IH]; intros b c Hb; [apply runs_ret|]. cbn [fold_m]. apply runs_bind.
  - apply Hb. by left.
  - intros b' c' _. apply IH. intros. apply Hb. by right.
Qed.

End statements.

(** ** Operations of a host *)
Section hosts.
Context {S : Type} `{Host S} (R : S -> S -> Prop).
Implicit Types (c : S).

Lemma runs_in_registry {A} c (f : ST Registry A) :
  R c (host_set_registry c (f (host_registry c)).2) -> runs R c (in_registry f).
Proof. unfold runs, in_registry. by destruct (f (host_registry c)). Qed.

Lemma runs_on_tables c f : R c (host_set_registry c (f (host_registry c))) -> runs R c (on_tables f).
Proof. done. Qed.

Context {HR : HostFrame R}.

Lemma runs_ask {A} c (question : World -> nat -> A) : runs R c (ask question).
Proof. unfold runs, ask. cbn. apply hf_world. Qed.

Lemma runs_now c : runs R c now.
Proof. apply runs_ask. Qed.

Lemma runs_random_uuid c : runs R c random_uuid.
Proof. apply runs_ask. Qed.

Lemma runs_on_connection {A} c id absent (f : ST Connection A) : runs R c (on_connection id absent f).
Proof.
  unfold runs, on_connection. destruct (host_connections c !! id); [|cbn; reflexivity].
  destruct (f _). cbn. apply hf_connections.
Qed.
End hosts.
#[export] Hint Resolve runs_ret runs_lift runs_err runs_gets runs_ask runs_now runs_random_uuid runs_on_connection : runs.

(** One rule; a [match] or an [if] is split, and its condition is kept. *)
Ltac walk_step :=
  lazymatch goal with
  | |- runs _ _ (gets _ ≫= _) => apply runs_gets_bind; cbn beta
  | |- runs _ _ (_ ≫= _) => apply (runs_bind _); [|let a := fresh "a" in let c := fresh "c" in intros a c ?; cbn beta iota zeta]
  | |- runs _ _ (attempt _) => apply (runs_attempt _)
  | |- runs _ _ (ignore _) => apply (runs_ignore _)
  | |- runs _ _ (each _ _) => apply (runs_each _); intros ? ? ?
  | |- runs _ _ (fold_m _ _ _) => apply (runs_fold _); intros ? ? ? ?
  | |- runs _ _ (match ?x with _ => _ end) => destruct x eqn:?
  | |- runs _ _ (let _ := _ in _) => cbv zeta
  end.
Ltac walk := repeat first [solve [eauto with runs] | walk_step].

(** ** Persistence *)
Section persistence.
Context {S : Type} `{Host S} (R : S -> S -> Prop) {HR : StoreFrame R}.
Implicit Types (c : S).

Lemma runs_in_store {A} c (f : ST (DurableStore * Disk) A) : runs R c (in_store f).
Proof. unfold runs, in_store. destruct (f _) as [? [ds d]]. cbn. apply sf_store. Qed.
#[local] Hint Resolve runs_in_store : runs.

Lemma runs_append_mutation c m : runs R c (append_mutation m).
Proof. unfold append_mutation. walk. Qed.
#[local] Hint Resolve runs_append_mutation : runs.

Lemma runs_persist_grant c id : runs R c (persist_grant id).
Proof. unfold persist_grant. walk. Qed.
End persistence.
#[export] Hint Resolve runs_in_store runs_append_mutation runs_persist_grant : runs.
