(* ===== verification/EventLoop.v ===== *)
(** * The event loop at work

    Models [Connection::dispatch], [EventLoop::sweep_connections] and the treatment of one connection in
    [EventLoop::pump] of src/net/reactor.cpp, for the connections of any host. The handlers that the host
    installed are [on_frame] and [on_close]; what poll and the sockets answer are arguments. [pending_erase_]
    is passed along. *)
From S2P Require Import Prelude Status Utf8 Bytes Ids Types Registry Hash Time Canonical Decision Fencing.
From S2P Require Import Mutation Files Wal Snapshot DurableStore Frame Messages Connection Reactor Effects Logic.

Definition kMaxFramesPerIteration : nat := 64.

Definition set_parser (p : FrameParser) (cn : Connection) : Connection :=
  mkConnection (cn_id cn) (cn_config cn) (cn_queue cn) (cn_queue_offset cn) (cn_queued_bytes cn) (cn_close_reason cn)
    (cn_closed cn) p (cn_last_activity cn) (cn_close_reported cn).
Definition set_last_activity (t : Z) (cn : Connection) : Connection :=
  mkConnection (cn_id cn) (cn_config cn) (cn_queue cn) (cn_queue_offset cn) (cn_queued_bytes cn) (cn_close_reason cn)
    (cn_closed cn) (cn_parser cn) t (cn_close_reported cn).
Definition set_close_reported (cn : Connection) : Connection :=
  mkConnection (cn_id cn) (cn_config cn) (cn_queue cn) (cn_queue_offset cn) (cn_queued_bytes cn) (cn_close_reason cn)
    (cn_closed cn) (cn_parser cn) (cn_last_activity cn) true.

(** [Connection::fill] *)
Definition connection_fill (socket : list (Result bytes)) : ST Connection unit := fun cn =>
  match fill socket (cn_parser cn) with (r, p) => (r, set_parser p cn) end.

(** What poll says about a connection and what its socket answers to reading, to the first and to the second
    flush. *)
Record PollItem := mkPollItem {
  pi_readable : bool;
  pi_writable : bool;
  pi_failed : bool;
  pi_receive : list (Result bytes);
  pi_send : list (Z -> Result Z);
  pi_resend : list (Z -> Result Z);
}.

Section event_loop.
Context {S : Type} `{Host S} (on_frame : Z -> Frame -> ST S unit) (on_close : Z -> Status -> ST S unit).

Definition update_connection (id : Z) (f : Connection -> Connection) : ST S unit :=
  modify (fun s => host_set_connections s (alter f id (host_connections s))).
Definition find_connection (id : Z) : ST S (option Connection) := gets (fun s => host_connections s !! id).

(** [Connection::dispatch]: the key is read for every frame, since a handler may install one. *)
Fixpoint dispatch_loop (fuel : nat) (id : Z) : ST S unit :=
  match fuel with
  | O => mret tt
  | Datatypes.S fuel =>
      found ← find_connection id;
      match found with
      | None => mret tt
      | Some cn =>
          next ← st_lift (parser_next (nc_verify_key (cn_config cn)) (cn_parser cn));
          _ ← update_connection id (set_parser next.2);
          match next.1 with
          | None => mret tt
          | Some frame =>
              _ ← on_frame id frame;
              closed ← gets (fun s => from_option cn_closed true (host_connections s !! id));
              if negb closed then dispatch_loop fuel id else mret tt
          end
      end
  end.
Definition dispatch (id : Z) : ST S unit := dispatch_loop kMaxFramesPerIteration id.

(** [connection->close(status); pending_erase_.push_back(id);] *)
Definition close_and_erase (id : Z) (status : Status) (pending : list Z) : ST S (list Z) :=
  _ ← update_connection id (close status); mret (pending ++ [id]).

(** [if (has_output() && condition) { flush; on an error close }]; the bytes that left are the result. *)
Definition flush_if (condition : bool) (id : Z) (socket : list (Z -> Result Z)) : ST S (Status + bytes) :=
  found ← find_connection id;
  match found with
  | Some cn =>
      if condition && (0 <? cn_queued_bytes cn) then attempt (on_connection id (Val []) (flush socket)) else mret (inr [])
  | None => mret (inr [])
  end.

(** The last loop of [pump], for one connection. *)
Definition pump_connection (pending : list Z) (id : Z) (item : PollItem) : ST S (list Z) :=
  found ← find_connection id;
  match found with
  | None => mret pending
  | Some _ =>
      failed ← (if negb (pi_readable item) then mret None
                else
                  filled ← attempt (on_connection id (Val tt) (connection_fill (pi_receive item)));
                  at_time ← now;
                  _ ← update_connection id (set_last_activity at_time);
                  dispatched ← attempt (dispatch id);
                  mret (match dispatched, filled with
                        | inl e, _ => Some e
                        | inr _, inl e => Some e
                        | inr _, inr _ => None
                        end));
      match failed with
      | Some e => close_and_erase id e pending
      | None =>
          if pi_failed item then
            close_and_erase id (status_make Outcome_Unreachable "socket reported an error condition") pending
          else
            flushed ← flush_if (pi_writable item || pi_readable item) id (pi_send item);
            match flushed with
            | inl e => close_and_erase id e pending
            | inr _ =>
                again ← flush_if (negb (pi_writable item)) id (pi_resend item);
                match again with
                | inl e => close_and_erase id e pending
                | inr _ => mret pending
                end
            end
      end
  end.

(** The lambda [report_and_erase] of [sweep_connections]. *)
Definition report_closed (id : Z) : ST S unit :=
  found ← find_connection id;
  match found with
  | None => mret tt
  | Some cn =>
      if negb (cn_closed cn) || cn_close_reported cn then mret tt
      else
        _ ← update_connection id set_close_reported;
        on_close id (cn_close_reason cn)
  end.
Definition report_and_erase (pending : list Z) : ST S unit :=
  _ ← each report_closed pending;
  each (fun id => modify (fun s => host_set_connections s (delete id (host_connections s)))) pending.

(** The connections in the order of the map. *)
Definition connection_ids (s : S) : list Z := merge_sort Z.le (map_to_list (host_connections s)).*1.

(** One turn of the second loop of [sweep_connections]. *)
Definition idle_sweep (at_time : Z) (pending : list Z) (id : Z) : ST S (list Z) :=
  found ← find_connection id;
  match found with
  | None => mret pending
  | Some cn =>
      if cn_closed cn then mret (pending ++ [id])
      else if (0 <? nc_idle_deadline (cn_config cn)) && negb (cn_last_activity cn =? 0) &&
              (nc_idle_deadline (cn_config cn) <? timestamp_since at_time (cn_last_activity cn))
      then close_and_erase id (status_make Outcome_Unreachable "connection idle deadline expired") pending
      else mret pending
  end.

Definition sweep_connections (pending : list Z) : ST S unit :=
  _ ← report_and_erase pending;
  at_time ← now;
  ids ← gets connection_ids;
  pending ← fold_m (idle_sweep at_time) [] ids;
  report_and_erase pending.
End event_loop.

(** ** The loop does what its handlers do *)
Section loop_rules.
Context {S : Type} `{Host S} (on_frame : Z -> Frame -> ST S unit) (on_close : Z -> Status -> ST S unit).
Context (R : S -> S -> Prop) {HR : HostFrame R}.
Context (Hframe : forall s id frame, runs R s (on_frame id frame)) (Hclose : forall s id reason, runs R s (on_close id reason)).
Implicit Types (s : S).

Lemma runs_set_connections s f : runs R s (modify (fun s => host_set_connections s (f s))).
Proof. apply (runs_modify _), hf_connections. Qed.
Lemma runs_update_connection s id f : runs R s (update_connection id f).
Proof. apply (runs_modify _), hf_connections. Qed.
Lemma runs_find_connection s id : runs R s (find_connection id).
Proof. unfold find_connection. walk. Qed.
#[local] Hint Resolve runs_set_connections runs_update_connection runs_find_connection Hframe Hclose : runs.

Lemma runs_dispatch s id : runs R s (dispatch on_frame id).
Proof.
  unfold dispatch. generalize kMaxFramesPerIteration as fuel. intros fuel. revert s.
  induction fuel as [|fuel IH]; intros s; cbn [dispatch_loop]; walk.
Qed.
Lemma runs_close_and_erase s id status pending : runs R s (close_and_erase id status pending).
Proof. unfold close_and_erase. walk. Qed.
Lemma runs_flush_if s condition id socket : runs R s (flush_if condition id socket).
Proof. unfold flush_if. walk. Qed.
#[local] Hint Resolve runs_dispatch runs_close_and_erase runs_flush_if : runs.

Lemma runs_pump_connection s pending id item : runs R s (pump_connection on_frame pending id item).
Proof. unfold pump_connection. walk. Qed.

Lemma runs_report_and_erase s pending : runs R s (report_and_erase on_close pending).
Proof. unfold report_and_erase, report_closed. walk. Qed.
#[local] Hint Resolve runs_report_and_erase : runs.

Lemma runs_sweep s pending : runs R s (sweep_connections on_close pending).
Proof. unfold sweep_connections, idle_sweep. walk. Qed.
End loop_rules.
