(* ===== verification/Agent.v ===== *)
(** * The cluster agent: state, incarnation, enforcement and the local control surface

    Models include/icf/runtime/agent.hpp and src/runtime/agent.cpp but for the message handlers
    (AgentHandlers.v). A method is a computation in [AM], the statements of [Effects.v] over the state
    [Agent]. *)
From S2P Require Import Prelude Status Utf8 Bytes Ids Types Registry Hash Time Canonical Terms Decision Fencing.
From S2P Require Import Mutation Files Wal Snapshot DurableStore Frame Messages Connection Reactor Effects.

(** ** State *)
(** The members of [Agent::Config] that the modelled code reads. *)
Record AgentConfig := mkAgentConfig {
  ac_cluster : string;
  ac_domain : string;
  ac_generation : Z;
  ac_policy_generation : Z;
  ac_state : ClusterState;
  ac_endpoints : list EndpointRecord;
  ac_coordinator_port : Z;
  ac_state_directory : string;
  ac_channel_key : string;
  ac_durable : bool;
  ac_handshake_deadline : Z;
  ac_reconnect_backoff : Z;
  ac_reconnect_backoff_max : Z;
  ac_compact_bytes : Z;
  ac_compact_records : Z;
  ac_require_coordinator : bool;
}.

Record Role := mkRole {
  ro_observer : bool;
  ro_hello_complete : bool;
  ro_token : string;
  ro_cluster : string;
  ro_connection_id : Z;
}.

(** The callbacks the agent schedules on its event loop. *)
Inductive AgentTimer :=
| AgentTimer_Tick
| AgentTimer_Connect
| AgentTimer_Reconnect
| AgentTimer_Handshake.

(** What the agent says about itself: [term_], [incarnation_], [generation_], [policy_generation_],
    [cluster_state_], [consent_withdrawn_] and [started_at_]. *)
Record Identity := mkIdentity {
  id_term : Z;
  id_incarnation : string;
  id_generation : Z;
  id_policy_generation : Z;
  id_cluster_state : ClusterState;
  id_consent_withdrawn : bool;
  id_started_at : Z;
}.

(** The members of the channel to the coordinator. *)
Record Uplink := mkUplink {
  up_connection : Z;
  up_session : string;
  up_term : Z;
  up_incarnation : string;
  up_connected : bool;
  up_handshake_complete : bool;
  up_backoff : Z;
  up_connect_scheduled : bool;
}.

Record AgentCounters := mkAgentCounters {
  ak_enforced : Z;
  ak_fences : Z;
  ak_refusals : Z;
  ak_revalidations : Z;
  ak_rejected_frames : Z;
  ak_errors_received : Z;
  ak_recovered_grants_fenced : Z;
}.

(** [a_dial]: what connecting to the coordinator's address answers. *)
Record Agent := mkAgent {
  a_config : AgentConfig;
  a_store : DurableStore;
  a_disk : Disk;
  a_recovery : Recovery;
  a_registry : Registry;
  a_identity : Identity;
  a_loop : Loop AgentTimer;
  a_roles : gmap Z Role;
  a_uplink : Uplink;
  a_counters : AgentCounters;
  a_world : World;
  a_dial : nat -> Result unit;
}.

(** ** Assignments to the members *)
Section agent_members.
Context (a : Agent).
Definition a_set_config (c : AgentConfig) : Agent :=
  mkAgent c (a_store a) (a_disk a) (a_recovery a) (a_registry a) (a_identity a) (a_loop a) (a_roles a) (a_uplink a)
    (a_counters a) (a_world a) (a_dial a).
Definition a_set_store (ds : DurableStore) (d : Disk) : Agent :=
  mkAgent (a_config a) ds d (a_recovery a) (a_registry a) (a_identity a) (a_loop a) (a_roles a) (a_uplink a)
    (a_counters a) (a_world a) (a_dial a).
Definition a_set_registry (r : Registry) : Agent :=
  mkAgent (a_config a) (a_store a) (a_disk a) (a_recovery a) r (a_identity a) (a_loop a) (a_roles a) (a_uplink a)
    (a_counters a) (a_world a) (a_dial a).
Definition a_set_identity (i : Identity) : Agent :=
  mkAgent (a_config a) (a_store a) (a_disk a) (a_recovery a) (a_registry a) i (a_loop a) (a_roles a) (a_uplink a)
    (a_counters a) (a_world a) (a_dial a).
Definition a_set_loop (l : Loop AgentTimer) : Agent :=
  mkAgent (a_config a) (a_store a) (a_disk a) (a_recovery a) (a_registry a) (a_identity a) l (a_roles a) (a_uplink a)
    (a_counters a) (a_world a) (a_dial a).
Definition a_set_roles (m : gmap Z Role) : Agent :=
  mkAgent (a_config a) (a_store a) (a_disk a) (a_recovery a) (a_registry a) (a_identity a) (a_loop a) m (a_uplink a)
    (a_counters a) (a_world a) (a_dial a).
Definition a_set_uplink (u : Uplink) : Agent :=
  mkAgent (a_config a) (a_store a) (a_disk a) (a_recovery a) (a_registry a) (a_identity a) (a_loop a) (a_roles a) u
    (a_counters a) (a_world a) (a_dial a).
Definition a_set_counters (k : AgentCounters) : Agent :=
  mkAgent (a_config a) (a_store a) (a_disk a) (a_recovery a) (a_registry a) (a_identity a) (a_loop a) (a_roles a)
    (a_uplink a) k (a_world a) (a_dial a).
Definition a_set_world (w : World) : Agent :=
  mkAgent (a_config a) (a_store a) (a_disk a) (a_recovery a) (a_registry a) (a_identity a) (a_loop a) (a_roles a)
    (a_uplink a) (a_counters a) w (a_dial a).
End agent_members.

#[export] Instance agent_host : Host Agent := {
  host_registry := a_registry;
  host_set_registry := a_set_registry;
  host_store := a_store;
  host_disk := a_disk;
  host_set_store := a_set_store;
  host_connections a := lp_connections (a_loop a);
  host_set_connections a m := a_set_loop a (with_connections m (a_loop a));
  host_world := a_world;
  host_set_world := a_set_world;
}.

Abbreviation AM := (ST Agent).

(** [++counter_] of each counter. *)
Definition count (f : AgentCounters -> AgentCounters) : AM unit := modify (fun a => a_set_counters a (f (a_counters a))).
Definition inc_enforced (k : AgentCounters) : AgentCounters :=
  mkAgentCounters (inc (ak_enforced k)) (ak_fences k) (ak_refusals k) (ak_revalidations k) (ak_rejected_frames k)
    (ak_errors_received k) (ak_recovered_grants_fenced k).
Definition inc_fences (k : AgentCounters) : AgentCounters :=
  mkAgentCounters (ak_enforced k) (inc (ak_fences k)) (ak_refusals k) (ak_revalidations k) (ak_rejected_frames k)
    (ak_errors_received k) (ak_recovered_grants_fenced k).
Definition inc_agent_refusals (k : AgentCounters) : AgentCounters :=
  mkAgentCounters (ak_enforced k) (ak_fences k) (inc (ak_refusals k)) (ak_revalidations k) (ak_rejected_frames k)
    (ak_errors_received k) (ak_recovered_grants_fenced k).
Definition inc_agent_rejected (k : AgentCounters) : AgentCounters :=
  mkAgentCounters (ak_enforced k) (ak_fences k) (ak_refusals k) (ak_revalidations k) (inc (ak_rejected_frames k))
    (ak_errors_received k) (ak_recovered_grants_fenced k).
Definition inc_agent_errors (k : AgentCounters) : AgentCounters :=
  mkAgentCounters (ak_enforced k) (ak_fences k) (ak_refusals k) (ak_revalidations k) (ak_rejected_frames k)
    (inc (ak_errors_received k)) (ak_recovered_grants_fenced k).
Definition inc_recovered (k : AgentCounters) : AgentCounters :=
  mkAgentCounters (ak_enforced k) (ak_fences k) (ak_refusals k) (ak_revalidations k) (ak_rejected_frames k)
    (ak_errors_received k) (inc (ak_recovered_grants_fenced k)).

(** ** Assignments to the identity and to the uplink *)
Definition set_id_generation (g : Z) (i : Identity) : Identity :=
  mkIdentity (id_term i) (id_incarnation i) g (id_policy_generation i) (id_cluster_state i) (id_consent_withdrawn i)
    (id_started_at i).
Definition set_id_policy (g : Z) (i : Identity) : Identity :=
  mkIdentity (id_term i) (id_incarnation i) (id_generation i) g (id_cluster_state i) (id_consent_withdrawn i)
    (id_started_at i).
Definition set_id_state (s : ClusterState) (i : Identity) : Identity :=
  mkIdentity (id_term i) (id_incarnation i) (id_generation i) (id_policy_generation i) s (id_consent_withdrawn i)
    (id_started_at i).
Definition set_id_withdrawn (w : bool) (i : Identity) : Identity :=
  mkIdentity (id_term i) (id_incarnation i) (id_generation i) (id_policy_generation i) (id_cluster_state i) w
    (id_started_at i).
Definition on_identity (f : Identity -> Identity) : AM unit := modify (fun a => a_set_identity a (f (a_identity a))).

Definition on_uplink (f : Uplink -> Uplink) : AM unit := modify (fun a => a_set_uplink a (f (a_uplink a))).
Definition set_up_backoff (b : Z) (u : Uplink) : Uplink :=
  mkUplink (up_connection u) (up_session u) (up_term u) (up_incarnation u) (up_connected u) (up_handshake_complete u) b
    (up_connect_scheduled u).
Definition set_up_scheduled (b : bool) (u : Uplink) : Uplink :=
  mkUplink (up_connection u) (up_session u) (up_term u) (up_incarnation u) (up_connected u) (up_handshake_complete u)
    (up_backoff u) b.
(** A connection attempt starts, and a connection is lost. *)
Definition set_up_connection (id : Z) (u : Uplink) : Uplink :=
  mkUplink id (up_session u) (up_term u) (up_incarnation u) false false (up_backoff u) (up_connect_scheduled u).
(** The handshake is answered. *)
Definition set_up_session (session : string) (term : Z) (incarnation : string) (backoff : Z) (u : Uplink) : Uplink :=
  mkUplink (up_connection u) session term incarnation true true backoff (up_connect_scheduled u).

(** ** The event loop *)
Definition in_loop {A} (f : ST (Loop AgentTimer) A) : AM A := fun a =>
  match f (a_loop a) with (r, l) => (r, a_set_loop a l) end.

(** [(void)loop_.schedule(clock_->now().plus(delay), callback)] *)
Definition schedule_in (delay : Z) (callback : AgentTimer) : AM unit :=
  at_time ← now; _ ← in_loop (schedule (timestamp_plus at_time delay) callback); mret tt.

(** [net::Socket::connect(...)] *)
Definition dial : AM unit := fun a =>
  (a_dial a (wl_next (a_world a)), a_set_world a (world_step (a_world a))).

(** ** Persistence *)
(** The member function [append_audit]. *)
Definition agent_append_audit (action subject : string) (outcome : Outcome) (detail : string) : AM unit :=
  trail ← gets (fun a => rg_audit (a_registry a));
  if limits.kMaxAuditRecords <=? zlen trail then mret tt
  else
    at_time ← now;
    actor ← gets (fun a => ac_cluster (a_config a));
    _ ← in_registry (append_audit at_time actor action subject outcome detail);
    back ← gets (fun a => last (rg_audit (a_registry a)));
    match back with
    | Some record => append_mutation (MAuditAppend record)
    | None => mret tt
    end.

(** [for (auto& entry : registry_.grants()) { GrantRecord& grant = entry.second; ... }] *)
Definition each_grant (body : string -> GrantRecord -> AM unit) : AM unit :=
  ids ← gets (fun a => (entries (rg_grants (a_registry a))).*1);
  each (fun id =>
    found ← gets (fun a => find_grant (a_registry a) id);
    match found with
    | Some grant => body id grant
    | None => mret tt
    end) ids.

Definition local_cluster (a : Agent) : option ClusterRecord := find_cluster (a_registry a) (ac_cluster (a_config a)).
Definition channel_key (a : Agent) : bytes := str_bytes (ac_channel_key (a_config a)).

(** [content_digest_of]: what the cluster declares, without what is stamped on the record. *)
Definition content_digest_of (record : ClusterRecord) : string :=
  sha256_hash (encode_cluster
    (mkCluster (cl_id record) (cl_domain record) (cl_incarnation record) (cl_generation record)
       (cl_policy_generation record) (cl_state record) false 0 (cl_endpoints record) zero_digest false None 0
       provenance_default 0)).

(** [ClusterRecord{}] *)
Definition cluster_blank : ClusterRecord :=
  mkCluster "" "" nil_uuid 0 0 ClusterState_Unknown false 0 [] zero_digest false None 0 provenance_default 0.

(** The endpoints of the configuration, stamped with the cluster and its policy generation. *)
Definition stamp_endpoint (cluster : string) (policy_generation : Z) (e : EndpointRecord) : EndpointRecord :=
  mkEndpoint (ep_id e) cluster (ep_scope e) (ep_capacity e) (ep_reserved e) policy_generation (ep_state e)
    (ep_inter_cluster_allowed e) (ep_permits_degraded e) (ep_provenance e).

Definition set_cl_content_digest (digest : string) (revision : Z) (c : ClusterRecord) : ClusterRecord :=
  mkCluster (cl_id c) (cl_domain c) (cl_incarnation c) (cl_generation c) (cl_policy_generation c) (cl_state c)
    (cl_consent_withdrawn c) (cl_last_seen c) (cl_endpoints c) digest (cl_generation_conflict c)
    (cl_conflicting_generation c) revision (cl_provenance c) (cl_incarnation_changes c).

(** The record that [persist_cluster] stores. *)
Definition described_cluster (config : AgentConfig) (i : Identity) (existing : option ClusterRecord) (seen observed : Z)
    : ClusterRecord :=
  let record := default cluster_blank existing in
  let record :=
    mkCluster (ac_cluster config) (ac_domain config) (id_incarnation i) (id_generation i) (id_policy_generation i)
      (id_cluster_state i) (id_consent_withdrawn i) seen
      (sort_endpoints (stamp_endpoint (ac_cluster config) (id_policy_generation i) <$> ac_endpoints config))
      (cl_content_digest record) (cl_generation_conflict record) (cl_conflicting_generation record) (cl_revision record)
      (set_pv EvidenceSource_AdminConfigured observed (cl_provenance record)) (cl_incarnation_changes record) in
  set_cl_content_digest (content_digest_of record) (counter_bump (cl_revision record)) record.

(** [Agent::persist_cluster] *)
Definition agent_persist_cluster : AM unit :=
  existing ← gets local_cluster;
  seen ← now;
  observed ← now;
  record ← gets (fun a => described_cluster (a_config a) (a_identity a) existing seen observed);
  _ ← put (put_cluster record);
  stored ← gets local_cluster;
  match stored with
  | Some cluster => append_mutation (MClusterPut cluster)
  | None => mret tt
  end.

(** ** Sending to the coordinator *)
Definition send_message (message : Message) : AM unit :=
  id ← gets (fun a => up_connection (a_uplink a));
  if id =? 0 then err Outcome_Unreachable "the coordinator connection is not established"
  else on_connection id (fail Outcome_Unreachable "the coordinator connection is gone") (queue_message message).

(** [send_error_to], and the other answers on a connection that may be gone. *)
Definition reply (id : Z) (message : Message) : AM unit := on_connection id (Val tt) (queue_message message).
Definition send_error_to (id : Z) (request : string) (outcome : Outcome) (detail : string) : AM unit :=
  reply id (MError (mkError request outcome detail)).

Definition report_cluster : AM unit :=
  cluster ← gets local_cluster;
  match cluster with
  | None => err Outcome_Internal "the agent has no local cluster record"
  | Some cluster =>
      session ← gets (fun a => up_session (a_uplink a));
      send_message (MReportCluster (mkReportCluster session cluster))
  end.

(** [if (coordinator_connected_) { return report_cluster(); } return Status::ok();] *)
Definition report_if_connected : AM unit :=
  connected ← gets (fun a => up_connected (a_uplink a));
  if negb connected then mret tt else report_cluster.

Definition hello_message (a : Agent) : HelloMessage :=
  let i := a_identity a in
  mkHello PeerRole_Agent (ac_cluster (a_config a)) (ac_domain (a_config a)) (id_incarnation i) (id_generation i)
    (id_policy_generation i) (id_term i) limits.kProtocolVersionMin limits.kProtocolVersionMax kCapabilityAll
    (from_option cl_content_digest zero_digest (local_cluster a)) (id_started_at i).

Definition connect_to_coordinator : AM unit :=
  up ← gets a_uplink;
  connections ← gets (fun a => lp_connections (a_loop a));
  if up_connected up then mret tt
  else if negb (up_connection up =? 0) && bool_decide (is_Some (connections !! up_connection up)) then mret tt
  else
  config ← gets a_config;
  dialed ← attempt dial;
  match dialed with
  | inl e =>
      let doubled := up_backoff up * 2 in
      let next := if ac_reconnect_backoff_max config <? doubled then ac_reconnect_backoff_max config else doubled in
      _ ← on_uplink (set_up_backoff next);
      _ ← schedule_in next AgentTimer_Connect;
      st_lift (Err e)
  | inr _ =>
      key ← gets channel_key;
      at_time ← now;
      id ← in_loop (adopt (mkConnectionConfig limits.kMaxFramePayload limits.kMaxSendQueueBytes limits.kMaxPendingSends
                             (30000 * 1000000) key false) at_time);
      _ ← on_uplink (set_up_connection id);
      hello ← gets hello_message;
      _ ← send_message (MHello hello);
      schedule_in (ac_handshake_deadline config) AgentTimer_Handshake
  end.

(** The callback that [connect_to_coordinator] schedules for the handshake deadline. *)
Definition close_connection (id : Z) (reason : Status) : AM unit :=
  on_connection id (Val tt) (fun connection => (Val tt, close reason connection)).
Definition handshake_expired : AM unit :=
  up ← gets a_uplink;
  if negb (up_handshake_complete up) && negb (up_connection up =? 0) then
    close_connection (up_connection up) (status_make Outcome_Unreachable "the handshake deadline expired")
  else mret tt.

(** ** Enforcement *)
(** The side of this cluster; the loops of the code keep the last match. *)
Definition local_side (cluster : string) (parties : PartyRef * PartyRef) : option bool :=
  if bool_decide (py_cluster parties.2 = cluster) then Some true
  else if bool_decide (py_cluster parties.1 = cluster) then Some false
  else None.

(** [grant_enforceable]; the clock is read once, [at_time] is what it says. *)
Definition grant_enforceable (a : Agent) (at_time : Z) (grant : GrantRecord) : bool :=
  let i := a_identity a in
  if negb (bool_decide (gr_state grant = GrantState_Active)) then false
  else if negb (ac_require_coordinator (a_config a)) then true
  else match find_contract (a_registry a) (gr_contract grant) with
  | None => false
  | Some contract =>
      match local_side (ac_cluster (a_config a)) (ct_parties contract) with
      | None => false
      | Some side =>
          if negb (bool_decide (at_side (gr_incarnations grant) side = id_incarnation i)) ||
             negb (at_side (gr_generations grant) side =? id_generation i) ||
             negb (at_side (gr_policies grant) side =? id_policy_generation i) then false
          else if negb (gr_coordinator_term grant =? up_term (a_uplink a)) then false
          else if gr_valid_until grant <? at_time then false
          else if id_consent_withdrawn i || negb (bool_decide (id_cluster_state i = ClusterState_Active)) then false
          else true
      end
  end.

Definition local_enforcement_outcome (id : string) : AM Outcome :=
  found ← gets (fun a => find_grant (a_registry a) id);
  match found with
  | None => mret Outcome_NotFound
  | Some record =>
      if bool_decide (gr_state record = GrantState_Fenced) then mret Outcome_Fenced
      else if bool_decide (gr_state record = GrantState_Aborted) then mret Outcome_Cancelled
      else if bool_decide (gr_state record = GrantState_Expired) then mret Outcome_Expired
      else
        checked ← now;
        enforceable ← gets (fun a => grant_enforceable a checked record);
        if negb enforceable then
          at_time ← now;
          if gr_valid_until record <? at_time then mret Outcome_Expired
          else
            term ← gets (fun a => up_term (a_uplink a));
            mret (if negb (gr_coordinator_term record =? term) then Outcome_Fenced else Outcome_Stale)
        else mret Outcome_Ok
  end.

Definition enforced_grant_count (a : Agent) (at_time : Z) : Z :=
  zlen (filter (fun g => grant_enforceable a at_time g = true) (values (rg_grants (a_registry a)))).

(** [grant.state = state; grant.note = note; ... append_mutation(mutation)] through the reference. *)
Definition settle_grant (id : string) (state : GrantState) (note : string) : AM unit :=
  _ ← update_grant id (mark_grant state note);
  persist_grant id.

Definition fence_not_revalidated (coordinator_term : Z) : AM unit :=
  ids ← gets (fun a => (entries (rg_grants (a_registry a))).*1);
  fenced ← fold_m (fun (fenced : Z) id =>
    found ← gets (fun a => find_grant (a_registry a) id);
    match found with
    | None => mret fenced
    | Some grant =>
        if negb (bool_decide (gr_state grant = GrantState_Active)) && negb (bool_decide (gr_state grant = GrantState_Committed)) &&
           negb (bool_decide (gr_state grant = GrantState_Indeterminate)) &&
           negb (bool_decide (gr_state grant = GrantState_Prepared))
        then mret fenced
        else if gr_coordinator_term grant =? coordinator_term then mret fenced
        else
          _ ← update_grant id (mark_grant GrantState_Fenced
                "the coordinator established a new authority term; this grant was not revalidated");
          _ ← count inc_fences;
          _ ← persist_grant id;
          mret (fenced + 1)
    end) 0 ids;
  incarnation ← gets (fun a => id_incarnation (a_identity a));
  if 0 <? fenced then
    agent_append_audit "fence-term-change" (uuid_to_string incarnation) Outcome_Fenced
      (num fenced ++ " grants fenced under the previous authority term")
  else mret tt.

Definition reevaluate_enforcement (reason : string) : AM unit :=
  at_time ← now;
  each_grant (fun id grant =>
    if negb (bool_decide (gr_state grant = GrantState_Active)) && negb (bool_decide (gr_state grant = GrantState_Committed))
    then mret tt
    else if gr_valid_until grant <? at_time then
      _ ← update_grant id (mark_grant GrantState_Expired "the lease elapsed");
      _ ← count inc_fences;
      persist_grant id
    else
      checked ← now;
      enforceable ← gets (fun a => grant_enforceable a checked grant);
      if bool_decide (gr_state grant = GrantState_Committed) && enforceable then
        _ ← update_grant id (mark_grant GrantState_Active (gr_note grant));
        _ ← persist_grant id;
        count inc_enforced
      else if bool_decide (gr_state grant = GrantState_Active) && negb enforceable then
        _ ← update_grant id (mark_grant GrantState_Fenced reason);
        _ ← count inc_fences;
        persist_grant id
      else mret tt).

Definition enforcement_digest_of (grant : GrantRecord) : string := sha256_hash (encode_grant grant).

(** ** Starting *)
Definition agent_options (config : AgentConfig) : Options :=
  mkOptions (ac_state_directory config) "agent.snapshot" "agent.wal" (ac_compact_bytes config)
    (ac_compact_records config) (ac_durable config).

(** The constructor and [load_state]. *)
Definition agent_load_state (io : StoreIo) (config : AgentConfig) (w : World) (network : nat -> Result unit) (d : Disk)
    : Result Agent * Disk :=
  match store_open io (agent_options config) (recovery_default, d) with
  | (Err e, (_, d')) => (Err e, d')
  | (Throw, (_, d')) => (Throw, d')
  | (Val ds, (rc, d')) =>
      let rc' := mkRecovery empty_registry (rc_meta rc) (rc_wal rc) (rc_snapshot_loaded rc) (rc_recovered_from_store rc)
                   (rc_created_fresh rc) (rc_mutations_applied rc) (rc_incidents rc) in
      (Val (mkAgent config ds d' rc' (rc_registry rc) (mkIdentity 0 nil_uuid 0 0 ClusterState_Unknown false 0) loop_new ∅
              (mkUplink 0 nil_uuid 0 nil_uuid false false (ac_reconnect_backoff config) false)
              (mkAgentCounters 0 0 0 0 0 0 0) w network), d')
  end.

(** What the previous life of the cluster, recorded on disk, does to the configured identity. *)
Definition resume_identity (config : AgentConfig) (previous : ClusterRecord) (i : Identity) : Identity :=
  mkIdentity (id_term i) (id_incarnation i)
    (if ac_generation config =? cl_generation previous then counter_bump (cl_generation previous) else id_generation i)
    (if ac_policy_generation config <? cl_policy_generation previous then cl_policy_generation previous
     else id_policy_generation i)
    (if bool_decide (cl_state previous = ClusterState_Unknown) then ac_state config else cl_state previous)
    (cl_consent_withdrawn previous) (id_started_at i).

(** The states a grant may not keep across a restart. *)
Definition unsettled (g : GrantRecord) : bool :=
  bool_decide (gr_state g = GrantState_Active) || bool_decide (gr_state g = GrantState_Committed) ||
  bool_decide (gr_state g = GrantState_Prepared) || bool_decide (gr_state g = GrantState_Preparing) ||
  bool_decide (gr_state g = GrantState_Indeterminate).

Definition fence_recovered : AM unit :=
  each_grant (fun id grant =>
    if negb (unsettled grant) then mret tt
    else
      _ ← update_grant id (mark_grant GrantState_Fenced
            "recovered enforcement is historical until the coordinator revalidates it");
      _ ← count inc_recovered;
      persist_grant id).

Definition agent_begin_incarnation : AM unit :=
  recovery ← gets a_recovery;
  config ← gets a_config;
  let term := match counter_next (me_term (rc_meta recovery)) with Val t => t | _ => u64_max end in
  incarnation ← random_uuid;
  started_at ← now;
  _ ← on_identity (fun i => mkIdentity term incarnation (ac_generation config) (ac_policy_generation config)
                              (ac_state config) (id_consent_withdrawn i) started_at);
  previous ← gets local_cluster;
  _ ← match previous with
      | None => mret tt
      | Some previous =>
          if ac_generation config <? cl_generation previous then
            err Outcome_Stale "the configured generation is older than the generation recorded on disk"
          else on_identity (resume_identity config previous)
      end;
  io ← ask wl_append;
  meta ← gets (fun a => mkMeta term incarnation (me_revision (rc_meta recovery)) (wal_last_sequence (ds_wal (a_store a)))
                          started_at (me_truncations (rc_meta recovery)) (registry_digest (a_registry a)));
  _ ← in_store (append_meta io meta started_at);
  _ ← (if negb (rc_recovered_from_store recovery) then mret tt
       else
         _ ← fence_recovered;
         fenced ← gets (fun a => ak_recovered_grants_fenced (a_counters a));
         io ← ask wl_append;
         _ ← in_store (append_incident io
               ("recovered from store: " ++ num fenced ++ " enforcement records fenced pending revalidation") started_at);
         mret tt);
  agent_append_audit "begin-incarnation" (uuid_to_string incarnation) Outcome_Ok ("term=" ++ num term).

(** [create] and [start]. [listening] is the reply of the operating system to binding the control listener;
    the readiness file is outside of the modelled state. *)
Definition agent_start (io : StoreIo) (config : AgentConfig) (w : World) (network : nat -> Result unit)
    (listening : Result unit) (d : Disk) : Result Agent * Disk :=
  if bool_decide (ac_cluster config = ""%string) then (invalid "the agent requires a cluster identity", d)
  else if bool_decide (ac_domain config = ""%string) then (invalid "the agent requires an authority domain identity", d)
  else if bool_decide (ac_state_directory config = ""%string) then (invalid "the agent requires a state directory", d)
  else if ac_coordinator_port config =? 0 then (invalid "the agent requires the coordinator's port", d)
  else match agent_load_state io config w network d with
  | (Val a, _) =>
      match (_ ← agent_begin_incarnation;
             _ ← agent_persist_cluster;
             _ ← st_lift listening;
             at_time ← now;
             _ ← in_loop (schedule at_time AgentTimer_Tick);
             _ ← in_loop (schedule at_time AgentTimer_Connect);
             mret tt) a with
      | (Val _, a') => (Val a', a_disk a')
      | (Err e, a') => (Err e, a_disk a')
      | (Throw, a') => (Throw, a_disk a')
      end
  | (Err e, d') => (Err e, d')
  | (Throw, d') => (Throw, d')
  end.

(** The handler of the control listener. *)
Definition accept_control : AM unit :=
  at_time ← now;
  id ← in_loop (adopt (mkConnectionConfig limits.kMaxFramePayload limits.kMaxSendQueueBytes limits.kMaxPendingSends
                         (60 * 1000000000) [] false) at_time);
  modify (fun a => a_set_roles a (<[id := mkRole true false nil_uuid "" id]> (a_roles a))).

(** ** The local control surface *)
Definition agent_set_cluster_state (state : ClusterState) : AM unit :=
  _ ← on_identity (set_id_state state);
  _ ← agent_persist_cluster;
  _ ← reevaluate_enforcement "the cluster left the active state";
  report_if_connected.

Definition bump_generation (reason : string) : AM unit :=
  i ← gets a_identity;
  next ← st_lift (counter_next (id_generation i));
  _ ← on_identity (set_id_generation next);
  _ ← fence_not_revalidated (id_term i);
  _ ← each_grant (fun id grant =>
        if bool_decide (gr_state grant = GrantState_Active) || bool_decide (gr_state grant = GrantState_Committed) then
          settle_grant id GrantState_Fenced "the cluster generation advanced; the grant must be reissued"
        else mret tt);
  _ ← agent_persist_cluster;
  cluster ← gets (fun a => ac_cluster (a_config a));
  _ ← agent_append_audit "bump-generation" cluster Outcome_Ok reason;
  report_if_connected.

Definition set_policy_generation (generation : Z) : AM unit :=
  current ← gets (fun a => id_policy_generation (a_identity a));
  if generation <? current then err Outcome_Stale "the policy generation must not move backwards"
  else
    _ ← on_identity (set_id_policy generation);
    _ ← agent_persist_cluster;
    _ ← reevaluate_enforcement "the policy generation changed";
    report_if_connected.

Definition withdraw_consent (reason : string) : AM unit :=
  _ ← on_identity (set_id_withdrawn true);
  _ ← agent_persist_cluster;
  _ ← reevaluate_enforcement "consent withdrawn by the cluster";
  connected ← gets (fun a => up_connected (a_uplink a));
  _ ← (if negb connected then mret tt
       else
         withdraw ← gets (fun a => mkWithdraw (up_session (a_uplink a)) (ac_cluster (a_config a))
                                     (id_incarnation (a_identity a)) (id_generation (a_identity a)) reason);
         send_message (MWithdraw withdraw));
  cluster ← gets (fun a => ac_cluster (a_config a));
  agent_append_audit "withdraw-consent" cluster Outcome_Fenced reason.

Definition fence_local_grant (id reason : string) : AM unit :=
  found ← gets (fun a => find_grant (a_registry a) id);
  match found with
  | None => st_lift (not_found "the grant is not recorded locally")
  | Some _ =>
      _ ← settle_grant id GrantState_Fenced reason;
      _ ← count inc_fences;
      agent_append_audit "fence-local-grant" (uuid_to_string id) Outcome_Fenced reason
  end.

(** The endpoint as [upsert_endpoint] stores it. *)
Definition declared_endpoint (cluster : string) (policy_generation at_time : Z) (e : EndpointRecord) : EndpointRecord :=
  mkEndpoint (ep_id e) cluster (ep_scope e) (ep_capacity e) (ep_reserved e) policy_generation
    (if bool_decide (ep_state e = EndpointState_Unknown) then EndpointState_Active else ep_state e)
    (ep_inter_cluster_allowed e) (ep_permits_degraded e) (set_pv EvidenceSource_AdminConfigured at_time (ep_provenance e)).

(** The first endpoint of the same identity is replaced; [None] when there is none. *)
Fixpoint replace_endpoint (e : EndpointRecord) (l : list EndpointRecord) : option (list EndpointRecord) :=
  match l with
  | [] => None
  | x :: l => if bool_decide (ep_id x = ep_id e) then Some (e :: l) else cons x <$> replace_endpoint e l
  end.

Definition set_ac_endpoints (l : list EndpointRecord) (c : AgentConfig) : AgentConfig :=
  mkAgentConfig (ac_cluster c) (ac_domain c) (ac_generation c) (ac_policy_generation c) (ac_state c) l
    (ac_coordinator_port c) (ac_state_directory c) (ac_channel_key c) (ac_durable c) (ac_handshake_deadline c)
    (ac_reconnect_backoff c) (ac_reconnect_backoff_max c) (ac_compact_bytes c) (ac_compact_records c)
    (ac_require_coordinator c).

Definition upsert_endpoint (e : EndpointRecord) : AM unit :=
  config ← gets a_config;
  policy_generation ← gets (fun a => id_policy_generation (a_identity a));
  at_time ← now;
  let endpoint := declared_endpoint (ac_cluster config) policy_generation at_time e in
  let endpoints := ac_endpoints config in
  _ ← match replace_endpoint endpoint endpoints with
      | Some l => modify (fun a => a_set_config a (set_ac_endpoints l (a_config a)))
      | None =>
          if limits.kMaxEndpointsPerCluster <=? zlen endpoints then
            err Outcome_CapacityExceeded "the cluster declares too many endpoint scopes"
          else modify (fun a => a_set_config a (set_ac_endpoints (endpoints ++ [endpoint]) (a_config a)))
      end;
  _ ← agent_persist_cluster;
  report_if_connected.

(** ** Timers *)
Definition agent_tick : AM unit :=
  up ← gets a_uplink;
  _ ← (if negb (up_connected up) && negb (up_connect_scheduled up) then
         connected ← attempt connect_to_coordinator;
         match connected with
         | inl _ => on_uplink (set_up_scheduled true)
         | inr _ => mret tt
         end
       else mret tt);
  _ ← ignore (reevaluate_enforcement "the grant is no longer enforceable locally");
  needed ← gets (fun a => needs_compaction (a_store a));
  _ ← (if negb needed then mret tt
       else
         meta ← gets (fun a => let meta := rc_meta (a_recovery a) in
                        mkMeta (id_term (a_identity a)) (id_incarnation (a_identity a)) (me_revision meta)
                          (me_sequence meta) (me_written_at meta) (me_truncations meta) (registry_digest (a_registry a)));
         r ← gets a_registry;
         at_time ← now;
         io_save ← ask wl_save;
         io_reset ← ask wl_reset;
         stream ← ask wl_uuid;
         ignore (in_store (compact io_save io_reset stream r meta at_time)));
  schedule_in (250 * 1000000) AgentTimer_Tick.

(** The callbacks. *)
Definition fire (timer : AgentTimer) : AM unit :=
  match timer with
  | AgentTimer_Tick => agent_tick
  | AgentTimer_Connect => ignore connect_to_coordinator
  | AgentTimer_Reconnect => _ ← on_uplink (set_up_scheduled false); ignore connect_to_coordinator
  | AgentTimer_Handshake => handshake_expired
  end.

(** [EventLoop::fire_due_timers]: the due callbacks are taken out first, then called in order. *)
Definition fire_due_timers : AM unit :=
  at_time ← now;
  due ← in_loop (fun l => let '(due, later) := take_due at_time (lp_timers l) in (Val due, with_timers later l));
  each fire due.
