(* ===== verification/AgentHandlers.v ===== *)
(** * The message handlers of the agent

    Models [handle_message], [handle_disconnect] and every [on_*] of src/runtime/agent.cpp, with the local
    queries and administration of the control channel. *)
From S2P Require Import Prelude Status Utf8 Bytes Ids Types Registry Hash Time Canonical Terms Decision Fencing.
From S2P Require Import Mutation Files Wal Snapshot DurableStore Frame Messages Connection Reactor Effects Agent.

(** A handler of the coordinator's channel decodes first; a payload that does not decode is counted and the
    error is returned to the event loop, which closes the connection. *)
Definition from_coordinator {A} (dec : Parser A) (frame : Frame) (handle : A -> AM unit) : AM unit :=
  match dec (fr_payload frame) with
  | Val (message, _) => handle message
  | Err e => _ ← count inc_agent_rejected; st_lift (Err e)
  | Throw => st_lift Throw
  end.

(** A handler of the control channel answers such a payload with an error message. *)
Definition from_control {A} (dec : Parser A) (id : Z) (frame : Frame) (handle : A -> AM unit) : AM unit :=
  match dec (fr_payload frame) with
  | Val (message, _) => handle message
  | Err e => _ ← count inc_agent_rejected; send_error_to id nil_uuid (st_outcome e) (st_message e)
  | Throw => st_lift Throw
  end.

(** ** Handshakes *)
Definition on_control_hello (id : Z) (frame : Frame) : AM unit :=
  from_control decode_hello id frame (fun hello =>
  ack ← gets (fun a => mkHelloAck nil_uuid (id_incarnation (a_identity a)) (id_term (a_identity a)) Outcome_Internal 0
                         (registry_digest (a_registry a)) [] "");
  if negb (bool_decide (he_role hello = PeerRole_Observer)) then
    _ ← count inc_agent_refusals;
    ignore (reply id (MHelloAck (mkHelloAck (ha_session ack) (ha_coordinator ack) (ha_coordinator_term ack)
      Outcome_Unauthorized (ha_negotiated_version ack) (ha_view_digest ack) []
      "the local control channel accepts observer sessions only")))
  else
    token ← random_uuid;
    _ ← modify (fun a => a_set_roles a (<[id := mkRole true true token "" id]> (a_roles a)));
    reply id (MHelloAck (mkHelloAck token (ha_coordinator ack) (ha_coordinator_term ack) Outcome_Ok
      limits.kProtocolVersionMax (ha_view_digest ack) [] "local control session established"))).

Definition on_hello_ack (frame : Frame) : AM unit :=
  from_coordinator decode_hello_ack frame (fun ack =>
  id ← gets (fun a => up_connection (a_uplink a));
  if negb (bool_decide (ha_outcome ack = Outcome_Ok)) then
    _ ← count inc_agent_refusals;
    close_connection id (status_make (ha_outcome ack) (ha_detail ack))
  else
    _ ← on_connection id (Val tt) (fun connection => (Val tt, enable_outbound_signing connection));
    backoff ← gets (fun a => ac_reconnect_backoff (a_config a));
    _ ← on_uplink (set_up_session (ha_session ack) (ha_coordinator_term ack) (ha_coordinator ack) backoff);
    _ ← fence_not_revalidated (ha_coordinator_term ack);
    report_cluster).

Definition on_report_ack (frame : Frame) : AM unit :=
  from_coordinator decode_report_ack frame (fun ack =>
  if negb (bool_decide (ra_outcome ack = Outcome_Ok)) then count inc_agent_refusals else mret tt).

(** ** CONTRACT_PROPOSE: the consent of this cluster *)
(** Why the agent refuses the terms, in the order of the code; [inr] is the side of this cluster. *)
Definition judge_terms (a : Agent) (terms : ContractTerms) : (string * string) + bool :=
  let i := a_identity a in
  match local_side (ac_cluster (a_config a)) (tm_parties terms) with
  | None => inl (""%string, "the terms do not name this cluster"%string)
  | Some side =>
      let endpoint := py_endpoint (at_side (tm_parties terms) side) in
      let refuse reason := inl (endpoint, reason) in
      if negb (bool_decide (at_side (tm_incarnations terms) side = id_incarnation i)) then
        refuse "the terms are bound to a superseded incarnation"%string
      else if negb (at_side (tm_generations terms) side =? id_generation i) then
        refuse "the terms are bound to a superseded generation"%string
      else if negb (at_side (tm_policies terms) side =? id_policy_generation i) then
        refuse "the terms are bound to a superseded policy generation"%string
      else if id_consent_withdrawn i then refuse "this cluster has withdrawn consent"%string
      else if negb (bool_decide (id_cluster_state i = ClusterState_Active)) then
        refuse "this cluster is not in the active state"%string
      else match local_cluster a ≫= (fun cluster => endpoint_of (cl_endpoints cluster) endpoint) with
      | None => refuse "the terms name an endpoint scope this cluster does not own"%string
      | Some found =>
          if negb (ep_inter_cluster_allowed found) || negb (bool_decide (ep_state found = EndpointState_Active)) then
            refuse "the endpoint scope does not accept inter-cluster connectivity"%string
          else match terms_validate terms with
          | Err e => refuse (st_message e)
          | _ => inr side
          end
      end
  end.

Definition consent_message (a : Agent) (proposal : ProposeContractMessage) (decision : ConsentDecision)
    (endpoint reason : string) : ContractConsentMessage :=
  let i := a_identity a in
  mkContractConsent (up_session (a_uplink a)) (pc_contract proposal) (terms_digest (pc_terms proposal)) decision endpoint
    (id_incarnation i) (id_generation i) (id_policy_generation i) (id_term i) reason.

(** [ContractRecord{}] *)
Definition contract_blank : ContractRecord :=
  mkContract nil_uuid (mkParty "" "" "", mkParty "" "" "") 0 0 zero_digest ContractState_Proposed (None, None) 0 0 0
    provenance_default.

(** The consent that is recorded, and the contract that carries it. *)
Definition local_consent (a : Agent) (consent : ContractConsentMessage) (at_time : Z) : ConsentRecord :=
  let i := a_identity a in
  mkConsent (ac_cluster (a_config a)) (cc_endpoint consent) (id_incarnation i) (id_generation i) (id_policy_generation i)
    (id_term i) (cc_terms_digest consent) ConsentDecision_Accepted at_time (up_session (a_uplink a))
    (if bool_decide (ac_channel_key (a_config a) = ""%string) then TransportAuthenticity_None
     else TransportAuthenticity_SharedKeyMac) (cc_reason consent).

Definition recorded_contract (existing : option ContractRecord) (proposal : ProposeContractMessage) (side : bool)
    (consent : ConsentRecord) (created updated observed : Z) : ContractRecord :=
  let contract := default contract_blank existing in
  let terms := pc_terms proposal in
  mkContract (pc_contract proposal) (tm_parties terms) (tm_capacity terms) (tm_lease_duration terms)
    (cs_terms_digest consent) ContractState_AwaitingConsent (set_side (ct_consents contract) side (Some consent))
    created updated (counter_bump (ct_revision contract))
    (set_pv EvidenceSource_AgentReported observed (ct_provenance contract)).

Definition accept_terms (proposal : ProposeContractMessage) (side : bool) : AM unit :=
  consent ← gets (fun a => consent_message a proposal ConsentDecision_Accepted
                             (py_endpoint (at_side (tm_parties (pc_terms proposal)) side))
                             "terms accepted by the cluster agent");
  existing ← gets (fun a => find_contract (a_registry a) (pc_contract proposal));
  let known := from_option ct_created_at 0 existing in
  created ← (if known =? 0 then now else mret known);
  updated ← now;
  observed ← now;
  decided ← now;
  record ← gets (fun a => local_consent a consent decided);
  let contract := recorded_contract existing proposal side record created updated observed in
  _ ← put (put_contract contract);
  _ ← append_mutation (MContractPut contract);
  _ ← agent_append_audit "consent" (uuid_to_string (ct_id contract)) Outcome_Ok
        "terms accepted and bound to this incarnation and generation";
  send_message (MContractConsent consent).

Definition on_propose_contract (frame : Frame) : AM unit :=
  from_coordinator decode_propose_contract frame (fun proposal =>
  judged ← gets (fun a => judge_terms a (pc_terms proposal));
  match judged with
  | inl (endpoint, reason) =>
      consent ← gets (fun a => consent_message a proposal ConsentDecision_Refused endpoint reason);
      _ ← count inc_agent_refusals;
      send_message (MContractConsent consent)
  | inr side => accept_terms proposal side
  end).

(** ** GRANT_PREPARE, GRANT_COMMIT and GRANT_ABORT *)
(** Why the agent refuses to prepare the grant; [None] when it does not. *)
Definition judge_grant (a : Agent) (incoming : GrantRecord) : option string :=
  let i := a_identity a in
  match find_contract (a_registry a) (gr_contract incoming) with
  | None => Some "no local record of the contract this grant names"%string
  | Some contract =>
      match local_side (ac_cluster (a_config a)) (ct_parties contract) with
      | None => Some "the grant does not involve this cluster"%string
      | Some side =>
          match at_side (ct_consents contract) side with
          | None => Some "this cluster has not consented to the contract"%string
          | Some consent =>
              if negb (bool_decide (cs_decision consent = ConsentDecision_Accepted)) then
                Some "this cluster has not consented to the contract"%string
              else if negb (bool_decide (cs_terms_digest consent = gr_terms_digest incoming)) ||
                      negb (bool_decide (ct_terms_digest contract = gr_terms_digest incoming)) then
                Some "the grant does not cover the terms this cluster consented to"%string
              else if negb (bool_decide (at_side (gr_incarnations incoming) side = id_incarnation i)) ||
                      negb (at_side (gr_generations incoming) side =? id_generation i) ||
                      negb (at_side (gr_policies incoming) side =? id_policy_generation i) then
                Some "the grant is bound to a superseded incarnation, generation, or policy generation"%string
              else if negb (gr_coordinator_term incoming =? up_term (a_uplink a)) then
                Some "the grant was issued under a superseded coordinator term"%string
              else match local_cluster a ≫= (fun cluster =>
                           endpoint_of (cl_endpoints cluster) (py_endpoint (at_side (ct_parties contract) side))) with
              | None => Some "the grant names an endpoint scope this cluster does not own"%string
              | Some endpoint =>
                  if ep_capacity endpoint <? gr_capacity incoming then
                    Some "the granted capacity exceeds the declared endpoint capacity"%string
                  else None
              end
          end
      end
  end.

Definition prepared_message (a : Agent) (incoming : GrantRecord) (accepted : bool) (digest detail : string)
    : GrantPreparedMessage :=
  mkGrantPrepared (up_session (a_uplink a)) (gr_id incoming) (gr_attempt incoming) accepted (id_term (a_identity a)) digest
    detail.

Definition respond_prepared (incoming : GrantRecord) (accepted : bool) (digest detail : string) : AM unit :=
  response ← gets (fun a => prepared_message a incoming accepted digest detail);
  send_message (MGrantPrepared response).

Definition prepared_grant (incoming : GrantRecord) (at_time : Z) : GrantRecord :=
  set_gr_state GrantState_Prepared "prepared by the cluster agent; waiting for the coordinator commit"
    (gr_revision incoming) (set_pv EvidenceSource_AgentReported at_time (gr_provenance incoming)) incoming.

Definition on_prepare_grant (frame : Frame) : AM unit :=
  from_coordinator decode_prepare_grant frame (fun message =>
  let incoming := pg_grant message in
  refused ← gets (fun a => judge_grant a incoming);
  match refused with
  | Some detail => _ ← count inc_agent_refusals; respond_prepared incoming false zero_digest detail
  | None =>
      at_time ← now;
      let grant := prepared_grant incoming at_time in
      stored ← attempt (put (put_grant grant));
      match stored with
      | inl e => respond_prepared incoming false zero_digest (st_message e)
      | inr _ =>
          _ ← append_mutation (MGrantPut grant);
          kept ← gets (fun a => find_grant (a_registry a) (gr_id grant));
          respond_prepared incoming true (from_option enforcement_digest_of zero_digest kept) "prepared"
      end
  end).

Definition respond_committed (message : CommitGrantMessage) (installed : bool) (digest detail : string) : AM unit :=
  response ← gets (fun a => mkGrantCommitted (up_session (a_uplink a)) (cg_grant message) (cg_attempt message) installed
                              (id_term (a_identity a)) digest detail);
  send_message (MGrantCommitted response).

(** [grant->state = Active; grant->note = ...; grant->provenance.observed_at = now] *)
Definition enforce_grant (at_time : Z) (g : GrantRecord) : GrantRecord :=
  set_gr_state GrantState_Active "enforced by the cluster agent" (gr_revision g)
    (set_pv_observed_at at_time (gr_provenance g)) g.

Definition on_commit_grant (frame : Frame) : AM unit :=
  from_coordinator decode_commit_grant frame (fun message =>
  found ← gets (fun a => find_grant (a_registry a) (cg_grant message));
  match found with
  | None => _ ← count inc_agent_refusals; respond_committed message false zero_digest "the grant is not recorded locally"
  | Some grant =>
      if negb (bool_decide (gr_attempt grant = cg_attempt message)) then
        respond_committed message false zero_digest "the commit names a different attempt than the prepared one"
      else if negb (bool_decide (gr_state grant = GrantState_Prepared)) &&
              negb (bool_decide (gr_state grant = GrantState_Active)) then
        respond_committed message false zero_digest
          ("the grant is in state " ++ grant_state_to_string (gr_state grant) ++ " and cannot be committed")
      else
        at_time ← now;
        let enforced := enforce_grant at_time grant in
        _ ← update_grant (cg_grant message) (enforce_grant at_time);
        _ ← append_mutation (MGrantPut enforced);
        _ ← agent_append_audit "commit-grant" (uuid_to_string (gr_id grant)) Outcome_Ok
              "the exact attempt the coordinator prepared is now enforced";
        respond_committed message true (enforcement_digest_of enforced) "enforced"
  end).

Definition on_abort_grant (frame : Frame) : AM unit :=
  from_coordinator decode_abort_grant frame (fun message =>
  found ← gets (fun a => find_grant (a_registry a) (ag_grant message));
  _ ← match found with
      | None => mret tt
      | Some _ => settle_grant (ag_grant message) GrantState_Aborted (ag_reason message)
      end;
  session ← gets (fun a => up_session (a_uplink a));
  send_message (MGrantAborted (mkGrantAborted session (ag_grant message) (ag_attempt message) (ag_reason message)))).

(** ** FENCE, STATUS_REQUEST and PING *)
(** One turn of the loop of [on_fence]. *)
Definition fence_one (reason : string) (results : list FenceResult) (id : string) : AM (list FenceResult) :=
  found ← gets (fun a => find_grant (a_registry a) id);
  match found with
  | None => mret (results ++ [mkFenceResult id Outcome_NotFound])
  | Some grant =>
      if bool_decide (gr_state grant = GrantState_Fenced) then mret (results ++ [mkFenceResult id Outcome_Fenced])
      else
        _ ← settle_grant id GrantState_Fenced reason;
        _ ← count inc_fences;
        mret (results ++ [mkFenceResult id Outcome_Ok])
  end.

Definition on_fence (frame : Frame) : AM unit :=
  from_coordinator decode_fence frame (fun message =>
  session ← gets (fun a => up_session (a_uplink a));
  results ← fold_m (fence_one (fm_reason message)) [] (fm_grants message);
  incarnation ← gets (fun a => id_incarnation (a_identity a));
  _ ← agent_append_audit "fence-grants" (uuid_to_string incarnation) Outcome_Fenced
        (num (zlen results) ++ " grants fenced on coordinator request");
  send_message (MFenceAck (mkFenceAck session results))).

Definition status_entry (g : GrantRecord) : GrantStatusEntry :=
  mkGrantStatus (gr_id g) (gr_attempt g) (gr_state g) (gr_coordinator_term g) (gr_enforcement_digest g).1.

Definition on_status_request (frame : Frame) : AM unit :=
  from_coordinator decode_status_request frame (fun message =>
  report ← gets (fun a =>
    let i := a_identity a in
    mkStatusReport (up_session (a_uplink a)) (sr_request message) (ac_cluster (a_config a)) (id_incarnation i)
      (id_generation i) (id_policy_generation i) (id_term i)
      (status_entry <$> take (Z.to_nat limits.kMaxGrants) (values (rg_grants (a_registry a)))));
  send_message (MStatusReport report)).

(** The reply goes to the coordinator's connection, whoever sent the PING. *)
Definition agent_on_ping (frame : Frame) : AM unit :=
  let sequence := match decode_ping (fr_payload frame) with Val (ping, _) => pi_sequence ping | _ => 0 end in
  id ← gets (fun a => up_connection (a_uplink a));
  reply id (MPong (mkPong sequence)).

(** ** The control channel *)
Definition agent_status : AM CoordinatorStatus :=
  sign ← ask wl_monotonic;
  uptime ← (if sign <? 0 then mret 0 else ask wl_monotonic);
  gets (fun a =>
    let r := a_registry a in let n := counts r in let k := a_counters a in let rc := a_recovery a in
    let i := a_identity a in
    mkCoordinatorStatus (ac_domain (a_config a)) (id_incarnation i) (id_term i) (id_started_at i) (uptime mod 2 ^ 64)
      (registry_digest r) 0 (rc_recovered_from_store rc) (wr_records (rc_wal rc)) (me_truncations (rc_meta rc))
      (n_clusters n) (n_endpoints n) 0 0 (n_contracts n) (n_grants n) (n_reservations n) (n_policies n) (n_audit n)
      (if up_connected (a_uplink a) then 1 else 0) (ak_enforced k) (ak_fences k) (ak_refusals k) (ak_revalidations k)
      (ak_recovered_grants_fenced k) (ak_rejected_frames k) (snapshot_path (ds_options (a_store a)))).

(** The result and, on an error, the status that is returned beside it. *)
Definition handle_query_local (q : QueryMessage) : AM (QueryResultMessage * option Status) :=
  let result := blank_result (qm_request q) (qm_kind q) Outcome_Ok "" in
  let limit := Z.to_nat (if qm_limit q =? 0 then 256 else qm_limit q) in
  let failed o text := mret (result, Some (status_make o text)) in
  r ← gets a_registry;
  match qm_kind q with
  | QueryKind_Status => s ← agent_status; mret (result_status result (Some s), None)
  | QueryKind_ListClusters =>
      cluster ← gets local_cluster;
      mret (result_clusters result (option_list cluster), None)
  | QueryKind_ListGrants => mret (result_grants result (take limit (values (rg_grants r))), None)
  | QueryKind_ShowGrant =>
      match find_grant r (qm_grant q) with
      | None => failed Outcome_NotFound "grant is not recorded locally"%string
      | Some grant =>
          outcome ← local_enforcement_outcome (qm_grant q);
          mret (result_outcome (result_grants result [grant]) Outcome_Ok
                  ("local enforcement outcome: " ++ outcome_to_string outcome), None)
      end
  | QueryKind_ListContracts => mret (result_contracts result (take limit (values (rg_contracts r))), None)
  | QueryKind_ShowContract =>
      match find_contract r (qm_contract q) with
      | None => failed Outcome_NotFound "contract is not recorded locally"%string
      | Some contract => mret (result_contracts result [contract], None)
      end
  | QueryKind_ListAudit =>
      mret (result_audit result (drop (length (rg_audit r) - limit) (rg_audit r)), None)
  | _ => failed Outcome_Unsupported
           "the local control channel answers status, cluster, grant, contract, and audit queries"%string
  end.

Definition agent_on_query (id : Z) (frame : Frame) : AM unit :=
  from_control decode_query id frame (fun q =>
  handled ← handle_query_local q;
  let '(result, failed) := handled in
  reply id (MQueryResult (match failed with
                           | Some s => result_outcome result (st_outcome s) (st_message s)
                           | None => result
                           end))).

(** [request.reason.empty() ? "operator request" : request.reason] *)
Definition reason_of (request : AdminMessage) : string :=
  if bool_decide (am_reason request = ""%string) then "operator request" else am_reason request.

(** The result beside the status that the code returns. *)
Definition refuse_action (result : AdminResultMessage) (detail : string) : AM (AdminResultMessage * option Status) :=
  mret (set_result Outcome_Unsupported detail result, Some (status_make Outcome_Unsupported detail)).

(** [return operation(...);] *)
Definition returning (result : AdminResultMessage) (m : AM unit) : AM (AdminResultMessage * option Status) :=
  done ← attempt m;
  mret (result, match done with inl e => Some e | inr _ => None end).

Definition update_from_admin (request : AdminMessage) : AM (AdminResultMessage * option Status) :=
  let result := mkAdminResult (am_request request) Outcome_Ok "" zero_digest 0 nil_uuid nil_uuid in
  match am_action request with
  | AdminAction_SetClusterState => returning result (agent_set_cluster_state (am_cluster_state request))
  | AdminAction_WithdrawConsent => returning result (withdraw_consent (reason_of request))
  | AdminAction_RestoreConsent =>
      returning result (_ ← on_identity (set_id_withdrawn false); agent_persist_cluster)
  | AdminAction_FenceGrant => returning result (fence_local_grant (am_grant request) (reason_of request))
  | AdminAction_UpsertCluster =>
      match am_cluster request with
      | None => mret (result, Some (status_make Outcome_Invalid "upsert-cluster requires a cluster record"))
      | Some cluster => returning result (each upsert_endpoint (cl_endpoints cluster))
      end
  | AdminAction_ReloadStore =>
      refuse_action result "the store is opened during startup; restart the agent to reload it"
  | action =>
      refuse_action result
        ("the local control channel does not accept action '" ++ admin_action_to_string action ++ "'")
  end.

Definition agent_on_admin (id : Z) (frame : Frame) : AM unit :=
  from_control decode_admin id frame (fun request =>
  handled ← update_from_admin request;
  let '(result, failed) := handled in
  let result :=
    match failed with
    | Some s => set_result (st_outcome s)
                  (if bool_decide (ar_detail result = ""%string) then st_message s else ar_detail result) result
    | None => result
    end in
  view ← gets (fun a => registry_digest (a_registry a));
  reply id (MAdminResult (mkAdminResult (am_request request) (ar_outcome result) (ar_detail result) view
                             (ar_revision result) (ar_contract result) (ar_grant result)))).

(** ** Dispatch *)
Definition agent_handle_message (id : Z) (frame : Frame) : AM unit :=
  let type := fh_type (fr_header frame) in
  uplink ← gets (fun a => id =? up_connection (a_uplink a));
  known ← gets (fun a => bool_decide (is_Some (a_roles a !! id)));
  if known && negb uplink && bool_decide (type = MessageType_Hello) then on_control_hello id frame
  else if (uplink : bool) then
    match type with
    | MessageType_HelloAck => on_hello_ack frame
    | MessageType_ReportAck => on_report_ack frame
    | MessageType_ProposeContract => on_propose_contract frame
    | MessageType_PrepareGrant => on_prepare_grant frame
    | MessageType_CommitGrant => on_commit_grant frame
    | MessageType_AbortGrant => on_abort_grant frame
    | MessageType_Fence => on_fence frame
    | MessageType_StatusRequest => on_status_request frame
    | MessageType_Ping => agent_on_ping frame
    | MessageType_Pong => mret tt
    | MessageType_Error => count inc_agent_errors
    | _ =>
        _ ← count inc_agent_rejected;
        send_error_to id nil_uuid Outcome_Unsupported
          ("message type is not accepted from the coordinator: " ++ message_type_to_string type)
    end
  else
    match type with
    | MessageType_Hello => on_control_hello id frame
    | MessageType_Query => agent_on_query id frame
    | MessageType_Admin => agent_on_admin id frame
    | MessageType_Ping => agent_on_ping frame
    | MessageType_Pong => mret tt
    | MessageType_Error => count inc_agent_errors
    | _ =>
        _ ← count inc_agent_rejected;
        send_error_to id nil_uuid Outcome_Unauthorized
          "the local control channel accepts only queries and local administration"
    end.

Definition agent_handle_disconnect (id : Z) : AM unit :=
  _ ← modify (fun a => a_set_roles a (delete id (a_roles a)));
  uplink ← gets (fun a => id =? up_connection (a_uplink a));
  if negb uplink then mret tt
  else
    _ ← on_uplink (set_up_connection 0);
    backoff ← gets (fun a => up_backoff (a_uplink a));
    _ ← schedule_in backoff AgentTimer_Reconnect;
    on_uplink (set_up_scheduled true).
