(* ===== verification/Enforcement.v ===== *)
(** * Local enforcement: the protocol of one cluster and its refinement by the agent

    [local_transition]: what may happen to the grants and contracts of an agent, as an abstract machine over
    the registry. A grant is installed in two phases, each by an instruction of the coordinator that the agent
    checks; every other change takes authority away. The agent's methods perform only such transitions,
    whatever frames arrive and whatever the store and the network reply. *)
From S2P Require Import Prelude Status Utf8 Bytes Ids Types Registry Hash Time Canonical Terms Decision Fencing.
From S2P Require Import Mutation Files Wal Snapshot DurableStore Frame Messages Connection Reactor Effects Logic Agent AgentHandlers.

(** ** The protocol *)
(** The instructions that grant something. *)
Inductive Instruction :=
| Propose (proposal : ProposeContractMessage)
| Prepare (grant : GrantRecord)
| Commit (message : CommitGrantMessage).

(** The instruction a frame carries: it counts on the coordinator's connection only. *)
Definition instruction (a : Agent) (id : Z) (frame : Frame) : option Instruction :=
  if negb (id =? up_connection (a_uplink a)) then None
  else match fh_type (fr_header frame) with
  | MessageType_ProposeContract =>
      match decode_propose_contract (fr_payload frame) with Val (p, _) => Some (Propose p) | _ => None end
  | MessageType_PrepareGrant =>
      match decode_prepare_grant (fr_payload frame) with Val (m, _) => Some (Prepare (pg_grant m)) | _ => None end
  | MessageType_CommitGrant =>
      match decode_commit_grant (fr_payload frame) with Val (m, _) => Some (Commit m) | _ => None end
  | _ => None
  end.

(** The states that authorize nothing and from which a commit is refused. *)
Definition settled_state (s : GrantState) : Prop :=
  s = GrantState_Fenced \/ s = GrantState_Aborted \/ s = GrantState_Expired.

(** [a] is the agent when the instruction arrived. *)
Inductive local_transition (a : Agent) (ins : option Instruction) (r : Registry) : Registry -> Prop :=
| lt_same r' :
    rg_grants r' = rg_grants r -> rg_contracts r' = rg_contracts r -> local_transition a ins r r'
| lt_settle id state note :
    settled_state state ->
    local_transition a ins r (with_grants (alter (mark_grant state note) id (rg_grants r)) r)
| lt_consent p side consent decided created updated observed r' :
    ins = Some (Propose p) -> judge_terms a (pc_terms p) = inr side ->
    consent = consent_message a p ConsentDecision_Accepted (py_endpoint (at_side (tm_parties (pc_terms p)) side))
                "terms accepted by the cluster agent" ->
    put_contract (recorded_contract (find_contract r (pc_contract p)) p side (local_consent a consent decided)
                    created updated observed) r = Val r' ->
    local_transition a ins r r'
| lt_prepare g at_time r' :
    ins = Some (Prepare g) -> judge_grant a g = None -> put_grant (prepared_grant g at_time) r = Val r' ->
    local_transition a ins r r'
| lt_commit m g at_time :
    ins = Some (Commit m) -> find_grant r (cg_grant m) = Some g -> gr_attempt g = cg_attempt m ->
    gr_state g = GrantState_Prepared \/ gr_state g = GrantState_Active ->
    local_transition a ins r (with_grants (alter (enforce_grant at_time) (cg_grant m) (rg_grants r)) r).

(** What a method of the agent may do: transitions, within one incarnation. *)
Definition enforces (a0 : Agent) (ins : option Instruction) (a a' : Agent) : Prop :=
  rtc (local_transition a0 ins) (a_registry a) (a_registry a') /\
  id_incarnation (a_identity a') = id_incarnation (a_identity a).

(** ** Rules for the agent's members *)
(** Relations that do not look at the store, the counters, the event loop and the roles. *)
Class AgentQuiet (R : Agent -> Agent -> Prop) := {
  aq_store :: StoreFrame R;
  af_counters a k : R a (a_set_counters a k);
  af_loop a l : R a (a_set_loop a l);
  af_roles a m : R a (a_set_roles a m);
}.
#[export] Hint Extern 0 (AgentQuiet _) => apply _ : runs.

(** Relations that look at the registry and the identity only, and at the registry only. *)
Class AgentFrame (R : Agent -> Agent -> Prop) := {
  af_quiet :: AgentQuiet R;
  af_uplink a u : R a (a_set_uplink a u);
  af_config a c : R a (a_set_config a c);
}.
Class RegistryFrame (R : Agent -> Agent -> Prop) := {
  rf_frame :: AgentFrame R;
  af_identity a i : R a (a_set_identity a i);
}.
#[export] Hint Extern 0 (RegistryFrame _) => apply _ : runs.
#[export] Hint Extern 0 (AgentFrame _) => apply _ : runs.

#[export] Instance on_registry_agent P : PreOrder P -> RegistryFrame (on_registry P).
Proof.
  intros HP. assert (PreOrder (on_registry (S := Agent) P)).
  { split; [intros c; unfold on_registry; reflexivity|]. intros c1 c2 c3. unfold on_registry. by etransitivity. }
  assert (HostFrame (on_registry (S := Agent) P)) by (split; [done|..]; intros; unfold on_registry; cbn; reflexivity).
  split; [split; [split; [split; [done|]|..]|..]|..]; intros; unfold on_registry; cbn; reflexivity.
Qed.

#[export] Instance enforces_frame a0 ins : AgentFrame (enforces a0 ins).
Proof.
  assert (HostFrame (enforces a0 ins)).
  { split; [split|done..]; [intros a; by split|]. intros a1 a2 a3 [H1 H2] [H3 H4].
    split; [by etransitivity|congruence]. }
  split; [split; [by split|done..]|done..].
Qed.

Lemma agent_runs_put (R : Agent -> Agent -> Prop) {HR : PreOrder R} a f :
  (forall r', f (a_registry a) = Val r' -> R a (a_set_registry a r')) -> runs R a (put f).
Proof.
  intros Hf. apply runs_in_registry. unfold st_try. cbn. destruct (f (a_registry a)) as [r'|e|]; cbn; [by apply Hf|..].
  all: assert (a_set_registry a (a_registry a) = a) as -> by (by destruct a); reflexivity.
Qed.

Section quiet_rules.
Context (R : Agent -> Agent -> Prop) {HR : AgentQuiet R}.

Lemma runs_count a f : runs R a (count f).
Proof. apply (runs_modify _), af_counters. Qed.
Lemma runs_set_roles a f : runs R a (modify (fun a => a_set_roles a (f a))).
Proof. apply (runs_modify _), af_roles. Qed.
Lemma runs_in_loop {A} a (f : ST (Loop AgentTimer) A) : runs R a (in_loop f).
Proof. unfold runs, in_loop. destruct (f _). cbn. apply af_loop. Qed.
Lemma runs_dial a : runs R a dial.
Proof. exact (hf_world (R := R) a _). Qed.
#[local] Hint Resolve runs_count runs_in_loop runs_dial : runs.

Lemma runs_schedule_in a delay t : runs R a (schedule_in delay t).
Proof. unfold schedule_in. walk. Qed.
Lemma runs_answer a id m : runs R a (reply id m).
Proof. unfold reply. walk. Qed.
Lemma runs_send_message a m : runs R a (send_message m).
Proof. unfold send_message. walk. Qed.
Lemma runs_close_connection a id s : runs R a (close_connection id s).
Proof. unfold close_connection. walk. Qed.
#[local] Hint Resolve runs_schedule_in runs_answer runs_send_message runs_close_connection : runs.

Lemma runs_send_error_to a id request o s : runs R a (send_error_to id request o s).
Proof. unfold send_error_to. walk. Qed.
Lemma runs_report_cluster a : runs R a report_cluster.
Proof. unfold report_cluster. walk. Qed.
#[local] Hint Resolve runs_send_error_to runs_report_cluster : runs.
Lemma runs_report_if_connected a : runs R a report_if_connected.
Proof. unfold report_if_connected. walk. Qed.
Lemma runs_handshake_expired a : runs R a handshake_expired.
Proof. unfold handshake_expired. walk. Qed.
Lemma runs_accept_control a : runs R a accept_control.
Proof. unfold accept_control. walk. all: eauto using runs_set_roles. Qed.

Lemma runs_from_coordinator {A} a (dec : Parser A) frame handle :
  (forall m rest, dec (fr_payload frame) = Val (m, rest) -> runs R a (handle m)) ->
  runs R a (from_coordinator dec frame handle).
Proof. intros H. unfold from_coordinator. destruct (dec _) as [[m rest]|e|] eqn:E; [by eapply H|..]; walk. Qed.
Lemma runs_from_control {A} a (dec : Parser A) id frame handle :
  (forall m rest, dec (fr_payload frame) = Val (m, rest) -> runs R a (handle m)) ->
  runs R a (from_control dec id frame handle).
Proof. intros H. unfold from_control. destruct (dec _) as [[m rest]|e|] eqn:E; [by eapply H|..]; walk. Qed.
End quiet_rules.
#[export] Hint Resolve runs_count runs_set_roles runs_in_loop runs_dial runs_schedule_in runs_answer runs_send_message
  runs_close_connection runs_send_error_to runs_report_cluster runs_report_if_connected runs_handshake_expired
  runs_accept_control : runs.

Section agent_rules.
Context (R : Agent -> Agent -> Prop) {HR : AgentFrame R}.

Lemma runs_on_uplink a f : runs R a (on_uplink f).
Proof. apply (runs_modify _), af_uplink. Qed.
Lemma runs_set_config a f : runs R a (modify (fun a => a_set_config a (f a))).
Proof. apply (runs_modify _), af_config. Qed.
#[local] Hint Resolve runs_on_uplink : runs.
Lemma runs_connect a : runs R a connect_to_coordinator.
Proof. unfold connect_to_coordinator. walk. Qed.
End agent_rules.
#[export] Hint Resolve runs_on_uplink runs_set_config runs_connect : runs.

Lemma runs_on_identity R {HR : RegistryFrame R} a f : runs R a (on_identity f).
Proof. apply (runs_modify _), af_identity. Qed.
#[export] Hint Resolve runs_on_identity : runs.
#[export] Hint Extern 1 (runs (enforces _ _) _ (on_identity _)) => by split : runs.

(** ** The methods that only take authority away *)
Section refinement.
Context (a0 : Agent) (ins : option Instruction).
Implicit Types (a : Agent).

Lemma enforces_step a r' :
  local_transition a0 ins (a_registry a) r' -> enforces a0 ins a (a_set_registry a r').
Proof. intros H. split; [by apply rtc_once|done]. Qed.

Lemma enforces_other a r' :
  rg_grants r' = rg_grants (a_registry a) -> rg_contracts r' = rg_contracts (a_registry a) ->
  enforces a0 ins a (a_set_registry a r').
Proof. intros Hg Hc. by apply enforces_step, lt_same. Qed.

Lemma runs_agent_audit a action subject o detail : runs (enforces a0 ins) a (agent_append_audit action subject o detail).
Proof.
  unfold agent_append_audit. walk. apply runs_in_registry. cbn.
  destruct (append_audit_effect a1 (ac_cluster (a_config c)) action subject o detail (a_registry c)) as (l & -> & _).
  by apply enforces_other.
Qed.

Lemma runs_agent_persist_cluster a : runs (enforces a0 ins) a agent_persist_cluster.
Proof.
  unfold agent_persist_cluster. walk. apply (agent_runs_put _). intros r' Hput. apply put_cluster_Val in Hput as [-> _].
  by apply enforces_other.
Qed.

Lemma runs_mark a id state note : settled_state state -> runs (enforces a0 ins) a (update_grant id (mark_grant state note)).
Proof. intros Hs. apply runs_on_tables, enforces_step. by apply lt_settle. Qed.

Lemma runs_mark_fenced a id note : runs (enforces a0 ins) a (update_grant id (mark_grant GrantState_Fenced note)).
Proof. apply runs_mark. by left. Qed.
Lemma runs_mark_expired a id note : runs (enforces a0 ins) a (update_grant id (mark_grant GrantState_Expired note)).
Proof. apply runs_mark. by right; right. Qed.
Lemma runs_mark_aborted a id note : runs (enforces a0 ins) a (update_grant id (mark_grant GrantState_Aborted note)).
Proof. apply runs_mark. by right; left. Qed.
#[local] Hint Resolve runs_agent_audit runs_agent_persist_cluster runs_mark_fenced runs_mark_expired runs_mark_aborted : runs.

Lemma runs_fence_not_revalidated a term : runs (enforces a0 ins) a (fence_not_revalidated term).
Proof. unfold fence_not_revalidated. walk. Qed.

(** A committed grant is never enforceable, so re-evaluation never installs one. *)
Lemma enforceable_active a at_time g : grant_enforceable a at_time g = true -> gr_state g = GrantState_Active.
Proof. unfold grant_enforceable. by case_bool_decide. Qed.

Lemma runs_reevaluate a reason : runs (enforces a0 ins) a (reevaluate_enforcement reason).
Proof.
  unfold reevaluate_enforcement, each_grant. walk. exfalso.
  match goal with H : bool_decide (_ = GrantState_Committed) && _ = true |- _ =>
    apply andb_true_iff in H as [Hs%bool_decide_eq_true He%enforceable_active] end. congruence.
Qed.
#[local] Hint Resolve runs_fence_not_revalidated runs_reevaluate : runs.

Lemma runs_set_cluster_state a state : runs (enforces a0 ins) a (agent_set_cluster_state state).
Proof. unfold agent_set_cluster_state. walk. Qed.
Lemma runs_bump_generation a reason : runs (enforces a0 ins) a (bump_generation reason).
Proof. unfold bump_generation, each_grant, settle_grant. walk. Qed.
Lemma runs_set_policy_generation a generation : runs (enforces a0 ins) a (set_policy_generation generation).
Proof. unfold set_policy_generation. walk. Qed.
Lemma runs_withdraw_consent a reason : runs (enforces a0 ins) a (withdraw_consent reason).
Proof. unfold withdraw_consent. walk. Qed.
Lemma runs_fence_local_grant a id reason : runs (enforces a0 ins) a (fence_local_grant id reason).
Proof. unfold fence_local_grant, settle_grant. walk. Qed.
Lemma runs_upsert_endpoint a e : runs (enforces a0 ins) a (upsert_endpoint e).
Proof. unfold upsert_endpoint. walk. Qed.
#[local] Hint Resolve runs_set_cluster_state runs_withdraw_consent runs_fence_local_grant runs_upsert_endpoint : runs.

Lemma runs_agent_tick a : runs (enforces a0 ins) a agent_tick.
Proof. unfold agent_tick. walk. Qed.
#[local] Hint Resolve runs_agent_tick : runs.

Lemma runs_fire a timer : runs (enforces a0 ins) a (fire timer).
Proof. unfold fire. walk. Qed.

Lemma runs_agent_disconnect a id : runs (enforces a0 ins) a (agent_handle_disconnect id).
Proof. unfold agent_handle_disconnect. walk. Qed.

(** ** The handlers *)
Lemma runs_on_control_hello a id frame : runs (enforces a0 ins) a (on_control_hello id frame).
Proof. unfold on_control_hello. apply (runs_from_control _). intros. walk. Qed.
Lemma runs_on_hello_ack a frame : runs (enforces a0 ins) a (on_hello_ack frame).
Proof. unfold on_hello_ack. apply (runs_from_coordinator _). intros. walk. Qed.
Lemma runs_on_report_ack a frame : runs (enforces a0 ins) a (on_report_ack frame).
Proof. unfold on_report_ack. apply (runs_from_coordinator _). intros. walk. Qed.
Lemma runs_on_abort_grant a frame : runs (enforces a0 ins) a (on_abort_grant frame).
Proof. unfold on_abort_grant, settle_grant. apply (runs_from_coordinator _). intros. walk. Qed.
Lemma runs_on_fence a frame : runs (enforces a0 ins) a (on_fence frame).
Proof. unfold on_fence, fence_one, settle_grant. apply (runs_from_coordinator _). intros. walk. Qed.
Lemma runs_on_status_request a frame : runs (enforces a0 ins) a (on_status_request frame).
Proof. unfold on_status_request. apply (runs_from_coordinator _). intros. walk. Qed.
Lemma runs_agent_on_ping a frame : runs (enforces a0 ins) a (agent_on_ping frame).
Proof. unfold agent_on_ping. walk. Qed.
Lemma runs_agent_on_query a id frame : runs (enforces a0 ins) a (agent_on_query id frame).
Proof.
  unfold agent_on_query. apply (runs_from_control _). intros q rest _.
  unfold handle_query_local, agent_status, local_enforcement_outcome. walk.
Qed.
Lemma runs_agent_on_admin a id frame : runs (enforces a0 ins) a (agent_on_admin id frame).
Proof.
  unfold agent_on_admin. apply (runs_from_control _). intros q rest _.
  unfold update_from_admin, returning, refuse_action. walk.
Qed.
End refinement.
#[export] Hint Resolve runs_agent_audit runs_agent_persist_cluster runs_mark_fenced runs_fence_not_revalidated runs_reevaluate
  runs_set_cluster_state runs_bump_generation runs_set_policy_generation runs_withdraw_consent runs_fence_local_grant
  runs_upsert_endpoint runs_fire runs_agent_disconnect runs_on_control_hello runs_on_hello_ack runs_on_report_ack
  runs_on_abort_grant runs_on_fence runs_on_status_request runs_agent_on_ping runs_agent_on_query runs_agent_on_admin : runs.

(** Asking the environment changes nothing else. *)
Ltac asked := repeat match goal with H : now _ = (Val _, _) |- _ => unfold now, ask in H; injection H as <- <- end.

Section granting.
Implicit Types (a : Agent).

Lemma runs_accept_terms a p side :
  judge_terms a (pc_terms p) = inr side -> runs (enforces a (Some (Propose p))) a (accept_terms p side).
Proof.
  intros Hj. unfold accept_terms. do 2 (apply runs_gets_bind; cbn beta). cbv zeta.
  set (existing := find_contract (a_registry a) (pc_contract p)).
  apply (runs_bind _); [walk|]. intros created a1 H1.
  assert (Ha1 : exists w, a1 = a_set_world a w).
  { destruct (from_option ct_created_at 0 existing =? 0); [unfold now, ask in H1|cbn in H1]; injection H1 as _ <-; [by eexists|].
    exists (a_world a). by destruct a. }
  destruct Ha1 as [w ->]. clear H1.
  do 3 (apply (runs_bind _); [walk|]; intros ? ? ?; asked). apply runs_gets_bind; cbn beta.
  walk. apply (agent_runs_put _). intros r' Hput. apply enforces_step. eapply lt_consent; [done|exact Hj|reflexivity|].
  exact Hput.
Qed.

Lemma runs_on_propose_contract a frame p rest :
  decode_propose_contract (fr_payload frame) = Val (p, rest) ->
  runs (enforces a (Some (Propose p))) a (on_propose_contract frame).
Proof.
  intros Hd. unfold on_propose_contract, from_coordinator. rewrite Hd. apply runs_gets_bind; cbn beta.
  destruct (judge_terms a (pc_terms p)) as [[endpoint reason]|side] eqn:Hj; [walk|]. by apply runs_accept_terms.
Qed.

Lemma runs_on_prepare_grant a frame m rest :
  decode_prepare_grant (fr_payload frame) = Val (m, rest) ->
  runs (enforces a (Some (Prepare (pg_grant m)))) a (on_prepare_grant frame).
Proof.
  intros Hd. unfold on_prepare_grant, from_coordinator, respond_prepared. rewrite Hd. cbv zeta. apply runs_gets_bind; cbn beta.
  destruct (judge_grant a (pg_grant m)) as [detail|] eqn:Hj; [walk|].
  apply (runs_bind _); [walk|]. intros at_time a1 H1. asked. walk.
  apply (agent_runs_put _). intros r' Hput. apply enforces_step. by eapply lt_prepare.
Qed.

Lemma runs_on_commit_grant a frame m rest :
  decode_commit_grant (fr_payload frame) = Val (m, rest) ->
  runs (enforces a (Some (Commit m))) a (on_commit_grant frame).
Proof.
  intros Hd. unfold on_commit_grant, from_coordinator, respond_committed. rewrite Hd. apply runs_gets_bind; cbn beta.
  destruct (find_grant (a_registry a) (cg_grant m)) as [g|] eqn:Hg; [|walk].
  destruct (negb (bool_decide (gr_attempt g = cg_attempt m))) eqn:Hat; [walk|].
  destruct (_ && _) eqn:Hst; [walk|]. apply negb_false_iff, bool_decide_eq_true in Hat.
  apply (runs_bind _); [walk|]. intros at_time a1 H1. asked. walk.
  apply runs_on_tables, enforces_step. eapply lt_commit; [done|exact Hg|done|].
  apply andb_false_iff in Hst as [Hst|Hst]; apply negb_false_iff, bool_decide_eq_true in Hst; auto.
Qed.
End granting.

Lemma runs_rejected {A} R {HR : AgentFrame R} a (dec : Parser A) frame handle :
  (forall p, dec (fr_payload frame) <> Val p) -> runs R a (from_coordinator dec frame handle).
Proof. intros H. apply (runs_from_coordinator _). intros m rest E. by apply H in E. Qed.

(** Whatever frame arrives on whatever connection, the agent performs only protocol transitions for the
    instruction the frame carries. *)
Lemma runs_agent_handle_message a id frame :
  runs (enforces a (instruction a id frame)) a (agent_handle_message id frame).
Proof.
  unfold agent_handle_message, instruction. cbv zeta. do 2 (apply runs_gets_bind; cbn beta).
  destruct (id =? up_connection (a_uplink a)); cbn [negb].
  2: { rewrite andb_true_r. destruct (_ && _); [walk|]. destruct (fh_type _); walk. }
  rewrite andb_false_r. cbn [andb]. destruct (fh_type (fr_header frame)) eqn:Ht; try (solve [walk]).
  - destruct (decode_propose_contract _) as [[p rest]|e|] eqn:E; [by eapply runs_on_propose_contract|..];
      apply (runs_rejected _); intros p; by rewrite E.
  - destruct (decode_prepare_grant _) as [[p rest]|e|] eqn:E; [by eapply runs_on_prepare_grant|..];
      apply (runs_rejected _); intros p; by rewrite E.
  - destruct (decode_commit_grant _) as [[p rest]|e|] eqn:E; [by eapply runs_on_commit_grant|..];
      apply (runs_rejected _); intros p; by rewrite E.
Qed.
