(* ===== verification/AgentGuarantees.v ===== *)
(** * What the agent guarantees

    The reachable states of an agent and the properties of its local enforcement: nothing is enforced after a
    restart, a grant is installed only in two checked phases, what is enforced was consented to by this
    incarnation, and a change of identity revokes. *)
From S2P Require Import Prelude Status Utf8 Bytes Ids Types Registry Hash Time Canonical Terms Decision Fencing.
From S2P Require Import Mutation Files Wal Snapshot DurableStore Recovery Frame Messages Connection Reactor Effects Logic.
From S2P Require Import Agent AgentHandlers Enforcement.

Implicit Types (a : Agent).

(** ** The life of a grant *)
(** How the grants of [r] come from those of [r0] under one instruction. *)
Record two_phase (a : Agent) (ins : option Instruction) (r0 r : Registry) : Prop := mkTwoPhase {
  tp_active k g :
    find_grant r k = Some g -> gr_state g = GrantState_Active ->
    exists g0, find_grant r0 k = Some g0 /\ gr_attempt g0 = gr_attempt g /\
      (gr_state g0 = GrantState_Active \/
       gr_state g0 = GrantState_Prepared /\ exists m, ins = Some (Commit m) /\ cg_grant m = k /\ cg_attempt m = gr_attempt g);
  tp_prepared k g :
    find_grant r k = Some g -> gr_state g = GrantState_Prepared ->
    find_grant r0 k = Some g \/
    exists g0 at_time, ins = Some (Prepare g0) /\ gr_id g0 = k /\ judge_grant a g0 = None /\ g = prepared_grant g0 at_time;
}.

Lemma two_phase_refl a ins r : two_phase a ins r r.
Proof. split; intros k g Hg Hs; [|by left]. exists g. auto. Qed.

Lemma two_phase_step a ins r0 r r' : two_phase a ins r0 r -> local_transition a ins r r' -> two_phase a ins r0 r'.
Proof.
  intros [Ha Hp]. unfold find_grant in *. intros [r1 Hg _|id state note Hset|p side consent ? ? ? ? r1 _ _ _ Hput|
    g1 t r1 Hi Hj Hput|m g1 t Hi Hf Hat Hst].
  - rewrite <- Hg in Ha, Hp. by split.
  - split; intros k g Hg Hs; unfold find_grant in *; cbn in Hg; apply lookup_alter_Some in Hg as [(<- & g1 & Hk & ->)|[_ Hk]];
      [destruct Hset as [-> | [-> | ->]]; discriminate Hs|eauto|destruct Hset as [-> | [-> | ->]]; discriminate Hs|eauto].
  - apply put_contract_Val in Hput as [-> _]. by split.
  - apply put_grant_Val in Hput as [-> _]. split; intros k g Hg Hs; unfold find_grant in *; cbn in Hg;
      apply lookup_insert_Some in Hg as [[<- <-]|[_ Hk]]; [discriminate Hs|eauto|right; eauto 10|eauto].
  - split; intros k g Hg Hs; unfold find_grant in *; cbn in Hg;
      apply lookup_alter_Some in Hg as [(<- & g2 & Hk & ->)|[_ Hk]]; [|eauto|discriminate Hs|eauto].
    rewrite Hf in Hk. injection Hk as <-. cbn. destruct Hst as [Hst|Hst].
    + destruct (Hp _ _ Hf Hst) as [H0|(g0 & t0 & Hi' & _)]; [|congruence]. exists g1. eauto 10.
    + by apply (Ha _ _ Hf).
Qed.

Lemma two_phase_run a ins r0 r : rtc (local_transition a ins) r0 r -> two_phase a ins r0 r.
Proof.
  intros H. refine (rtc_ind_r (two_phase a ins r0) r0 (two_phase_refl a ins r0) _ r H).
  intros y z _ Hs Hy. by eapply two_phase_step.
Qed.

(** C3. A grant becomes enforced in two phases. Whatever frame arrives on whatever connection: a grant that is
    active afterwards was already active, or it was prepared and the frame is a COMMIT_GRANT from the
    coordinator for this grant and the prepared attempt; a grant that is prepared afterwards is unchanged, or the
    frame is a PREPARE_GRANT from the coordinator that passed every check of the agent. *)
Theorem enforcement_is_two_phase a id frame k g :
  find_grant (a_registry (agent_handle_message id frame a).2) k = Some g ->
  (gr_state g = GrantState_Active ->
   exists g0, find_grant (a_registry a) k = Some g0 /\ gr_attempt g0 = gr_attempt g /\
     (gr_state g0 = GrantState_Active \/
      gr_state g0 = GrantState_Prepared /\
      exists m, instruction a id frame = Some (Commit m) /\ cg_grant m = k /\ cg_attempt m = gr_attempt g)) /\
  (gr_state g = GrantState_Prepared ->
   find_grant (a_registry a) k = Some g \/
   exists g0 at_time, instruction a id frame = Some (Prepare g0) /\ gr_id g0 = k /\ judge_grant a g0 = None /\
     g = prepared_grant g0 at_time).
Proof.
  intros Hg. pose proof (runs_agent_handle_message a id frame) as [H _]. apply two_phase_run in H as [Ha Hp].
  split; [by apply Ha|by apply Hp].
Qed.

(** What [judge_grant] checks. *)
Lemma judge_grant_accepts a g :
  judge_grant a g = None <->
  exists contract side consent cluster endpoint,
    find_contract (a_registry a) (gr_contract g) = Some contract /\
    local_side (ac_cluster (a_config a)) (ct_parties contract) = Some side /\
    at_side (ct_consents contract) side = Some consent /\ cs_decision consent = ConsentDecision_Accepted /\
    cs_terms_digest consent = gr_terms_digest g /\ ct_terms_digest contract = gr_terms_digest g /\
    at_side (gr_incarnations g) side = id_incarnation (a_identity a) /\
    at_side (gr_generations g) side = id_generation (a_identity a) /\
    at_side (gr_policies g) side = id_policy_generation (a_identity a) /\
    gr_coordinator_term g = up_term (a_uplink a) /\
    local_cluster a = Some cluster /\
    endpoint_of (cl_endpoints cluster) (py_endpoint (at_side (ct_parties contract) side)) = Some endpoint /\
    gr_capacity g <= ep_capacity endpoint.
Proof.
  unfold judge_grant. split.
  - destruct (find_contract _ _) as [contract|]; [|done]. destruct (local_side _ _) as [side|] eqn:Hside; [|done].
    destruct (at_side (ct_consents contract) side) as [consent|] eqn:Hc; [|done].
    case_bool_decide as Hd; cbn [negb]; [|done]. case_bool_decide as H1; cbn [negb orb]; [|done].
    case_bool_decide as H2; cbn [negb]; [|done]. case_bool_decide as H3; cbn [negb orb]; [|done].
    destruct (Z.eqb_spec (at_side (gr_generations g) side) (id_generation (a_identity a))); cbn [negb orb]; [|done].
    destruct (Z.eqb_spec (at_side (gr_policies g) side) (id_policy_generation (a_identity a))); cbn [negb]; [|done].
    destruct (Z.eqb_spec (gr_coordinator_term g) (up_term (a_uplink a))); cbn [negb]; [|done].
    destruct (local_cluster a) as [cluster|]; cbn; [|done]. destruct (endpoint_of _ _) as [endpoint|] eqn:He; [|done].
    destruct (Z.ltb_spec (ep_capacity endpoint) (gr_capacity g)); [done|]. intros _.
    exists contract, side, consent, cluster, endpoint. split_and!; done.
  - intros (contract & side & consent & cluster & endpoint & -> & -> & -> & Hd & H1 & H2 & H3 & H4 & H5 & H6 & -> & He & Hcap).
    cbn [mbind option_bind]. rewrite !bool_decide_eq_true_2 by done. rewrite H4, H5, H6, !Z.eqb_refl, He. cbn.
    by apply Z.ltb_ge in Hcap as ->.
Qed.

(** ** Loops over the grants *)
(** A turn that rewrites one grant. *)
Definition rewrites (P : GrantRecord -> Prop) (id : string) (a a' : Agent) : Prop :=
  exists g, rg_grants (a_registry a') = <[id := g]> (rg_grants (a_registry a)) /\ P g.

Lemma rewrites_at P id k a a' :
  rewrites P id a a' -> (k = id \/ forall g, rg_grants (a_registry a) !! k = Some g -> P g) ->
  forall g, rg_grants (a_registry a') !! k = Some g -> P g.
Proof.
  intros (g1 & -> & HP) Hk g Hg. apply lookup_insert_Some in Hg as [[_ <-]|[Hne Hg]]; [done|]. destruct Hk; [done|eauto].
Qed.

(** After a loop that went through, every grant is as a turn leaves it. *)
Lemma each_grant_all (P : GrantRecord -> Prop) body a a' :
  (forall id g a a', find_grant (a_registry a) id = Some g -> body id g a = (Val tt, a') -> rewrites P id a a') ->
  each_grant body a = (Val tt, a') -> map_Forall (fun _ => P) (rg_grants (a_registry a')).
Proof.
  intros Hb H. unfold each_grant in H. apply bind_inv in H as (ids & a1 & [= <- <-] & H). intros k g.
  assert (Hone : forall id a a', (found ← gets (fun a => find_grant (a_registry a) id);
    match found with Some grant => body id grant | None => mret tt end) a = (Val tt, a') ->
    rewrites P id a a' \/ a' = a /\ rg_grants (a_registry a) !! id = None).
  { intros id b b' H1. apply bind_inv in H1 as (found & b1 & [= <- <-] & H1).
    destruct (find_grant (a_registry b) id) eqn:E; [left; by eapply Hb|]. injection H1 as <-. by right. }
  revert g. refine (each_establish (fun k a => forall g, rg_grants (a_registry a) !! k = Some g -> P g) _ _ _ _ _ _ H k _).
  - intros x b b' [Hr|[-> Hn]]%Hone g Hg; [exact (rewrites_at P x x b b' Hr (or_introl eq_refl) g Hg)|congruence].
  - intros x y b b' [Hr|[-> Hn]]%Hone Hx g Hg; [exact (rewrites_at P y x b b' Hr (or_intror Hx) g Hg)|eauto].
  - destruct (rg_grants (a_registry a) !! k) as [g|] eqn:E; [left|by right].
    apply list_elem_of_fmap. exists (k, g). split; [done|]. by apply elem_of_entries.
Qed.

(** [update_grant] followed by statements that leave the registry alone. *)
Lemma marks_one (P : GrantRecord -> Prop) id f g a (m : AM unit) a' :
  find_grant (a_registry a) id = Some g -> P (f g) -> (forall b, runs (on_registry registry_eq) b m) ->
  (_ ← update_grant id f; m) a = (Val tt, a') -> rewrites P id a a'.
Proof.
  intros Hg HP Hm H. apply bind_inv in H as ([] & a1 & [= <-] & H).
  pose proof (runs_result _ _ _ _ _ (Hm _) H) as Heq. unfold on_registry, registry_eq in Heq. cbn in Heq.
  exists (f g). rewrite Heq. split; [|done]. cbn. apply map_eq. intros k. destruct (base.decide (k = id)) as [->|Hne].
  - rewrite lookup_insert_eq, lookup_alter_eq. unfold find_grant in Hg. by rewrite Hg.
  - by rewrite lookup_insert_ne, lookup_alter_ne.
Qed.

Lemma rewrites_none (P : GrantRecord -> Prop) id g a :
  find_grant (a_registry a) id = Some g -> P g -> rewrites P id a a.
Proof. intros Hg HP. exists g. split; [|done]. by rewrite insert_id. Qed.

Lemma fence_recovered_all a a' :
  fence_recovered a = (Val tt, a') -> map_Forall (fun _ g => unsettled g = false) (rg_grants (a_registry a')).
Proof.
  apply each_grant_all. intros id g b b' Hg H. destruct (negb (unsettled g)) eqn:E.
  - injection H as <-. eapply rewrites_none; [done|]. by apply negb_true_iff.
  - eapply marks_one; [exact Hg| | |exact H]; [done|]. intros c. walk.
Qed.

(** The states that a new authority term ends. *)
Definition live (g : GrantRecord) : Prop :=
  gr_state g = GrantState_Active \/ gr_state g = GrantState_Committed \/ gr_state g = GrantState_Indeterminate \/
  gr_state g = GrantState_Prepared.

(** Methods that leave the grants alone. *)
Definition grants_eq (r r' : Registry) : Prop := rg_grants r' = rg_grants r.
#[export] Instance grants_eq_preorder : PreOrder grants_eq.
Proof. split; [done|]. unfold grants_eq. intros r1 r2 r3 H1 H2. congruence. Qed.

Lemma runs_audit_grants a action subject o detail :
  runs (on_registry grants_eq) a (agent_append_audit action subject o detail).
Proof.
  unfold agent_append_audit. walk. apply runs_in_registry. cbn.
  by destruct (append_audit_effect a0 (ac_cluster (a_config c)) action subject o detail (a_registry c)) as (l & -> & _).
Qed.
Lemma runs_persist_cluster_grants a : runs (on_registry grants_eq) a agent_persist_cluster.
Proof.
  unfold agent_persist_cluster. walk. apply (agent_runs_put _). intros r' Hput. by apply put_cluster_Val in Hput as [-> _].
Qed.
#[export] Hint Resolve runs_audit_grants runs_persist_cluster_grants : runs.

Lemma grants_of {A} a (m : AM A) x a' :
  runs (on_registry grants_eq) a m -> m a = (x, a') -> rg_grants (a_registry a') = rg_grants (a_registry a).
Proof. intros Hm H. exact (runs_result (on_registry grants_eq) a m x a' Hm H). Qed.

(** One turn of the loop of [fence_not_revalidated]. *)
Lemma fence_turn_rewrites term fenced id g a n a' :
  find_grant (a_registry a) id = Some g ->
  (if negb (bool_decide (gr_state g = GrantState_Active)) && negb (bool_decide (gr_state g = GrantState_Committed)) &&
      negb (bool_decide (gr_state g = GrantState_Indeterminate)) && negb (bool_decide (gr_state g = GrantState_Prepared))
   then mret fenced
   else if gr_coordinator_term g =? term then mret fenced
   else
     _ ← update_grant id (mark_grant GrantState_Fenced
           "the coordinator established a new authority term; this grant was not revalidated");
     _ ← count inc_fences;
     _ ← persist_grant id;
     mret (fenced + 1)) a = (Val n, a') ->
  rewrites (fun g => live g -> gr_coordinator_term g = term) id a a'.
Proof.
  intros Hg H. destruct (_ && _ && _ && _) eqn:E.
  { injection H as _ <-. eapply rewrites_none; [done|]. rewrite !andb_true_iff, !negb_true_iff in E.
    destruct E as [[[E1 E2] E3] E4]. apply bool_decide_eq_false in E1, E2, E3, E4. by intros [|[|[|]]]. }
  destruct (Z.eqb_spec (gr_coordinator_term g) term) as [Ht|Ht].
  { injection H as _ <-. by eapply rewrites_none. }
  apply bind_inv in H as ([] & a1 & H1 & H).
  assert (Hr : rewrites (fun g => live g -> gr_coordinator_term g = term) id a a1).
  { eapply (marks_one _ id _ g a (mret tt)); [exact Hg| |intros; walk|]; cycle 1.
    - unfold mbind, ST_bind. by rewrite H1.
    - intros [L|[L|[L|L]]]; discriminate L. }
  apply (runs_result (on_registry registry_eq)) in H; [|walk]. unfold on_registry, registry_eq in H. cbn in H.
  destruct Hr as (g' & Hr & HP). exists g'. by rewrite H.
Qed.

Lemma fence_not_revalidated_all term a a' :
  fence_not_revalidated term a = (Val tt, a') ->
  map_Forall (fun _ g => live g -> gr_coordinator_term g = term) (rg_grants (a_registry a')).
Proof.
  intros H. unfold fence_not_revalidated in H. apply bind_inv in H as (ids & a1 & [= <- <-] & H).
  apply bind_inv in H as (n & a2 & H2 & H). apply bind_inv in H as (inc & a3 & [= <- <-] & H).
  assert (Hg : rg_grants (a_registry a') = rg_grants (a_registry a2)) by (eapply grants_of; [|exact H]; walk).
  rewrite Hg. clear H Hg. intros k g.
  revert g. refine (fold_establish (fun k a => forall g, rg_grants (a_registry a) !! k = Some g -> live g -> gr_coordinator_term g = term)
    _ _ _ _ _ _ _ _ H2 k _).
  - intros b x c b' c' H g Hg. apply bind_inv in H as (found & c1 & [= <- <-] & H).
    destruct (find_grant (a_registry c) x) eqn:E; [|injection H as _ <-; unfold find_grant in E; congruence].
    apply (fence_turn_rewrites _ _ _ _ _ _ _ E) in H. exact (rewrites_at _ x x c c' H (or_introl eq_refl) g Hg).
  - intros b x y c b' c' H Hx g Hg. apply bind_inv in H as (found & c1 & [= <- <-] & H).
    destruct (find_grant (a_registry c) y) eqn:E; [|injection H as _ <-; eauto].
    apply (fence_turn_rewrites _ _ _ _ _ _ _ E) in H. exact (rewrites_at _ y x c c' H (or_intror Hx) g Hg).
  - destruct (rg_grants (a_registry a) !! k) as [g|] eqn:E; [left|by right].
    apply list_elem_of_fmap. exists (k, g). split; [done|]. by apply elem_of_entries.
Qed.

(** ** Starting *)
Definition nothing_unsettled (r : Registry) : Prop := map_Forall (fun _ g => unsettled g = false) (rg_grants r).

Lemma agent_begin_incarnation_settled a a' :
  (rc_recovered_from_store (a_recovery a) = false -> a_registry a = empty_registry) ->
  agent_begin_incarnation a = (Val tt, a') -> nothing_unsettled (a_registry a').
Proof.
  intros Hnew H. unfold agent_begin_incarnation in H. apply bind_inv in H as (rc & a1 & [= <- <-] & H).
  apply bind_inv in H as (config & a1 & [= <- <-] & H). cbv zeta in H.
  apply bind_inv in H as (inc & a1 & H1 & H). apply bind_inv in H as (at_time & a2 & H2 & H).
  apply bind_inv in H as ([] & a3 & H3 & H). apply bind_inv in H as (prev & a4 & H4 & H).
  apply bind_inv in H as ([] & a5 & H5 & H). apply bind_inv in H as (io & a6 & H6 & H).
  apply bind_inv in H as (meta & a7 & H7 & H). apply bind_inv in H as (seq & a8 & H8 & H).
  apply bind_inv in H as ([] & a9 & H9 & H). apply grants_of in H; [|walk]. unfold nothing_unsettled. rewrite H. clear H.
  assert (Hg : rg_grants (a_registry a8) = rg_grants (a_registry a)).
  { apply grants_of in H1, H2, H3, H4, H5, H6, H7, H8; try solve [walk]. congruence. }
  destruct (rc_recovered_from_store (a_recovery a)); cbn [negb] in H9.
  - apply bind_inv in H9 as ([] & b1 & Hf & H). apply grants_of in H; [|walk]. rewrite H. by eapply fence_recovered_all.
  - injection H9 as <-. rewrite Hg, Hnew by done. apply map_Forall_empty.
Qed.

Lemma agent_start_settled io config w network listening d a d' :
  agent_start io config w network listening d = (Val a, d') ->
  nothing_unsettled (a_registry a) /\ exists a0 d0, agent_load_state io config w network d = (Val a0, d0) /\
    exists a1, agent_begin_incarnation a0 = (Val tt, a1) /\
      (_ ← agent_persist_cluster; _ ← st_lift listening; at_time ← now;
       _ ← in_loop (schedule at_time AgentTimer_Tick); _ ← in_loop (schedule at_time AgentTimer_Connect); mret tt) a1
      = (Val tt, a).
Proof.
  intros H. unfold agent_start in H. do 3 (case_bool_decide; [done|]). destruct (_ =? 0); [done|].
  destruct (agent_load_state io config w network d) as [[a0|e|] d0] eqn:Hl; [|done..].
  set (rest := fun _ : unit => _) in H. destruct ((agent_begin_incarnation ≫= rest) a0) as [[[]|e|] a1] eqn:Hb; [|done..].
  injection H as <- <-. apply bind_inv in Hb as ([] & a2 & Hb & Hc). split; [|by eauto 10].
  assert (Hg : rg_grants (a_registry a1) = rg_grants (a_registry a2)) by (eapply grants_of; [|exact Hc]; unfold rest; walk).
  unfold nothing_unsettled. rewrite Hg. eapply agent_begin_incarnation_settled; [|exact Hb].
  unfold agent_load_state in Hl. destruct (store_open _ _ _) as [[ds|e|] [rc d1]] eqn:Ho; [|done..].
  injection Hl as <- <-. by apply store_open_stored in Ho as [_ Hn].
Qed.

Lemma settled_not_enforceable a at_time g : unsettled g = false -> grant_enforceable a at_time g = false.
Proof.
  intros Hu. destruct (grant_enforceable a at_time g) eqn:E; [|done]. apply enforceable_active in E.
  unfold unsettled in Hu. by rewrite E in Hu.
Qed.

(** The reply of the agent is positive only for a grant that passes the check. *)
Lemma enforcement_outcome_ok id a a' :
  local_enforcement_outcome id a = (Val Outcome_Ok, a') ->
  exists g, find_grant (a_registry a) id = Some g /\
    grant_enforceable a (wl_now (a_world a) (wl_next (a_world a))) g = true.
Proof.
  unfold local_enforcement_outcome. intros H. apply bind_inv in H as (found & a1 & [= <- <-] & H).
  destruct (find_grant (a_registry a) id) as [g|]; [|done]. do 3 (case_bool_decide; [done|]).
  apply bind_inv in H as (t & a1 & [= <- <-] & H). apply bind_inv in H as (e & a2 & [= <- <-] & H).
  destruct (grant_enforceable _ _ g) eqn:E; [by exists g|]. cbn [negb] in H.
  apply bind_inv in H as (t & a1 & [= <- <-] & H). destruct (_ <? _); [done|].
  apply bind_inv in H as (t & a1 & [= <- <-] & H). by destruct (negb _).
Qed.

(** Methods that leave the identity, the configuration and the uplink alone. *)
Definition same_self (a a' : Agent) : Prop :=
  a_identity a' = a_identity a /\ a_config a' = a_config a /\ a_uplink a' = a_uplink a /\ a_recovery a' = a_recovery a.
#[export] Instance same_self_quiet : AgentQuiet same_self.
Proof.
  assert (HostFrame same_self) by (split; [split; [intros a; by split_and!|]; unfold same_self; intros a1 a2 a3; intuition congruence|done..]).
  by split.
Qed.

Lemma runs_self_registry {A} a (f : ST Registry A) : runs same_self a (in_registry f).
Proof. by apply runs_in_registry. Qed.
Lemma runs_self_put a f : runs same_self a (put f).
Proof. apply runs_self_registry. Qed.
Lemma runs_self_grant a id f : runs same_self a (update_grant id f).
Proof. by apply runs_on_tables. Qed.
#[export] Hint Resolve runs_self_registry runs_self_put runs_self_grant : runs.

Lemma runs_self_audit a action subject o detail : runs same_self a (agent_append_audit action subject o detail).
Proof. unfold agent_append_audit. walk. Qed.
#[export] Hint Resolve runs_self_audit : runs.
Lemma runs_self_persist_cluster a : runs same_self a agent_persist_cluster.
Proof. unfold agent_persist_cluster. walk. Qed.
Lemma runs_self_fence_recovered a : runs same_self a fence_recovered.
Proof. unfold fence_recovered, each_grant. walk. Qed.
Lemma runs_self_fence a term : runs same_self a (fence_not_revalidated term).
Proof. unfold fence_not_revalidated. walk. Qed.
Lemma runs_self_reevaluate a reason : runs same_self a (reevaluate_enforcement reason).
Proof. unfold reevaluate_enforcement, each_grant. walk. Qed.
#[export] Hint Resolve runs_self_persist_cluster runs_self_fence_recovered runs_self_fence
  runs_self_reevaluate : runs.

Lemma self_of {A} a (m : AM A) x a' : runs same_self a m -> m a = (x, a') -> same_self a a'.
Proof. intros Hm H. exact (runs_result same_self a m x a' Hm H). Qed.

(** The identity a new incarnation takes. *)
Definition new_identity (a : Agent) (incarnation : string) (started_at : Z) : Identity :=
  let i := mkIdentity (match counter_next (me_term (rc_meta (a_recovery a))) with Val t => t | _ => u64_max end) incarnation
             (ac_generation (a_config a)) (ac_policy_generation (a_config a)) (ac_state (a_config a))
             (id_consent_withdrawn (a_identity a)) started_at in
  match local_cluster a with
  | None => i
  | Some previous => resume_identity (a_config a) previous i
  end.

Lemma agent_begin_incarnation_self a a' :
  agent_begin_incarnation a = (Val tt, a') ->
  (exists incarnation started_at, a_identity a' = new_identity a incarnation started_at) /\
  a_config a' = a_config a /\ a_uplink a' = a_uplink a /\
  (forall p, local_cluster a = Some p -> cl_generation p <= ac_generation (a_config a)).
Proof.
  intros H. unfold agent_begin_incarnation in H. apply bind_inv in H as (rc & a1 & [= <- <-] & H).
  apply bind_inv in H as (config & a1 & [= <- <-] & H). cbv zeta in H.
  apply bind_inv in H as (inc & a1 & [= <- <-] & H). apply bind_inv in H as (at_time & a2 & [= <- <-] & H).
  apply bind_inv in H as ([] & a3 & [= <-] & H). apply bind_inv in H as (prev & a4 & [= <- <-] & H).
  apply bind_inv in H as ([] & a5 & H5 & H).
  apply self_of in H as (Hi & Hc & Hu & _); [|walk]. unfold new_identity.
  change (local_cluster (a_set_identity _ _)) with (local_cluster a) in H5.
  destruct (local_cluster a) as [p|] eqn:Hp.
  - destruct (Z.ltb_spec (ac_generation (a_config a)) (cl_generation p)) as [|Hle]; [done|]. injection H5 as <-.
    split; [do 2 eexists; exact Hi|]. split_and!; [done..|]. by intros ? [= <-].
  - injection H5 as <-. split; [do 2 eexists; exact Hi|]. by split_and!.
Qed.

Lemma agent_load_state_inv io config w network d a d' :
  agent_load_state io config w network d = (Val a, d') -> a_config a = config /\ up_connected (a_uplink a) = false.
Proof. unfold agent_load_state. destruct (store_open _ _ _) as [[ds|e|] [rc d1]]; [|done..]. by intros [= <- <-]. Qed.

(** C8. Nothing recovered authorizes: whatever the files hold, an agent that has started answers no question
    about a grant with OK and counts no enforced grant, and it has no session with a coordinator. *)
Theorem restart_enforces_nothing io config w network listening d a d' :
  agent_start io config w network listening d = (Val a, d') ->
  (forall id, (local_enforcement_outcome id a).1 <> Val Outcome_Ok) /\
  (forall at_time, enforced_grant_count a at_time = 0) /\
  up_connected (a_uplink a) = false.
Proof.
  intros H. apply agent_start_settled in H as [Hs (a0 & d0 & Hl & a1 & Hb & Hc)]. split_and!.
  - intros id. destruct (local_enforcement_outcome id a) as [r a2] eqn:E. cbn. intros ->.
    apply enforcement_outcome_ok in E as (g & Hg & He). rewrite settled_not_enforceable in He; [done|]. by apply (Hs id).
  - intros t. unfold enforced_grant_count. rewrite filter_none; [done|]. apply Forall_forall. intros g [k Hk]%elem_of_values.
    rewrite settled_not_enforceable; [done|]. by apply (Hs k).
  - apply self_of in Hc as (_ & _ & -> & _); [|walk]. apply agent_begin_incarnation_self in Hb as (_ & _ & -> & _).
    by eapply agent_load_state_inv.
Qed.

(** The record that describes the cluster carries the identity. *)
Definition describes (i : Identity) (c : ClusterRecord) : Prop :=
  cl_incarnation c = id_incarnation i /\ cl_generation c = id_generation i /\
  cl_policy_generation c = id_policy_generation i /\ cl_state c = id_cluster_state i /\
  cl_consent_withdrawn c = id_consent_withdrawn i.

Lemma persist_cluster_describes a a' :
  agent_persist_cluster a = (Val tt, a') -> exists c, local_cluster a' = Some c /\ describes (a_identity a') c.
Proof.
  intros H. pose proof (self_of _ _ _ _ (runs_self_persist_cluster a) H) as (Hi & Hc & _).
  unfold agent_persist_cluster in H. apply bind_inv in H as (old & a1 & [= <- <-] & H).
  apply bind_inv in H as (seen & a2 & [= <- <-] & H). apply bind_inv in H as (observed & a3 & [= <- <-] & H).
  apply bind_inv in H as (record & a4 & [= <- <-] & H). apply bind_inv in H as ([] & a5 & H5 & H).
  apply bind_inv in H as (stored & a6 & [= <- <-] & H).
  apply (runs_result (on_registry registry_eq)) in H; [|walk]. unfold on_registry, registry_eq in H. cbn in H.
  unfold put, in_registry, st_try in H5. cbn in H5.
  destruct (put_cluster _ _) as [r'|e|] eqn:Hput; [|done..]. injection H5 as <-. cbn in H.
  apply put_cluster_Val in Hput as [Hr _]. unfold local_cluster. rewrite H, Hr, Hc, Hi. unfold find_cluster. cbn.
  rewrite lookup_insert_eq. eexists. split; [reflexivity|]. done.
Qed.

(** A restart supersedes the previous life of the cluster: the new incarnation stores a cluster record with
    its own identity, whose generation is greater than the recorded one (unless that is the largest 64-bit value),
    whose policy generation is not smaller, and which keeps a withdrawn consent withdrawn. The coordinator
    accepts a reincarnation on these conditions only. *)
Theorem restart_supersedes io config w network listening d a d' a0 d0 p :
  agent_start io config w network listening d = (Val a, d') ->
  agent_load_state io config w network d = (Val a0, d0) -> local_cluster a0 = Some p -> cl_generation p < u64_max ->
  cl_generation p < id_generation (a_identity a) /\
  cl_policy_generation p <= id_policy_generation (a_identity a) /\
  id_consent_withdrawn (a_identity a) = cl_consent_withdrawn p /\
  exists c, local_cluster a = Some c /\ describes (a_identity a) c.
Proof.
  intros H Hl Hp Hmax. apply agent_start_settled in H as [_ (a0' & d0' & Hl' & a1 & Hb & Hc)].
  rewrite Hl in Hl'. injection Hl' as <- <-. apply agent_load_state_inv in Hl as [Hcfg _].
  apply bind_inv in Hc as ([] & a2 & Hper & Hc).
  assert (Hloc : local_cluster a = local_cluster a2).
  { pose proof Hc as Hr. apply (runs_result (on_registry registry_eq)) in Hr; [|walk]. unfold on_registry, registry_eq in Hr.
    apply self_of in Hc as (_ & Hcc & _ & _); [|walk]. unfold local_cluster. cbn in Hr. by rewrite Hr, Hcc. }
  apply self_of in Hc as (Hi & _ & _ & _); [|walk]. rewrite Hi, Hloc.
  pose proof (persist_cluster_describes _ _ Hper) as Hd. apply self_of in Hper as (Hi2 & _ & _ & _); [|walk].
  rewrite Hi2 in *. apply agent_begin_incarnation_self in Hb as ((inc & t & Hid) & _ & _ & Hgen). rewrite Hid in *.
  specialize (Hgen p Hp). split_and!; [| | |exact Hd]; clear Hd; unfold new_identity; rewrite Hp; cbn.
  - destruct (Z.eqb_spec (ac_generation (a_config a0)) (cl_generation p)) as [He|]; [|lia].
    unfold counter_bump, counter_increment. destruct (Z.eqb_spec (cl_generation p) u64_max); cbn; lia.
  - destruct (Z.ltb_spec (ac_policy_generation (a_config a0)) (cl_policy_generation p)); lia.
  - done.
Qed.

(** ** Revocation *)
(** What it takes for the local side to use a grant. *)
Lemma grant_enforceable_spec a at_time g :
  ac_require_coordinator (a_config a) = true ->
  grant_enforceable a at_time g = true <->
  gr_state g = GrantState_Active /\ id_consent_withdrawn (a_identity a) = false /\
  id_cluster_state (a_identity a) = ClusterState_Active /\ at_time <= gr_valid_until g /\
  gr_coordinator_term g = up_term (a_uplink a) /\
  exists contract side, find_contract (a_registry a) (gr_contract g) = Some contract /\
    local_side (ac_cluster (a_config a)) (ct_parties contract) = Some side /\
    at_side (gr_incarnations g) side = id_incarnation (a_identity a) /\
    at_side (gr_generations g) side = id_generation (a_identity a) /\
    at_side (gr_policies g) side = id_policy_generation (a_identity a).
Proof.
  intros Hreq. unfold grant_enforceable. rewrite Hreq. cbn [negb]. split.
  - case_bool_decide as Hs; cbn [negb]; [|done]. destruct (find_contract _ _) as [contract|]; [|done].
    destruct (local_side _ _) as [side|] eqn:Hside; [|done]. case_bool_decide as H1; cbn [negb orb]; [|done].
    destruct (Z.eqb_spec (at_side (gr_generations g) side) (id_generation (a_identity a))); cbn [negb orb]; [|done].
    destruct (Z.eqb_spec (at_side (gr_policies g) side) (id_policy_generation (a_identity a))); cbn [negb]; [|done].
    destruct (Z.eqb_spec (gr_coordinator_term g) (up_term (a_uplink a))); cbn [negb]; [|done].
    destruct (Z.ltb_spec (gr_valid_until g) at_time); [done|]. destruct (id_consent_withdrawn _); [done|]. cbn [orb].
    case_bool_decide as H2; cbn [negb]; [|done]. intros _. split_and!; try done. exists contract, side. by split_and!.
  - intros (Hs & Hw & Hst & Ht & Htm & contract & side & -> & -> & H1 & H2 & H3).
    rewrite !bool_decide_eq_true_2 by done. rewrite H2, H3, Htm, !Z.eqb_refl, Hw. cbn. by apply Z.ltb_ge in Ht as ->.
Qed.

Lemma nothing_enforced a at_time :
  (forall k g, find_grant (a_registry a) k = Some g -> grant_enforceable a at_time g = false) ->
  enforced_grant_count a at_time = 0.
Proof.
  intros H. unfold enforced_grant_count. rewrite filter_none; [done|]. apply Forall_forall. intros g [k Hk]%elem_of_values.
  by rewrite (H k).
Qed.

(** An identity that is not consenting or not active enforces nothing. *)
Lemma passive_enforces_nothing a at_time :
  ac_require_coordinator (a_config a) = true ->
  id_consent_withdrawn (a_identity a) = true \/ id_cluster_state (a_identity a) <> ClusterState_Active ->
  enforced_grant_count a at_time = 0.
Proof.
  intros Hreq Hp. apply nothing_enforced. intros k g _. destruct (grant_enforceable a at_time g) eqn:E; [|done].
  apply grant_enforceable_spec in E as (_ & Hw & Hs & _); [|done]. destruct Hp; congruence.
Qed.

(** A change of identity followed by methods that keep it. *)
Lemma identity_then {A} f (m : AM A) a :
  (forall b, runs same_self b m) ->
  a_identity ((_ ← on_identity f; m) a).2 = f (a_identity a) /\ a_config ((_ ← on_identity f; m) a).2 = a_config a.
Proof.
  intros Hm. change ((_ ← on_identity f; m) a) with (m (a_set_identity a (f (a_identity a)))).
  destruct (Hm (a_set_identity a (f (a_identity a)))) as (Hi & Hc & _). by rewrite Hi, Hc.
Qed.

Lemma bump_generation_all reason a a' :
  bump_generation reason a = (Val tt, a') ->
  map_Forall (fun _ g => gr_state g <> GrantState_Active /\ gr_state g <> GrantState_Committed) (rg_grants (a_registry a')).
Proof.
  intros H. unfold bump_generation in H. apply bind_inv in H as (i & a1 & [= <- <-] & H).
  apply bind_inv in H as (next & a2 & H2 & H). apply bind_inv in H as ([] & a3 & H3 & H).
  apply bind_inv in H as ([] & a4 & H4 & H). apply bind_inv in H as ([] & a5 & H5 & H).
  apply grants_of in H; [|walk]. rewrite H. revert H5. apply each_grant_all. intros id g b b' Hg H5.
  destruct (_ || _) eqn:E.
  - eapply (marks_one _ id (mark_grant GrantState_Fenced _) g b (persist_grant id)); [exact Hg|done| |exact H5]. intros c. walk.
  - injection H5 as <-. eapply rewrites_none; [exact Hg|]. apply orb_false_iff in E as [E1 E2].
    by apply bool_decide_eq_false in E1, E2.
Qed.

(** C12. Revocation by the cluster itself is immediate and does not depend on the disk or the network: after
    [withdraw_consent] or [agent_set_cluster_state] to any state but active, with whatever result, no grant is enforced;
    after a [bump_generation] that succeeded none is either. *)
Theorem local_revocation a :
  ac_require_coordinator (a_config a) = true ->
  (forall reason at_time, enforced_grant_count (withdraw_consent reason a).2 at_time = 0) /\
  (forall state at_time, state <> ClusterState_Active -> enforced_grant_count (agent_set_cluster_state state a).2 at_time = 0) /\
  (forall reason at_time a', bump_generation reason a = (Val tt, a') -> enforced_grant_count a' at_time = 0).
Proof.
  intros Hreq. split_and!.
  - intros reason t. unfold withdraw_consent. set (rest := fun _ : unit => _ ← agent_persist_cluster; _).
    destruct (identity_then (set_id_withdrawn true) (rest tt) a) as [Hi Hc]; [intros b; unfold rest; walk|].
    apply passive_enforces_nothing; [|left]; unfold rest in *; [by rewrite Hc|by rewrite Hi].
  - intros state t Hst. unfold agent_set_cluster_state. set (rest := fun _ : unit => _ ← agent_persist_cluster; _).
    destruct (identity_then (set_id_state state) (rest tt) a) as [Hi Hc]; [intros b; unfold rest; walk|].
    apply passive_enforces_nothing; [|right]; unfold rest in *; [by rewrite Hc|by rewrite Hi].
  - intros reason t a' H. apply bump_generation_all in H. apply nothing_enforced. intros k g Hg.
    destruct (grant_enforceable a' t g) eqn:E; [|done]. apply enforceable_active in E. by destruct (H k g Hg).
Qed.


(** ** Reachable states *)
(** One turn of the event loop of an agent, or a call of its local control surface. *)
Inductive agent_step : Agent -> Agent -> Prop :=
| as_message id frame a : agent_step a (agent_handle_message id frame a).2
| as_disconnect id a : agent_step a (agent_handle_disconnect id a).2
| as_timer timer a : agent_step a (fire timer a).2
| as_accept a : agent_step a (accept_control a).2
| as_network a l : agent_step a (a_set_loop a l)
| as_world a w : agent_step a (a_set_world a w)
| as_bump reason a : agent_step a (bump_generation reason a).2
| as_policy generation a : agent_step a (set_policy_generation generation a).2.

Inductive agent_reachable : Agent -> Prop :=
| agent_reach_start io config w network listening d a d' :
    agent_start io config w network listening d = (Val a, d') -> agent_reachable a
| agent_reach_step a a' : agent_reachable a -> agent_step a a' -> agent_reachable a'.

(** Every step is a sequence of transitions within the incarnation. *)
Lemma agent_step_enforces a a' : agent_step a a' -> exists ins, enforces a ins a a'.
Proof.
  intros [id frame b|id b|timer b|b|b l|b w|reason b|generation b].
  - eexists. apply runs_agent_handle_message.
  - exists None. apply runs_agent_disconnect.
  - exists None. apply runs_fire.
  - exists None. apply (runs_accept_control _).
  - exists None. apply (af_loop (R := enforces b None)).
  - exists None. exact (hf_world (R := enforces b None) b w).
  - exists None. apply runs_bump_generation.
  - exists None. apply runs_set_policy_generation.
Qed.

(** The consent this incarnation stands on for a grant. *)
Definition consented (incarnation : string) (r : Registry) (g : GrantRecord) : Prop :=
  exists contract side consent, find_contract r (gr_contract g) = Some contract /\
    at_side (ct_consents contract) side = Some consent /\ cs_decision consent = ConsentDecision_Accepted /\
    at_side (gr_incarnations g) side = incarnation.

Definition installed (g : GrantRecord) : Prop := gr_state g = GrantState_Prepared \/ gr_state g = GrantState_Active.

Definition enforcement_ok (incarnation : string) (r : Registry) : Prop :=
  map_Forall (fun _ g => installed g -> consented incarnation r g) (rg_grants r).

(** A new consent does not take away another one. *)
Lemma consented_put_contract incarnation r p side consent created updated observed g :
  cs_decision consent = ConsentDecision_Accepted -> consented incarnation r g ->
  consented incarnation (with_contracts (<[pc_contract p :=
    recorded_contract (find_contract r (pc_contract p)) p side consent created updated observed]> (rg_contracts r)) r) g.
Proof.
  intros Hacc (contract & s & old & Hf & Hc & Hd & Hi). unfold consented, find_contract in *. cbn.
  destruct (base.decide (gr_contract g = pc_contract p)) as [He|Hne].
  - rewrite He in *. rewrite lookup_insert_eq. exists (recorded_contract (rg_contracts r !! pc_contract p) p side consent created updated observed), s.
    rewrite Hf. cbn. destruct (base.decide (s = side)) as [->|Hs].
    + exists consent. split; [done|]. split; [by destruct side|done].
    + exists old. split; [done|]. split; [|done]. by destruct side, s.
  - rewrite lookup_insert_ne by done. by exists contract, s, old.
Qed.

Lemma consented_step incarnation a ins r r' g :
  local_transition a ins r r' -> consented incarnation r g -> consented incarnation r' g.
Proof.
  intros Ht Hc. assert (Hsame : forall r', rg_contracts r' = rg_contracts r -> consented incarnation r' g).
  { intros r1 H1. unfold consented, find_contract in *. by rewrite H1. }
  destruct Ht as [r1 Hg Hct|id state note Hset|p side consent decided created updated observed r1 _ _ _ Hput|
    g1 t r1 Hi Hj Hput|m g1 t Hi Hf Hat Hst]; [by apply Hsame..| | |by apply Hsame].
  - apply put_contract_Val in Hput as [-> _]. by apply consented_put_contract.
  - apply put_grant_Val in Hput as [-> _]. by apply Hsame.
Qed.

Lemma enforcement_ok_step a ins r r' :
  local_transition a ins r r' ->
  (forall g, ins = Some (Prepare g) -> judge_grant a g = None -> consented (id_incarnation (a_identity a)) r g) ->
  enforcement_ok (id_incarnation (a_identity a)) r -> enforcement_ok (id_incarnation (a_identity a)) r'.
Proof.
  set (inc := id_incarnation (a_identity a)). intros Ht Hprep Hok k g Hk Hin. pose proof Ht as Ht'.
  assert (Hold : forall g, consented inc r g -> consented inc r' g) by (intros g0; by eapply consented_step).
  destruct Ht' as [r1 Hg Hc|id state note Hset|p side consent decided created updated observed r1 _ _ _ Hput|
    g1 t r1 Hi Hj Hput|m g1 t Hi Hf Hat Hst]; apply Hold.
  - rewrite Hg in Hk. by apply (Hok k).
  - cbn in Hk. apply lookup_alter_Some in Hk as [(<- & g1 & _ & ->)|[_ Hk]]; [|by apply (Hok k)].
    destruct Hset as [-> | [-> | ->]], Hin as [Hi|Hi]; discriminate Hi.
  - apply put_contract_Val in Hput as [-> _]. by apply (Hok k).
  - apply put_grant_Val in Hput as [-> _]. cbn in Hk.
    apply lookup_insert_Some in Hk as [[_ <-]|[_ Hk]]; [|by apply (Hok k)]. exact (Hprep g1 Hi Hj).
  - cbn in Hk. apply lookup_alter_Some in Hk as [(<- & g2 & Hk & ->)|[_ Hk]]; [|by apply (Hok k)].
    unfold find_grant in Hf. rewrite Hf in Hk. injection Hk as <-. exact (Hok _ _ Hf Hst).
Qed.

Lemma judged_consented a g : judge_grant a g = None -> consented (id_incarnation (a_identity a)) (a_registry a) g.
Proof.
  intros (contract & side & consent & cl & e & Hf & _ & Hc & Hd & _ & _ & Hi & _)%judge_grant_accepts.
  by exists contract, side, consent.
Qed.

Lemma enforcement_ok_run a ins r :
  rtc (local_transition a ins) (a_registry a) r -> enforcement_ok (id_incarnation (a_identity a)) (a_registry a) ->
  enforcement_ok (id_incarnation (a_identity a)) r.
Proof.
  intros H Hok. set (inc := id_incarnation (a_identity a)) in *.
  refine (proj1 (rtc_ind_r (fun r => enforcement_ok inc r /\ forall g, judge_grant a g = None -> consented inc r g)
    (a_registry a) _ _ r H)); [split; [done|apply judged_consented]|].
  intros r1 r2 _ Hs [H1 H2]. split; [eapply enforcement_ok_step; eauto|].
  intros g Hg. eapply consented_step; eauto.
Qed.

Lemma agent_reachable_ok a : agent_reachable a -> enforcement_ok (id_incarnation (a_identity a)) (a_registry a).
Proof.
  induction 1 as [io config w network listening d a d' H|a a' _ IH H].
  - apply agent_start_settled in H as [Hs _]. intros k g Hk Hin. specialize (Hs k g Hk). cbn in Hs. unfold unsettled in Hs.
    destruct Hin as [Hin|Hin]; by rewrite Hin in Hs.
  - apply agent_step_enforces in H as (ins & H & ->). by eapply enforcement_ok_run.
Qed.

(** C5. What an agent enforces is current and consented. In every state an agent can reach, after whatever
    start, messages, disconnections, timers and failures: if it answers OK for a grant, then the grant is active,
    the cluster is active and has not withdrawn its consent, the lease has not elapsed, the grant carries the term
    of the coordinator that answered the last handshake, it is bound to the present incarnation, generation and
    policy generation of this cluster, and the contract it names holds an accepted consent for a side that the
    grant binds to this incarnation. *)
Theorem enforced_is_current a id a' :
  agent_reachable a -> ac_require_coordinator (a_config a) = true ->
  local_enforcement_outcome id a = (Val Outcome_Ok, a') ->
  exists g contract side, find_grant (a_registry a) id = Some g /\ gr_state g = GrantState_Active /\
    id_consent_withdrawn (a_identity a) = false /\ id_cluster_state (a_identity a) = ClusterState_Active /\
    wl_now (a_world a) (wl_next (a_world a)) <= gr_valid_until g /\ gr_coordinator_term g = up_term (a_uplink a) /\
    find_contract (a_registry a) (gr_contract g) = Some contract /\
    local_side (ac_cluster (a_config a)) (ct_parties contract) = Some side /\
    at_side (gr_incarnations g) side = id_incarnation (a_identity a) /\
    at_side (gr_generations g) side = id_generation (a_identity a) /\
    at_side (gr_policies g) side = id_policy_generation (a_identity a) /\
    consented (id_incarnation (a_identity a)) (a_registry a) g.
Proof.
  intros Hr Hreq H. apply enforcement_outcome_ok in H as (g & Hg & He).
  apply grant_enforceable_spec in He as (Hs & Hw & Hst & Ht & Htm & contract & side & Hc & Hside & H1 & H2 & H3); [|done].
  exists g, contract, side. split_and!; try done. apply agent_reachable_ok in Hr. apply (Hr id); [done|]. by right.
Qed.
