(* ===== verification/Coordinator.v ===== *)
(** * The coordinator: state, environment, persistence and the grant flow

    Models include/icf/runtime/coordinator.hpp and the first half of src/runtime/coordinator.cpp: what
    the message handlers (Handlers.v, Admin.v) are built from.

    A method is a computation in [M], the statements of [Effects.v] over the state [Coordinator]. *)
From S2P Require Import Prelude Status Utf8 Bytes Ids Types Registry Hash Time Canonical Terms Policy Decision Engine.
From S2P Require Import Fencing Mutation Files Wal Snapshot DurableStore Frame Messages Connection Effects.

(** ** State *)
Record PeerSession := mkSession {
  ss_role : PeerRole;
  ss_cluster : string;
  ss_domain : string;
  ss_token : string;
  ss_incarnation : string;
  ss_generation : Z;
  ss_policy_generation : Z;
  ss_agent_term : Z;
  ss_signing : bool;
  ss_hello_complete : bool;
  ss_connected_at : Z;
  ss_connection_id : Z;
}.

Record SendTarget := mkTarget { tg_connected : bool; tg_connection_id : Z; tg_token : string }.
Definition target_none : SendTarget := mkTarget false 0 nil_uuid.

Record PendingGrant := mkPending {
  pd_grant : string;
  pd_contract : string;
  pd_prepared : bool * bool;
  pd_targets : SendTarget * SendTarget;
  pd_deadline : Z;
  pd_attempts : Z;
}.

(** The members of [Coordinator::Config] that the modelled code reads. *)
Record Config := mkConfig {
  cf_state_directory : string;
  cf_domain : string;
  cf_durable : bool;
  cf_allow_agent_registration : bool;
  cf_domain_keys : gmap string string;
  cf_default_lease : Z;
  cf_ping_interval : Z;
  cf_grant_flow_deadline : Z;
  cf_compact_bytes : Z;
  cf_compact_records : Z;
}.

Record Counters := mkCounters {
  k_commits : Z;
  k_fences : Z;
  k_refusals : Z;
  k_revalidations : Z;
  k_rejected_replays : Z;
  k_rejected_frames : Z;
  k_pongs_received : Z;
  k_errors_received : Z;
}.
Definition counters_zero : Counters := mkCounters 0 0 0 0 0 0 0 0.

Record Coordinator := mkCoordinator {
  c_config : Config;
  c_store : DurableStore;
  c_disk : Disk;
  c_recovery : Recovery;
  c_registry : Registry;
  c_term : Z;
  c_incarnation : string;
  c_previous_incarnation : string;
  c_started_at : Z;
  c_connections : gmap Z Connection;
  c_sessions : gmap Z PeerSession;
  c_pending : gmap string PendingGrant;
  c_counters : Counters;
  c_world : World;
}.

(** ** Assignments to the members *)
Section members.
Context (c : Coordinator).
Definition set_store (ds : DurableStore) (d : Disk) : Coordinator :=
  mkCoordinator (c_config c) ds d (c_recovery c) (c_registry c) (c_term c) (c_incarnation c) (c_previous_incarnation c)
    (c_started_at c) (c_connections c) (c_sessions c) (c_pending c) (c_counters c) (c_world c).
Definition set_registry (r : Registry) : Coordinator :=
  mkCoordinator (c_config c) (c_store c) (c_disk c) (c_recovery c) r (c_term c) (c_incarnation c)
    (c_previous_incarnation c) (c_started_at c) (c_connections c) (c_sessions c) (c_pending c) (c_counters c) (c_world c).
Definition set_identity (term : Z) (incarnation previous : string) (started_at : Z) : Coordinator :=
  mkCoordinator (c_config c) (c_store c) (c_disk c) (c_recovery c) (c_registry c) term incarnation previous started_at
    (c_connections c) (c_sessions c) (c_pending c) (c_counters c) (c_world c).
Definition set_connections (m : gmap Z Connection) : Coordinator :=
  mkCoordinator (c_config c) (c_store c) (c_disk c) (c_recovery c) (c_registry c) (c_term c) (c_incarnation c)
    (c_previous_incarnation c) (c_started_at c) m (c_sessions c) (c_pending c) (c_counters c) (c_world c).
Definition set_sessions (m : gmap Z PeerSession) : Coordinator :=
  mkCoordinator (c_config c) (c_store c) (c_disk c) (c_recovery c) (c_registry c) (c_term c) (c_incarnation c)
    (c_previous_incarnation c) (c_started_at c) (c_connections c) m (c_pending c) (c_counters c) (c_world c).
Definition set_pending (m : gmap string PendingGrant) : Coordinator :=
  mkCoordinator (c_config c) (c_store c) (c_disk c) (c_recovery c) (c_registry c) (c_term c) (c_incarnation c)
    (c_previous_incarnation c) (c_started_at c) (c_connections c) (c_sessions c) m (c_counters c) (c_world c).
Definition set_counters (k : Counters) : Coordinator :=
  mkCoordinator (c_config c) (c_store c) (c_disk c) (c_recovery c) (c_registry c) (c_term c) (c_incarnation c)
    (c_previous_incarnation c) (c_started_at c) (c_connections c) (c_sessions c) (c_pending c) k (c_world c).
Definition set_world (w : World) : Coordinator :=
  mkCoordinator (c_config c) (c_store c) (c_disk c) (c_recovery c) (c_registry c) (c_term c) (c_incarnation c)
    (c_previous_incarnation c) (c_started_at c) (c_connections c) (c_sessions c) (c_pending c) (c_counters c) w.
End members.

(** ** The monad *)
Abbreviation M := (ST Coordinator).

#[export] Instance coordinator_host : Host Coordinator := {
  host_registry := c_registry;
  host_set_registry := set_registry;
  host_store := c_store;
  host_disk := c_disk;
  host_set_store := set_store;
  host_connections := c_connections;
  host_set_connections := set_connections;
  host_world := c_world;
  host_set_world := set_world;
}.

(** Writes through a pointer into the maps of the coordinator. *)
Definition update_session (id : Z) (f : PeerSession -> PeerSession) : M unit :=
  modify (fun c => set_sessions c (alter f id (c_sessions c))).
Definition update_pending (id : string) (f : PendingGrant -> PendingGrant) : M unit :=
  modify (fun c => set_pending c (alter f id (c_pending c))).
Definition erase_pending (id : string) : M unit := modify (fun c => set_pending c (delete id (c_pending c))).

(** ** Counters *)
Definition bump (f : Counters -> Counters) : M unit := modify (fun c => set_counters c (f (c_counters c))).
Definition inc_commits (k : Counters) : Counters :=
  mkCounters (inc (k_commits k)) (k_fences k) (k_refusals k) (k_revalidations k) (k_rejected_replays k)
    (k_rejected_frames k) (k_pongs_received k) (k_errors_received k).
Definition add_fences (n : Z) (k : Counters) : Counters :=
  mkCounters (k_commits k) ((k_fences k + n) mod 2 ^ 64) (k_refusals k) (k_revalidations k) (k_rejected_replays k)
    (k_rejected_frames k) (k_pongs_received k) (k_errors_received k).
Definition inc_refusals (k : Counters) : Counters :=
  mkCounters (k_commits k) (k_fences k) (inc (k_refusals k)) (k_revalidations k) (k_rejected_replays k)
    (k_rejected_frames k) (k_pongs_received k) (k_errors_received k).
Definition inc_revalidations (k : Counters) : Counters :=
  mkCounters (k_commits k) (k_fences k) (k_refusals k) (inc (k_revalidations k)) (k_rejected_replays k)
    (k_rejected_frames k) (k_pongs_received k) (k_errors_received k).
Definition inc_rejected_replays (k : Counters) : Counters :=
  mkCounters (k_commits k) (k_fences k) (k_refusals k) (k_revalidations k) (inc (k_rejected_replays k))
    (k_rejected_frames k) (k_pongs_received k) (k_errors_received k).
Definition inc_rejected_frames (k : Counters) : Counters :=
  mkCounters (k_commits k) (k_fences k) (k_refusals k) (k_revalidations k) (k_rejected_replays k)
    (inc (k_rejected_frames k)) (k_pongs_received k) (k_errors_received k).
Definition inc_pongs_received (k : Counters) : Counters :=
  mkCounters (k_commits k) (k_fences k) (k_refusals k) (k_revalidations k) (k_rejected_replays k)
    (k_rejected_frames k) (inc (k_pongs_received k)) (k_errors_received k).
Definition inc_errors_received (k : Counters) : Counters :=
  mkCounters (k_commits k) (k_fences k) (k_refusals k) (k_revalidations k) (k_rejected_replays k)
    (k_rejected_frames k) (k_pongs_received k) (inc (k_errors_received k)).

(** ** Persistence *)
(** The member function [append_audit]; [Fencing.append_audit] is the free one. *)
Definition coordinator_append_audit (actor action subject : string) (outcome : Outcome) (detail : string) : M unit :=
  at_time ← now;
  trail ← gets (fun c => rg_audit (c_registry c));
  if limits.kMaxAuditRecords <=? zlen trail then mret tt
  else
    _ ← in_registry (append_audit at_time actor action subject outcome detail);
    back ← gets (fun c => last (rg_audit (c_registry c)));
    match back with
    | Some record => append_mutation (MAuditAppend record)
    | None => mret tt
    end.

Definition put_meta_term (c : Coordinator) : StoreMeta :=
  let meta := rc_meta (c_recovery c) in
  let n := counts (c_registry c) in
  mkMeta (c_term c) (c_incarnation c) (n_clusters n + n_contracts n + n_grants n) (me_sequence meta) (me_written_at meta)
    (me_truncations meta) (registry_digest (c_registry c)).

Definition compact_if_needed : M unit :=
  needed ← gets (fun c => needs_compaction (c_store c));
  if negb needed then mret tt
  else
    r ← gets c_registry;
    meta ← gets put_meta_term;
    at_time ← now;
    io_save ← ask wl_save;
    io_reset ← ask wl_reset;
    stream ← ask wl_uuid;
    in_store (compact io_save io_reset stream r meta at_time).

(** ** Connections and sessions *)
Definition kVirtualConnection : Z := 0.

Definition connection_for (c : Coordinator) (id : Z) : option Connection :=
  if id =? kVirtualConnection then None else c_connections c !! id.

(** [send_to(connection_for(id), type, message)] *)
Definition send_to (id : Z) (message : Message) : M unit := fun c =>
  match connection_for c id with
  | None => (Val tt, c)
  | Some connection =>
      match queue_frame (message_type message) (encode_message message) (nc_sign_outbound (cn_config connection))
              connection with
      | (r, connection') => (r, set_connections c (<[id := connection']> (c_connections c)))
      end
  end.

Definition channel_key_for (c : Coordinator) (domain : string) : bytes :=
  match cf_domain_keys (c_config c) !! domain with
  | Some key => str_bytes key
  | None => []
  end.

Definition session_for (c : Coordinator) (connection_id : Z) : option PeerSession := c_sessions c !! connection_id.

Definition require_session (connection_id : Z) (token : string) : M PeerSession :=
  found ← gets (fun c => session_for c connection_id);
  match found with
  | Some session =>
      if negb (ss_hello_complete session) then
        _ ← bump inc_rejected_replays; err Outcome_Unauthorized "message received before a completed handshake"
      else if negb (bool_decide (ss_token session = token)) then
        _ ← bump inc_rejected_replays; err Outcome_Replayed "session token does not match the established session"
      else mret session
  | None => _ ← bump inc_rejected_replays; err Outcome_Unauthorized "message received before a completed handshake"
  end.

Definition send_refuse (connection_id : Z) (outcome : Outcome) (detail : string) : M unit :=
  _ ← bump inc_refusals; send_to connection_id (MRefuse (mkRefuse outcome detail)).

Definition send_error (connection_id : Z) (request : string) (outcome : Outcome) (detail : string) : M unit :=
  send_to connection_id (MError (mkError request outcome detail)).

(** The sessions in the order of the map. *)
Definition key_leZ {V} (a b : Z * V) : Prop := a.1 <= b.1.
#[export] Instance key_leZ_dec {V} : RelDecision (@key_leZ V).
Proof. intros a b. unfold key_leZ. apply _. Defined.
Definition sessions_in_order (c : Coordinator) : list (Z * PeerSession) :=
  merge_sort key_leZ (map_to_list (c_sessions c)).

Definition agent_session (s : PeerSession) : bool :=
  bool_decide (ss_role s = PeerRole_Agent) && ss_hello_complete s.

(** One turn of the loop of [target_for]. *)
Definition better_session (cluster : string) (best : option PeerSession) (s : PeerSession) : option PeerSession :=
  if negb (agent_session s) || negb (bool_decide (ss_cluster s = cluster)) then best
  else match best with
  | None => Some s
  | Some b =>
      if (ss_connected_at b <? ss_connected_at s) ||
         ((ss_connected_at b =? ss_connected_at s) && (ss_connection_id b <? ss_connection_id s))
      then Some s else best
  end.

Definition target_for (c : Coordinator) (cluster : string) : SendTarget :=
  match foldl (better_session cluster) None (sessions_in_order c).*2 with
  | None => target_none
  | Some best => mkTarget true (ss_connection_id best) (ss_token best)
  end.

(** ** Fencing *)
(** The record an action of a plan names, as the mutation that stores it. *)
Definition action_mutation (r : Registry) (a : FenceAction) : option Mutation :=
  match fa_target a with
  | FenceTarget_Grant => MGrantPut <$> find_grant r (fa_grant a)
  | FenceTarget_Contract => MContractPut <$> find_contract r (fa_contract a)
  | FenceTarget_Reservation => MReservationPut <$> find_reservation r (fa_reservation a)
  end.

(** One turn of the loop over the actions: the record is stored, and a grant that is fenced now is
    collected. *)
Definition persist_action (fenced : list string) (a : FenceAction) : M (list string) :=
  r ← gets c_registry;
  match action_mutation r a with
  | None => mret fenced
  | Some m =>
      _ ← append_mutation m;
      mret (match m with
            | MGrantPut g => if bool_decide (gr_state g = GrantState_Fenced) then fenced ++ [gr_id g] else fenced
            | _ => fenced
            end)
  end.

Definition fence_plan_apply (plan : FencePlan) (actor : string) : M unit :=
  if bool_decide (fp_actions plan = []) then mret tt
  else
    audit_before ← gets (fun c => length (rg_audit (c_registry c)));
    at_time ← now;
    outcome ← in_registry (apply_fence_plan plan at_time actor);
    _ ← bump (add_fences (fo_grants_fenced outcome));
    fenced ← fold_m persist_action [] (fp_actions plan);
    clusters ← gets (fun c => values (rg_clusters (c_registry c)));
    _ ← each (fun cluster => append_mutation (MClusterPut cluster)) clusters;
    audit ← gets (fun c => drop audit_before (rg_audit (c_registry c)));
    _ ← each (fun record => append_mutation (MAuditAppend record)) audit;
    if bool_decide (fenced = []) then mret tt
    else
      term ← gets c_term;
      sessions ← gets sessions_in_order;
      each (fun '(id, session) =>
        if negb (agent_session session) then mret tt
        else ignore (send_to id (MFence (mkFence (ss_token session) term fenced
                       ("fenced by " ++ fence_trigger_to_string (fp_trigger plan)))))) sessions.

Definition fence_cluster (cluster : string) (trigger : FenceTrigger) (new_incarnation previous_incarnation : string)
    (generation : Z) : M unit :=
  plan ← gets (fun c => plan_fence (c_registry c) trigger cluster new_incarnation previous_incarnation generation (c_term c));
  _ ← fence_plan_apply plan "coordinator";
  coordinator_append_audit "coordinator" "fence-cluster" cluster Outcome_Fenced
    ("trigger=" ++ fence_trigger_to_string trigger ++ " grants=" ++ num (zlen (fp_actions plan))).

(** ** The grant flow *)
(** The write through the pointer to the first endpoint with the identity. *)
Fixpoint update_endpoint (id : string) (f : EndpointRecord -> EndpointRecord) (l : list EndpointRecord)
    : list EndpointRecord :=
  match l with
  | [] => []
  | e :: l => if bool_decide (ep_id e = id) then f e :: l else e :: update_endpoint id f l
  end.

(** One side of [reserve_capacity]. *)
Definition reserve_side (grant : GrantRecord) (contract : ContractRecord) (at_time : Z) (side : bool) : M unit :=
  let party := at_side (ct_parties contract) side in
  found ← gets (fun c => find_cluster (c_registry c) (py_cluster party));
  match found with
  | None => err Outcome_NotFound "a bound cluster is not registered"
  | Some cluster =>
      match endpoint_of (cl_endpoints cluster) (py_endpoint party) with
      | None => err Outcome_NotFound "a bound endpoint scope is not registered"
      | Some endpoint =>
          let requested := gr_capacity grant in
          let already := ep_reserved endpoint in
          if (ep_capacity endpoint <? requested) || (ep_capacity endpoint - requested <? already) then
            err Outcome_CapacityExceeded
              ("endpoint scope " ++ ep_id endpoint ++ " cannot reserve the requested capacity")
          else
            _ ← update_cluster (py_cluster party) (fun cl =>
                  set_cl_endpoints (update_endpoint (py_endpoint party) (set_ep_reserved (already + requested))
                    (cl_endpoints cl)) cl);
            id ← random_uuid;
            let reservation := mkReservation id (gr_id grant) (ep_id endpoint) (cl_id cluster) (gr_capacity grant) false
                                 at_time 0 0 (set_pv EvidenceSource_DerivedFromTopology at_time provenance_default) in
            _ ← put (put_reservation reservation);
            _ ← append_mutation (MReservationPut reservation);
            current ← gets (fun c => find_cluster (c_registry c) (py_cluster party));
            match current with
            | Some cluster => append_mutation (MClusterPut cluster)
            | None => mret tt
            end
      end
  end.

Definition reserve_capacity (grant : GrantRecord) (at_time : Z) : M unit :=
  found ← gets (fun c => find_contract (c_registry c) (gr_contract grant));
  match found with
  | None => err Outcome_NotFound "the grant references an unknown contract"
  | Some contract => each (reserve_side grant contract at_time) [false; true]
  end.

Definition abort_grant (grant_id reason : string) : M unit :=
  found ← gets (fun c => find_grant (c_registry c) grant_id);
  match found with
  | None => erase_pending grant_id
  | Some grant =>
      if bool_decide (gr_state grant = GrantState_Fenced) || bool_decide (gr_state grant = GrantState_Withdrawn)
      then erase_pending grant_id
      else
        _ ← update_grant grant_id (mark_grant GrantState_Aborted reason);
        persisted ← attempt (persist_grant grant_id);
        _ ← erase_pending grant_id;
        match persisted with
        | inl e => st_lift (Err e)
        | inr _ => coordinator_append_audit "coordinator" "abort-grant" (uuid_to_string grant_id) Outcome_Cancelled reason
        end
  end.

Definition finalise_grant (grant_id : string) (at_time : Z) : M unit :=
  found ← gets (fun c => find_grant (c_registry c) grant_id);
  match found with
  | None => err Outcome_NotFound "the grant is not registered"
  | Some grant =>
      if usable_state grant then mret tt
      else if negb (both_acknowledged grant) then
        err Outcome_Incomplete "both parties have not acknowledged the grant"
      else
        reserved ← attempt (reserve_capacity grant at_time);
        match reserved with
        | inl e => _ ← abort_grant grant_id (st_message e); st_lift (Err e)
        | inr _ =>
            _ ← update_grant grant_id (fun g =>
                  set_gr_state GrantState_Committed "committed by both cluster agents" (gr_revision g)
                    (set_pv EvidenceSource_DerivedFromTopology at_time (gr_provenance g)) g);
            _ ← persist_grant grant_id;
            _ ← bump inc_commits;
            _ ← erase_pending grant_id;
            coordinator_append_audit "coordinator" "commit-grant" (uuid_to_string grant_id) Outcome_Ok
              "both cluster agents acknowledged the same attempt"
        end
  end.

(** [prepare_grant(grant)] takes its argument by reference. [write] is what an assignment to it does
    besides changing the local value: nothing for a local variable, a write to the registry for a
    reference into it. *)
Definition prepare_grant (write : GrantRecord -> M unit) (grant : GrantRecord) : M unit :=
  found ← gets (fun c => find_contract (c_registry c) (gr_contract grant));
  match found with
  | None => err Outcome_NotFound "the grant references an unknown contract"
  | Some contract =>
      if negb (bool_decide (ct_state contract = ContractState_Consented)) &&
         negb (bool_decide (ct_state contract = ContractState_Active))
      then err Outcome_Incomplete "both authority domains must consent before a grant can be prepared"
      else
        at_time ← now;
        deadline ← gets (fun c => timestamp_plus at_time (cf_grant_flow_deadline (c_config c)));
        a ← gets (fun c => target_for c (py_cluster (ct_parties contract).1));
        if negb (tg_connected a) then
          err Outcome_Unreachable ("cluster agent for " ++ py_cluster (ct_parties contract).1 ++ " is not connected")
        else
        b ← gets (fun c => target_for c (py_cluster (ct_parties contract).2));
        if negb (tg_connected b) then
          err Outcome_Unreachable ("cluster agent for " ++ py_cluster (ct_parties contract).2 ++ " is not connected")
        else
        observed ← now;
        let grant := set_gr_state GrantState_Preparing (gr_note grant) (gr_revision grant)
                       (set_pv EvidenceSource_DerivedFromTopology observed (gr_provenance grant)) grant in
        _ ← write grant;
        _ ← append_mutation (MGrantPut grant);
        _ ← ignore (put (put_grant grant));
        let pending := mkPending (gr_id grant) (gr_contract grant) (false, false) (a, b) deadline 0 in
        _ ← modify (fun c => set_pending c (<[gr_id grant := pending]> (c_pending c)));
        stored ← gets (fun c => find_grant (c_registry c) (gr_id grant));
        match stored with
        | None => err Outcome_Internal "the grant disappeared after being stored"
        | Some stored =>
            each (fun target => send_to (tg_connection_id target) (MPrepareGrant (mkPrepareGrant (tg_token target) stored)))
              [a; b]
        end
  end.

Definition commit_grant (grant_id : string) : M unit :=
  found ← gets (fun c => find_grant (c_registry c) grant_id);
  match found with
  | None => err Outcome_NotFound "the grant is not registered"
  | Some grant =>
      tracked ← gets (fun c => c_pending c !! grant_id);
      match tracked with
      | None => err Outcome_Indeterminate "the grant flow is no longer pending"
      | Some pending =>
          if negb (tg_connected (pd_targets pending).1) || negb (tg_connected (pd_targets pending).2) then
            _ ← update_grant grant_id (mark_grant GrantState_Indeterminate
                  "a cluster agent disconnected before the commit was issued");
            persist_grant grant_id
          else
            _ ← update_grant grant_id (mark_grant GrantState_Prepared "both cluster agents prepared the same attempt");
            _ ← persist_grant grant_id;
            each (fun target => send_to (tg_connection_id target)
                    (MCommitGrant (mkCommitGrant (tg_token target) grant_id (gr_attempt grant))))
              [(pd_targets pending).1; (pd_targets pending).2]
      end
  end.

(** ** Starting *)
Definition coordinator_options (config : Config) : Options :=
  mkOptions (cf_state_directory config) "coordinator.snapshot" "coordinator.wal" (cf_compact_bytes config)
    (cf_compact_records config) (cf_durable config).

(** [load_state]: the store is opened and the registry moved out of the recovery. *)
Definition load_state (io : StoreIo) (config : Config) (w : World) (d : Disk) : Result Coordinator * Disk :=
  match store_open io (coordinator_options config) (recovery_default, d) with
  | (Err e, (_, d')) => (Err e, d')
  | (Throw, (_, d')) => (Throw, d')
  | (Val ds, (rc, d')) =>
      let rc' := mkRecovery empty_registry (rc_meta rc) (rc_wal rc) (rc_snapshot_loaded rc) (rc_recovered_from_store rc)
                   (rc_created_fresh rc) (rc_mutations_applied rc) (rc_incidents rc) in
      (Val (mkCoordinator config ds d' rc' (rc_registry rc) 0 nil_uuid nil_uuid 0 ∅ ∅ ∅ counters_zero w), d')
  end.

Definition begin_incarnation : M unit :=
  recovery ← gets c_recovery;
  let previous := me_incarnation (rc_meta recovery) in
  let term := match counter_next (me_term (rc_meta recovery)) with Val t => t | _ => u64_max end in
  incarnation ← random_uuid;
  started_at ← now;
  _ ← modify (fun c => set_identity c term incarnation previous started_at);
  io ← ask wl_append;
  meta ← gets (fun c => mkMeta term incarnation (me_revision (rc_meta recovery)) (wal_last_sequence (ds_wal (c_store c)))
                          started_at (me_truncations (rc_meta recovery)) (registry_digest (c_registry c)));
  _ ← in_store (append_meta io meta started_at);
  _ ← (if negb (rc_recovered_from_store recovery) then mret tt
       else
         fenced ← in_registry (fence_recovered_state started_at "coordinator-recovery" previous term);
         io ← ask wl_append;
         _ ← in_store (append_incident io
               ("recovered from store: " ++ num (fo_grants_fenced fenced) ++ " grants fenced, " ++
                num (fo_reservations_released fenced) ++ " reservations released") started_at);
         grants ← gets (fun c => values (rg_grants (c_registry c)));
         _ ← each (fun g => append_mutation (MGrantPut g)) grants;
         reservations ← gets (fun c => values (rg_reservations (c_registry c)));
         _ ← each (fun s => append_mutation (MReservationPut s)) reservations;
         clusters ← gets (fun c => values (rg_clusters (c_registry c)));
         each (fun cl => append_mutation (MClusterPut cl)) clusters);
  coordinator_append_audit "coordinator" "begin-incarnation" (uuid_to_string incarnation) Outcome_Ok
    ("term=" ++ num term ++ (if rc_recovered_from_store recovery then " recovered=true" else " recovered=false")).

(** [create] and [start]. Binding the listener and installing the timer are calls of the operating
    system and do not touch the modelled state. *)
Definition start (io : StoreIo) (config : Config) (w : World) (d : Disk) : Result Coordinator * Disk :=
  if bool_decide (cf_domain config = ""%string) then
    (invalid "the coordinator requires an authority domain identity", d)
  else if bool_decide (cf_state_directory config = ""%string) then
    (invalid "the coordinator requires a state directory", d)
  else match load_state io config w d with
  | (Val c, _) =>
      match (_ ← begin_incarnation; compact_if_needed) c with
      | (Val _, c') => (Val c', c_disk c')
      | (Err e, c') => (Err e, c_disk c')
      | (Throw, c') => (Throw, c_disk c')
      end
  | (Err e, d') => (Err e, d')
  | (Throw, d') => (Throw, d')
  end.
