(* ===== verification/Handlers.v ===== *)
(** * The message handlers of the coordinator

    Models the handlers of src/runtime/coordinator.cpp: [handle_message], [handle_disconnect], every
    [on_*] but [on_query] and [on_admin] (Admin.v), and the periodic [expire_grants],
    [retry_pending_flows] and [tick]. *)
From S2P Require Import Prelude Status Utf8 Bytes Ids Types Registry Hash Time Canonical Terms Policy Decision Engine.
From S2P Require Import Fencing Mutation Files Wal Snapshot DurableStore Frame Messages Connection Effects Coordinator.

(** A handler decodes the payload first; a payload that does not decode is counted and answered. *)
Definition with_message {A} (dec : Parser A) (id : Z) (frame : Frame) (handle : A -> M unit) : M unit :=
  match dec (fr_payload frame) with
  | Val (message, _) => handle message
  | Err e => _ ← bump inc_rejected_frames; send_error id nil_uuid (st_outcome e) (st_message e)
  | Throw => st_lift Throw
  end.

(** The session guard of a handler. *)
Definition with_session (id : Z) (token : string) (handle : PeerSession -> M unit) : M unit :=
  authorized ← attempt (require_session id token);
  match authorized with
  | inl e => send_error id nil_uuid (st_outcome e) (st_message e)
  | inr session => handle session
  end.

(** ** Assignments to a cluster record *)
Definition set_cl_last_seen (t : Z) (c : ClusterRecord) : ClusterRecord :=
  mkCluster (cl_id c) (cl_domain c) (cl_incarnation c) (cl_generation c) (cl_policy_generation c) (cl_state c)
    (cl_consent_withdrawn c) t (cl_endpoints c) (cl_content_digest c) (cl_generation_conflict c)
    (cl_conflicting_generation c) (cl_revision c) (cl_provenance c) (cl_incarnation_changes c).

(** The reincarnation branch of [on_hello]. *)
Definition reincarnate (m : HelloMessage) (seen observed : Z) (c : ClusterRecord) : ClusterRecord :=
  mkCluster (cl_id c) (cl_domain c) (he_incarnation m) (he_generation m) (cl_policy_generation c) (cl_state c)
    (cl_consent_withdrawn c) seen (cl_endpoints c) (he_content_digest m) false None (cl_revision c)
    (set_pv EvidenceSource_AgentReported observed (cl_provenance c)) (inc (cl_incarnation_changes c)).

Definition set_cl_policy (generation seen : Z) (c : ClusterRecord) : ClusterRecord :=
  mkCluster (cl_id c) (cl_domain c) (cl_incarnation c) (cl_generation c) generation (cl_state c)
    (cl_consent_withdrawn c) seen (cl_endpoints c) (cl_content_digest c) (cl_generation_conflict c)
    (cl_conflicting_generation c) (cl_revision c) (cl_provenance c) (cl_incarnation_changes c).

Definition set_cl_conflict (generation : Z) (c : ClusterRecord) : ClusterRecord :=
  mkCluster (cl_id c) (cl_domain c) (cl_incarnation c) (cl_generation c) (cl_policy_generation c) (cl_state c)
    (cl_consent_withdrawn c) (cl_last_seen c) (cl_endpoints c) (cl_content_digest c) true (Some generation)
    (cl_revision c) (cl_provenance c) (cl_incarnation_changes c).

Definition set_cl_withdrawn (withdrawn : bool) (seen : Z) (c : ClusterRecord) : ClusterRecord :=
  mkCluster (cl_id c) (cl_domain c) (cl_incarnation c) (cl_generation c) (cl_policy_generation c) (cl_state c)
    withdrawn seen (cl_endpoints c) (cl_content_digest c) (cl_generation_conflict c) (cl_conflicting_generation c)
    (cl_revision c) (cl_provenance c) (cl_incarnation_changes c).

(** [mutation.cluster = *cluster; append_mutation(mutation)] *)
Definition persist_cluster (id : string) : M unit :=
  found ← gets (fun c => find_cluster (c_registry c) id);
  match found with
  | Some cluster => append_mutation (MClusterPut cluster)
  | None => mret tt
  end.

Definition persist_contract (id : string) : M unit :=
  found ← gets (fun c => find_contract (c_registry c) id);
  match found with
  | Some contract => append_mutation (MContractPut contract)
  | None => mret tt
  end.

(** ** HELLO *)
Definition set_ack (outcome : Outcome) (detail : string) (a : HelloAckMessage) : HelloAckMessage :=
  mkHelloAck (ha_session a) (ha_coordinator a) (ha_coordinator_term a) outcome (ha_negotiated_version a)
    (ha_view_digest a) (ha_revalidate a) detail.

(** [++refusals_; return send_to(connection, HelloAck, ack)] *)
Definition refuse_hello (id : Z) (ack : HelloAckMessage) (outcome : Outcome) (detail : string) : M unit :=
  _ ← bump inc_refusals; send_to id (MHelloAck (set_ack outcome detail ack)).

(** The record of a cluster that registers itself. *)
Definition registered_cluster (m : HelloMessage) (seen observed : Z) : ClusterRecord :=
  mkCluster (he_cluster m) (he_domain m) (he_incarnation m) (he_generation m) (he_policy_generation m)
    ClusterState_Unknown false seen [] (he_content_digest m) false None 0
    (mkProvenance EvidenceSource_AgentReported VerificationState_Verified observed 0 nil_uuid (he_content_digest m)) 0.

(** What the handshake does to the registry. [inl] is a refusal to answer with, [inr] the detail of
    the acceptance and the grants to revalidate. *)
Definition hello_cluster (m : HelloMessage) : M ((Outcome * string) + (string * list string)) :=
  found ← gets (fun c => find_cluster (c_registry c) (he_cluster m));
  match found with
  | None =>
      allowed ← gets (fun c => cf_allow_agent_registration (c_config c));
      if negb allowed then
        mret (inl (Outcome_NotFound, "cluster identity is not registered and agent-driven registration is disabled"%string))
      else
        seen ← now;
        observed ← now;
        stored ← attempt (put (put_cluster (registered_cluster m seen observed)));
        match stored with
        | inl e => mret (inl (st_outcome e, st_message e))
        | inr _ =>
            _ ← persist_cluster (he_cluster m);
            _ ← coordinator_append_audit "coordinator" "register-cluster" (he_cluster m) Outcome_Ok
                  "cluster identity registered from an agent handshake";
            mret (inr (""%string, []))
        end
  | Some cluster =>
      let reincarnated := negb (bool_decide (he_incarnation m = cl_incarnation cluster)) in
      if negb (bool_decide (cl_domain cluster = he_domain m)) then
        mret (inl (Outcome_Refused, "the cluster is governed by a different authority domain"%string))
      else if he_generation m <? cl_generation cluster then
        mret (inl (Outcome_Stale, "the agent presents a generation older than the authoritative one"%string))
      else if reincarnated && (he_generation m =? cl_generation cluster) then
        mret (inl (Outcome_Stale, "a new incarnation must present a generation greater than the recorded one"%string))
      else if reincarnated then
        seen ← now;
        observed ← now;
        _ ← update_cluster (he_cluster m) (reincarnate m seen observed);
        _ ← fence_cluster (he_cluster m) FenceTrigger_ClusterReincarnation (he_incarnation m) (cl_incarnation cluster)
              (he_generation m);
        grants ← gets (fun c => entries (rg_grants (c_registry c)));
        let fenced := (filter (fun e => gr_state e.2 = GrantState_Fenced) grants).*1 in
        _ ← persist_cluster (he_cluster m);
        mret (inr ("cluster reincarnation recorded; dependent grants were fenced"%string, fenced))
      else if negb (he_policy_generation m =? cl_policy_generation cluster) then
        if he_policy_generation m <? cl_policy_generation cluster then
          mret (inl (Outcome_Stale, "the agent presents a policy generation older than the authoritative one"%string))
        else
          seen ← now;
          _ ← update_cluster (he_cluster m) (set_cl_policy (he_policy_generation m) seen);
          _ ← fence_cluster (he_cluster m) FenceTrigger_PolicyGenerationChange (cl_incarnation cluster)
                (cl_incarnation cluster) (cl_generation cluster);
          _ ← persist_cluster (he_cluster m);
          mret (inr ("bind policy generation changed; dependent grants were fenced"%string, []))
      else
        seen ← now;
        _ ← update_cluster (he_cluster m) (set_cl_last_seen seen);
        mret (inr ("handshake accepted"%string, []))
  end.

(** The stale branch audits the refusal before it answers. *)
Definition stale_handshake (m : HelloMessage) : M bool :=
  found ← gets (fun c => find_cluster (c_registry c) (he_cluster m));
  match found with
  | Some cluster => mret (bool_decide (cl_domain cluster = he_domain m) && (he_generation m <? cl_generation cluster))
  | None => mret false
  end.

Definition accept_agent (id : Z) (m : HelloMessage) (key : bytes) (ack : HelloAckMessage) (fenced : list string) : M unit :=
  token ← random_uuid;
  connected_at ← now;
  current ← gets (fun c => find_cluster (c_registry c) (he_cluster m));
  let conflict := from_option cl_generation_conflict false current in
  let outcome := if conflict then Outcome_Conflicting else Outcome_Ok in
  let detail := if conflict
    then "the cluster has an unresolved generation conflict; resolve it before reconnecting"%string else ha_detail ack in
  view ← gets (fun c => registry_digest (c_registry c));
  let session := mkSession PeerRole_Agent (he_cluster m) (he_domain m) token (he_incarnation m) (he_generation m)
    (he_policy_generation m) (he_agent_term m) (negb (bool_decide (key = []))) true connected_at id in
  _ ← modify (fun c => set_sessions c (<[id := session]> (c_sessions c)));
  _ ← send_to id (MHelloAck (mkHelloAck token (ha_coordinator ack) (ha_coordinator_term ack) outcome
        (ha_negotiated_version ack) view fenced detail));
  term ← gets c_term;
  _ ← (if bool_decide (fenced = []) then mret tt
       else send_to id (MFence (mkFence token term fenced "cluster reincarnation or policy change fenced these grants")));
  request ← random_uuid;
  send_to id (MStatusRequest (mkStatusRequest token request)).

Definition on_hello (id : Z) (frame : Frame) : M unit :=
  with_message decode_hello id frame (fun m =>
  ack ← gets (fun c => mkHelloAck nil_uuid (c_incarnation c) (c_term c) Outcome_Internal 0
                          (registry_digest (c_registry c)) [] "");
  let negotiated := Z.min (he_protocol_max m) limits.kProtocolVersionMax in
  let required := Z.max (he_protocol_min m) limits.kProtocolVersionMin in
  if negotiated <? required then
    refuse_hello id ack Outcome_Unsupported "no protocol version is supported by both peers"
  else
  let ack := mkHelloAck (ha_session ack) (ha_coordinator ack) (ha_coordinator_term ack) (ha_outcome ack) negotiated
               (ha_view_digest ack) (ha_revalidate ack) (ha_detail ack) in
  key ← gets (fun c => channel_key_for c (he_domain m));
  _ ← modify (fun c =>
        match connection_for c id with
        | Some connection =>
            if bool_decide (key = []) then c
            else set_connections c (<[id := enable_signing key connection]> (c_connections c))
        | None => c
        end);
  if bool_decide (he_role m = PeerRole_Observer) then
    token ← random_uuid;
    connected_at ← now;
    let session := mkSession PeerRole_Observer "" (he_domain m) token nil_uuid 0 0 0 (negb (bool_decide (key = []))) true
                     connected_at id in
    _ ← modify (fun c => set_sessions c (<[id := session]> (c_sessions c)));
    send_to id (MHelloAck (mkHelloAck token (ha_coordinator ack) (ha_coordinator_term ack) Outcome_Ok
      (ha_negotiated_version ack) (ha_view_digest ack) [] "observer session established"))
  else if bool_decide (he_cluster m = ""%string) then
    refuse_hello id ack Outcome_Invalid "an agent handshake must name a cluster identity"
  else if bool_decide (he_domain m = ""%string) then
    refuse_hello id ack Outcome_Invalid "an agent handshake must name an authority domain"
  else if Z.land (he_capabilities m) kCapabilityTwoSidedConsent =? 0 then
    refuse_hello id ack Outcome_Unsupported "the agent does not declare two-sided consent support"
  else
  stale ← stale_handshake m;
  result ← hello_cluster m;
  match result with
  | inl (outcome, detail) =>
      _ ← bump inc_refusals;
      _ ← (if negb stale then mret tt
           else coordinator_append_audit "coordinator" "reject-stale-handshake" (he_cluster m) Outcome_Stale
                  "older generation presented");
      send_to id (MHelloAck (set_ack outcome detail ack))
  | inr (detail, fenced) => accept_agent id m key (set_ack (ha_outcome ack) detail ack) fenced
  end).

(** ** REPORT_CLUSTER *)
(** The record that is stored for a report. *)
Definition reported_cluster (incoming current : ClusterRecord) (token : string) (observed : Z) : ClusterRecord :=
  mkCluster (cl_id incoming) (cl_domain current) (cl_incarnation incoming) (cl_generation incoming)
    (cl_policy_generation incoming) (cl_state incoming) (cl_consent_withdrawn incoming) (cl_last_seen incoming)
    (cl_endpoints incoming) (cl_content_digest incoming) false (cl_conflicting_generation incoming)
    (match counter_next (cl_revision current) with Val v => v | _ => cl_revision current end)
    (mkProvenance EvidenceSource_AgentReported VerificationState_Verified observed (pv_revision (cl_provenance incoming))
       token (cl_content_digest incoming))
    (cl_incarnation_changes current).

Definition digest_is_zero (d : string) : bool := bool_decide (d = zero_digest).

(** Two different contents claim the same generation. *)
Definition content_conflict (incoming current : ClusterRecord) : bool :=
  negb (cl_policy_generation current <? cl_policy_generation incoming) &&
  (cl_generation incoming =? cl_generation current) && negb (digest_is_zero (cl_content_digest incoming)) &&
  negb (digest_is_zero (cl_content_digest current)) &&
  negb (bool_decide (cl_content_digest incoming = cl_content_digest current)).

Definition set_ss_generation (generation : Z) (s : PeerSession) : PeerSession :=
  mkSession (ss_role s) (ss_cluster s) (ss_domain s) (ss_token s) (ss_incarnation s) generation
    (ss_policy_generation s) (ss_agent_term s) (ss_signing s) (ss_hello_complete s) (ss_connected_at s)
    (ss_connection_id s).
Definition set_ss_generations (generation policy : Z) (s : PeerSession) : PeerSession :=
  mkSession (ss_role s) (ss_cluster s) (ss_domain s) (ss_token s) (ss_incarnation s) generation policy
    (ss_agent_term s) (ss_signing s) (ss_hello_complete s) (ss_connected_at s) (ss_connection_id s).

Definition report_conflict (id : Z) (incoming : ClusterRecord) (session : PeerSession) (revision : Z) : M unit :=
  let cluster_id := ss_cluster session in
  _ ← update_cluster cluster_id (set_cl_conflict (cl_generation incoming));
  _ ← update_session id (set_ss_generation (cl_generation incoming));
  current ← gets (fun c => find_cluster (c_registry c) cluster_id);
  _ ← match current with
      | Some cl => fence_cluster (cl_id cl) FenceTrigger_Manual (cl_incarnation cl) (cl_incarnation cl) (cl_generation cl)
      | None => mret tt
      end;
  _ ← persist_cluster cluster_id;
  _ ← coordinator_append_audit "coordinator" "generation-conflict" cluster_id Outcome_Conflicting
        "two reports claim the same generation with different contents";
  view ← gets (fun c => registry_digest (c_registry c));
  send_to id (MReportAck (mkReportAck (ss_token session) Outcome_Conflicting revision view
    "a different content already claims this generation; an operator must resolve the conflict")).

Definition report_accept (id : Z) (incoming current : ClusterRecord) (session : PeerSession) : M unit :=
  let policy_changed := negb (cl_policy_generation incoming =? cl_policy_generation current) in
  observed ← now;
  let record := reported_cluster incoming current (ss_token session) observed in
  stored ← attempt (put (put_cluster record));
  match stored with
  | inl e => send_error id nil_uuid (st_outcome e) (st_message e)
  | inr _ =>
      _ ← update_session id (set_ss_generations (cl_generation record) (cl_policy_generation record));
      _ ← persist_cluster (ss_cluster session);
      _ ← (if negb policy_changed then mret tt
           else fence_cluster (cl_id record) FenceTrigger_PolicyGenerationChange (cl_incarnation record)
                  (cl_incarnation record) (cl_generation record));
      _ ← modify (fun c => set_registry c (recompute_path_states (c_registry c)));
      view ← gets (fun c => registry_digest (c_registry c));
      _ ← coordinator_append_audit "agent" "report-cluster" (cl_id record) Outcome_Ok
            ("generation=" ++ num (cl_generation record));
      send_to id (MReportAck (mkReportAck (ss_token session) Outcome_Ok (cl_revision record) view "cluster state accepted"))
  end.

Definition on_report_cluster (id : Z) (frame : Frame) : M unit :=
  with_message decode_report_cluster id frame (fun m =>
  with_session id (rc_session m) (fun session =>
  if negb (bool_decide (ss_role session = PeerRole_Agent)) then
    send_error id nil_uuid Outcome_Unauthorized "only an agent may report cluster state"
  else
  let incoming := rc_cluster m in
  if negb (bool_decide (cl_id incoming = ss_cluster session)) then
    send_error id nil_uuid Outcome_Unauthorized "the report names a cluster this session does not own"
  else
  found ← gets (fun c => find_cluster (c_registry c) (ss_cluster session));
  match found with
  | None => send_error id nil_uuid Outcome_NotFound "the cluster is not registered"
  | Some cluster =>
      view ← gets (fun c => registry_digest (c_registry c));
      let stale detail := _ ← bump inc_refusals;
        send_to id (MReportAck (mkReportAck (ss_token session) Outcome_Stale (cl_revision cluster) view detail)) in
      if cl_generation incoming <? cl_generation cluster then stale "the report carries a superseded generation"%string
      else if negb (bool_decide (cl_incarnation incoming = cl_incarnation cluster)) then
        stale "the report was produced by an incarnation that is not the current one"%string
      else if content_conflict incoming cluster then report_conflict id incoming session (cl_revision cluster)
      else if cl_policy_generation incoming <? cl_policy_generation cluster then
        stale "the report carries a superseded policy generation"%string
      else report_accept id incoming cluster session
  end)).

(** ** CONTRACT_CONSENT *)

Definition consent_of (m : ContractConsentMessage) (session : PeerSession) (decided_at : Z) : ConsentRecord :=
  mkConsent (ss_cluster session) (cc_endpoint m) (cc_incarnation m) (cc_generation m) (cc_policy_generation m)
    (cc_agent_term m) (cc_terms_digest m) (cc_decision m) decided_at (ss_token session)
    (if ss_signing session then TransportAuthenticity_SharedKeyMac else TransportAuthenticity_None) (cc_reason m).

Definition same_consent (existing : option ConsentRecord) (record : ConsentRecord) : bool :=
  match existing with
  | Some e => bool_decide (cs_decision e = cs_decision record) &&
              bool_decide (cs_terms_digest e = cs_terms_digest record) && (cs_generation e =? cs_generation record)
  | None => false
  end.

(** The contract with a consent recorded and its state recomputed. *)
Definition consented_contract (side : bool) (record : ConsentRecord) (updated : Z) (ct : ContractRecord) : ContractRecord :=
  let ct' := mkContract (ct_id ct) (ct_parties ct) (ct_capacity ct) (ct_lease_duration ct) (ct_terms_digest ct)
               (ct_state ct) (set_side (ct_consents ct) side (Some record)) (ct_created_at ct) updated
               (counter_bump (ct_revision ct)) (ct_provenance ct) in
  set_ct_state
    (if bool_decide (cs_decision record = ConsentDecision_Refused) then ContractState_Refused
     else if both_consented ct' then ContractState_Consented else ContractState_AwaitingConsent)
    updated (ct_revision ct') ct'.

Definition on_contract_consent (id : Z) (frame : Frame) : M unit :=
  with_message decode_contract_consent id frame (fun m =>
  with_session id (cc_session m) (fun session =>
  if negb (bool_decide (ss_role session = PeerRole_Agent)) then
    send_error id nil_uuid Outcome_Unauthorized "only an agent may consent to a contract"
  else
  found ← gets (fun c => find_contract (c_registry c) (cc_contract m));
  match found with
  | None => send_error id nil_uuid Outcome_NotFound "the contract is not registered"
  | Some contract =>
  match contract_side_of contract (ss_cluster session) with
  | None => send_error id nil_uuid Outcome_Unauthorized "the contract does not name this cluster"
  | Some side =>
  if negb (bool_decide (cc_terms_digest m = ct_terms_digest contract)) then
    _ ← coordinator_append_audit "agent" "consent-mismatch" (uuid_to_string (ct_id contract)) Outcome_Conflicting
          "the consent covers different terms than the contract";
    send_error id nil_uuid Outcome_Conflicting "the consent does not cover the terms held for this contract"
  else if negb (bool_decide (cc_endpoint m = py_endpoint (at_side (ct_parties contract) side))) then
    send_error id nil_uuid Outcome_Invalid "the consent names an endpoint this party does not own"
  else if negb (bool_decide (cc_incarnation m = ss_incarnation session)) ||
          negb (cc_generation m =? ss_generation session) then
    _ ← bump inc_rejected_replays;
    send_error id nil_uuid Outcome_Stale "the consent was produced by a superseded incarnation or generation"
  else
  decided_at ← now;
  let record := consent_of m session decided_at in
  if same_consent (at_side (ct_consents contract) side) record then mret tt
  else
  updated ← now;
  _ ← update_contract (cc_contract m) (consented_contract side record updated);
  _ ← persist_contract (cc_contract m);
  coordinator_append_audit "agent" "contract-consent" (uuid_to_string (ct_id contract)) Outcome_Ok
    ("decision=" ++ consent_decision_to_string (cs_decision record))
  end end)).

(** ** PING *)
Definition on_ping (id : Z) (frame : Frame) : M unit :=
  with_message decode_ping id frame (fun m => send_to id (MPong (mkPong (pi_sequence m)))).

(** ** GRANT_PREPARED, GRANT_COMMITTED, GRANT_ABORTED *)
Definition set_gr_enforcement (side : bool) (digest : string) (g : GrantRecord) : GrantRecord :=
  mkGrant (gr_id g) (gr_contract g) (gr_terms_digest g) (gr_coordinator_term g) (gr_coordinator g) (gr_attempt g)
    (gr_incarnations g) (gr_generations g) (gr_policies g) (gr_capacity g) (gr_issued_at g) (gr_valid_until g)
    (gr_state g) (gr_acknowledged g) (set_side (gr_enforcement_digest g) side digest) (gr_revalidate_attempts g)
    (gr_note g) (gr_revision g) (gr_provenance g).

Definition acknowledge (side : bool) (digest : string) (g : GrantRecord) : GrantRecord :=
  mkGrant (gr_id g) (gr_contract g) (gr_terms_digest g) (gr_coordinator_term g) (gr_coordinator g) (gr_attempt g)
    (gr_incarnations g) (gr_generations g) (gr_policies g) (gr_capacity g) (gr_issued_at g) (gr_valid_until g)
    (gr_state g) (set_side (gr_acknowledged g) side true) (set_side (gr_enforcement_digest g) side digest)
    (gr_revalidate_attempts g) (gr_note g) (gr_revision g) (gr_provenance g).

Definition set_pd_prepared (side : bool) (p : PendingGrant) : PendingGrant :=
  mkPending (pd_grant p) (pd_contract p) (set_side (pd_prepared p) side true) (pd_targets p) (pd_deadline p)
    (pd_attempts p).

(** The checks that a PREPARED and a COMMITTED acknowledgement share: the grant and the contract are
    known, the session is a party, the attempt is the current one, and the session is the incarnation
    and the generation that the grant is bound to. *)
Definition acknowledgement (id : Z) (session : PeerSession) (grant_id attempt_id : string)
    (handle : GrantRecord -> bool -> M unit) : M unit :=
  found ← gets (fun c => find_grant (c_registry c) grant_id);
  match found with
  | None => send_error id nil_uuid Outcome_NotFound "the grant is not registered"
  | Some grant =>
  contract ← gets (fun c => find_contract (c_registry c) (gr_contract grant));
  match contract with
  | None => send_error id nil_uuid Outcome_NotFound "the grant references an unknown contract"
  | Some contract =>
  match contract_side_of contract (ss_cluster session) with
  | None => send_error id nil_uuid Outcome_Unauthorized "the grant does not involve this cluster"
  | Some side =>
  if negb (bool_decide (attempt_id = gr_attempt grant)) then
    _ ← bump inc_rejected_replays;
    send_error id nil_uuid Outcome_Replayed "the acknowledgement names a different attempt"
  else if negb (bool_decide (at_side (gr_incarnations grant) side = ss_incarnation session)) ||
          negb (at_side (gr_generations grant) side =? ss_generation session) then
    _ ← bump inc_rejected_replays;
    send_error id nil_uuid Outcome_Stale "the acknowledgement comes from a superseded incarnation or generation"
  else handle grant side
  end end end.

Definition on_grant_prepared (id : Z) (frame : Frame) : M unit :=
  with_message decode_grant_prepared id frame (fun m =>
  with_session id (gp_session m) (fun session =>
  acknowledgement id session (gp_grant m) (gp_attempt m) (fun grant side =>
  if negb (bool_decide (gr_state grant = GrantState_Preparing)) && negb (bool_decide (gr_state grant = GrantState_Prepared))
  then send_error id nil_uuid Outcome_Conflicting "the grant is no longer accepting prepare acknowledgements"
  else if negb (gp_accepted m) then
    _ ← abort_grant (gr_id grant) (gp_detail m);
    coordinator_append_audit "agent" "refuse-grant" (uuid_to_string (gr_id grant)) Outcome_Refused (gp_detail m)
  else
  tracked ← gets (fun c => c_pending c !! gr_id grant);
  match tracked with
  | None => send_error id nil_uuid Outcome_Indeterminate "the grant flow is not tracked"
  | Some pending =>
      _ ← update_pending (gr_id grant) (set_pd_prepared side);
      _ ← update_grant (gp_grant m) (set_gr_enforcement side (gp_enforcement_digest m));
      let prepared := set_side (pd_prepared pending) side true in
      if prepared.1 && prepared.2 then commit_grant (gr_id grant) else mret tt
  end))).

Definition on_grant_committed (id : Z) (frame : Frame) : M unit :=
  with_message decode_grant_committed id frame (fun m =>
  with_session id (gc_session m) (fun session =>
  acknowledgement id session (gc_grant m) (gc_attempt m) (fun grant side =>
  if negb (gc_installed m) then
    _ ← abort_grant (gr_id grant) (gc_detail m);
    coordinator_append_audit "agent" "refuse-commit" (uuid_to_string (gr_id grant)) Outcome_Refused (gc_detail m)
  else
  let grant := acknowledge side (gc_enforcement_digest m) grant in
  _ ← update_grant (gc_grant m) (acknowledge side (gc_enforcement_digest m));
  _ ← persist_grant (gc_grant m);
  if both_acknowledged grant then
    at_time ← now;
    finalise_grant (gr_id grant) at_time
  else mret tt))).

Definition on_grant_aborted (id : Z) (frame : Frame) : M unit :=
  with_message decode_grant_aborted id frame (fun m =>
  with_session id (ga_session m) (fun _ => abort_grant (ga_grant m) (ga_reason m))).

(** ** FENCE_ACK *)
Definition on_fence_ack (id : Z) (frame : Frame) : M unit :=
  with_message decode_fence_ack id frame (fun m =>
  with_session id (fk_session m) (fun session =>
  each (fun result =>
    coordinator_append_audit "agent" "fence-ack" ("grant=" ++ uuid_to_string (fx_grant result)) (fx_outcome result)
      ("cluster=" ++ ss_cluster session)) (fk_results m))).

(** ** WITHDRAW *)
Definition on_withdraw (id : Z) (frame : Frame) : M unit :=
  with_message decode_withdraw id frame (fun m =>
  with_session id (wd_session m) (fun session =>
  if negb (bool_decide (ss_role session = PeerRole_Agent)) || negb (bool_decide (wd_cluster m = ss_cluster session)) then
    send_error id nil_uuid Outcome_Unauthorized "the withdrawal does not match this session"
  else
  found ← gets (fun c => find_cluster (c_registry c) (ss_cluster session));
  match found with
  | None => send_error id nil_uuid Outcome_NotFound "the cluster is not registered"
  | Some cluster =>
  if negb (bool_decide (wd_incarnation m = cl_incarnation cluster)) || (wd_generation m <? cl_generation cluster) then
    _ ← bump inc_rejected_replays;
    send_error id nil_uuid Outcome_Stale "the withdrawal comes from a superseded incarnation"
  else
  seen ← now;
  _ ← update_cluster (ss_cluster session) (set_cl_withdrawn true seen);
  _ ← fence_cluster (cl_id cluster) FenceTrigger_ClusterWithdrawal (cl_incarnation cluster) (cl_incarnation cluster)
        (cl_generation cluster);
  _ ← persist_cluster (ss_cluster session);
  grants ← gets (fun c => values (rg_grants (c_registry c)));
  let fenced := zlen (filter (fun g => gr_state g = GrantState_Fenced) grants) in
  _ ← coordinator_append_audit "agent" "withdraw-consent" (ss_cluster session) Outcome_Fenced
        "the cluster withdrew consent; dependent grants were fenced";
  send_to id (MWithdrawAck (mkWithdrawAck (ss_token session) Outcome_Ok fenced (wd_reason m)))
  end)).

(** ** STATUS_REPORT *)
(** The plan of [on_status_report] and [expire_grants]: the grants, then their unreleased reservations. *)
Definition grants_plan (trigger : FenceTrigger) (reason : ReasonCode) (with_contract : bool) (term : Z) (r : Registry)
    (grants : list string) : FencePlan :=
  mkPlan trigger "" nil_uuid nil_uuid 0 term (registry_digest r)
    (((fun id => mkAction FenceTarget_Grant id
         (if with_contract then from_option gr_contract nil_uuid (find_grant r id) else nil_uuid) nil_uuid reason) <$> grants) ++
     ((fun e => mkAction FenceTarget_Reservation (rs_grant e.2) nil_uuid e.1 reason) <$>
        filter (fun e => rs_released e.2 = false /\ rs_grant e.2 ∈ grants) (entries (rg_reservations r)))) "".

Definition installed_state (s : GrantState) : bool :=
  bool_decide (s = GrantState_Committed) || bool_decide (s = GrantState_Active).

(** One turn of the loop over the grants; the accumulator is [to_fence]. *)
Definition report_grant (m : StatusReportMessage) (session : PeerSession) (to_fence : list string) (key : string)
    : M (list string) :=
  found ← gets (fun c => find_grant (c_registry c) key);
  match found with
  | None => mret to_fence
  | Some grant =>
  contract ← gets (fun c => find_contract (c_registry c) (gr_contract grant));
  match contract ≫= fun ct => contract_side_of ct (ss_cluster session) with
  | None => mret to_fence
  | Some side =>
  let reported := snd <$> list_find (fun e => gs_grant e = gr_id grant) (sp_grants m) in
  let installed := from_option (fun e => bool_decide (gs_attempt e = gr_attempt grant) && installed_state (gs_state e))
                     false reported in
  let stale := from_option (fun e => negb (bool_decide (gs_attempt e = gr_attempt grant)) && installed_state (gs_state e))
                 false reported in
  if stale then mret (to_fence ++ [gr_id grant])
  else if installed then
    if negb (bool_decide (at_side (gr_incarnations grant) side = ss_incarnation session)) ||
       negb (at_side (gr_generations grant) side =? ss_generation session)
    then mret (to_fence ++ [gr_id grant])
    else if negb (at_side (gr_acknowledged grant) side) then
      _ ← update_grant key (acknowledge side (from_option gs_enforcement_digest zero_digest reported));
      _ ← persist_grant key;
      mret to_fence
    else mret to_fence
  else if usable_state grant then
    _ ← update_grant key (mark_grant GrantState_Indeterminate
          "the cluster agent does not report an installed enforcement for this grant");
    _ ← persist_grant key;
    mret (to_fence ++ [gr_id grant])
  else mret to_fence
  end end.

Definition on_status_report (id : Z) (frame : Frame) : M unit :=
  with_message decode_status_report id frame (fun m =>
  with_session id (sp_session m) (fun session =>
  _ ← bump inc_revalidations;
  keys ← gets (fun c => (entries (rg_grants (c_registry c))).*1);
  to_fence ← fold_m (report_grant m session) [] keys;
  _ ← (if bool_decide (to_fence = []) then mret tt
       else
         plan ← gets (fun c => grants_plan FenceTrigger_GrantRevocation ReasonCode_GrantNeedsRevalidation true (c_term c)
                                 (c_registry c) to_fence);
         fence_plan_apply plan "coordinator");
  keys ← gets (fun c => (entries (rg_grants (c_registry c))).*1);
  each (fun key =>
    found ← gets (fun c => find_grant (c_registry c) key);
    match found with
    | Some grant =>
        if negb (bool_decide (gr_state grant = GrantState_Indeterminate)) || negb (both_acknowledged grant) then mret tt
        else at_time ← now; finalise_grant (gr_id grant) at_time
    | None => mret tt
    end) keys)).

(** ** Disconnection *)
Definition disconnect_target (id : Z) (t : SendTarget) : SendTarget :=
  if tg_connection_id t =? id then mkTarget false 0 (tg_token t) else t.
Definition disconnect_pending (id : Z) (p : PendingGrant) : PendingGrant :=
  mkPending (pd_grant p) (pd_contract p) (pd_prepared p)
    (disconnect_target id (pd_targets p).1, disconnect_target id (pd_targets p).2) (pd_deadline p) (pd_attempts p).

Definition refused_input (o : Outcome) : bool :=
  match o with
  | Outcome_Invalid | Outcome_Corrupt | Outcome_Unauthorized | Outcome_Incompatible | Outcome_Replayed => true
  | _ => false
  end.

Definition interrupt_grant (cluster key : string) : M unit :=
  found ← gets (fun c => find_grant (c_registry c) key);
  match found with
  | None => mret tt
  | Some grant =>
  if negb (bool_decide (gr_state grant = GrantState_Preparing)) && negb (bool_decide (gr_state grant = GrantState_Prepared))
  then mret tt
  else
  contract ← gets (fun c => find_contract (c_registry c) (gr_contract grant));
  match contract with
  | None => mret tt
  | Some contract =>
      if negb (bool_decide (py_cluster (ct_parties contract).1 = cluster) ||
               bool_decide (py_cluster (ct_parties contract).2 = cluster))
      then mret tt
      else
        _ ← update_grant key (mark_grant GrantState_Indeterminate
              "the cluster agent disconnected before the commit acknowledgement");
        ignore (persist_grant key)
  end end.

Definition handle_disconnect (id : Z) (reason : Status) : M unit :=
  _ ← (if refused_input (st_outcome reason) then bump inc_rejected_frames else mret tt);
  found ← gets (fun c => session_for c id);
  match found with
  | None => mret tt
  | Some session =>
      _ ← modify (fun c => set_sessions c (delete id (c_sessions c)));
      if bool_decide (ss_cluster session = ""%string) then mret tt
      else
        _ ← modify (fun c => set_pending c (disconnect_pending id <$> c_pending c));
        keys ← gets (fun c => (entries (rg_grants (c_registry c))).*1);
        each (interrupt_grant (ss_cluster session)) keys
  end.

(** ** Housekeeping *)
Definition expire_grants : M unit :=
  at_time ← now;
  grants ← gets (fun c => values (rg_grants (c_registry c)));
  let expired := gr_id <$> filter (fun g => usable_state g = true /\ gr_valid_until g < at_time) grants in
  if bool_decide (expired = []) then mret tt
  else
    plan ← gets (fun c => grants_plan FenceTrigger_GrantExpiry ReasonCode_GrantExpired false (c_term c) (c_registry c) expired);
    _ ← ignore (fence_plan_apply plan "coordinator");
    each (fun id =>
      found ← gets (fun c => find_grant (c_registry c) id);
      match found with
      | None => mret tt
      | Some _ =>
          _ ← update_grant id (fun g => mark_grant GrantState_Expired (gr_note g) g);
          ignore (persist_grant id)
      end) expired.

(** [target_for] again for a side that is not connected. *)
Definition retarget (c : Coordinator) (p : PendingGrant) (side : bool) : SendTarget :=
  let t := at_side (pd_targets p) side in
  if tg_connected t then t
  else match find_grant (c_registry c) (pd_grant p) ≫= fun g => find_contract (c_registry c) (gr_contract g) with
  | None => t
  | Some contract =>
      let target := target_for c (py_cluster (at_side (ct_parties contract) side)) in
      if tg_connected target then target else t
  end.

Definition pending_timed_out (at_time : Z) (p : PendingGrant) : bool :=
  (pd_deadline p <? at_time) || (limits.kMaxRevalidateAttempts <=? pd_attempts p).

Definition retry_pending (c : Coordinator) (at_time : Z) (p : PendingGrant) : PendingGrant :=
  mkPending (pd_grant p) (pd_contract p) (pd_prepared p) (retarget c p false, retarget c p true) (pd_deadline p)
    (if pending_timed_out at_time p then pd_attempts p else (pd_attempts p + 1) mod 2 ^ 32).

Definition resend_prepare (p : PendingGrant) : M unit :=
  found ← gets (fun c => find_grant (c_registry c) (pd_grant p));
  match found with
  | None => mret tt
  | Some grant =>
      if negb (bool_decide (gr_state grant = GrantState_Preparing)) then mret tt
      else each (fun side =>
        let target := at_side (pd_targets p) side in
        if negb (tg_connected target) || at_side (pd_prepared p) side then mret tt
        else ignore (send_to (tg_connection_id target) (MPrepareGrant (mkPrepareGrant (tg_token target) grant))))
        [false; true]
  end.

Definition retry_pending_flows : M unit :=
  at_time ← now;
  before ← gets (fun c => values (c_pending c));
  let timed_out := pd_grant <$> filter (fun p => pending_timed_out at_time p = true) before in
  _ ← modify (fun c => set_pending c (retry_pending c at_time <$> c_pending c));
  _ ← each (fun id => ignore (abort_grant id "the grant flow did not complete within its deadline")) timed_out;
  pending ← gets (fun c => values (c_pending c));
  each resend_prepare pending.

(** [tick], but for scheduling itself again, which happens relative to the time that is returned. *)
Definition tick_at : M Z :=
  _ ← expire_grants;
  _ ← retry_pending_flows;
  _ ← ignore compact_if_needed;
  at_time ← now;
  interval ← gets (fun c => cf_ping_interval (c_config c));
  _ ← (if negb (0 <? interval) then mret tt
       else
         sessions ← gets sessions_in_order;
         each (fun '(id, session) =>
           if negb (agent_session session) then mret tt
           else ignore (send_to id (MPing (mkPing id at_time)))) sessions);
  mret at_time.
Definition tick : M unit := _ ← tick_at; mret tt.
