(* ===== verification/Admin.v ===== *)
(** * Queries, administration and the dispatch of messages

    Models [status], [handle_query], [handle_admin], the [apply_*] operations and [handle_message] of
    src/runtime/coordinator.cpp. *)
From S2P Require Import Prelude Status Utf8 Bytes Ids Types Registry Hash Time Canonical Terms Policy Decision Engine.
From S2P Require Import Fencing Mutation Files Wal Snapshot DurableStore Frame Messages Connection Effects Coordinator Handlers.

(** ** Queries *)
Definition status : M CoordinatorStatus :=
  sign ← ask wl_monotonic;
  uptime ← (if sign <? 0 then mret 0 else ask wl_monotonic);
  gets (fun c =>
    let r := c_registry c in let n := counts r in let k := c_counters c in let rc := c_recovery c in
    mkCoordinatorStatus (cf_domain (c_config c)) (c_incarnation c) (c_term c) (c_started_at c) (uptime mod 2 ^ 64)
      (registry_digest r) (me_revision (rc_meta rc)) (rc_recovered_from_store rc) (wr_records (rc_wal rc))
      (me_truncations (rc_meta rc)) (n_clusters n) (n_endpoints n) (n_links n) (n_paths n) (n_contracts n) (n_grants n)
      (n_reservations n) (n_policies n) (n_audit n)
      (zlen (filter (fun e => agent_session e.2 = true) (sessions_in_order c)))
      (k_commits k) (k_fences k) (k_refusals k) (k_revalidations k) (k_rejected_replays k) (k_rejected_frames k)
      (snapshot_path (ds_options (c_store c)))).

(** A listing in key order, cut at [limit]. *)
Definition listing {V} (limit : Z) (m : gmap string V) : list V := take (Z.to_nat limit) (values m).

Definition accounting_of (r : Registry) (s : ReservationRecord) : AccountingEntry :=
  mkAccounting (rs_grant s) (from_option gr_contract nil_uuid (find_grant r (rs_grant s))) (rs_endpoint s) (rs_cluster s)
    (rs_amount s) (if rs_released s then rs_amount s else 0) (rs_released s).

Definition query_trigger (limit : Z) : FenceTrigger :=
  if limit =? 1 then FenceTrigger_ClusterReincarnation
  else if limit =? 2 then FenceTrigger_ClusterWithdrawal
  else if limit =? 3 then FenceTrigger_PolicyGenerationChange
  else if limit =? 4 then FenceTrigger_CoordinatorReincarnation
  else FenceTrigger_Manual.

(** The result and, on an error, the status that is returned beside it. *)
Definition handle_query (q : QueryMessage) : M (QueryResultMessage * option Status) :=
  let result := blank_result (qm_request q) (qm_kind q) Outcome_Ok "" in
  let limit := if qm_limit q =? 0 then 256 else qm_limit q in
  let found {A} (x : option A) (what : string) (k : A -> QueryResultMessage) :=
    match x with
    | Some a => (k a, None)
    | None => (result, Some (status_make Outcome_NotFound what))
    end in
  r ← gets c_registry;
  match qm_kind q with
  | QueryKind_Status => s ← status; mret (result_status result (Some s), None)
  | QueryKind_ListClusters =>
      let l := filter (fun e => qm_cluster q = ""%string \/ e.1 = qm_cluster q) (entries (rg_clusters r)) in
      mret (result_clusters result (take (Z.to_nat limit) l.*2), None)
  | QueryKind_ShowCluster =>
      mret (found (find_cluster r (qm_cluster q)) "cluster is not registered"%string (fun x => result_clusters result [x]))
  | QueryKind_ListLinks => mret (result_links result (listing limit (rg_links r)), None)
  | QueryKind_ListPaths => mret (result_paths result (listing limit (rg_paths r)), None)
  | QueryKind_ListPolicies => mret (result_policies result (listing limit (rg_policies r)), None)
  | QueryKind_ListContracts => mret (result_contracts result (listing limit (rg_contracts r)), None)
  | QueryKind_ShowContract =>
      mret (found (find_contract r (qm_contract q)) "contract is not registered"%string (fun x => result_contracts result [x]))
  | QueryKind_ListGrants => mret (result_grants result (listing limit (rg_grants r)), None)
  | QueryKind_ShowGrant =>
      mret (found (find_grant r (qm_grant q)) "grant is not registered"%string (fun x => result_grants result [x]))
  | QueryKind_ListReservations => mret (result_reservations result (listing limit (rg_reservations r)), None)
  | QueryKind_ListAudit =>
      let n := length (rg_audit r) in
      mret (result_audit result (drop (n - Z.to_nat limit) (rg_audit r)), None)
  | QueryKind_Decide =>
      at_time ← now;
      at_view ← now;
      view ← gets (fun c => mkView (c_term c) (c_incarnation c) at_view);
      let query := mkQuery (qm_endpoint q) (qm_endpoint_b q) (qm_capacity q) at_time (qm_allow_degraded q)
                     (qm_expect_source_generation q) (qm_source_generation q) (qm_expect_target_generation q)
                     (qm_target_generation q) in
      let decision := decide r query view in
      mret (result_decision (result_outcome result (de_outcome decision) (de_detail decision)) (Some decision), None)
  | QueryKind_FencePlan =>
      term ← gets c_term;
      mret (found (find_cluster r (qm_cluster q)) "cluster is not registered"%string (fun cl =>
        result_fence_plan result (Some (plan_fence r (query_trigger (qm_limit q)) (cl_id cl) (cl_incarnation cl)
          (cl_incarnation cl) (cl_generation cl) term))))
  | QueryKind_Accounting =>
      mret (result_accounting result (accounting_of r <$> listing limit (rg_reservations r)), None)
  | QueryKind_Zero => mret (result, None)
  end.

Definition on_query (id : Z) (frame : Frame) : M unit :=
  with_message decode_query id frame (fun q =>
  handled ← handle_query q;
  let '(result, failed) := handled in
  send_to id (MQueryResult
    (match failed with
     | Some s => result_outcome result (st_outcome s) (st_message s)
     | None => result
     end))).

(** ** Contracts and grants by an operator *)
Definition set_created (outcome : Outcome) (detail contract grant : string) (a : AdminResultMessage) : AdminResultMessage :=
  mkAdminResult (ar_request a) outcome detail (ar_view_digest a) (ar_revision a) contract grant.

(** What an administrative operation leaves: the result message and the status it returns. *)
Abbreviation AdminOutcome := (AdminResultMessage * option Status)%type.

(** [result.outcome = o; result.detail = d; return Status::make(o, d);] *)
Definition admin_fail (result : AdminResultMessage) (o : Outcome) (detail : string) : M AdminOutcome :=
  mret (set_result o detail result, Some (status_make o detail)).

(** [if (!status) { result.outcome = ...; result.detail = ...; return status; }] *)
Definition admin_try {A} (m : M A) (result : AdminResultMessage) (k : A -> M AdminOutcome) : M AdminOutcome :=
  tried ← attempt m;
  match tried with
  | inl e => mret (set_result (st_outcome e) (st_message e) result, Some e)
  | inr a => k a
  end.

Definition current_terms (contract : ContractRecord) (a b : ClusterRecord) : ContractTerms :=
  mkTerms (ct_parties contract) (ct_capacity contract) (ct_lease_duration contract) (cl_incarnation a, cl_incarnation b)
    (cl_generation a, cl_generation b) (cl_policy_generation a, cl_policy_generation b) (ct_created_at contract).

(** One side of the loop of [propose_contract_to_agents]; the result says whether it is connected. *)
Definition propose_side (contract : ContractRecord) (all_connected : bool) (side : bool) : M bool :=
  target ← gets (fun c => target_for c (py_cluster (at_side (ct_parties contract) side)));
  if negb (tg_connected target) then mret false
  else
    r ← gets c_registry;
    match find_cluster r (py_cluster (ct_parties contract).1), find_cluster r (py_cluster (ct_parties contract).2) with
    | Some a, Some b =>
        attempt_id ← random_uuid;
        _ ← send_to (tg_connection_id target) (MProposeContract (mkProposeContract (tg_token target) (ct_id contract)
              (current_terms contract a b) attempt_id));
        mret all_connected
    | _, _ => err Outcome_NotFound "a contracting cluster is not registered"
    end.

Definition propose_contract_to_agents (contract : ContractRecord) : M unit :=
  all_connected ← fold_m (propose_side contract) true [false; true];
  if negb all_connected then
    err Outcome_Unreachable "a contracting cluster agent is not connected; the contract stays proposed"
  else mret tt.

Definition proposed_contract (id : string) (request : AdminMessage) (a b : ClusterRecord) (default_lease at_time : Z)
    : ContractRecord :=
  mkContract id (mkParty (cl_id a) (am_endpoint request) (cl_domain a), mkParty (cl_id b) (am_endpoint_b request) (cl_domain b))
    (if am_capacity request =? 0 then 1 else am_capacity request)
    (if am_lease_duration request =? 0 then default_lease else am_lease_duration request)
    zero_digest ContractState_Proposed (None, None) at_time at_time 0
    (set_pv EvidenceSource_AdminConfigured at_time provenance_default).

Definition set_terms_digest (digest : string) (c : ContractRecord) : ContractRecord :=
  mkContract (ct_id c) (ct_parties c) (ct_capacity c) (ct_lease_duration c) digest (ct_state c) (ct_consents c)
    (ct_created_at c) (ct_updated_at c) (ct_revision c) (ct_provenance c).

Definition apply_contract_proposal (request : AdminMessage) (result : AdminResultMessage) : M AdminOutcome :=
  if bool_decide (am_cluster_id request = ""%string) || bool_decide (am_endpoint request = ""%string) ||
     bool_decide (am_cluster_b request = ""%string) || bool_decide (am_endpoint_b request = ""%string)
  then admin_fail result Outcome_Invalid "a contract requires two clusters and two endpoint scopes"
  else
  r ← gets c_registry;
  match find_cluster r (am_cluster_id request), find_cluster r (am_cluster_b request) with
  | Some source, Some target =>
      id ← random_uuid;
      default_lease ← gets (fun c => cf_default_lease (c_config c));
      at_time ← now;
      let draft := proposed_contract id request source target default_lease at_time in
      let terms := current_terms draft source target in
      admin_try (st_lift (terms_validate terms)) result (fun _ =>
      let contract := set_terms_digest (terms_digest terms) draft in
      admin_try (put (put_contract contract)) result (fun _ =>
      admin_try (append_mutation (MContractPut contract)) result (fun _ =>
      admin_try (coordinator_append_audit "operator" "propose-contract" (uuid_to_string id) Outcome_Ok
                   "two-sided consent requested") result (fun _ =>
      admin_try (propose_contract_to_agents contract) result (fun _ =>
      mret (set_created Outcome_Ok ("contract " ++ uuid_to_string id ++ " proposed to both authority domains") id
              (ar_grant result) result, None))))))
  | _, _ => admin_fail result Outcome_NotFound "both clusters must be registered before a contract can be proposed"
  end.

(** The grant that [apply_grant_issue] builds, bound to the present state of both clusters. *)
Definition issued_grant (id attempt_id incarnation : string) (term capacity issued_at : Z) (contract : ContractRecord)
    (a b : ClusterRecord) : GrantRecord :=
  mkGrant id (ct_id contract) (ct_terms_digest contract) term incarnation attempt_id
    (cl_incarnation a, cl_incarnation b) (cl_generation a, cl_generation b)
    (cl_policy_generation a, cl_policy_generation b) capacity issued_at
    (timestamp_plus issued_at (ct_lease_duration contract)) GrantState_Preparing (false, false) (zero_digest, zero_digest)
    0 "" 0 provenance_default.

Definition apply_grant_issue (request : AdminMessage) (result : AdminResultMessage) : M AdminOutcome :=
  r ← gets c_registry;
  match find_contract r (am_contract request) with
  | None => admin_fail result Outcome_NotFound "the contract is not registered"
  | Some contract =>
  if negb (bool_decide (ct_state contract = ContractState_Consented)) &&
     negb (bool_decide (ct_state contract = ContractState_Active))
  then admin_fail result Outcome_Incomplete "both authority domains must consent before a grant can be issued"
  else
  id ← random_uuid;
  attempt_id ← random_uuid;
  let capacity := if am_capacity request =? 0 then ct_capacity contract else am_capacity request in
  if ct_capacity contract <? capacity then
    admin_fail result Outcome_CapacityExceeded "the requested capacity exceeds the contract capacity"
  else
  issued_at ← now;
  match find_cluster r (py_cluster (ct_parties contract).1), find_cluster r (py_cluster (ct_parties contract).2) with
  | Some a, Some b =>
      term ← gets c_term;
      incarnation ← gets c_incarnation;
      let grant := issued_grant id attempt_id incarnation term capacity issued_at contract a b in
      admin_try (put (put_grant grant)) result (fun _ =>
      admin_try (prepare_grant (fun _ => mret tt) grant) result (fun _ =>
      mret (set_created Outcome_Ok ("grant " ++ uuid_to_string id ++ " is being prepared on both sides") (ct_id contract) id
              result, None)))
  | _, _ => admin_fail result Outcome_NotFound "a contracting cluster is not registered"
  end end.

(** The assignments of [apply_grant_revalidation] before and after the contract is looked up. *)
Definition restamp_grant (attempt_id incarnation : string) (term issued_at : Z) (g : GrantRecord) : GrantRecord :=
  mkGrant (gr_id g) (gr_contract g) (gr_terms_digest g) term incarnation attempt_id (gr_incarnations g)
    (gr_generations g) (gr_policies g) (gr_capacity g) issued_at (gr_valid_until g) (gr_state g) (gr_acknowledged g)
    (gr_enforcement_digest g) (gr_revalidate_attempts g) (gr_note g) (gr_revision g) (gr_provenance g).
Definition restart_grant (valid_until : Z) (g : GrantRecord) : GrantRecord :=
  mkGrant (gr_id g) (gr_contract g) (gr_terms_digest g) (gr_coordinator_term g) (gr_coordinator g) (gr_attempt g)
    (gr_incarnations g) (gr_generations g) (gr_policies g) (gr_capacity g) (gr_issued_at g) valid_until
    GrantState_Preparing (false, false) (gr_enforcement_digest g) (gr_revalidate_attempts g)
    "revalidation requested after a superseding change" (gr_revision g) (gr_provenance g).

Definition apply_grant_revalidation (request : AdminMessage) (result : AdminResultMessage) : M AdminOutcome :=
  let id := am_grant request in
  found ← gets (fun c => find_grant (c_registry c) id);
  match found with
  | None => admin_fail result Outcome_NotFound "the grant is not registered"
  | Some grant =>
  if bool_decide (gr_state grant = GrantState_Fenced) then
    admin_fail result Outcome_Fenced "a fenced grant is never revived; issue a new grant instead"
  else
  attempt_id ← random_uuid;
  term ← gets c_term;
  incarnation ← gets c_incarnation;
  issued_at ← now;
  _ ← update_grant id (restamp_grant attempt_id incarnation term issued_at);
  contract ← gets (fun c => find_contract (c_registry c) (gr_contract grant));
  match contract with
  | None => admin_fail result Outcome_NotFound "the grant references an unknown contract"
  | Some contract =>
      let valid_until := timestamp_plus issued_at (ct_lease_duration contract) in
      _ ← update_grant id (restart_grant valid_until);
      let grant := restart_grant valid_until (restamp_grant attempt_id incarnation term issued_at grant) in
      admin_try (prepare_grant (fun g => update_grant id (fun _ => g)) grant) result (fun _ =>
      mret (set_created Outcome_Ok "grant revalidation started with a fresh attempt identifier" (gr_contract grant)
              (gr_id grant) result, None))
  end end.

(** ** Consent and conflicts *)
Definition apply_consent_change (request : AdminMessage) (result : AdminResultMessage) (withdraw : bool) : M AdminOutcome :=
  let id := am_cluster_id request in
  found ← gets (fun c => find_cluster (c_registry c) id);
  match found with
  | None => admin_fail result Outcome_NotFound "the cluster is not registered"
  | Some cluster =>
      _ ← update_cluster id (fun cl => set_cl_withdrawn withdraw (cl_last_seen cl) cl);
      admin_try (if withdraw
                 then fence_cluster (cl_id cluster) FenceTrigger_ClusterWithdrawal (cl_incarnation cluster)
                        (cl_incarnation cluster) (cl_generation cluster)
                 else mret tt) result (fun _ =>
      admin_try (persist_cluster id) result (fun _ =>
      admin_try (coordinator_append_audit "operator" (if withdraw then "withdraw-consent" else "restore-consent") id
                   Outcome_Ok (am_reason request)) result (fun _ =>
      mret (set_result Outcome_Ok
              (if withdraw then "consent withdrawn and dependent grants fenced" else "consent restored") result, None))))
  end.

Definition resolve_cluster (generation : Z) (c : ClusterRecord) : ClusterRecord :=
  mkCluster (cl_id c) (cl_domain c) (cl_incarnation c) generation (cl_policy_generation c) (cl_state c)
    (cl_consent_withdrawn c) (cl_last_seen c) (cl_endpoints c) (cl_content_digest c) false None (cl_revision c)
    (cl_provenance c) (cl_incarnation_changes c).

Definition apply_conflict_resolution (request : AdminMessage) (result : AdminResultMessage) : M AdminOutcome :=
  let id := am_cluster_id request in
  found ← gets (fun c => find_cluster (c_registry c) id);
  match found with
  | None => admin_fail result Outcome_NotFound "the cluster is not registered"
  | Some cluster =>
  if negb (cl_generation_conflict cluster) then
    admin_fail result Outcome_Invalid "the cluster has no unresolved generation conflict"
  else if am_generation request <=? cl_generation cluster then
    admin_fail result Outcome_Invalid "the resolving generation must be greater than the conflicting generation"
  else
      _ ← update_cluster id (resolve_cluster (am_generation request));
      admin_try (fence_cluster (cl_id cluster) FenceTrigger_Manual (cl_incarnation cluster) (cl_incarnation cluster)
                   (am_generation request)) result (fun _ =>
      admin_try (persist_cluster id) result (fun _ =>
      admin_try (coordinator_append_audit "operator" "resolve-conflict" id Outcome_Ok (am_reason request)) result (fun _ =>
      mret (set_result Outcome_Ok ("generation conflict resolved at generation " ++ num (am_generation request)) result,
            None))))
  end.

(** ** The other administrative actions *)
(** Records as an operator's request leaves them before they are stored. *)
Definition admin_cluster (domain : string) (revision at_time : Z) (c : ClusterRecord) : ClusterRecord :=
  mkCluster (cl_id c) (if bool_decide (cl_domain c = ""%string) then domain else cl_domain c) (cl_incarnation c)
    (cl_generation c) (cl_policy_generation c) (cl_state c) (cl_consent_withdrawn c) (cl_last_seen c) (cl_endpoints c)
    (cl_content_digest c) (cl_generation_conflict c) (cl_conflicting_generation c) revision
    (set_pv EvidenceSource_AdminConfigured at_time (cl_provenance c)) (cl_incarnation_changes c).
Definition set_cl_state (s : ClusterState) (c : ClusterRecord) : ClusterRecord :=
  mkCluster (cl_id c) (cl_domain c) (cl_incarnation c) (cl_generation c) (cl_policy_generation c) s
    (cl_consent_withdrawn c) (cl_last_seen c) (cl_endpoints c) (cl_content_digest c) (cl_generation_conflict c)
    (cl_conflicting_generation c) (cl_revision c) (cl_provenance c) (cl_incarnation_changes c).
Definition admin_link (revision at_time : Z) (l : LinkRecord) : LinkRecord :=
  mkLink (lk_id l) (lk_a l) (lk_b l) (lk_kind l)
    (if bool_decide (lk_state l = LinkState_Unknown) && bool_decide (lk_kind l = LinkKind_SyntheticModel)
     then LinkState_Up else lk_state l)
    (lk_capacity l) (lk_reserved l) (lk_latency_micros l) revision
    (set_pv EvidenceSource_AdminConfigured at_time (lk_provenance l)).
Definition set_lk_state (s : LinkState) (at_time : Z) (l : LinkRecord) : LinkRecord :=
  mkLink (lk_id l) (lk_a l) (lk_b l) (lk_kind l) s (lk_capacity l) (lk_reserved l) (lk_latency_micros l) (lk_revision l)
    (set_pv_observed_at at_time (lk_provenance l)).
Definition admin_path (revision at_time : Z) (p : PathRecord) : PathRecord :=
  mkPath (pa_id p) (pa_a p) (pa_b p) (pa_hops p) (pa_bottleneck p) (pa_state p) revision
    (set_pv EvidenceSource_DerivedFromTopology at_time (pa_provenance p)) (pa_contains_unsupported_edge p).
Definition admin_policy (domain : string) (revision at_time : Z) (p : PolicyRule) : PolicyRule :=
  mkPolicy (pr_id p) (if bool_decide (pr_owner p = ""%string) then domain else pr_owner p) (pr_cluster_a p) (pr_cluster_b p)
    (pr_endpoint_a p) (pr_endpoint_b p) (pr_generation p) (pr_allow p) (pr_allow_degraded p) (pr_max_capacity p) revision
    (set_pv EvidenceSource_AdminConfigured at_time (pr_provenance p)).

(** [Mutation{}] with only the identity set, as the erasing actions build it. *)
Definition cluster_with_id (id : string) : ClusterRecord :=
  mkCluster id "" nil_uuid 0 0 ClusterState_Unknown false 0 [] zero_digest false None 0 provenance_default 0.
Definition link_with_id (id : string) : LinkRecord :=
  mkLink id "" "" LinkKind_Unknown LinkState_Unknown 0 0 0 0 provenance_default.
Definition path_with_id (id : string) : PathRecord :=
  mkPath id "" "" [] 0 PathState_Unknown 0 provenance_default false.
Definition policy_with_id (id : string) : PolicyRule :=
  mkPolicy id "" "" "" "" "" 0 false false 0 0 provenance_default.

Definition recompute : M unit := modify (fun c => set_registry c (recompute_path_states (c_registry c))).

Definition upsert_cluster (given : ClusterRecord) : M unit :=
  c ← gets (fun c => c);
  at_time ← now;
  let n := counts (c_registry c) in
  let record := admin_cluster (cf_domain (c_config c)) (n_clusters n + n_contracts n) at_time given in
  _ ← put (put_cluster record);
  _ ← persist_cluster (cl_id record);
  coordinator_append_audit "operator" "upsert-cluster" (cl_id record) Outcome_Ok "administrative record".

Definition delete_cluster (id : string) : M unit :=
  _ ← put (erase_cluster id); append_mutation (MClusterErase (cluster_with_id id)).

Definition set_cluster_state (id : string) (cluster : ClusterRecord) (state : ClusterState) : M unit :=
  _ ← update_cluster id (set_cl_state state);
  _ ← (if negb (bool_decide (state = ClusterState_Retired)) then mret tt
       else fence_cluster (cl_id cluster) FenceTrigger_Manual (cl_incarnation cluster) (cl_incarnation cluster)
              (cl_generation cluster));
  persist_cluster id.

Definition upsert_link (record : LinkRecord) : M unit :=
  _ ← put (put_link record);
  stored ← gets (fun c => find_link (c_registry c) (lk_id record));
  _ ← match stored with Some l => append_mutation (MLinkPut l) | None => mret tt end;
  _ ← recompute;
  coordinator_append_audit "operator" "upsert-link" (lk_id record) Outcome_Ok (link_kind_support_note (lk_kind record)).

Definition set_link_state (id : string) (state : LinkState) : M unit :=
  at_time ← now;
  _ ← update_link id (set_lk_state state at_time);
  stored ← gets (fun c => find_link (c_registry c) id);
  _ ← match stored with Some l => append_mutation (MLinkPut l) | None => mret tt end;
  _ ← recompute;
  paths ← gets (fun c => values (rg_paths (c_registry c)));
  each (fun p => append_mutation (MPathPut p)) paths.

Definition delete_link (id : string) : M unit :=
  _ ← put (erase_link id); append_mutation (MLinkErase (link_with_id id)).

Definition upsert_path (given : PathRecord) : M unit :=
  n ← gets (fun c => counts (c_registry c));
  at_time ← now;
  let record := admin_path (n_paths n) at_time given in
  _ ← put (put_path record);
  _ ← recompute;
  stored ← gets (fun c => find_path (c_registry c) (pa_id record));
  match stored with Some p => append_mutation (MPathPut p) | None => mret tt end.

Definition delete_path (id : string) : M unit :=
  _ ← put (erase_path id); append_mutation (MPathErase (path_with_id id)).

Definition upsert_policy (given : PolicyRule) : M unit :=
  c ← gets (fun c => c);
  at_time ← now;
  let rule := admin_policy (cf_domain (c_config c)) (n_policies (counts (c_registry c))) at_time given in
  _ ← put (put_policy rule);
  _ ← append_mutation (MPolicyPut rule);
  _ ← each (fun named =>
        if bool_decide (named = ""%string) then mret tt
        else fence_cluster named FenceTrigger_PolicyGenerationChange nil_uuid nil_uuid 0) [pr_cluster_a rule; pr_cluster_b rule];
  coordinator_append_audit "operator" "upsert-policy" (pr_id rule) Outcome_Ok
    (if pr_allow rule then "allow rule" else "refuse rule").

Definition delete_policy (id : string) : M unit :=
  _ ← put (erase_policy id); append_mutation (MPolicyErase (policy_with_id id)).

Definition fence_one_grant (grant : GrantRecord) : M unit :=
  plan ← gets (fun c => grants_plan FenceTrigger_GrantRevocation ReasonCode_GrantFenced true (c_term c) (c_registry c)
                          [gr_id grant]);
  fence_plan_apply plan "operator".

(** The end of [handle_admin]: the view digest, then the status of the action. *)
Definition admin_finish (result : AdminResultMessage) (action : M unit) : M AdminOutcome :=
  done ← attempt action;
  view ← gets (fun c => registry_digest (c_registry c));
  let result := mkAdminResult (ar_request result) (ar_outcome result) (ar_detail result) view (ar_revision result)
                  (ar_contract result) (ar_grant result) in
  match done with
  | inl e =>
      mret (set_result (st_outcome e) (if bool_decide (ar_detail result = ""%string) then st_message e else ar_detail result)
              result, Some e)
  | inr _ => mret (set_result Outcome_Ok (ar_detail result) result, None)
  end.

(** An early [return error] of [handle_admin]. *)
Definition admin_return (result : AdminResultMessage) (o : Outcome) (detail : string) : M AdminOutcome :=
  mret (result, Some (status_make o detail)).

Definition handle_admin (request : AdminMessage) : M AdminOutcome :=
  let result := mkAdminResult (am_request request) Outcome_Ok "" zero_digest 0 nil_uuid nil_uuid in
  match am_action request with
  | AdminAction_UpsertCluster =>
      match am_cluster request with
      | None => admin_return result Outcome_Invalid "upsert-cluster requires a cluster record"
      | Some given => admin_finish result (upsert_cluster given)
      end
  | AdminAction_DeleteCluster => admin_finish result (delete_cluster (am_cluster_id request))
  | AdminAction_SetClusterState =>
      found ← gets (fun c => find_cluster (c_registry c) (am_cluster_id request));
      match found with
      | None => admin_return result Outcome_NotFound "the cluster is not registered"
      | Some cluster => admin_finish result (set_cluster_state (am_cluster_id request) cluster (am_cluster_state request))
      end
  | AdminAction_UpsertLink =>
      match am_link request with
      | None => admin_return result Outcome_Invalid "upsert-link requires a link record"
      | Some given =>
          n ← gets (fun c => counts (c_registry c));
          at_time ← now;
          if negb (link_kind_supported (lk_kind given)) then
            admin_fail result Outcome_Unsupported
              ("link kind is not supported by this runtime: " ++ link_kind_support_note (lk_kind given))
          else admin_finish result (upsert_link (admin_link (n_links n) at_time given))
      end
  | AdminAction_SetLinkState =>
      found ← gets (fun c => find_link (c_registry c) (am_edge request));
      match found with
      | None => admin_return result Outcome_NotFound "the link is not registered"
      | Some _ => admin_finish result (set_link_state (am_edge request) (am_link_state request))
      end
  | AdminAction_DeleteLink => admin_finish result (delete_link (am_edge request))
  | AdminAction_UpsertPath =>
      match am_path request with
      | None => admin_return result Outcome_Invalid "upsert-path requires a path record"
      | Some given => admin_finish result (upsert_path given)
      end
  | AdminAction_DeletePath => admin_finish result (delete_path (am_edge request))
  | AdminAction_UpsertPolicy =>
      match am_policy request with
      | None => admin_return result Outcome_Invalid "upsert-policy requires a policy rule"
      | Some given => admin_finish result (upsert_policy given)
      end
  | AdminAction_DeletePolicy => admin_finish result (delete_policy (am_policy_id request))
  | AdminAction_WithdrawConsent => apply_consent_change request result true
  | AdminAction_RestoreConsent => apply_consent_change request result false
  | AdminAction_ResolveConflict => apply_conflict_resolution request result
  | AdminAction_AuthorizeContract => apply_contract_proposal request result
  | AdminAction_IssueGrant => apply_grant_issue request result
  | AdminAction_RevalidateGrant => apply_grant_revalidation request result
  | AdminAction_FenceGrant =>
      found ← gets (fun c => find_grant (c_registry c) (am_grant request));
      match found with
      | None => admin_return result Outcome_NotFound "the grant is not registered"
      | Some grant => admin_finish result (fence_one_grant grant)
      end
  | AdminAction_ReloadStore =>
      admin_fail result Outcome_Unsupported "the store is opened once during startup; restart the coordinator to reload it"
  | AdminAction_Zero => admin_finish result (mret tt)
  end.

Definition on_admin (id : Z) (frame : Frame) : M unit :=
  with_message decode_admin id frame (fun request =>
  found ← gets (fun c => session_for c id);
  if from_option (fun s => bool_decide (ss_role s = PeerRole_Agent)) false found then
    _ ← bump inc_rejected_replays;
    send_error id (am_request request) Outcome_Unauthorized "an agent session may not perform coordinator administration"
  else
  handled ← handle_admin request;
  let '(result, failed) := handled in
  let result := match failed with
                | Some s => set_result (st_outcome s)
                              (if bool_decide (ar_detail result = ""%string) then st_message s else ar_detail result) result
                | None => result
                end in
  view ← gets (fun c => registry_digest (c_registry c));
  send_to id (MAdminResult (mkAdminResult (ar_request result) (ar_outcome result) (ar_detail result) view
    (ar_revision result) (ar_contract result) (ar_grant result)))).

(** ** Dispatch *)
Definition handle_message (id : Z) (frame : Frame) : M unit :=
  match fh_type (fr_header frame) with
  | MessageType_Hello => on_hello id frame
  | MessageType_ReportCluster => on_report_cluster id frame
  | MessageType_ContractConsent => on_contract_consent id frame
  | MessageType_GrantPrepared => on_grant_prepared id frame
  | MessageType_GrantCommitted => on_grant_committed id frame
  | MessageType_GrantAborted => on_grant_aborted id frame
  | MessageType_FenceAck => on_fence_ack id frame
  | MessageType_Withdraw => on_withdraw id frame
  | MessageType_StatusReport => on_status_report id frame
  | MessageType_Query => on_query id frame
  | MessageType_Admin => on_admin id frame
  | MessageType_Ping => on_ping id frame
  | MessageType_Pong => bump inc_pongs_received
  | MessageType_Error => bump inc_errors_received
  | t =>
      _ ← bump inc_rejected_frames;
      send_error id nil_uuid Outcome_Unsupported
        ("message type is not accepted by the coordinator: " ++ message_type_to_string t)
  end.
