(* ===== verification/Protocol.v ===== *)
(** * The authority protocol, abstractly

    What the coordinator may do to its registry, as a transition relation: one rule per kind of change,
    guarded by the evidence the change requires. [Refinement.v] shows that every handler of the coordinator
    performs only such transitions; here their invariants are proved by rule induction.

    A transition that needs an agent names the [Evidence] an authenticated session presents; one that
    only an operator or the coordinator itself may take has none. *)
From S2P Require Import Prelude Status Utf8 Bytes Ids Types Registry Hash Time Canonical Terms Policy Decision Engine.
From S2P Require Import Fencing Mutation Messages Effects Coordinator Handlers Admin.

(** A session, and the (grant, attempt) pairs it reports as installed. *)
Record Evidence := mkEvidence { ev_session : PeerSession; ev_installed : list (string * string) }.

(** The grant is bound to the incarnation and the generation of the session on this side. *)
Definition bound_to (s : PeerSession) (side : bool) (g : GrantRecord) : Prop :=
  at_side (gr_incarnations g) side = ss_incarnation s /\ at_side (gr_generations g) side = ss_generation s.

(** What a grant authorizes, to whom and under which attempt. *)
Definition same_binding (g g' : GrantRecord) : Prop :=
  gr_id g' = gr_id g /\ gr_contract g' = gr_contract g /\ gr_capacity g' = gr_capacity g /\ gr_attempt g' = gr_attempt g /\
  gr_incarnations g' = gr_incarnations g /\ gr_generations g' = gr_generations g.

#[export] Instance same_binding_preorder : PreOrder same_binding.
Proof. unfold same_binding. split; [done|]. intros g1 g2 g3. intuition congruence. Qed.

(** [f] changes the state of a grant, or its notes, to one that is not usable. *)
Definition settles (f : GrantRecord -> GrantRecord) : Prop := forall g,
  usable_state (f g) = false /\ same_binding g (f g) /\ gr_acknowledged (f g) = gr_acknowledged g.

(** A grant as a flow starts: being prepared, without an acknowledgement. *)
Definition fresh_grant (g : GrantRecord) : Prop :=
  gr_state g = GrantState_Preparing /\ gr_acknowledged g = (false, false) /\ 0 <= gr_capacity g.

Definition keeps_cluster (f : ClusterRecord -> ClusterRecord) : Prop := forall cl,
  cl_id (f cl) = cl_id cl /\ cl_domain (f cl) = cl_domain cl /\ cl_endpoints (f cl) = cl_endpoints cl.

Definition reserve_on (endpoint : string) (amount : Z) : ClusterRecord -> ClusterRecord := fun cl =>
  set_cl_endpoints (update_endpoint endpoint (set_ep_reserved amount) (cl_endpoints cl)) cl.

Definition committed_grant (at_time : Z) (g : GrantRecord) : GrantRecord :=
  set_gr_state GrantState_Committed "committed by both cluster agents" (gr_revision g)
    (set_pv EvidenceSource_DerivedFromTopology at_time (gr_provenance g)) g.

Inductive transition (who : option Evidence) (r : Registry) : Registry -> Prop :=
| tr_audit at_time actor action subject o detail :
    transition who r (append_audit at_time actor action subject o detail r).2
| tr_put_cluster cl r' :
    put_cluster cl r = Val r' -> Forall (fun e => 0 <= ep_reserved e) (cl_endpoints cl) -> transition who r r'
| tr_put_link l r' : who = None -> put_link l r = Val r' -> transition who r r'
| tr_put_path p r' : who = None -> put_path p r = Val r' -> transition who r r'
| tr_put_policy p r' : who = None -> put_policy p r = Val r' -> transition who r r'
| tr_erase_cluster id r' : who = None -> erase_cluster id r = Val r' -> transition who r r'
| tr_erase_link id r' : who = None -> erase_link id r = Val r' -> transition who r r'
| tr_erase_path id r' : who = None -> erase_path id r = Val r' -> transition who r r'
| tr_erase_policy id r' : who = None -> erase_policy id r = Val r' -> transition who r r'
| tr_cluster id f : keeps_cluster f -> transition who r (with_clusters (alter f id (rg_clusters r)) r)
| tr_link id state at_time :
    who = None -> transition who r (with_links (alter (set_lk_state state at_time) id (rg_links r)) r)
| tr_paths : transition who r (recompute_path_states r)
| tr_propose ct r' :
    who = None -> put_contract ct r = Val r' -> ct_state ct = ContractState_Proposed -> ct_consents ct = (None, None) ->
    0 <= ct_capacity ct -> transition who r r'
| tr_consent ev id ct side record at_time :
    who = Some ev -> rg_contracts r !! id = Some ct -> contract_side_of ct (ss_cluster (ev_session ev)) = Some side ->
    cs_cluster record = ss_cluster (ev_session ev) -> cs_endpoint record = py_endpoint (at_side (ct_parties ct) side) ->
    cs_terms_digest record = ct_terms_digest ct -> cs_incarnation record = ss_incarnation (ev_session ev) ->
    cs_generation record = ss_generation (ev_session ev) ->
    transition who r (with_contracts (alter (consented_contract side record at_time) id (rg_contracts r)) r)
| tr_put_grant g r' : who = None -> put_grant g r = Val r' -> fresh_grant g -> transition who r r'
| tr_rewrite_grant id g :
    who = None -> fresh_grant g -> grant_ok g -> gr_id g = id ->
    transition who r (with_grants (alter (fun _ => g) id (rg_grants r)) r)
| tr_restamp id g attempt incarnation term at_time :
    who = None -> rg_grants r !! id = Some g -> find_contract r (gr_contract g) = None ->
    transition who r (with_grants (alter (restamp_grant attempt incarnation term at_time) id (rg_grants r)) r)
| tr_enforcement id side digest :
    transition who r (with_grants (alter (set_gr_enforcement side digest) id (rg_grants r)) r)
| tr_settle id f : settles f -> transition who r (with_grants (alter f id (rg_grants r)) r)
| tr_acknowledge ev id g ct side digest :
    who = Some ev -> rg_grants r !! id = Some g -> find_contract r (gr_contract g) = Some ct ->
    contract_side_of ct (ss_cluster (ev_session ev)) = Some side -> bound_to (ev_session ev) side g ->
    (gr_id g, gr_attempt g) ∈ ev_installed ev ->
    transition who r (with_grants (alter (acknowledge side digest) id (rg_grants r)) r)
| tr_reserve id cl endpoint e amount :
    rg_clusters r !! id = Some cl -> endpoint_of (cl_endpoints cl) endpoint = Some e ->
    ep_reserved e <= amount <= ep_capacity e ->
    transition who r (with_clusters (alter (reserve_on endpoint amount) id (rg_clusters r)) r)
| tr_put_reservation s r' : put_reservation s r = Val r' -> 0 <= rs_amount s -> transition who r r'
| tr_commit id g at_time :
    rg_grants r !! id = Some g -> both_acknowledged g = true ->
    transition who r (with_grants (alter (committed_grant at_time) id (rg_grants r)) r)
| tr_fence plan at_time actor : transition who r (apply_fence_plan plan at_time actor r).2.

(** ** The invariant *)
(** A usable grant carries the acknowledgements of both agents, and the quantities of contracts and
    grants are not negative. *)
Definition acknowledged_ok (r : Registry) : Prop :=
  map_Forall (fun _ g => (usable_state g = true -> both_acknowledged g = true) /\ 0 <= gr_capacity g) (rg_grants r) /\
  map_Forall (fun _ ct => 0 <= ct_capacity ct) (rg_contracts r).

Record state_ok (r : Registry) : Prop := mkStateOk {
  so_registry : registry_ok r;
  so_unsigned : unsigned_ok r;
  so_acknowledged : acknowledged_ok r;
}.

(** ** Helper lemmas *)
Lemma map_Forall_alter {V} (P : string -> V -> Prop) (m : gmap string V) f k :
  map_Forall P m -> (forall v, m !! k = Some v -> P k v -> P k (f v)) -> map_Forall P (alter f k m).
Proof.
  intros Hm Hf i v. destruct (decide_rel eq i k) as [->|Hne].
  - rewrite lookup_alter_eq. destruct (m !! k) as [w|] eqn:Hk; [|done]. intros [= <-]. by apply Hf, Hm.
  - rewrite lookup_alter_ne by done. apply Hm.
Qed.

Lemma map_ok_alter_at {V} (id : V -> string) (P : V -> Prop) bound (m : gmap string V) f k :
  map_ok id P bound m -> (forall v, m !! k = Some v -> P v -> id v = k -> id (f v) = k /\ P (f v)) ->
  map_ok id P bound (alter f k m).
Proof.
  intros [Hm Hs] Hf. split.
  - apply map_Forall_alter; [done|]. intros v Hk [Hid HP]. by apply Hf.
  - destruct (m !! k) as [v|] eqn:Hk; [|by rewrite alter_None]. rewrite <- (fence_insert _ _ v _ Hk).
    by rewrite map_size_insert_Some by eauto.
Qed.

Section components.
Context (r : Registry) (Hr : state_ok r).

Lemma state_ok_grants m :
  map_ok gr_id grant_ok limits.kMaxGrants m ->
  map_Forall (fun _ g => (usable_state g = true -> both_acknowledged g = true) /\ 0 <= gr_capacity g) m ->
  state_ok (with_grants m r).
Proof. destruct Hr as [[] Hu []]. by split; [split|..|split]. Qed.

Lemma state_ok_clusters m :
  map_ok cl_id cluster_ok limits.kMaxClusters m ->
  map_Forall (fun _ c => Forall (fun e => 0 <= ep_reserved e) (cl_endpoints c)) m -> state_ok (with_clusters m r).
Proof. destruct Hr as [[] [_ ?] ?]. by split; [split|split|]. Qed.

Lemma state_ok_contracts m :
  map_ok ct_id contract_ok limits.kMaxContracts m -> map_Forall (fun _ ct => 0 <= ct_capacity ct) m ->
  state_ok (with_contracts m r).
Proof. destruct Hr as [[] ? []]. by split; [split|..|split]. Qed.

(** A registry that differs in links, paths, policies and audit only. *)
Lemma state_ok_other r' :
  registry_ok r' -> rg_clusters r' = rg_clusters r -> rg_contracts r' = rg_contracts r -> rg_grants r' = rg_grants r ->
  rg_reservations r' = rg_reservations r -> state_ok r'.
Proof.
  intros Hok Hc Hct Hg Hs. destruct Hr as [_ [? ?] [? ?]].
  split; [done|..]; split; rewrite ?Hc, ?Hct, ?Hg, ?Hs; assumption.
Qed.

(** An update of a grant that keeps its identity, its contract and its capacity. *)
Lemma state_ok_alter_grant id f :
  (forall g, rg_grants r !! id = Some g -> gr_id (f g) = gr_id g /\ gr_contract (f g) = gr_contract g /\
     gr_capacity (f g) = gr_capacity g /\
     ((usable_state g = true -> both_acknowledged g = true) -> usable_state (f g) = true ->
      both_acknowledged (f g) = true)) ->
  state_ok (with_grants (alter f id (rg_grants r)) r).
Proof.
  intros Hf. apply state_ok_grants.
  - apply map_ok_alter_at; [apply Hr|]. intros g Hg Hok Hid. destruct (Hf g Hg) as (H1 & H2 & H3 & _).
    unfold grant_ok. rewrite H1, H2, H3, Hid. split; [done|]. by rewrite <- Hid.
  - apply map_Forall_alter; [apply Hr|]. intros g Hg [Ha Hc]. destruct (Hf g Hg) as (_ & _ & -> & H4). auto.
Qed.
End components.

Lemma update_endpoint_ids id f l :
  (forall e, ep_id (f e) = ep_id e) -> ep_id <$> update_endpoint id f l = ep_id <$> l.
Proof. intros Hf. induction l as [|e l IH]; [done|]. cbn. case_bool_decide; cbn; by rewrite ?Hf, ?IH. Qed.

Lemma update_endpoint_Forall (P : EndpointRecord -> Prop) id f l e :
  endpoint_of l id = Some e -> P (f e) -> Forall P l -> Forall P (update_endpoint id f l).
Proof.
  unfold endpoint_of. induction l as [|x l IH]; [done|]. intros He Hf [Hx Hl]%Forall_cons. cbn in *.
  destruct (base.decide (ep_id x = id)) as [->|Hne].
  - rewrite bool_decide_eq_true_2 by done. cbn in He. injection He as <-. by constructor.
  - rewrite bool_decide_eq_false_2 by done. constructor; [done|]. apply IH; [|done|done].
    rewrite <- He. by destruct (list_find _ l) as [[]|].
Qed.

Lemma reserve_on_ok endpoint amount e cl :
  endpoint_of (cl_endpoints cl) endpoint = Some e -> ep_reserved e <= amount <= ep_capacity e ->
  cluster_ok cl -> Forall (fun e => 0 <= ep_reserved e) (cl_endpoints cl) ->
  cluster_ok (reserve_on endpoint amount cl) /\
  Forall (fun e => 0 <= ep_reserved e) (cl_endpoints (reserve_on endpoint amount cl)).
Proof.
  intros He Ha (H1 & H2 & H3 & Hs & Hf) Hn. unfold reserve_on. cbn [set_cl_endpoints cl_endpoints].
  assert (Hin : e ∈ cl_endpoints cl).
  { unfold endpoint_of in He. destruct (list_find _ _) as [[i x]|] eqn:Hl; [|done]. injection He as <-.
    apply list_find_Some in Hl as (Hl & _). by eapply list_elem_of_lookup_2. }
  rewrite Forall_forall in Hf, Hn. split.
  - unfold cluster_ok. cbn [set_cl_endpoints cl_id cl_domain cl_endpoints]. split_and!; [done|done| | |].
    + unfold zlen in *. by rewrite <- (length_fmap ep_id), update_endpoint_ids, length_fmap.
    + eapply sorted_by_ids; [|exact Hs]. by rewrite update_endpoint_ids.
    + eapply update_endpoint_Forall; [exact He| |by apply Forall_forall]. cbn. destruct (Hf e Hin). split; [done|lia].
  - eapply update_endpoint_Forall; [exact He| |by apply Forall_forall]. cbn. pose proof (Hn e Hin). cbn in *. lia.
Qed.

(** *** Fencing *)
(** What fencing one grant or one contract keeps, applying a plan keeps. *)
Section fenced.
Context (G : string -> GrantRecord -> Prop) (C : string -> ContractRecord -> Prop) (plan : FencePlan) (at_time : Z) (actor : string).
Context (HG : forall k g, G k g -> G k (fenced_grant (fp_trigger plan) at_time g)).
Context (HC : forall k ct, C k ct -> C k (fenced_contract (fp_trigger plan) at_time ct)).
Let P (r : Registry) : Prop := map_Forall G (rg_grants r) /\ map_Forall C (rg_contracts r).

Lemma apply_action_keeps a o r : P r -> P (apply_action plan at_time actor a o r).2.
Proof.
  intros Hr. pose proof (apply_action_effect plan at_time actor a o r) as He.
  assert (Hp : P (effect_action plan at_time r a)).
  { destruct Hr as [Hg Hc]. unfold effect_action. destruct (fa_target a).
    - split; [|done]. cbn. apply map_Forall_alter; [done|]. intros g _ ?. unfold fence_grant. case_match; auto.
    - split; [done|]. cbn. apply map_Forall_alter; [done|]. intros ct _ ?. unfold fence_contract. case_match; auto.
    - destruct (rg_reservations r !! _) as [s|]; [|done]. destruct (rs_released s); [done|]. unfold released_registry.
      by destruct (rg_reservations r !! rs_id s). }
  apply same_but_audit_fields in He as (_ & _ & _ & _ & Ec & Eg & _). unfold P in *. by rewrite Ec, Eg.
Qed.

Lemma apply_actions_keeps l o r : P r -> P (apply_actions plan at_time actor l o r).2.
Proof.
  revert o r. induction l as [|a l IH]; intros o r Hr; [done|]. cbn [apply_actions]. unfold mbind, ST_bind.
  pose proof (apply_action_keeps a o r Hr) as Ha.
  destruct (apply_action plan at_time actor a o r) as [[o'| |] r']; cbn [snd] in *; [by apply IH|done..].
Qed.
End fenced.

(** *** Records that are put or erased *)
Lemma state_ok_put_cluster cl r r' :
  put_cluster cl r = Val r' -> Forall (fun e => 0 <= ep_reserved e) (cl_endpoints cl) -> state_ok r -> state_ok r'.
Proof.
  intros H Hn Hr. pose proof Hr as [Hok [Hu _] _]. pose proof (ok_clusters _ (put_cluster_ok _ _ _ Hok H)) as Hm.
  apply put_cluster_Val in H as [-> _]. apply state_ok_clusters; [done..|]. apply map_Forall_insert_2; [|done].
  cbn. unfold sort_endpoints. by rewrite merge_sort_Permutation.
Qed.

Lemma state_ok_erase_cluster id r r' : erase_cluster id r = Val r' -> state_ok r -> state_ok r'.
Proof.
  intros H Hr. pose proof Hr as [Hok [Hu _] _]. pose proof (ok_clusters _ (erase_cluster_ok _ _ _ Hok H)) as Hm.
  unfold erase_cluster in H. inv_bind H. injection H as <-. apply erase_existing_Val in Ha as ->.
  apply state_ok_clusters; [done..|]. by apply map_Forall_delete.
Qed.

Lemma state_ok_put_contract ct r r' :
  put_contract ct r = Val r' -> 0 <= ct_capacity ct -> state_ok r -> state_ok r'.
Proof.
  intros H Hn Hr. pose proof Hr as [Hok _ [_ Hc]]. pose proof (ok_contracts _ (put_contract_ok _ _ _ Hok H)) as Hm.
  apply put_contract_Val in H as [-> _]. apply state_ok_contracts; [done..|]. by apply map_Forall_insert_2.
Qed.

Lemma state_ok_put_grant g r r' : put_grant g r = Val r' -> fresh_grant g -> state_ok r -> state_ok r'.
Proof.
  intros H (Hs & _ & Hn) Hr. pose proof Hr as [Hok _ [Hg _]]. pose proof (ok_grants _ (put_grant_ok _ _ _ Hok H)) as Hm.
  apply put_grant_Val in H as [-> _]. apply state_ok_grants; [done..|]. apply map_Forall_insert_2; [|done].
  split; [|done]. unfold usable_state. by rewrite Hs.
Qed.

Lemma state_ok_put_reservation s r r' : put_reservation s r = Val r' -> 0 <= rs_amount s -> state_ok r -> state_ok r'.
Proof.
  intros H Hn Hr. pose proof Hr as [Hok [Hu Hu2] Ha]. pose proof (put_reservation_ok _ _ _ Hok H) as Hok'.
  apply put_reservation_Val in H as [-> _]. split; [done| |done]. split; [done|]. by apply map_Forall_insert_2.
Qed.

(** A put or an erasure of a link, a path or a policy. *)
Ltac other_record ok H :=
  match goal with Hr : state_ok ?r |- _ =>
    apply (state_ok_other r Hr); [exact (ok _ _ _ (so_registry _ Hr) H)|..];
    revert H; cbv delta [erase_link erase_path erase_policy]; cbn beta; intros H;
    first [apply put_link_Val in H as [-> _] | apply put_path_Val in H as [-> _] | apply put_policy_Val in H as [-> _]
          | inv_bind H; injection H as <-]; done
  end.

(** ** Every transition keeps the invariant *)
Lemma transition_ok who r r' : transition who r r' -> state_ok r -> state_ok r'.
Proof.
  intros Ht Hr. destruct Ht.
  - destruct (append_audit_effect at_time actor action subject o detail r) as (l & -> & _ & Hl).
    apply state_ok_other with r; try done. apply Hl, Hr.
  - by eapply state_ok_put_cluster.
  - other_record put_link_ok H0.
  - other_record put_path_ok H0.
  - other_record put_policy_ok H0.
  - by eapply state_ok_erase_cluster.
  - other_record erase_link_ok H0.
  - other_record erase_path_ok H0.
  - other_record erase_policy_ok H0.
  - destruct Hr as [[] [] ?]. apply state_ok_clusters; [by split; [split|split|]|..].
    + apply map_ok_alter; [done|]. intros cl Hcl. destruct (H cl) as (E1 & E2 & E3). unfold cluster_ok. by rewrite E1, E2, E3.
    + apply map_Forall_alter; [done|]. intros cl _ ?. destruct (H cl) as (_ & _ & ->). done.
  - apply state_ok_other with r; try done. destruct Hr as [[] _ _]. split; try done. by apply map_ok_alter.
  - apply state_ok_other with r; try done. apply recompute_path_states_ok, Hr.
  - by eapply state_ok_put_contract.
  - apply state_ok_contracts; [done|..].
    + apply map_ok_alter; [apply Hr|]. by intros ct' Hct.
    + apply map_Forall_alter; [apply Hr|]. done.
  - by eapply state_ok_put_grant.
  - destruct H0 as (Hs & Ha & Hc). apply state_ok_grants; [done|..].
    + apply map_ok_alter_at; [apply Hr|]. done.
    + apply map_Forall_alter; [apply Hr|]. intros _ _ _. split; [|done]. unfold usable_state. by rewrite Hs.
  - apply state_ok_alter_grant; [done|]. by intros g' _.
  - apply state_ok_alter_grant; [done|]. by intros g' _.
  - apply state_ok_alter_grant; [done|]. intros g' _. destruct (H g') as (Hs & (? & ? & ? & _) & _). rewrite Hs. done.
  - apply state_ok_alter_grant; [done|]. intros g' _. split_and!; try done. intros Hg Hs. specialize (Hg Hs).
    unfold both_acknowledged in *. apply andb_true_iff in Hg as [Hg1 Hg2]. cbn. by destruct side; cbn; rewrite ?Hg1, ?Hg2.
  - destruct Hr as [[] [] ?]. apply state_ok_clusters; [by split; [split|split|]|..].
    + apply map_ok_alter_at; [done|]. intros cl' Hcl Hk Hid. rewrite H in Hcl. injection Hcl as <-. split; [done|].
      eapply reserve_on_ok; eauto.
    + apply map_Forall_alter; [done|]. intros cl' Hcl Hn. rewrite H in Hcl. injection Hcl as <-.
      eapply reserve_on_ok; eauto. by eapply map_ok_lookup.
  - by eapply state_ok_put_reservation.
  - apply state_ok_alter_grant; [done|]. intros g' Hg. rewrite H in Hg. injection Hg as <-. done.
  - destruct Hr as [Hok Hu Ha]. destruct (apply_actions_ok plan at_time actor (fp_actions plan) outcome_zero r Hok Hu).
    split; [done..|]. apply (apply_actions_keeps _ _ plan at_time actor); [|done|done]. by intros k g [].
Qed.

Lemma transitions_ok who r r' : rtc (transition who) r r' -> state_ok r -> state_ok r'.
Proof. induction 1; eauto using transition_ok. Qed.

(** ** Where acknowledgements and consents come from *)
(** Under an agent's evidence, grants keep what they bind, and contracts their parties and terms. *)
Definition binds_like (r r' : Registry) : Prop :=
  map_Forall (fun k g' => exists g, rg_grants r !! k = Some g /\ same_binding g g') (rg_grants r') /\
  map_Forall (fun k ct' => exists ct, rg_contracts r !! k = Some ct /\ ct_parties ct' = ct_parties ct /\
    ct_terms_digest ct' = ct_terms_digest ct) (rg_contracts r').

(** An acknowledgement that was recorded before, or that the evidence supports. *)
Definition acknowledgement_origin (who : option Evidence) (r : Registry) (k : string) (side : bool) : Prop :=
  (exists g, rg_grants r !! k = Some g /\ at_side (gr_acknowledged g) side = true) \/
  (exists ev g ct, who = Some ev /\ rg_grants r !! k = Some g /\ find_contract r (gr_contract g) = Some ct /\
     contract_side_of ct (ss_cluster (ev_session ev)) = Some side /\ bound_to (ev_session ev) side g /\
     (gr_id g, gr_attempt g) ∈ ev_installed ev).

Definition consent_origin (who : option Evidence) (r : Registry) (k : string) (side : bool) (record : ConsentRecord) : Prop :=
  (exists ct, rg_contracts r !! k = Some ct /\ at_side (ct_consents ct) side = Some record) \/
  (exists ev ct, who = Some ev /\ rg_contracts r !! k = Some ct /\
     contract_side_of ct (ss_cluster (ev_session ev)) = Some side /\ cs_cluster record = ss_cluster (ev_session ev) /\
     cs_endpoint record = py_endpoint (at_side (ct_parties ct) side) /\ cs_terms_digest record = ct_terms_digest ct /\
     cs_incarnation record = ss_incarnation (ev_session ev) /\ cs_generation record = ss_generation (ev_session ev)).

Definition authentic (who : option Evidence) (r r' : Registry) : Prop :=
  map_Forall (fun k g' => forall side, at_side (gr_acknowledged g') side = true -> acknowledgement_origin who r k side)
    (rg_grants r') /\
  map_Forall (fun k ct' => forall side record, at_side (ct_consents ct') side = Some record -> consent_origin who r k side record)
    (rg_contracts r').

(** What one step, or a sequence of steps, does to acknowledgements and consents. *)
Definition traced (who : option Evidence) (r r' : Registry) : Prop :=
  authentic who r r' /\ (who <> None -> binds_like r r').

Section traced.
Context (who : option Evidence) (r : Registry).

Lemma traced_same r' : rg_grants r' = rg_grants r -> rg_contracts r' = rg_contracts r -> traced who r r'.
Proof.
  intros Hg Hc. unfold traced, authentic, binds_like. rewrite Hg, Hc. split.
  - split; intros k x Hk; [intros side Hs|intros side record Hs]; left; eauto.
  - intros _. split; intros k x Hk; exists x; split_and!; done || reflexivity.
Qed.

Lemma traced_grants m :
  map_Forall (fun k g' => (forall side, at_side (gr_acknowledged g') side = true -> acknowledgement_origin who r k side) /\
    (who <> None -> exists g, rg_grants r !! k = Some g /\ same_binding g g')) m ->
  traced who r (with_grants m r).
Proof.
  intros Hm. destruct (traced_same r eq_refl eq_refl) as [[_ H1] H2]. split.
  - split; [|exact H1]. intros k g' Hk. by apply (Hm k g').
  - intros Hw. destruct (H2 Hw) as [_ H3]. split; [|exact H3]. intros k g' Hk. by apply (Hm k g').
Qed.

Lemma traced_alter_grant id f :
  (forall g, rg_grants r !! id = Some g -> (who <> None -> same_binding g (f g)) /\
     forall side, at_side (gr_acknowledged (f g)) side = true -> acknowledgement_origin who r id side) ->
  traced who r (with_grants (alter f id (rg_grants r)) r).
Proof.
  intros Hf. apply traced_grants. apply map_Forall_alter.
  - intros k g Hk. split; [intros side Hs; left; eauto|]. intros _. exists g. by split.
  - intros g Hg _. destruct (Hf g Hg) as [Hb Ho]. split; [done|]. intros Hw. exists g. split; [done|]. by apply Hb.
Qed.

Lemma traced_alter_contract id f :
  (forall ct, rg_contracts r !! id = Some ct -> ct_parties (f ct) = ct_parties ct /\
     ct_terms_digest (f ct) = ct_terms_digest ct /\
     forall side record, at_side (ct_consents (f ct)) side = Some record -> consent_origin who r id side record) ->
  traced who r (with_contracts (alter f id (rg_contracts r)) r).
Proof.
  intros Hf. destruct (traced_same r eq_refl eq_refl) as [[H1 H2] H3]. split.
  - split; [exact H1|]. apply map_Forall_alter; [exact H2|]. intros ct Hct _. by apply Hf.
  - intros Hw. destruct (H3 Hw) as [H4 H5]. split; [exact H4|]. apply map_Forall_alter; [exact H5|].
    intros ct Hct _. destruct (Hf ct Hct) as (? & ? & _). eauto.
Qed.

Lemma traced_fence plan at_time actor : traced who r (apply_fence_plan plan at_time actor r).2.
Proof.
  destruct (apply_actions_keeps
    (fun k g' => exists g, rg_grants r !! k = Some g /\ same_binding g g' /\ gr_acknowledged g' = gr_acknowledged g)
    (fun k ct' => exists ct, rg_contracts r !! k = Some ct /\ ct_parties ct' = ct_parties ct /\
       ct_terms_digest ct' = ct_terms_digest ct /\ ct_consents ct' = ct_consents ct) plan at_time actor
    ltac:(intros k g (g0 & H1 & H2 & H3); exists g0; done) ltac:(intros k ct (ct0 & H1 & H2 & H3 & H4); exists ct0; done)
    (fp_actions plan) outcome_zero r) as [Hg Hc].
  { split; intros k x Hk; exists x; split_and!; done || reflexivity. }
  split.
  - split; intros k x Hk.
    + destruct (Hg k x Hk) as (g & Hk' & _ & Ha). intros side Hs. left. exists g. by rewrite <- Ha.
    + destruct (Hc k x Hk) as (ct & Hk' & _ & _ & Ha). intros side record Hs. left. exists ct. by rewrite <- Ha.
  - intros _. split; intros k x Hk.
    + destruct (Hg k x Hk) as (g & Hk' & Hb & _). eauto.
    + destruct (Hc k x Hk) as (ct & Hk' & H1 & H2 & _). eauto.
Qed.
End traced.

Lemma at_set_side {A} (p : A * A) side side' x : at_side (set_side p side x) side' = if Bool.eqb side side' then x else at_side p side'.
Proof. by destruct side, side'. Qed.

Lemma fresh_not_acknowledged g side : fresh_grant g -> at_side (gr_acknowledged g) side = false.
Proof. intros (_ & -> & _). by destruct side. Qed.

Lemma transition_traced who r r' : transition who r r' -> traced who r r'.
Proof.
  destruct 1; try (by apply traced_same).
  - destruct (append_audit_effect at_time actor action subject o detail r) as (l & -> & _). by apply traced_same.
  - apply put_cluster_Val in H as [-> _]. by apply traced_same.
  - apply put_link_Val in H0 as [-> _]. by apply traced_same.
  - apply put_path_Val in H0 as [-> _]. by apply traced_same.
  - apply put_policy_Val in H0 as [-> _]. by apply traced_same.
  - unfold erase_cluster in H0. inv_bind H0. injection H0 as <-. by apply traced_same.
  - unfold erase_link in H0. inv_bind H0. injection H0 as <-. by apply traced_same.
  - unfold erase_path in H0. inv_bind H0. injection H0 as <-. by apply traced_same.
  - unfold erase_policy in H0. inv_bind H0. injection H0 as <-. by apply traced_same.
  - apply put_contract_Val in H0 as [-> _]. subst who. destruct (traced_same None r r eq_refl eq_refl) as [[Ha Hc] _].
    split; [|done]. split; [exact Ha|]. apply map_Forall_insert_2; [|exact Hc]. rewrite H2. by intros [] ?.
  - apply traced_alter_contract. intros ct' Hct. rewrite H0 in Hct. injection Hct as <-. split_and!; [done..|].
    intros side' record'. cbn [consented_contract set_ct_state ct_consents]. rewrite at_set_side.
    destruct (Bool.eqb_spec side side') as [<-|]; [|by intros ?; left; eauto]. intros [= <-]. right. exists ev, ct. by split_and!.
  - apply put_grant_Val in H0 as [-> _]. subst who. apply traced_grants. apply map_Forall_insert_2.
    + split; [|done]. intros side. by rewrite fresh_not_acknowledged.
    + intros k g' Hk. split; [|done]. intros side Hs. left. eauto.
  - subst who. apply traced_alter_grant. intros g' _. split; [done|]. intros side. by rewrite fresh_not_acknowledged.
  - subst who. apply traced_alter_grant. intros g' Hg. split; [done|]. intros side Hs. left. eauto.
  - apply traced_alter_grant. intros g' Hg. split; [by intros _|]. intros side' Hs. left. eauto.
  - apply traced_alter_grant. intros g' Hg. destruct (H g') as (_ & Hb & Ha). split; [done|]. rewrite Ha. left. eauto.
  - apply traced_alter_grant. intros g' Hg. rewrite H0 in Hg. injection Hg as <-. split; [by intros _|].
    intros side'. cbn [acknowledge gr_acknowledged]. rewrite at_set_side.
    destruct (Bool.eqb_spec side side') as [<-|]; [|by intros ?; left; eauto]. intros _. right. exists ev, g, ct. by split_and!.
  - apply put_reservation_Val in H as [-> _]. by apply traced_same.
  - apply traced_alter_grant. intros g' Hg. split; [by intros _|]. intros side' Hs. left. eauto.
  - apply traced_fence.
Qed.

(** Pulling evidence back along a step that keeps what is bound. *)
Lemma acknowledgement_origin_back who r r1 k side :
  traced who r r1 -> acknowledgement_origin who r1 k side -> acknowledgement_origin who r k side.
Proof.
  intros [[Ha _] Hb] [(g & Hk & Hs)|(ev & g1 & ct1 & -> & Hk & Hct & Hside & [B1 B2] & Hin)]; [by eapply Ha|].
  destruct (Hb ltac:(done)) as [Hg Hc]. destruct (Hg k g1 Hk) as (g & Hkg & Eid & Ect & _ & Eat & Ein & Egn).
  destruct (Hc _ _ Hct) as (ct & Hct' & Epa & _). rewrite Ect in Hct'. right. exists ev, g, ct. rewrite Eid, Eat in Hin.
  unfold bound_to, contract_side_of in *. rewrite Ein, Egn, Epa in *. by split_and!.
Qed.

Lemma consent_origin_back who r r1 k side record :
  traced who r r1 -> consent_origin who r1 k side record -> consent_origin who r k side record.
Proof.
  intros [[_ Ha] Hb] [(ct & Hk & Hs)|(ev & ct1 & -> & Hk & Hside & H1 & H2 & H3 & H4 & H5)]; [by eapply Ha|].
  destruct (Hb ltac:(done)) as [_ Hc]. destruct (Hc _ _ Hk) as (ct & Hct' & Epa & Etd). right. exists ev, ct.
  unfold contract_side_of in *. rewrite Epa in Hside, H2. rewrite Etd in H3. by split_and!.
Qed.

Lemma transitions_authentic who r r' : rtc (transition who) r r' -> authentic who r r'.
Proof.
  induction 1 as [r|r r1 r2 Hs _ [IHg IHc]]; [by apply traced_same|]. apply transition_traced in Hs. split.
  - intros k g Hk side Hside. eapply acknowledgement_origin_back; [exact Hs|]. by eapply IHg.
  - intros k ct Hk side record Hside. eapply consent_origin_back; [exact Hs|]. by eapply IHc.
Qed.
