(* ===== verification/CoordinatorLogic.v ===== *)
(** * Reasoning about the coordinator's methods

    The rules of [Logic.v] for the members and guards of the coordinator: [QuietFrame R] says that [R] does not
    look at the connections, the counters and the environment, [IoFrame R] that it does not look at the store
    either, and [FlowFrame R] that it does not look at the sessions and the tracked flows. *)
From S2P Require Import Prelude Status Utf8 Bytes Ids Types Registry Canonical Decision Engine Fencing Mutation Files Wal Snapshot DurableStore.
From S2P Require Import Frame Messages Connection Effects Logic Coordinator Handlers Admin.

Class QuietFrame (R : Coordinator -> Coordinator -> Prop) := {
  quiet_host :: HostFrame R;
  io_counters c k : R c (set_counters c k);
}.

Class IoFrame (R : Coordinator -> Coordinator -> Prop) := {
  io_quiet :: QuietFrame R;
  io_store :: StoreFrame R;
}.

(** Relations that do not look at the sessions or at the tracked flows either. *)
Class FlowFrame (R : Coordinator -> Coordinator -> Prop) := {
  flow_io :: IoFrame R;
  flow_sessions c m : R c (set_sessions c m);
  flow_pending c m : R c (set_pending c m);
}.

#[export] Instance on_registry_flow P : PreOrder P -> FlowFrame (on_registry P).
Proof.
  intros HP. assert (PreOrder (on_registry (S := Coordinator) P)).
  { split; [intros c; unfold on_registry; reflexivity|]. intros c1 c2 c3. unfold on_registry. by etransitivity. }
  assert (HostFrame (on_registry (S := Coordinator) P)) by (split; [done|..]; intros; unfold on_registry; cbn; reflexivity).
  split; [split|..].
  - split; [done|]. intros. unfold on_registry. cbn. reflexivity.
  - split; [done|]. intros. unfold on_registry. cbn. reflexivity.
  - intros. unfold on_registry. cbn. reflexivity.
  - intros. unfold on_registry. cbn. reflexivity.
Qed.

#[export] Hint Extern 0 (IoFrame _) => apply _ : runs.
#[export] Hint Extern 0 (QuietFrame _) => apply _ : runs.

Lemma runs_put (R : Coordinator -> Coordinator -> Prop) {HR : PreOrder R} c f :
  (forall r', f (c_registry c) = Val r' -> R c (set_registry c r')) -> runs R c (put f).
Proof.
  intros Hf. apply runs_in_registry. unfold st_try. cbn. destruct (f (c_registry c)) as [r'|e|]; cbn; [by apply Hf|..].
  all: assert (set_registry c (c_registry c) = c) as -> by (by destruct c); reflexivity.
Qed.

(** ** Counting, messages and guards *)
Section quiet.
Context (R : Coordinator -> Coordinator -> Prop) {HR : QuietFrame R}.

Lemma runs_bump c f : runs R c (bump f).
Proof. apply (runs_modify _), io_counters. Qed.

Lemma runs_send_to c id m : runs R c (send_to id m).
Proof.
  unfold runs, send_to. destruct (connection_for c id); [|cbn; reflexivity].
  destruct (queue_frame _ _ _ _). cbn. exact (hf_connections (R := R) c _).
Qed.
#[local] Hint Resolve runs_bump runs_send_to : runs.

Lemma runs_send_error c id request o s : runs R c (send_error id request o s).
Proof. unfold send_error. walk. Qed.

Lemma runs_refuse_hello c id ack o s : runs R c (refuse_hello id ack o s).
Proof. unfold refuse_hello. walk. Qed.

Lemma runs_with_message {A} c (dec : Parser A) id frame handle :
  (forall m rest, dec (fr_payload frame) = Val (m, rest) -> runs R c (handle m)) ->
  runs R c (with_message dec id frame handle).
Proof.
  intros H. unfold with_message. destruct (dec _) as [[m rest]|e|] eqn:E; [by eapply H|..].
  all: eauto using runs_send_error with runs. apply (runs_bind _); eauto using runs_send_error with runs.
Qed.

(** The guard passes only for the session of the connection, with its token, after the handshake. *)
Lemma runs_with_session c id token handle :
  (forall s, session_for c id = Some s -> ss_hello_complete s = true -> ss_token s = token -> runs R c (handle s)) ->
  runs R c (with_session id token handle).
Proof.
  intros H. unfold with_session. apply (runs_bind _).
  - apply (runs_attempt _). unfold require_session. walk.
  - intros [e|s] c' E; [apply runs_send_error|]. unfold attempt, require_session in E.
    unfold mbind, ST_bind, gets in E. destruct (session_for c id) as [s0|] eqn:Hs; [|discriminate E].
    destruct (negb (ss_hello_complete s0)) eqn:Hh; [discriminate E|].
    destruct (negb (bool_decide (ss_token s0 = token))) eqn:Ht; [discriminate E|]. injection E as <- <-.
    apply negb_false_iff in Hh, Ht. apply bool_decide_eq_true in Ht.
    by apply H.
Qed.
End quiet.
#[export] Hint Resolve runs_bump runs_send_to runs_send_error runs_refuse_hello : runs.

Section methods.
Context (R : Coordinator -> Coordinator -> Prop) {HR : IoFrame R}.

Lemma runs_persist_cluster c id : runs R c (persist_cluster id).
Proof. unfold persist_cluster. walk. Qed.
Lemma runs_persist_contract c id : runs R c (persist_contract id).
Proof. unfold persist_contract. walk. Qed.
Lemma runs_persist_action c fenced a : runs R c (persist_action fenced a).
Proof. unfold persist_action. walk. Qed.
Lemma runs_compact c : runs R c compact_if_needed.
Proof. unfold compact_if_needed, now. walk. Qed.

End methods.
#[export] Hint Resolve runs_persist_cluster runs_persist_contract
  runs_persist_action runs_compact : runs.
