(* ===== verification/Refinement.v ===== *)
(** * The coordinator performs only protocol transitions

    Every method of the coordinator changes the registry by transitions of [Protocol.v], whatever frames
    arrive and whatever the store and the network answer. *)
From S2P Require Import Prelude Status Utf8 Bytes Ids Types Registry Hash Time Canonical Terms Policy Decision Engine.
From S2P Require Import Fencing Mutation Files Wal Snapshot DurableStore Recovery Frame Messages Connection Effects Coordinator Handlers Admin.
From S2P Require Import Protocol Logic CoordinatorLogic.

(** From a well-formed registry, a sequence of transitions under the evidence [who]. *)
Definition moves (who : option Evidence) (r r' : Registry) : Prop := state_ok r -> rtc (transition who) r r'.
Abbreviation refines who := (on_registry (moves who)).

#[export] Instance moves_preorder who : PreOrder (moves who).
Proof.
  split; [intros r _; apply rtc_refl|]. intros r1 r2 r3 H1 H2 Hr. specialize (H1 Hr).
  etransitivity; [exact H1|]. apply H2. by eapply transitions_ok.
Qed.

Implicit Types (c : Coordinator) (who : option Evidence).

Lemma refines_step who c r' :
  (state_ok (c_registry c) -> transition who (c_registry c) r') -> refines who c (set_registry c r').
Proof. intros H Hr. by apply rtc_once, H. Qed.

(** The invariant holds whenever a transition is looked for. *)
Lemma runs_assume who {A} c (m : M A) :
  (state_ok (c_registry c) -> runs (refines who) c m) -> runs (refines who) c m.
Proof. intros H Hr. by apply H. Qed.

Lemma runs_update_cluster who c id f : keeps_cluster f -> runs (refines who) c (update_cluster id f).
Proof. intros Hf. apply runs_modify, refines_step. intros _. by apply tr_cluster. Qed.

Lemma runs_settle who c id f : settles f -> runs (refines who) c (update_grant id f).
Proof. intros Hf. apply runs_modify, refines_step. intros _. by apply tr_settle. Qed.

Lemma runs_update_session who c id f : runs (refines who) c (update_session id f).
Proof. apply runs_modify, flow_sessions. Qed.
Lemma runs_set_sessions who c m : runs (refines who) c (modify (fun c => set_sessions c (m c))).
Proof. apply runs_modify, flow_sessions. Qed.
Lemma runs_update_pending who c id f : runs (refines who) c (update_pending id f).
Proof. apply runs_modify, flow_pending. Qed.
Lemma runs_erase_pending who c id : runs (refines who) c (erase_pending id).
Proof. apply runs_modify, flow_pending. Qed.
Lemma runs_set_pending who c m : runs (refines who) c (modify (fun c => set_pending c (m c))).
Proof. apply runs_modify, flow_pending. Qed.

Lemma runs_recompute who c : runs (refines who) c (modify (fun c => set_registry c (recompute_path_states (c_registry c)))).
Proof. apply runs_modify, refines_step. intros _. apply tr_paths. Qed.

Lemma runs_audit who c actor action subject o detail :
  runs (refines who) c (coordinator_append_audit actor action subject o detail).
Proof.
  unfold coordinator_append_audit. walk. apply runs_in_registry, refines_step. intros _. apply tr_audit.
Qed.
#[export] Hint Resolve runs_update_session runs_set_sessions runs_update_pending runs_erase_pending runs_set_pending
  runs_recompute runs_audit : runs.

Lemma settles_mark state note :
  state <> GrantState_Committed -> state <> GrantState_Active -> settles (mark_grant state note).
Proof.
  intros H1 H2 g. split_and!; try done. unfold usable_state. cbn [mark_grant set_gr_state gr_state].
  by rewrite !bool_decide_eq_false_2 by done.
Qed.
#[export] Hint Extern 1 (runs _ _ (update_grant _ (mark_grant _ _))) => apply runs_settle, settles_mark; discriminate : runs.

(** ** Fencing *)
Lemma runs_fence_plan_apply who c plan actor : runs (refines who) c (fence_plan_apply plan actor).
Proof.
  unfold fence_plan_apply. walk. apply runs_in_registry, refines_step. intros _. apply tr_fence.
Qed.
#[export] Hint Resolve runs_fence_plan_apply : runs.

Lemma runs_fence_cluster who c cluster trigger new old generation :
  runs (refines who) c (fence_cluster cluster trigger new old generation).
Proof. unfold fence_cluster. walk. Qed.
#[export] Hint Resolve runs_fence_cluster : runs.

(** ** The grant flow *)
Lemma runs_abort_grant who c id reason : runs (refines who) c (abort_grant id reason).
Proof. unfold abort_grant. walk. Qed.
#[export] Hint Resolve runs_abort_grant : runs.

Lemma runs_reserve_side who c grant contract at_time side :
  0 <= gr_capacity grant -> runs (refines who) c (reserve_side grant contract at_time side).
Proof.
  intros Hc. unfold reserve_side. walk.
  - apply runs_modify, refines_step. intros _. eapply tr_reserve; [eassumption..|]. lia.
  - apply (runs_put _). intros r' Hput. apply refines_step. intros _. by eapply tr_put_reservation.
Qed.

Lemma runs_reserve_capacity who c grant at_time :
  0 <= gr_capacity grant -> runs (refines who) c (reserve_capacity grant at_time).
Proof. intros Hc. unfold reserve_capacity. walk. by apply runs_reserve_side. Qed.
#[export] Hint Resolve runs_reserve_capacity : runs.

(** Reserving does not touch the grants. *)
Definition same_grants (r r' : Registry) : Prop := rg_grants r' = rg_grants r.
#[local] Instance same_grants_preorder : PreOrder same_grants.
Proof. split; [done|]. intros r1 r2 r3. unfold same_grants. congruence. Qed.

Lemma runs_reserve_same c grant at_time : runs (on_registry same_grants) c (reserve_capacity grant at_time).
Proof.
  unfold reserve_capacity, reserve_side. walk.
  - by apply runs_modify.
  - apply (runs_put _). intros r' Hput. by apply put_reservation_Val in Hput as [-> _].
Qed.

Lemma runs_finalise_grant who c id at_time : runs (refines who) c (finalise_grant id at_time).
Proof.
  apply runs_assume. intros [_ _ [Hg _]]. unfold finalise_grant. walk.
  - apply runs_reserve_capacity. by apply (Hg id).
  - apply runs_modify, refines_step. intros _.
    assert (Hs : same_grants (c_registry c) (c_registry c0)).
    { change (on_registry same_grants c c0). eapply runs_result; [|eassumption]. apply (runs_attempt _), runs_reserve_same. }
    apply negb_false_iff in Heqb0. eapply tr_commit; [|exact Heqb0]. cbn. rewrite Hs. exact Heqo.
Qed.
#[export] Hint Resolve runs_finalise_grant : runs.

Lemma runs_prepare_grant c write grant :
  gr_acknowledged grant = (false, false) -> 0 <= gr_capacity grant -> grant_ok grant ->
  (forall g c, fresh_grant g -> grant_ok g -> gr_id g = gr_id grant -> runs (refines None) c (write g)) ->
  runs (refines None) c (prepare_grant write grant).
Proof.
  intros Ha Hc Hok Hw. unfold prepare_grant. walk.
  - by apply Hw.
  - apply (runs_put _). intros r' Hput. apply refines_step. intros _. by eapply tr_put_grant.
Qed.

Lemma runs_commit_grant who c id : runs (refines who) c (commit_grant id).
Proof. unfold commit_grant. walk. Qed.
#[export] Hint Resolve runs_commit_grant : runs.

(** ** HELLO and REPORT_CLUSTER *)
#[export] Hint Extern 1 (runs (on_registry (moves _)) _ (update_cluster _ _)) => apply runs_update_cluster; by intros ? : runs.

Lemma runs_put_cluster who c cl :
  Forall (fun e => 0 <= ep_reserved e) (cl_endpoints cl) -> runs (refines who) c (put (put_cluster cl)).
Proof. intros Hn. apply (runs_put _). intros r' Hput. apply refines_step. intros _. by eapply tr_put_cluster. Qed.

Lemma runs_hello_cluster who c m : runs (refines who) c (hello_cluster m).
Proof. unfold hello_cluster. walk. by apply runs_put_cluster. Qed.

Lemma runs_accept_agent who c id m key ack fenced : runs (refines who) c (accept_agent id m key ack fenced).
Proof. unfold accept_agent. walk. Qed.
#[export] Hint Resolve runs_hello_cluster runs_accept_agent : runs.

Lemma runs_on_hello who c id frame : runs (refines who) c (on_hello id frame).
Proof.
  unfold on_hello. apply (runs_with_message _). intros m rest _. unfold stale_handshake. walk.
  apply runs_modify. destruct (connection_for _ _); [|reflexivity]. case_bool_decide; [reflexivity|].
  exact (hf_connections (R := refines who) c _).
Qed.

Lemma runs_report_conflict who c id incoming s revision : runs (refines who) c (report_conflict id incoming s revision).
Proof. unfold report_conflict. walk. Qed.

Lemma runs_report_accept who c id incoming current s :
  cluster_wf incoming -> runs (refines who) c (report_accept id incoming current s).
Proof. intros Hwf. unfold report_accept. walk. apply runs_put_cluster. by apply wf_reserved in Hwf. Qed.
#[export] Hint Resolve runs_report_conflict runs_report_accept : runs.

Lemma runs_on_report_cluster who c id frame : runs (refines who) c (on_report_cluster id frame).
Proof.
  unfold on_report_cluster. apply (runs_with_message _). intros m rest Hdec.
  apply whole_sound in Hdec as [[_ Hwf] _]. apply (runs_with_session _). intros s _ _ _. walk.
Qed.

(** ** The evidence a frame presents *)
(** The token a frame carries, and the attempts it reports as installed. *)
Definition claims (frame : Frame) : option (string * list (string * string)) :=
  match fh_type (fr_header frame) with
  | MessageType_ContractConsent =>
      match decode_contract_consent (fr_payload frame) with Val (m, _) => Some (cc_session m, []) | _ => None end
  | MessageType_GrantCommitted =>
      match decode_grant_committed (fr_payload frame) with
      | Val (m, _) => Some (gc_session m, if gc_installed m then [(gc_grant m, gc_attempt m)] else [])
      | _ => None
      end
  | MessageType_StatusReport =>
      match decode_status_report (fr_payload frame) with
      | Val (m, _) =>
          Some (sp_session m, (fun e => (gs_grant e, gs_attempt e)) <$> filter (fun e => installed_state (gs_state e) = true) (sp_grants m))
      | _ => None
      end
  | _ => None
  end.

(** The session of the connection, provided that the frame carries its token after the handshake. *)
Definition evidence_of (c : Coordinator) (id : Z) (frame : Frame) : option Evidence :=
  match claims frame, session_for c id with
  | Some (token, installed), Some s =>
      if ss_hello_complete s && bool_decide (ss_token s = token) then Some (mkEvidence s installed) else None
  | _, _ => None
  end.

Lemma evidence_of_session c id frame token installed s :
  claims frame = Some (token, installed) -> session_for c id = Some s -> ss_hello_complete s = true -> ss_token s = token ->
  evidence_of c id frame = Some (mkEvidence s installed).
Proof. intros Hc Hs Hh Ht. unfold evidence_of. rewrite Hc, Hs, Hh, bool_decide_eq_true_2 by done. done. Qed.

(** Reading the clock leaves everything but the environment. *)
Ltac ran_now := repeat match goal with H : now _ = (Val _, _) |- _ => unfold now, ask in H; injection H as <- <- end;
  cbn [c_registry set_world] in *.

Lemma runs_on_contract_consent c id frame :
  fh_type (fr_header frame) = MessageType_ContractConsent ->
  runs (refines (evidence_of c id frame)) c (on_contract_consent id frame).
Proof.
  intros Htype. unfold on_contract_consent. apply (runs_with_message _). intros m rest Hdec.
  apply (runs_with_session _). intros s Hs Hh Ht. rewrite (evidence_of_session c id frame (cc_session m) [] s) by
    (done || unfold claims; by rewrite Htype, Hdec).
  walk. bool_prop. apply runs_modify, refines_step. intros _.
  ran_now. eapply (tr_consent _ _ (mkEvidence s [])); try done; eassumption.
Qed.

Lemma runs_acknowledgement who c id s grant_id attempt_id handle :
  (forall g ct side, find_grant (c_registry c) grant_id = Some g -> find_contract (c_registry c) (gr_contract g) = Some ct ->
     contract_side_of ct (ss_cluster s) = Some side -> attempt_id = gr_attempt g -> bound_to s side g ->
     runs (refines who) c (handle g side)) ->
  runs (refines who) c (acknowledgement id s grant_id attempt_id handle).
Proof.
  intros H. unfold acknowledgement. walk. apply negb_false_iff, bool_decide_eq_true in Heqb0.
  apply orb_false_iff in Heqb1 as [H1%negb_false_iff%bool_decide_eq_true H2%negb_false_iff%Z.eqb_eq].
  by eapply H.
Qed.

Lemma runs_enforcement who c id side digest : runs (refines who) c (update_grant id (set_gr_enforcement side digest)).
Proof. apply runs_modify, refines_step. intros _. apply tr_enforcement. Qed.
#[export] Hint Resolve runs_enforcement : runs.

Lemma runs_on_grant_prepared who c id frame : runs (refines who) c (on_grant_prepared id frame).
Proof.
  unfold on_grant_prepared. apply (runs_with_message _). intros m rest _. apply (runs_with_session _). intros s _ _ _.
  apply runs_acknowledgement. intros. walk.
Qed.

Lemma runs_acknowledge c id s installed g ct side digest :
  find_grant (c_registry c) id = Some g -> find_contract (c_registry c) (gr_contract g) = Some ct ->
  contract_side_of ct (ss_cluster s) = Some side -> bound_to s side g ->
  (gr_id g = id -> (gr_id g, gr_attempt g) ∈ installed) ->
  runs (refines (Some (mkEvidence s installed))) c (update_grant id (acknowledge side digest)).
Proof.
  intros Hg Hct Hside Hb Hin. apply runs_modify, refines_step. intros [[] _ _].
  eapply (tr_acknowledge _ _ (mkEvidence s installed)); [done|eassumption..|]. apply Hin. by destruct (map_ok_lookup _ _ _ _ _ _ ok_grants Hg).
Qed.

Lemma runs_on_grant_committed c id frame :
  fh_type (fr_header frame) = MessageType_GrantCommitted ->
  runs (refines (evidence_of c id frame)) c (on_grant_committed id frame).
Proof.
  intros Htype. unfold on_grant_committed. apply (runs_with_message _). intros m rest Hdec.
  apply (runs_with_session _). intros s Hs Hh Ht.
  rewrite (evidence_of_session c id frame (gc_session m) (if gc_installed m then [(gc_grant m, gc_attempt m)] else []) s)
    by (done || unfold claims; by rewrite Htype, Hdec).
  apply runs_acknowledgement. intros g ct side Hg Hct Hside Hatt Hb. destruct (gc_installed m); cbn [negb]; walk.
  eapply runs_acknowledge; [eassumption..|]. intros ->. rewrite <- Hatt. by left.
Qed.

Lemma runs_on_grant_aborted who c id frame : runs (refines who) c (on_grant_aborted id frame).
Proof.
  unfold on_grant_aborted. apply (runs_with_message _). intros m rest _. apply (runs_with_session _). intros s _ _ _. walk.
Qed.

Lemma runs_on_fence_ack who c id frame : runs (refines who) c (on_fence_ack id frame).
Proof.
  unfold on_fence_ack. apply (runs_with_message _). intros m rest _. apply (runs_with_session _). intros s _ _ _. walk.
Qed.

Lemma runs_on_withdraw who c id frame : runs (refines who) c (on_withdraw id frame).
Proof.
  unfold on_withdraw. apply (runs_with_message _). intros m rest _. apply (runs_with_session _). intros s _ _ _. walk.
Qed.

(** ** STATUS_REPORT *)
Lemma runs_report_grant m s to_fence key c :
  runs (refines (Some (mkEvidence s ((fun e => (gs_grant e, gs_attempt e)) <$>
    filter (fun e => installed_state (gs_state e) = true) (sp_grants m))))) c (report_grant m s to_fence key).
Proof.
  unfold report_grant. walk.
  destruct (find_contract _ _) as [ct|] eqn:Hct; [|done]. cbn in Heqo0.
  destruct (list_find _ (sp_grants m)) as [[i e]|] eqn:Hl; [|done]. cbn in Heqb1.
  apply andb_true_iff in Heqb1 as [Ha%bool_decide_eq_true Hi].
  apply orb_false_iff in Heqb2 as [H1%negb_false_iff%bool_decide_eq_true H2%negb_false_iff%Z.eqb_eq].
  eapply runs_acknowledge; [eassumption..|by split|]. intros _. apply list_find_Some in Hl as (Hl & Hid & _).
  apply list_elem_of_fmap. exists e. split; [by rewrite Hid, Ha|]. apply list_elem_of_filter. split; [done|].
  by eapply list_elem_of_lookup_2.
Qed.

Lemma runs_on_status_report c id frame :
  fh_type (fr_header frame) = MessageType_StatusReport ->
  runs (refines (evidence_of c id frame)) c (on_status_report id frame).
Proof.
  intros Htype. unfold on_status_report. apply (runs_with_message _). intros m rest Hdec.
  apply (runs_with_session _). intros s Hs Hh Ht.
  erewrite (evidence_of_session c id frame (sp_session m)) by (done || unfold claims; by rewrite Htype, Hdec).
  walk. apply runs_report_grant.
Qed.

(** ** Disconnection and housekeeping *)
Lemma runs_interrupt_grant who c cluster key : runs (refines who) c (interrupt_grant cluster key).
Proof. unfold interrupt_grant. walk. Qed.
#[export] Hint Resolve runs_interrupt_grant : runs.

Lemma runs_handle_disconnect who c id reason : runs (refines who) c (handle_disconnect id reason).
Proof. unfold handle_disconnect. walk. Qed.

Lemma runs_expire_grants who c : runs (refines who) c expire_grants.
Proof. unfold expire_grants. walk. apply runs_settle. by intros ?. Qed.

Lemma runs_resend_prepare who c p : runs (refines who) c (resend_prepare p).
Proof. unfold resend_prepare. walk. Qed.

Lemma runs_retry_pending_flows who c : runs (refines who) c retry_pending_flows.
Proof. unfold retry_pending_flows. walk. apply runs_resend_prepare. Qed.
#[export] Hint Resolve runs_expire_grants runs_retry_pending_flows : runs.

Lemma runs_tick who c : runs (refines who) c tick.
Proof. unfold tick, tick_at. walk. Qed.

Lemma runs_on_ping who c id frame : runs (refines who) c (on_ping id frame).
Proof. unfold on_ping. apply (runs_with_message _). intros. walk. Qed.

(** ** Queries and administration *)
Lemma runs_handle_query who c q : runs (refines who) c (handle_query q).
Proof. unfold handle_query, status. walk. Qed.
#[export] Hint Resolve runs_handle_query : runs.

Lemma runs_on_query who c id frame : runs (refines who) c (on_query id frame).
Proof. unfold on_query. apply (runs_with_message _). intros. walk. Qed.

Lemma runs_admin_try {A} who c (m : M A) result k :
  runs (refines who) c m -> (forall a c', m c = (Val a, c') -> runs (refines who) c' (k a)) ->
  runs (refines who) c (admin_try m result k).
Proof.
  intros Hm Hk. unfold admin_try. apply (runs_bind _); [by apply (runs_attempt _)|]. intros [e|a] c' H; [apply (runs_ret _)|].
  unfold attempt in H. destruct (m c) as [[a'|e|] c''] eqn:E; simplify_eq. by eapply Hk.
Qed.

Lemma runs_admin_fail who c result o s : runs (refines who) c (admin_fail result o s).
Proof. apply (runs_ret _). Qed.
Lemma runs_admin_return who c result o s : runs (refines who) c (admin_return result o s).
Proof. apply (runs_ret _). Qed.
#[export] Hint Resolve runs_admin_fail runs_admin_return : runs.
Ltac walk_admin := repeat first [solve [eauto with runs] | walk_step | apply runs_admin_try; [|intros ? ? ?]].

Lemma runs_admin_finish who c result action :
  runs (refines who) c action -> runs (refines who) c (admin_finish result action).
Proof. intros H. unfold admin_finish. walk. Qed.

Lemma runs_propose_to_agents who c contract : runs (refines who) c (propose_contract_to_agents contract).
Proof. unfold propose_contract_to_agents, propose_side. walk. Qed.
#[export] Hint Resolve runs_propose_to_agents : runs.

Lemma runs_apply_contract_proposal c request result :
  0 <= am_capacity request -> runs (refines None) c (apply_contract_proposal request result).
Proof.
  intros Hc. unfold apply_contract_proposal. walk_admin.
  apply (runs_put _). intros r' Hput. apply refines_step. intros _. eapply tr_propose; [done|exact Hput|done|done|].
  cbn. by destruct (am_capacity request =? 0).
Qed.

Lemma put_accepted c f a c' : put f c = (Val a, c') -> exists r', f (c_registry c) = Val r'.
Proof. unfold put, in_registry, st_try. cbn. destruct (f (c_registry c)); [eauto|done..]. Qed.

Lemma runs_apply_grant_issue c request result :
  0 <= am_capacity request -> runs (refines None) c (apply_grant_issue request result).
Proof.
  intros Hc. apply runs_assume. intros [_ _ [_ Hct]].
  assert (Hcap : forall ct, find_contract (c_registry c) (am_contract request) = Some ct ->
    0 <= (if am_capacity request =? 0 then ct_capacity ct else am_capacity request)).
  { intros ct Hf. specialize (Hct _ _ Hf). by destruct (am_capacity request =? 0). }
  unfold apply_grant_issue. apply runs_gets_bind. destruct (find_contract _ _) as [ct|] eqn:Hf; [|walk].
  specialize (Hcap _ eq_refl). walk_admin.
  - apply (runs_put _). intros r' Hput. apply refines_step. intros _. by eapply tr_put_grant.
  - match goal with H : put (put_grant _) _ = _ |- _ => apply put_accepted in H as [r' H]; apply put_grant_Val in H as [_ Hok] end.
    apply runs_prepare_grant; [done..|]. intros. walk.
Qed.

Lemma alter_const {V} (m : gmap string V) f k v : m !! k = Some v -> alter f k m = alter (fun _ => f v) k m.
Proof. intros Hk. apply alter_ext. by intros ? [= ->]%(eq_trans (eq_sym Hk)). Qed.

Lemma runs_trans {A} c c' (m : M A) : refines None c c' -> runs (refines None) c' m -> refines None c (m c').2.
Proof. intros H Hm. etransitivity; [exact H|exact Hm]. Qed.

Lemma runs_apply_grant_revalidation c request result :
  runs (refines None) c (apply_grant_revalidation request result).
Proof.
  apply runs_assume. intros [[] _ [Hg _]]. unfold apply_grant_revalidation.
  apply runs_gets_bind. destruct (find_grant _ _) as [g|] eqn:Hf; [|walk]. walk_step; [walk|].
  destruct (map_ok_lookup _ _ _ _ _ _ ok_grants Hf) as [Hid Hok]. destruct (Hg _ _ Hf) as [_ Hcap].
  apply (runs_bind _); [walk|]. intros attempt_id c1 H1. do 2 (apply runs_gets_bind; cbn beta).
  apply (runs_bind _); [walk|]. intros at_time c2 H2.
  assert (Hr : c_registry c2 = c_registry c).
  { unfold random_uuid, now, ask in *. by simplify_eq. }
  set (term := c_term c1). set (incarnation := c_incarnation c1).
  set (stamped := restamp_grant attempt_id incarnation term at_time g).
  unfold runs, update_grant, on_tables, modify, gets, mbind, ST_bind. cbn [host_registry host_set_registry coordinator_host c_registry set_registry].
  change (find_contract (with_grants _ _) (gr_contract g)) with (rg_contracts (c_registry c2) !! gr_contract g).
  destruct (rg_contracts (c_registry c2) !! gr_contract g) as [ct|] eqn:Hct; cbv beta iota zeta.
  - apply runs_trans.
    + cbn. rewrite alter_alter_eq. rewrite (alter_const _ (restart_grant _ ∘ _) _ g) by (by rewrite Hr).
      apply (refines_step None c2). intros _.
      by apply (tr_rewrite_grant None (c_registry c2) (am_grant request)
        (restart_grant (timestamp_plus at_time (ct_lease_duration ct)) stamped)).
    + apply runs_admin_try; [|intros; walk]. apply runs_prepare_grant; [done..|]. intros g' c' Hfresh Hok' Hid'.
      apply runs_modify, refines_step. intros _. apply tr_rewrite_grant; [done..|]. by rewrite Hid'.
  - apply (refines_step None c2). intros _. eapply tr_restamp; [done|by rewrite Hr|done].
Qed.

Lemma runs_apply_consent_change who c request result withdraw :
  runs (refines who) c (apply_consent_change request result withdraw).
Proof. unfold apply_consent_change. walk_admin. Qed.

Lemma runs_apply_conflict_resolution who c request result :
  runs (refines who) c (apply_conflict_resolution request result).
Proof. unfold apply_conflict_resolution. walk_admin. Qed.
#[export] Hint Resolve runs_apply_contract_proposal runs_apply_grant_issue runs_apply_grant_revalidation
  runs_apply_consent_change runs_apply_conflict_resolution : runs.

(** A [put] or an erasure that is a transition by itself. *)
Lemma runs_put_step who c f :
  (forall r', f (c_registry c) = Val r' -> transition who (c_registry c) r') -> runs (refines who) c (put f).
Proof. intros H. apply (runs_put _). intros r' Hput. apply refines_step. intros _. by apply H. Qed.

Lemma runs_update_link c id state at_time : runs (refines None) c (update_link id (set_lk_state state at_time)).
Proof. apply runs_modify, refines_step. intros _. by apply tr_link. Qed.
#[export] Hint Resolve runs_update_link : runs.
#[export] Hint Extern 1 (runs _ _ (put (put_link _))) => apply runs_put_step; intros; by eapply tr_put_link : runs.
#[export] Hint Extern 1 (runs _ _ (put (put_path _))) => apply runs_put_step; intros; by eapply tr_put_path : runs.
#[export] Hint Extern 1 (runs _ _ (put (put_policy _))) => apply runs_put_step; intros; by eapply tr_put_policy : runs.
#[export] Hint Extern 1 (runs _ _ (put (erase_cluster _))) => apply runs_put_step; intros; by eapply tr_erase_cluster : runs.
#[export] Hint Extern 1 (runs _ _ (put (erase_link _))) => apply runs_put_step; intros; by eapply tr_erase_link : runs.
#[export] Hint Extern 1 (runs _ _ (put (erase_path _))) => apply runs_put_step; intros; by eapply tr_erase_path : runs.
#[export] Hint Extern 1 (runs _ _ (put (erase_policy _))) => apply runs_put_step; intros; by eapply tr_erase_policy : runs.

Lemma runs_upsert_cluster who c given : cluster_wf given -> runs (refines who) c (upsert_cluster given).
Proof. intros Hwf. unfold upsert_cluster. walk. apply runs_put_cluster. by apply wf_reserved in Hwf. Qed.
#[export] Hint Resolve runs_upsert_cluster : runs.

Lemma runs_handle_admin c request : admin_wf request -> runs (refines None) c (handle_admin request).
Proof.
  intros (_ & Hcl & _ & _ & _ & _ & _ & _ & _ & _ & _ & _ & _ & _ & [Hcap _] & _).
  unfold handle_admin, delete_cluster, set_cluster_state, upsert_link, set_link_state, delete_link, upsert_path, delete_path,
    upsert_policy, delete_policy, fence_one_grant, recompute.
  destruct (am_action request); walk; try (apply runs_admin_finish); walk.
Qed.

Lemma runs_on_admin c id frame : runs (refines None) c (on_admin id frame).
Proof.
  unfold on_admin. apply (runs_with_message _). intros request rest Hdec. apply whole_sound in Hdec as [Hwf _].
  walk. by apply runs_handle_admin.
Qed.

(** ** Dispatch *)
#[export] Hint Resolve runs_on_hello runs_on_report_cluster runs_on_grant_prepared runs_on_grant_aborted runs_on_fence_ack
  runs_on_withdraw runs_on_query runs_on_admin runs_on_ping : runs.

(** An administrative frame is no evidence of an agent. *)
Lemma evidence_of_admin c id frame : fh_type (fr_header frame) = MessageType_Admin -> evidence_of c id frame = None.
Proof. intros Htype. unfold evidence_of, claims. by rewrite Htype. Qed.

Lemma runs_handle_message c id frame : runs (refines (evidence_of c id frame)) c (handle_message id frame).
Proof.
  unfold handle_message.
  destruct (fh_type (fr_header frame)) eqn:Htype; rewrite 1?evidence_of_admin by done;
    eauto using runs_on_contract_consent, runs_on_grant_committed, runs_on_status_report with runs; walk.
Qed.
