(* ===== verification/Reachability.v ===== *)
(** * The reachable states of a coordinator

    [reachable]: what the coordinator's state can be after a successful start on whatever files, followed
    by whatever frames, disconnections and ticks. The invariants of the protocol hold in all of them. *)
From S2P Require Import Prelude Status Utf8 Bytes Ids Types Registry Hash Time Canonical Terms Policy Decision Engine.
From S2P Require Import Fencing Mutation Files Wal Snapshot DurableStore Recovery Frame Messages Connection Effects Coordinator Handlers Admin.
From S2P Require Import Protocol Logic CoordinatorLogic Refinement.

(** ** Starting *)
(** The registry is touched in its audit trail only. *)
Definition audited (r r' : Registry) : Prop := same_but_audit r' r /\ (audit_ok (rg_audit r) -> audit_ok (rg_audit r')).
#[export] Instance audited_preorder : PreOrder audited.
Proof.
  split; [done|]. intros r1 r2 r3 [H1 H2] [H3 H4]. split; [by etransitivity|auto].
Qed.

Lemma runs_audit_audited c actor action subject o detail :
  runs (on_registry audited) c (coordinator_append_audit actor action subject o detail).
Proof.
  unfold coordinator_append_audit. walk. apply runs_in_registry. split; cbn.
  - destruct (append_audit_effect a actor action subject o detail (c_registry c0)) as (l & -> & _). apply with_audit_same.
  - apply append_audit_keeps_ok.
Qed.

Lemma state_ok_audited r r' : audited r r' -> state_ok r -> state_ok r'.
Proof.
  intros [Hs Ha] Hr. pose proof Hr as [Hok _ _]. pose proof (same_but_audit_fields _ _ Hs) as (H1 & _ & _ & _ & H5 & H6 & H7).
  apply (state_ok_other r); [done| |done..]. eapply registry_ok_same; [exact Hs|done|]. by apply Ha, ok_audit.
Qed.

(** No grant is usable and no capacity is held. *)
Definition nothing_usable (r : Registry) : Prop :=
  map_Forall (fun _ g => usable_state g = false) (rg_grants r) /\
  map_Forall (fun _ s => rs_released s = true) (rg_reservations r).

(** Fencing what was recovered leaves no usable grant, and so establishes the invariant. *)
Lemma recovered_state_ok at_time actor prev term r o r' :
  stored_ok r -> fence_recovered_state at_time actor prev term r = (Val o, r') -> state_ok r' /\ nothing_usable r'.
Proof.
  intros (Hok & Hu & Hg & Hc) H. pose proof (recovery_grants _ _ _ _ _ _ _ Hok H) as [Hn Hrel].
  unfold fence_recovered_state, apply_fence_plan in H. set (plan := recovery_plan prev term r) in *.
  pose proof (apply_actions_ok plan at_time actor (fp_actions plan) outcome_zero r Hok Hu) as [Hok' Hu'].
  pose proof (apply_actions_keeps (fun _ g => 0 <= gr_capacity g) (fun _ ct => 0 <= ct_capacity ct) plan at_time actor
    (fun _ _ H => H) (fun _ _ H => H) (fp_actions plan) outcome_zero r (conj Hg Hc)) as [Hg' Hc'].
  rewrite H in *. cbn [snd] in *. split; [|done]. split; [done..|]. split; [|done].
  intros k g Hk. split; [|by apply (Hg' k)]. rewrite (Hn k g Hk). done.
Qed.

(** A run that returns a value, seen as a run. *)
Lemma registry_of {A} (P : Registry -> Registry -> Prop) c (m : M A) a c' :
  runs (on_registry P) c m -> m c = (Val a, c') -> P (c_registry c) (c_registry c').
Proof. intros Hm H. exact (runs_result (on_registry P) c m (Val a) c' Hm H). Qed.

Lemma begin_incarnation_ok c c' :
  stored_ok (c_registry c) -> (rc_recovered_from_store (c_recovery c) = false -> c_registry c = empty_registry) ->
  begin_incarnation c = (Val tt, c') -> state_ok (c_registry c') /\ nothing_usable (c_registry c').
Proof.
  intros Hst Hnew H. unfold begin_incarnation in H.
  apply bind_inv in H as (rc & c1 & [= <- <-] & H). cbv zeta in H.
  apply bind_inv in H as (incarnation & c2 & H2 & H). apply bind_inv in H as (at_time & c3 & H3 & H).
  apply bind_inv in H as ([] & c4 & [= <-] & H). apply bind_inv in H as (io & c5 & H5 & H).
  apply bind_inv in H as (meta & c6 & [= <- <-] & H). apply bind_inv in H as (seq & c7 & H7 & H).
  assert (Hr : c_registry c7 = c_registry c).
  { apply (registry_of registry_eq) in H7; [|walk]. apply (registry_of registry_eq) in H5; [|walk].
    apply (registry_of registry_eq) in H3; [|walk]. apply (registry_of registry_eq) in H2; [|walk].
    unfold registry_eq in *. cbn [c_registry set_identity] in H5. congruence. }
  apply bind_inv in H as ([] & c8 & H8 & H).
  apply (registry_of audited) in H; [|apply runs_audit_audited].
  assert (Hs : state_ok (c_registry c8) /\ nothing_usable (c_registry c8)); [clear H|].
  2: { split; [eapply state_ok_audited; [exact H|apply Hs]|]. destruct H as [(_ & _ & _ & _ & _ & Hg & Hrs)%same_but_audit_fields _].
       destruct Hs as [_ Hs]. unfold nothing_usable in *. by rewrite Hg, Hrs. }
  destruct (rc_recovered_from_store (c_recovery c)); cbn [negb] in H8.
  - apply bind_inv in H8 as (fenced & c9 & H9 & H).
    apply (registry_of registry_eq) in H; [|walk]. rewrite H. unfold in_registry in H9. cbn [host_registry host_set_registry coordinator_host] in H9.
    destruct (fence_recovered_state _ _ _ _ (c_registry c7)) as [res reg] eqn:Hf. injection H9 as -> <-.
    eapply recovered_state_ok; [|exact Hf]. by rewrite Hr.
  - injection H8 as <-. rewrite Hr, Hnew by done. split; [|split; apply map_Forall_empty].
    split; [apply empty_registry_ok|apply stored_ok_empty|split; apply map_Forall_empty].
Qed.

(** ** Reachable states *)
(** What an event loop does: a frame is handled, a peer disconnects, the timer fires, the network changes the
    connections (it accepts, flushes and closes them), or the environment moves on (the clock is read). *)
Inductive step : Coordinator -> Coordinator -> Prop :=
| step_message id frame c : step c (handle_message id frame c).2
| step_disconnect id reason c : step c (handle_disconnect id reason c).2
| step_tick c : step c (tick c).2
| step_network c m : step c (set_connections c m)
| step_world c w : step c (set_world c w).

Inductive reachable : Coordinator -> Prop :=
| reach_start io config w d c d' : start io config w d = (Val c, d') -> reachable c
| reach_step c c' : reachable c -> step c c' -> reachable c'.

Lemma start_ok io config w d c d' :
  start io config w d = (Val c, d') -> state_ok (c_registry c) /\ nothing_usable (c_registry c).
Proof.
  intros H. unfold start in H. case_bool_decide; [done|]. case_bool_decide; [done|].
  unfold load_state in H. destruct (store_open _ _ _) as [[ds|e|] [rc d1]] eqn:Ho; [|done..].
  apply store_open_stored in Ho as [Hst Hnew]. set (c0 := mkCoordinator _ _ _ _ _ _ _ _ _ _ _ _ _ _) in H.
  destruct ((begin_incarnation ≫= fun _ => compact_if_needed) c0) as [[u|e|] c1] eqn:Hb; [|done..]. injection H as <- <-.
  apply bind_inv in Hb as ([] & c2 & Hb & Hc). apply (registry_of registry_eq) in Hc; [|walk]. rewrite Hc.
  by apply (begin_incarnation_ok c0 c2).
Qed.

(** Starting does not change the recovery report, and sets the term once. *)
Definition same_identity (c c' : Coordinator) : Prop :=
  c_term c' = c_term c /\ c_incarnation c' = c_incarnation c /\ c_recovery c' = c_recovery c.
#[export] Instance same_identity_frame : IoFrame same_identity.
Proof.
  assert (HostFrame same_identity) by (split; [split; [done|]; unfold same_identity; intros c1 c2 c3; intuition congruence|done..]).
  by split.
Qed.

Lemma runs_identity_in_registry {A} c (f : ST Registry A) : runs same_identity c (in_registry f).
Proof. by apply runs_in_registry. Qed.
#[export] Hint Resolve runs_identity_in_registry : runs.

Definition next_term (term : Z) : Z := if term =? u64_max then u64_max else term + 1.

Lemma begin_incarnation_term c c' :
  begin_incarnation c = (Val tt, c') ->
  c_term c' = next_term (me_term (rc_meta (c_recovery c'))) /\ c_recovery c' = c_recovery c.
Proof.
  intros H. unfold begin_incarnation in H. apply bind_inv in H as (rc & c1 & [= <- <-] & H). cbv zeta in H.
  apply bind_inv in H as (incarnation & c2 & H2 & H). apply bind_inv in H as (at_time & c3 & H3 & H).
  apply bind_inv in H as ([] & c4 & [= <-] & H).
  apply (runs_result same_identity) in H as (Ht & _ & Hrc); [|unfold coordinator_append_audit; walk].
  apply (runs_result same_identity) in H3 as (_ & _ & Hrc3); [|walk].
  apply (runs_result same_identity) in H2 as (_ & _ & Hrc2); [|walk].
  cbn [c_term c_recovery set_identity] in *. assert (Hc : c_recovery c' = c_recovery c) by congruence.
  split; [|done]. rewrite Ht, Hc. unfold next_term, counter_next, counter_increment. by destruct (_ =? u64_max).
Qed.

Lemma start_term io config w d c d' :
  start io config w d = (Val c, d') -> c_term c = next_term (me_term (rc_meta (c_recovery c))).
Proof.
  intros H. unfold start in H. case_bool_decide; [done|]. case_bool_decide; [done|].
  unfold load_state in H. destruct (store_open _ _ _) as [[ds|e|] [rc d1]] eqn:Ho; [|done..].
  destruct ((begin_incarnation ≫= fun _ => compact_if_needed) _) as [[u|e|] c1] eqn:Hb; [|done..]. injection H as <- <-.
  apply bind_inv in Hb as ([] & c2 & Hb & Hc). apply begin_incarnation_term in Hb as [Hb _].
  apply (runs_result same_identity) in Hc as (Ht & _ & Hrc); [|walk]. by rewrite Ht, Hrc.
Qed.

Lemma step_ok c c' : step c c' -> state_ok (c_registry c) -> state_ok (c_registry c').
Proof.
  intros [id frame c0|id reason c0|c0|c0 m|c0 w] Hr; [..|done|done].
  - eapply transitions_ok; [|exact Hr]. by apply (runs_handle_message c0 id frame).
  - eapply transitions_ok; [|exact Hr]. by apply (runs_handle_disconnect None c0 id reason).
  - eapply transitions_ok; [|exact Hr]. by apply (runs_tick None c0).
Qed.

Lemma reachable_ok c : reachable c -> state_ok (c_registry c).
Proof. induction 1; [by eapply start_ok|by eapply step_ok]. Qed.
