(* ===== verification/Guarantees.v ===== *)
(** * What the coordinator guarantees

    The properties of the coordinator as a whole, over its reachable states. *)
From S2P Require Import Prelude Status Utf8 Bytes Ids Types Registry Hash Time Canonical Terms Policy Decision Engine.
From S2P Require Import Fencing Mutation Files Wal Snapshot DurableStore Recovery Frame Messages Connection Effects Coordinator Handlers Admin.
From S2P Require Import Protocol Logic CoordinatorLogic Refinement Reachability.

(** ** Sessions *)
(** The session token a frame of the agent protocol carries. *)
Definition frame_token (frame : Frame) : option string :=
  let token {A} (dec : Parser A) (f : A -> string) :=
    match dec (fr_payload frame) with Val (m, _) => Some (f m) | _ => None end in
  match fh_type (fr_header frame) with
  | MessageType_ReportCluster => token decode_report_cluster rc_session
  | MessageType_ContractConsent => token decode_contract_consent cc_session
  | MessageType_GrantPrepared => token decode_grant_prepared gp_session
  | MessageType_GrantCommitted => token decode_grant_committed gc_session
  | MessageType_GrantAborted => token decode_grant_aborted ga_session
  | MessageType_FenceAck => token decode_fence_ack fk_session
  | MessageType_Withdraw => token decode_withdraw wd_session
  | MessageType_StatusReport => token decode_status_report sp_session
  | _ => None
  end.

Definition agent_frame (frame : Frame) : bool :=
  match fh_type (fr_header frame) with
  | MessageType_ReportCluster | MessageType_ContractConsent | MessageType_GrantPrepared | MessageType_GrantCommitted
  | MessageType_GrantAborted | MessageType_FenceAck | MessageType_Withdraw | MessageType_StatusReport => true
  | _ => false
  end.

(** The connection has completed a handshake and the frame carries the token it was given. *)
Definition session_valid (c : Coordinator) (id : Z) (frame : Frame) : bool :=
  match session_for c id, frame_token frame with
  | Some s, Some token => ss_hello_complete s && bool_decide (ss_token s = token)
  | _, _ => false
  end.

(** Nothing but connections, counters and the environment changed. *)
Definition quiet (c c' : Coordinator) : Prop :=
  c_registry c' = c_registry c /\ c_store c' = c_store c /\ c_disk c' = c_disk c /\ c_sessions c' = c_sessions c /\
  c_pending c' = c_pending c /\ c_term c' = c_term c /\ c_incarnation c' = c_incarnation c.

#[export] Instance quiet_frame : QuietFrame quiet.
Proof.
  split; [|done]. split; [split; [by repeat split|]; unfold quiet; intros c1 c2 c3; intuition congruence|done..].
Qed.

(** C11. A frame of the agent protocol that does not carry the token of a completed handshake on its own
    connection, or that does not decode, is answered and counted but changes nothing else: neither the
    registry, nor the files, nor the sessions, nor the grant flows. *)
Theorem session_guard c id frame :
  agent_frame frame = true -> session_valid c id frame = false -> quiet c (handle_message id frame c).2.
Proof.
  intros Hagent Hvalid. change (runs quiet c (handle_message id frame)). unfold handle_message, agent_frame in *.
  destruct (fh_type (fr_header frame)) eqn:Htype; try discriminate Hagent;
    cbv delta [on_report_cluster on_contract_consent on_grant_prepared on_grant_committed on_grant_aborted on_fence_ack
      on_withdraw on_status_report]; cbn beta;
    (apply (runs_with_message _); intros m rest Hdec; apply (runs_with_session _); intros s Hs Hh Ht; exfalso;
     unfold session_valid, frame_token in Hvalid; rewrite Htype, Hdec, Hs, Hh, Ht, bool_decide_eq_true_2 in Hvalid; done).
Qed.

(** ** The protocol *)
(** C2. The coordinator implements the authority protocol: in every reachable state, whatever frame arrives,
    whatever peer disconnects and whenever the timer fires, and whatever the store and the network
    answer, the registry changes only by transitions of the protocol, those that need an agent under the evidence of the
    session that sent the frame. *)
Theorem coordinator_refines_protocol c :
  reachable c ->
  (forall id frame, rtc (transition (evidence_of c id frame)) (c_registry c) (c_registry (handle_message id frame c).2)) /\
  (forall id reason, rtc (transition None) (c_registry c) (c_registry (handle_disconnect id reason c).2)) /\
  rtc (transition None) (c_registry c) (c_registry (tick c).2).
Proof.
  intros Hr%reachable_ok. split_and!.
  - intros id frame. by apply (runs_handle_message c id frame).
  - intros id reason. by apply (runs_handle_disconnect None c id reason).
  - by apply (runs_tick None c).
Qed.

(** C6. In every reachable state the registry is well formed: records under their identities and within
    their bounds, every endpoint with [0 <= reserved <= capacity], the audit trail contiguous; and a grant is
    usable only when both cluster agents have acknowledged it. *)
Theorem reachable_state_ok c :
  reachable c ->
  registry_ok (c_registry c) /\
  (forall k cl e, rg_clusters (c_registry c) !! k = Some cl -> e ∈ cl_endpoints cl -> 0 <= ep_reserved e <= ep_capacity e) /\
  (forall k g, rg_grants (c_registry c) !! k = Some g -> usable_state g = true -> both_acknowledged g = true).
Proof.
  intros [Hok [Hu _] [Hg _]]%reachable_ok. split_and!; [done|..].
  - intros k cl e Hk He. destruct (map_ok_lookup _ _ _ _ _ _ (ok_clusters _ Hok) Hk) as [_ (_ & _ & _ & _ & Hf)].
    rewrite Forall_forall in Hf. specialize (Hu k cl Hk). cbn beta in Hu. rewrite Forall_forall in Hu.
    split; [by apply Hu|by apply Hf].
  - intros k g Hk. by apply (Hg k g Hk).
Qed.

(** C4. Authority comes from the agents: in a reachable state, an acknowledgement that a frame adds to a grant
    was presented, under the token of its handshake, by the agent of the cluster on that side of the grant's contract,
    in the incarnation and generation the grant is bound to, for the current attempt of that grant; and a consent it adds to a contract was
    given by the agent of that party, for the party's endpoint and exactly the contract's terms. *)
Theorem authority_is_authentic c id frame :
  reachable c ->
  let r' := c_registry (handle_message id frame c).2 in
  (forall k g' side, rg_grants r' !! k = Some g' -> at_side (gr_acknowledged g') side = true ->
     acknowledgement_origin (evidence_of c id frame) (c_registry c) k side) /\
  (forall k ct' side record, rg_contracts r' !! k = Some ct' -> at_side (ct_consents ct') side = Some record ->
     consent_origin (evidence_of c id frame) (c_registry c) k side record).
Proof.
  intros Hr%reachable_ok r'.
  destruct (transitions_authentic (evidence_of c id frame) (c_registry c) r') as [Ha Hc].
  { by apply (runs_handle_message c id frame). }
  split; [intros k g' side Hk; by apply (Ha k g' Hk)|intros k ct' side record Hk; by apply (Hc k ct' Hk)].
Qed.

(** C7. A coordinator starts without authority: whatever the files hold, once it has started no grant is usable,
    no capacity is held, no query is authorized under any view, and its term is above the recovered
    one (it saturates at the end of the 64-bit range). *)
Theorem start_authorizes_nothing io config w d c d' :
  start io config w d = (Val c, d') ->
  nothing_usable (c_registry c) /\
  (forall q v, authorized (decide (c_registry c) q v) = false) /\
  (me_term (rc_meta (c_recovery c)) < u64_max -> me_term (rc_meta (c_recovery c)) < c_term c).
Proof.
  intros H. pose proof (start_ok _ _ _ _ _ _ H) as [[Hok _ _] Hn]. split_and!; [done|..].
  - intros q v. apply fenced_not_authorized; [done|]. apply Hn.
  - intros Hlt. rewrite (start_term _ _ _ _ _ _ H). unfold next_term. case_match; lia.
Qed.
