(* ===== verification/Sample.v ===== *)
(** * A concrete fabric

    Two clusters joined by one link, a contract both sides consented to, a committed grant and the
    capacity it holds. It instantiates the theorems of the other files on a state where all their
    hypotheses hold, and it exhibits the behaviours recorded as findings. *)
From S2P Require Import Prelude Status Utf8 Bytes Ids Types Registry Hash Time Canonical Terms Policy Decision Engine Fencing.

Definition sample_uuid (n : Z) : string := bytes_str (repeat (byte_of 0) 15 ++ [byte_of n]).
Definition sample_digest (n : Z) : string := bytes_str (repeat (byte_of 0) 31 ++ [byte_of n]).
Definition sample_provenance : Provenance := provenance_derived 5.

Definition sample_endpoint (id cluster scope : string) (reserved : Z) : EndpointRecord :=
  mkEndpoint id cluster scope 100 reserved 1 EndpointState_Active true true sample_provenance.

Definition sample_cluster (id domain : string) (incarnation : Z) (e : EndpointRecord) : ClusterRecord :=
  mkCluster id domain (sample_uuid incarnation) 1 1 ClusterState_Active false 10 [e] zero_digest false None 1
    sample_provenance 0.

Definition cluster_a : ClusterRecord := sample_cluster "a" "dom-a" 1 (sample_endpoint "a1" "a" "svc/a" 50).
Definition cluster_b : ClusterRecord := sample_cluster "b" "dom-b" 2 (sample_endpoint "b1" "b" "svc/b" 0).

Definition sample_link : LinkRecord :=
  mkLink "l1" "a1" "b1" LinkKind_LoopbackTcp LinkState_Up 100 0 10 1 sample_provenance.
Definition sample_path : PathRecord :=
  mkPath "p1" "a1" "b1" ["l1"%string] 100 PathState_Up 1 sample_provenance false.

Definition sample_policy (id owner : string) : PolicyRule :=
  mkPolicy id owner "a" "b" "" "" 1 true true 10 1 sample_provenance.

Definition sample_consent (cluster endpoint : string) (incarnation : Z) : ConsentRecord :=
  mkConsent cluster endpoint (sample_uuid incarnation) 1 1 1 (sample_digest 7) ConsentDecision_Accepted 5
    (sample_uuid 40) TransportAuthenticity_SharedKeyMac "".

Definition sample_contract : ContractRecord :=
  mkContract (sample_uuid 10) (mkParty "a" "a1" "dom-a", mkParty "b" "b1" "dom-b") 50 1000 (sample_digest 7)
    ContractState_Active (Some (sample_consent "a" "a1" 1), Some (sample_consent "b" "b1" 2)) 5 5 1 sample_provenance.

Definition sample_grant : GrantRecord :=
  mkGrant (sample_uuid 20) (sample_uuid 10) (sample_digest 7) 3 (sample_uuid 99) (sample_uuid 21)
    (sample_uuid 1, sample_uuid 2) (1, 1) (1, 1) 50 5 1000 GrantState_Committed (true, true)
    (zero_digest, zero_digest) 0 "" 1 sample_provenance.

Definition sample_reservation : ReservationRecord :=
  mkReservation (sample_uuid 30) (sample_uuid 20) "a1" "a" 50 false 5 0 1 sample_provenance.

Definition sample_audit : AuditRecord := mkAudit 1 5 "icfd" "start" "coordinator" Outcome_Ok "".

Definition sample : Registry :=
  mkRegistry
    (<["a"%string := cluster_a]> (<["b"%string := cluster_b]> ∅))
    (<["l1"%string := sample_link]> ∅)
    (<["p1"%string := sample_path]> ∅)
    (<["ra"%string := sample_policy "ra" "dom-a"]> (<["rb"%string := sample_policy "rb" "dom-b"]> ∅))
    (<[sample_uuid 10 := sample_contract]> ∅)
    (<[sample_uuid 20 := sample_grant]> ∅)
    (<[sample_uuid 30 := sample_reservation]> ∅)
    [sample_audit].

Definition sample_query : DecisionQuery := mkQuery "a1" "b1" 50 100 false false 0 false 0.
Definition sample_view : EngineView := mkView 3 (sample_uuid 99) 100.

(** ** The sample is a legal registry *)
Ltac record_ok :=
  cbv [cluster_ok link_ok path_ok policy_ok contract_ok grant_ok reservation_ok];
  repeat match goal with |- _ /\ _ => split end;
  first [done | vm_compute; discriminate | repeat constructor; vm_compute; (reflexivity || discriminate)].

Lemma cluster_a_ok : cluster_ok cluster_a.
Proof. record_ok. Qed.
Lemma cluster_b_ok : cluster_ok cluster_b.
Proof. record_ok. Qed.

Lemma sample_ok : registry_ok sample.
Proof.
  split.
  - split; [|vm_compute; discriminate]. apply map_Forall_insert_2; [split; [done|apply cluster_a_ok]|].
    apply map_Forall_insert_2; [split; [done|apply cluster_b_ok]|]. apply map_Forall_empty.
  - split; [|vm_compute; discriminate]. apply map_Forall_insert_2; [split; [done|record_ok]|apply map_Forall_empty].
  - split; [|vm_compute; discriminate]. apply map_Forall_insert_2; [split; [done|record_ok]|apply map_Forall_empty].
  - split; [|vm_compute; discriminate]. apply map_Forall_insert_2; [split; [done|record_ok]|].
    apply map_Forall_insert_2; [split; [done|record_ok]|]. apply map_Forall_empty.
  - split; [|vm_compute; discriminate]. apply map_Forall_insert_2; [split; [done|record_ok]|apply map_Forall_empty].
  - split; [|vm_compute; discriminate]. apply map_Forall_insert_2; [split; [done|record_ok]|apply map_Forall_empty].
  - split; [|vm_compute; discriminate]. apply map_Forall_insert_2; [split; [done|record_ok]|apply map_Forall_empty].
  - split; [vm_compute; discriminate|]. by intros [|i] a b Ha Hb.
Qed.

Ltac record_wf :=
  repeat match goal with
  | |- _ /\ _ => split
  | |- Forall _ ?l => progress let l' := eval hnf in l in change l with l'
  | |- StronglySorted _ ?l => progress let l' := eval hnf in l in change l with l'
  | |- Forall _ [] => constructor
  | |- Forall _ (_ :: _) => constructor
  | |- wf_optional_id _ => first [left; vm_compute; reflexivity | right]
  | |- StronglySorted _ [_] => apply SSorted_cons; [constructor|constructor]
  | |- _ <= _ => vm_compute; discriminate
  | |- _ < _ => vm_compute; reflexivity
  | |- _ <> _ => vm_compute; discriminate
  | |- _ = _ => vm_compute; reflexivity
  | |- ?g => let h := fresh in assert (h : g); [hnf|exact h]
  end.

Lemma sample_wf : registry_wf sample.
Proof.
  split.
  - apply map_Forall_insert_2; [|apply map_Forall_insert_2; [|apply map_Forall_empty]]; record_wf.
  - apply map_Forall_insert_2; [|apply map_Forall_empty]; record_wf.
  - apply map_Forall_insert_2; [|apply map_Forall_empty]; record_wf.
  - apply map_Forall_insert_2; [|apply map_Forall_insert_2; [|apply map_Forall_empty]]; record_wf.
  - apply map_Forall_insert_2; [|apply map_Forall_empty]; record_wf.
  - apply map_Forall_insert_2; [|apply map_Forall_empty]; record_wf.
  - apply map_Forall_insert_2; [|apply map_Forall_empty]; record_wf.
  - repeat constructor; record_wf.
Qed.

Lemma sample_unsigned : unsigned_ok sample.
Proof.
  split; [apply map_Forall_insert_2; [|apply map_Forall_insert_2; [|apply map_Forall_empty]]; repeat constructor; discriminate|].
  apply map_Forall_insert_2; [discriminate|apply map_Forall_empty].
Qed.

(** ** Witnesses *)
Lemma recompute_path_states_spec_witness :
  exists p', rg_paths (recompute_path_states sample) !! "p1"%string = Some p' /\ pa_state p' = PathState_Up /\
    pa_bottleneck p' = 100.
Proof.
  destruct (recompute_path_states_spec sample "p1" sample_path sample_ok eq_refl) as (p' & Hp & _).
  exists p'. split; [exact Hp|]. vm_compute in Hp. injection Hp as <-. split; reflexivity.
Defined.

Lemma registry_roundtrip_witness :
  decode_registry (encode_registry sample true) = Val (sample, []) /\ zlen (encode_registry sample true) = 2070.
Proof. split; [exact (proj1 (registry_roundtrip sample sample_ok sample_wf))|vm_compute; reflexivity]. Defined.

Lemma registry_encoding_injective_witness : with_audit [] sample = with_audit [] sample.
Proof. exact (registry_encoding_injective sample sample sample_ok sample_wf sample_ok sample_wf eq_refl). Defined.

Lemma decide_sound_complete_witness :
  exists source target, connectivity sample sample_query sample_view source target /\
    path_between sample sample_query PathState_Up.
Proof.
  apply (proj1 (proj1 (decide_sound_complete sample sample_query sample_view sample_ok))). vm_compute. reflexivity.
Defined.

Definition sample_plan : FencePlan :=
  plan_fence sample FenceTrigger_ClusterReincarnation "a" (sample_uuid 3) (sample_uuid 1) 2 3.


Definition fenced_sample : Result FenceOutcome * Registry := apply_fence_plan sample_plan 200 "icfd" sample.

Lemma apply_fence_plan_idempotent_witness :
  exists n, apply_fence_plan sample_plan 300 "icfd" fenced_sample.2 = (Val (mkFenceOutcome 0 0 0 0 n), fenced_sample.2) /\
    0 <= n <= zlen (fp_actions sample_plan).
Proof.
  apply (apply_fence_plan_idempotent sample_plan 200 "icfd" sample (mkFenceOutcome 1 1 1 50 0) fenced_sample.2 300 "icfd" sample_ok).
  vm_compute. reflexivity.
Defined.


Definition recovered_sample : Result FenceOutcome * Registry :=
  fence_recovered_state 200 "icfd" (sample_uuid 98) 4 sample.

Lemma recovered_state_authorizes_nothing_witness :
  authorized (decide sample sample_query sample_view) = true /\
  authorized (decide recovered_sample.2 sample_query sample_view) = false.
Proof.
  split; [vm_compute; reflexivity|].
  apply (recovered_state_authorizes_nothing 200 "icfd" (sample_uuid 98) 4 sample (mkFenceOutcome 1 0 1 50 0)
    recovered_sample.2 sample_ok sample_unsigned). vm_compute. reflexivity.
Defined.

Lemma release_returns_capacity_witness :
  exists c' e', rg_clusters (release_reservation sample_reservation 200 outcome_zero sample).2 !! "a"%string = Some c' /\
    e' ∈ cl_endpoints c' /\ ep_reserved e' = 0.
Proof.
  pose proof (release_returns_capacity sample_reservation 200 outcome_zero sample sample_unsigned
    ltac:(discriminate) eq_refl) as H.
  cbn [release_reservation] in H. destruct H as (_ & H & _).
  destruct (H "a"%string cluster_a (sample_endpoint "a1" "a" "svc/a" 50)) as (c' & e' & Hc & He & _ & _ & Hr);
    [reflexivity|left|repeat constructor; by intros ?%not_elem_of_nil|].
  exists c', e'. split; [exact Hc|]. split; [exact He|]. rewrite Hr. vm_compute. reflexivity.
Defined.

Definition sample_terms : ContractTerms :=
  mkTerms (mkParty "a" "a1" "dom-a", mkParty "b" "b1" "dom-b") 50 1000 (sample_uuid 1, sample_uuid 2) (1, 1) (1, 1) 5.

Lemma sample_terms_wf : terms_wf sample_terms.
Proof. record_wf. Qed.

Lemma terms_encoding_binds_witness : decode_terms (encode_terms sample_terms) = Val (sample_terms, []).
Proof. exact (proj1 (terms_encoding_binds sample_terms sample_terms sample_terms_wf sample_terms_wf)). Defined.

(** ** Behaviours recorded as findings *)
(** The capacity limit of a policy rule is not enforced: both domains allow the pair up to 10
    units, the evaluation reports the limit, and the decision authorizes 50. *)
Theorem policy_capacity_not_enforced :
  pe_max_capacity (evaluate_policy cluster_a cluster_b "a1" "b1" sample) = 10 /\
  dq_requested_capacity sample_query = 50 /\ de_outcome (decide sample sample_query sample_view) = Outcome_Ok /\
  de_capacity (decide sample sample_query sample_view) = 50.
Proof. vm_compute. done. Qed.
