(* ===== verification/StoreSample.v ===== *)
(** * A concrete store

    One directory with one audit record appended to its log: the theorems of the store applied to it,
    and the behaviours of failed appends and interrupted compactions recorded as findings. *)
From S2P Require Import Prelude Status Utf8 Bytes Ids Types Registry Hash Canonical Mutation Files Wal.
From S2P Require Import Snapshot DurableStore Sample.

Definition store_options : Options := mkOptions "db" "state.snapshot" "state.wal" 4194304 8192 true.
Definition store_io : StoreIo := mkStoreIo (Val tt) read_ok (mkWalIo (sample_uuid 7) io_ok true true).

Lemma store_options_ok : options_ok store_options.
Proof. by vm_compute. Qed.
Lemma store_io_ok : open_io_ok store_io.
Proof. by vm_compute. Qed.

Definition store_mutation : Mutation := MAuditAppend sample_audit.
Definition store_state : Durable := mkDurable (with_audit [sample_audit] empty_registry) 0 nil_uuid.

(** The state of a store, for the runs below. *)
Definition closed_store : DurableStore := mkStore store_options (mkWal "" 0 0 true 0 0 0 false) 0 false.
Definition opened (x : Result DurableStore * (Recovery * Disk)) : DurableStore * Disk :=
  match x with (Val ds, (_, d)) => (ds, d) | (_, (_, d)) => (closed_store, d) end.

Definition fresh_store : DurableStore * Disk := opened (store_open store_io store_options (recovery_default, ∅)).
Definition appended_store : DurableStore * Disk := (store_append append_ok store_mutation 100 fresh_store).2.

Lemma appended_reachable : reachable store_options appended_store.1 appended_store.2 store_state.
Proof.
  apply (reach_append store_options append_ok store_mutation 100 fresh_store.1 fresh_store.2 durable_initial _ 1).
  - apply (reach_fresh store_options store_io ∅ _ (store_open store_io store_options (recovery_default, ∅)).2.1);
      [exact store_io_ok|vm_compute; reflexivity..].
  - vm_compute. reflexivity.
  - vm_compute. split_and!; try done; reflexivity.
  - by vm_compute.
  - by vm_compute.
  - vm_compute. reflexivity.
Qed.

(** ** The theorems at this store *)
Definition next_record : LogRecord := mkLogRecord RecordKind_Mutation 2 100 (encode_mutation store_mutation).

Lemma next_record_wf : log_wf next_record.
Proof. vm_compute. split_and!; done. Qed.


Definition collect (h : RecordHeader) (_ : bytes) : ST (list Z) unit := fun l => (Val tt, l ++ [rh_sequence h]).
Definition first_record_of_log : LogRecord := mkLogRecord RecordKind_Incident 1 100 (str_bytes "disk full").

Lemma first_record_wf : log_wf first_record_of_log.
Proof. vm_compute. split_and!; done. Qed.

Lemma wal_open_recovers_prefix_witness :
  exists w rec, wal_open (so_wal store_io) "log" 0 0 true collect
      ([], {[ "log"%string := log_file (sample_uuid 7) [first_record_of_log] ++ take 33 (encode_log next_record) ]}) =
      (Val (w, rec), ([1], <[ "log"%string := log_file (sample_uuid 7) [first_record_of_log] ]>
        {[ "log"%string := log_file (sample_uuid 7) [first_record_of_log] ++ take 33 (encode_log next_record) ]})) /\
    wr_truncated_tail rec = true.
Proof.
  destruct (wal_open_recovers_prefix (so_wal store_io) "log" 0 0 true collect (sample_uuid 7) [first_record_of_log]
    (take 33 (encode_log next_record)) [] [1]
    {[ "log"%string := log_file (sample_uuid 7) [first_record_of_log] ++ take 33 (encode_log next_record) ]})
    as (w & rec & H & _ & _ & Ht & _).
  - discriminate.
  - reflexivity.
  - reflexivity.
  - split; [reflexivity|]. split; [constructor; [exact first_record_wf|constructor]|repeat constructor].
  - right. exists next_record. split; [exact next_record_wf|]. split; [right; reflexivity|].
    apply torn. vm_compute. lia.
  - vm_compute. discriminate.
  - apply lookup_singleton_eq.
  - reflexivity.
  - exists w, rec. split; [exact H|]. apply Ht. vm_compute. discriminate.
Defined.

Definition store_meta : StoreMeta := mkMeta 3 (sample_uuid 99) 4 1 100 0 zero_digest.

Lemma sample_storable : storable sample.
Proof. split; [exact sample_ok|]. split; [exact sample_wf|]. vm_compute. discriminate. Qed.

Lemma snapshot_roundtrip_and_integrity_witness :
  exists data, encode_snapshot store_meta sample = Val data /\
    decode_snapshot data = Val (mkSnapshot (set_me_digest (registry_digest sample) store_meta) sample).
Proof.
  destruct (snapshot_roundtrip_and_integrity store_meta sample) as (data & He & Hd & _).
  - vm_compute. split_and!; done.
  - exact sample_storable.
  - exists data. exact (conj He Hd).
Defined.


(** ** Behaviours recorded as findings *)
Definition sync_fails : AppendIo := mkAppendIo true true true false 0.
Definition write_falls_short : AppendIo := mkAppendIo true false true true 10.
Definition create_fails : WriteIo := mkWriteIo false true true true true.

(** A failed append is not undone. (1) When the flush to stable storage fails after the record was
    written, the append is reported as failed and the next append reuses its sequence number: the store
    can then never be opened again. (2) When the write falls short, the torn bytes stay in the log and
    the next append is acknowledged, but recovery stops at the torn bytes and the acknowledged record
    is lost. *)
Theorem failed_append_breaks_recovery :
  (let failed := store_append sync_fails store_mutation 100 fresh_store in
   let next := store_append append_ok store_mutation 100 failed.2 in
   is_val failed.1 = false /\ next.1 = Val 1 /\
   (store_open store_io store_options (recovery_default, next.2.2)).1 =
     fail Outcome_Replayed "log sequence numbers are not strictly increasing") /\
  (let failed := store_append write_falls_short store_mutation 100 fresh_store in
   let next := store_append append_ok store_mutation 100 failed.2 in
   let reopened := store_open store_io store_options (recovery_default, next.2.2) in
   is_val failed.1 = false /\ next.1 = Val 1 /\ is_val reopened.1 = true /\
   rc_mutations_applied reopened.2.1 = 0 /\ rg_audit (rc_registry reopened.2.1) = []).
Proof. by vm_compute. Qed.

(** A compaction that stops between the snapshot and the fresh log leaves a store that cannot be
    opened: the sequence the snapshot covers is recorded but not used, the log is replayed on top of the
    snapshot, and its first audit record does not follow the snapshot's last one. *)
Theorem interrupted_compaction_breaks_recovery :
  let compacted := compact io_ok create_fails (sample_uuid 8) (du_registry store_state) meta_default 100 appended_store in
  is_val compacted.1 = false /\
  (store_open store_io store_options (recovery_default, compacted.2.2)).1 =
    fail Outcome_Invalid "audit sequence is not contiguous".
Proof. by vm_compute. Qed.
