(* ===== verification/FabricRun.v ===== *)
(** * A coordinator at work

    A coordinator started on an empty directory, driven by encoded frames: two agents register and
    report, an operator sets up the link, the path and the policies, the agents consent to a contract
    and a grant goes through its two phases. *)
From S2P Require Import Prelude Status Utf8 Bytes Ids Types Registry Hash Time Canonical Terms Policy Decision Engine.
From S2P Require Import Fencing Mutation Files Wal Snapshot DurableStore Recovery Frame Messages Connection Effects Coordinator Handlers Admin.
From S2P Require Import Protocol Logic CoordinatorLogic Refinement Reachability Guarantees Sample StoreSample.

Definition run_config : Config := mkConfig "st" "ops" true true ∅ 1000000 0 1000000 4194304 8192.
Definition run_uuid (base : Z) (n : nat) : string := bytes_str (repeat (byte_of 0) 12 ++ w_u32 (base + Z.of_nat n)).
Definition run_world (base : Z) : World :=
  mkWorld (fun n => 1000 + Z.of_nat n) (fun _ => 0) (run_uuid base) (fun _ => append_ok) (fun _ => io_ok) (fun _ => io_ok) 0.

(** The state after a start, and after a frame. *)
Definition run_start (base : Z) (d : Disk) : Result Coordinator * Disk := start store_io run_config (run_world base) d.
Definition frame_of (m : Message) : Frame :=
  mkFrame (mkFrameHeader 1 (message_type m) 0 (zlen (encode_message m))) (encode_message m) false.
Definition deliver (c : Coordinator) (e : Z * Message) : Coordinator := (handle_message e.1 (frame_of e.2) c).2.

Definition token_of (c : Coordinator) (id : Z) : string := from_option ss_token nil_uuid (session_for c id).
Definition first_contract (c : Coordinator) : ContractRecord := default sample_contract (head (values (rg_contracts (c_registry c)))).
Definition first_grant (c : Coordinator) : GrantRecord := default sample_grant (head (values (rg_grants (c_registry c)))).

(** The messages of the two agents and of the operator. *)
Definition hello (cluster domain : string) (incarnation generation : Z) : Message :=
  MHello (mkHello PeerRole_Agent cluster domain (sample_uuid incarnation) generation 1 1 1 1 kCapabilityAll zero_digest 0).
Definition report (token : string) (cl : ClusterRecord) : Message := MReportCluster (mkReportCluster token cl).
Definition put_link_message : Message :=
  MAdmin (mkAdmin nil_uuid AdminAction_UpsertLink None (Some sample_link) None None "" "" "" "" nil_uuid nil_uuid "" "" 0
    ClusterState_Unknown LinkState_Unknown 0 0 "").
Definition put_path_message : Message :=
  MAdmin (mkAdmin nil_uuid AdminAction_UpsertPath None None (Some sample_path) None "" "" "" "" nil_uuid nil_uuid "" "" 0
    ClusterState_Unknown LinkState_Unknown 0 0 "").
Definition put_policy_message (id owner : string) : Message :=
  MAdmin (mkAdmin nil_uuid AdminAction_UpsertPolicy None None None (Some (sample_policy id owner)) "" "" "" "" nil_uuid nil_uuid
    "" "" 0 ClusterState_Unknown LinkState_Unknown 0 0 "").
Definition authorize_message : Message :=
  MAdmin (mkAdmin nil_uuid AdminAction_AuthorizeContract None None None None "a" "b" "a1" "b1" nil_uuid nil_uuid "" "" 0
    ClusterState_Unknown LinkState_Unknown 40 0 "").
Definition issue_message (contract : string) : Message :=
  MAdmin (mkAdmin nil_uuid AdminAction_IssueGrant None None None None "" "" "" "" contract nil_uuid "" "" 0
    ClusterState_Unknown LinkState_Unknown 0 0 "").
Definition delete_cluster_message (cluster : string) : Message :=
  MAdmin (mkAdmin nil_uuid AdminAction_DeleteCluster None None None None cluster "" "" "" nil_uuid nil_uuid "" "" 0
    ClusterState_Unknown LinkState_Unknown 0 0 "").
Definition fence_message (grant : string) : Message :=
  MAdmin (mkAdmin nil_uuid AdminAction_FenceGrant None None None None "" "" "" "" nil_uuid grant "" "" 0
    ClusterState_Unknown LinkState_Unknown 0 0 "").
Definition observer_hello : Message :=
  MHello (mkHello PeerRole_Observer "" "" nil_uuid 0 0 0 1 1 0 zero_digest 0).
Definition consent (token : string) (ct : ContractRecord) (endpoint : string) (incarnation : Z) : Message :=
  MContractConsent (mkContractConsent token (ct_id ct) (ct_terms_digest ct) ConsentDecision_Accepted endpoint
    (sample_uuid incarnation) 1 1 1 "").
Definition prepared (token : string) (g : GrantRecord) : Message :=
  MGrantPrepared (mkGrantPrepared token (gr_id g) (gr_attempt g) true 1 (sample_digest 5) "").
Definition committed (token : string) (g : GrantRecord) : Message :=
  MGrantCommitted (mkGrantCommitted token (gr_id g) (gr_attempt g) true 1 (sample_digest 5) "").

(** A step whose message depends on the state. *)
Abbreviation Script := (list (Coordinator -> Z * Message)).
Definition play (c : Coordinator) (s : Script) : Coordinator := foldl (fun c f => deliver c (f c)) c s.

Definition registration : Script :=
  [fun _ => (1, hello "a" "dom-a" 1 1); fun _ => (2, hello "b" "dom-b" 2 1);
   fun c => (1, report (token_of c 1) (sample_cluster "a" "dom-a" 1 (sample_endpoint "a1" "a" "svc/a" 0)));
   fun c => (2, report (token_of c 2) (sample_cluster "b" "dom-b" 2 (sample_endpoint "b1" "b" "svc/b" 0)))].
Definition operator_setup : Script :=
  [fun _ => (0, put_link_message); fun _ => (0, put_path_message);
   fun _ => (0, put_policy_message "ra" "dom-a"); fun _ => (0, put_policy_message "rb" "dom-b");
   fun _ => (0, authorize_message)].
Definition consents : Script :=
  [fun c => (1, consent (token_of c 1) (first_contract c) "a1" 1);
   fun c => (2, consent (token_of c 2) (first_contract c) "b1" 2)].
Definition grant_flow : Script :=
  [fun c => (0, issue_message (ct_id (first_contract c)));
   fun c => (1, prepared (token_of c 1) (first_grant c)); fun c => (2, prepared (token_of c 2) (first_grant c));
   fun c => (1, committed (token_of c 1) (first_grant c)); fun c => (2, committed (token_of c 2) (first_grant c))].

(** ** The states *)
Definition idle : Coordinator :=
  mkCoordinator run_config closed_store ∅ recovery_default empty_registry 0 nil_uuid nil_uuid 0 ∅ ∅ ∅ counters_zero (run_world 0).
Definition started_on (base : Z) (d : Disk) : Coordinator :=
  match (run_start base d).1 with Val c => c | _ => idle end.
Definition starts (base : Z) (d : Disk) : bool := match (run_start base d).1 with Val _ => true | _ => false end.

Definition fresh_fabric : Coordinator := started_on 1 ∅.
Definition live_fabric : Coordinator := play fresh_fabric (registration ++ operator_setup ++ consents ++ grant_flow).

Lemma started_spec base d :
  starts base d = true -> start store_io run_config (run_world base) d = (Val (started_on base d), (run_start base d).2).
Proof.
  unfold starts, started_on, run_start. by destruct (start store_io run_config (run_world base) d) as [[c|e|] d'].
Qed.

Lemma started_reachable base d : starts base d = true -> reachable (started_on base d).
Proof. intros H%started_spec. exact (reach_start store_io run_config (run_world base) d _ _ H). Qed.

Lemma play_reachable c s : reachable c -> reachable (play c s).
Proof.
  revert c. induction s as [|f s IH]; intros c Hc; [done|]. apply IH. eapply reach_step; [exact Hc|]. apply step_message.
Qed.

Lemma fresh_reachable : reachable fresh_fabric.
Proof. apply started_reachable. vm_compute. reflexivity. Qed.
Lemma live_reachable : reachable live_fabric.
Proof. apply play_reachable, fresh_reachable. Qed.

(** What the coordinator answers when it is asked whether [a1] may reach [b1]. *)
Definition decide_message : QueryMessage :=
  mkQueryMessage nil_uuid QueryKind_Decide "" "" "a1" "b1" nil_uuid nil_uuid "" "" 40 false 0 false 0 false 0 0.
Definition answer (c : Coordinator) : option Outcome :=
  match (handle_query decide_message c).1 with Val (result, _) => Some (qr_outcome result) | _ => None end.
Definition reserved (c : Coordinator) : list Z := ep_reserved <$> (values (rg_clusters (c_registry c)) ≫= cl_endpoints).
Definition grant_states (c : Coordinator) : list GrantState := gr_state <$> values (rg_grants (c_registry c)).

(** The protocol reaches its goal: a coordinator that starts on an empty directory, two agents that register,
    report and consent, and an operator who configures a path and issues a grant, lead to a committed grant
    that both agents acknowledged, with the capacity held on both endpoints, and the coordinator then
    answers that the connection is authorized; before the last acknowledgement it does not. *)
Theorem grant_flow_completes :
  let before := play fresh_fabric (registration ++ operator_setup ++ consents ++ take 4 grant_flow) in
  reachable live_fabric /\
  (answer before = Some Outcome_Incomplete /\ reserved before = [0; 0] /\ grant_states before = [GrantState_Prepared]) /\
  (answer live_fabric = Some Outcome_Ok /\ reserved live_fabric = [40; 40] /\
   grant_states live_fabric = [GrantState_Committed] /\ c_pending live_fabric = ∅).
Proof. split; [exact live_reachable|]. vm_compute. split_and!; reflexivity. Qed.

(** ** The guarantees at these states *)
Lemma coordinator_refines_protocol_witness :
  reachable live_fabric /\
  rtc (transition None) (c_registry live_fabric) (c_registry (handle_disconnect 1 status_ok live_fabric).2).
Proof.
  split; [exact live_reachable|]. exact (proj1 (proj2 (coordinator_refines_protocol live_fabric live_reachable)) 1 status_ok).
Defined.

Lemma reachable_state_ok_witness :
  registry_ok (c_registry live_fabric) /\ usable_state (first_grant live_fabric) = true /\
  both_acknowledged (first_grant live_fabric) = true.
Proof.
  destruct (reachable_state_ok live_fabric live_reachable) as (Hok & _ & Ha). split; [exact Hok|].
  split; [vm_compute; reflexivity|].
  apply (Ha (gr_id (first_grant live_fabric)) (first_grant live_fabric)); vm_compute; reflexivity.
Defined.

(** The state before the first COMMITTED acknowledgement, and that frame. *)
Definition prepared_fabric : Coordinator := play fresh_fabric (registration ++ operator_setup ++ consents ++ take 3 grant_flow).
Definition first_committed : Frame := frame_of (committed (token_of prepared_fabric 1) (first_grant prepared_fabric)).

Lemma prepared_reachable : reachable prepared_fabric.
Proof. apply play_reachable, fresh_reachable. Qed.

Lemma authority_is_authentic_witness :
  let k := gr_id (first_grant prepared_fabric) in
  at_side (gr_acknowledged (first_grant prepared_fabric)) false = false /\
  acknowledgement_origin (evidence_of prepared_fabric 1 first_committed) (c_registry prepared_fabric) k false.
Proof.
  intros k. split; [vm_compute; reflexivity|].
  destruct (authority_is_authentic prepared_fabric 1 first_committed prepared_reachable) as [Ha _].
  apply (Ha k (first_grant (handle_message 1 first_committed prepared_fabric).2)); vm_compute; reflexivity.
Defined.

Lemma session_guard_witness :
  quiet prepared_fabric (handle_message 2 first_committed prepared_fabric).2.
Proof. apply (session_guard prepared_fabric 2 first_committed); vm_compute; reflexivity. Defined.

Lemma live_restarts : starts 1000 (c_disk live_fabric) = true.
Proof. vm_compute. reflexivity. Qed.

Lemma start_authorizes_nothing_witness :
  nothing_usable (c_registry (started_on 1000 (c_disk live_fabric))) /\
  grant_states (started_on 1000 (c_disk live_fabric)) = [GrantState_Fenced].
Proof.
  split; [|vm_compute; reflexivity].
  exact (proj1 (start_authorizes_nothing _ _ _ _ _ _ (started_spec 1000 (c_disk live_fabric) live_restarts))).
Defined.


(** Two ways in which a coordinator cannot be started again on its own files. After a restart with a live grant the next start
    fails: the audit records of the fencing at recovery stay in memory, the next persisted record leaves a gap,
    and the replay refuses it. After an operator deletes a cluster the next start fails: the logged erasure
    carries a record with an empty authority domain, which its decoder refuses. *)
Theorem restarts_that_fail :
  let restarted := started_on 1000 (c_disk live_fabric) in
  let deleted := play fresh_fabric (registration ++ [fun _ => (0, delete_cluster_message "a")]) in
  (starts 1000 (c_disk live_fabric) = true /\
   (run_start 2000 (c_disk restarted)).1 = Err (mkStatus Outcome_Invalid "audit sequence is not contiguous")) /\
  (cl_id <$> values (rg_clusters (c_registry deleted)) = ["b"%string] /\
   (run_start 1000 (c_disk deleted)).1 = Err (mkStatus Outcome_Invalid "identifier must not be empty")).
Proof. vm_compute. split_and!; reflexivity. Qed.

(** Any session may abort any grant, and an aborted grant keeps its capacity: an observer aborts the committed grant of two
    other peers, and both endpoints stay reserved. *)
Theorem observer_aborts_grant :
  let observed := deliver live_fabric (9, observer_hello) in
  let aborted := deliver observed (9, MGrantAborted (mkGrantAborted (token_of observed 9) (gr_id (first_grant observed)) nil_uuid "")) in
  grant_states aborted = [GrantState_Aborted] /\ answer aborted = Some Outcome_Fenced /\ reserved aborted = [40; 40].
Proof. vm_compute. split_and!; reflexivity. Qed.

(** A report replaces the reserved capacity the coordinator accounts: with the grant still committed, the endpoint of
    the reporting cluster counts as free again. *)
Theorem report_resets_reservations :
  let again := deliver live_fabric
    (1, report (token_of live_fabric 1) (sample_cluster "a" "dom-a" 1 (sample_endpoint "a1" "a" "svc/a" 0))) in
  answer again = Some Outcome_Ok /\ reserved live_fabric = [40; 40] /\ reserved again = [0; 40].
Proof. vm_compute. split_and!; reflexivity. Qed.
