(* ===== verification/System.v ===== *)
(** * A whole fabric: one coordinator and two agents

    The three daemons exchange bytes. What a connection has queued is flushed by its sender, read by the
    event loop of the receiver in whatever the parser makes of it, and handled; the frames are signed with the
    keys of the two authority domains. An operator talks to the coordinator, as in FabricRun.v. *)
From S2P Require Import Prelude Status Utf8 Bytes Ids Types Registry Hash Time Canonical Terms Policy Decision Engine.
From S2P Require Import Fencing Mutation Files Wal Snapshot DurableStore Recovery Frame Messages Connection Reactor Effects Logic EventLoop.
From S2P Require Import Agent AgentHandlers Enforcement AgentGuarantees.
From S2P Require Import Coordinator Handlers Admin Protocol CoordinatorLogic Refinement Reachability Guarantees Sample StoreSample FabricRun.

(** ** Starting the daemons *)
Definition key_of (domain : string) : string := ("key of " ++ domain)%string.
Definition fabric_config : Config :=
  mkConfig "st" "ops" true true (list_to_map [("dom-a", key_of "dom-a"); ("dom-b", key_of "dom-b")])%string 1000000 0 1000000
    4194304 8192.
Definition agent_config (cluster domain : string) (generation : Z) (endpoint : EndpointRecord) : AgentConfig :=
  mkAgentConfig cluster domain generation 1 ClusterState_Active [endpoint] 7000 "st" (key_of domain) true 10000000000 250000000
    8000000000 2097152 8192 true.
Definition config_a : AgentConfig := agent_config "a" "dom-a" 1 (sample_endpoint "a1" "a" "svc/a" 0).
Definition config_b : AgentConfig := agent_config "b" "dom-b" 1 (sample_endpoint "b1" "b" "svc/b" 0).
Definition dial_ok (n : nat) : Result unit := Val tt.

Definition agent_idle (config : AgentConfig) : Agent :=
  mkAgent config closed_store ∅ recovery_default empty_registry (mkIdentity 0 nil_uuid 0 0 ClusterState_Unknown false 0) loop_new ∅
    (mkUplink 0 nil_uuid 0 nil_uuid false false 0 false) (mkAgentCounters 0 0 0 0 0 0 0) (run_world 0) dial_ok.
Definition agent_on (config : AgentConfig) (base : Z) (d : Disk) : Agent :=
  match (agent_start store_io config (run_world base) dial_ok (Val tt) d).1 with Val a => a | _ => agent_idle config end.
Definition agent_starts (config : AgentConfig) (base : Z) (d : Disk) : bool :=
  is_val (agent_start store_io config (run_world base) dial_ok (Val tt) d).1.
Definition coordinator_on (base : Z) (d : Disk) : Coordinator :=
  match (start store_io fabric_config (run_world base) d).1 with Val c => c | _ => idle end.

(** ** The network *)
Record Fabric := mkFabric { fb_coordinator : Coordinator; fb_agents : Agent * Agent }.

(** The coordinator's connection of a side. *)
Definition port (side : bool) : Z := if side then 2 else 1.

(** Everything a connection has queued leaves. *)
Definition drain_connection {S} `{Host S} (id : Z) : ST S bytes :=
  on_connection id (Val []) (flush (replicate 512 (fun n => Val n))).

Definition readable (data : bytes) : PollItem := mkPollItem true false false [Val data] [] [].

(** The bytes of one peer reach the event loop of the other. *)
Definition receive_at {S} `{Host S} (on_frame : Z -> Frame -> ST S unit) (id : Z) (data : bytes) (s : S) : S :=
  if bool_decide (data = []) then s else (pump_connection on_frame [] id (readable data) s).2.

Definition upstream (side : bool) (f : Fabric) : Fabric :=
  let a := at_side (fb_agents f) side in
  match drain_connection (up_connection (a_uplink a)) a with
  | (Val data, a') =>
      mkFabric (receive_at handle_message (port side) data (fb_coordinator f)) (set_side (fb_agents f) side a')
  | (_, a') => f
  end.
Definition downstream (side : bool) (f : Fabric) : Fabric :=
  let a := at_side (fb_agents f) side in
  match drain_connection (port side) (fb_coordinator f) with
  | (Val data, c') =>
      mkFabric c' (set_side (fb_agents f) side (receive_at agent_handle_message (up_connection (a_uplink a)) data a))
  | (_, c') => f
  end.

(** Both directions of both links, some times. *)
Fixpoint exchange (rounds : nat) (f : Fabric) : Fabric :=
  match rounds with
  | O => f
  | Datatypes.S rounds => exchange rounds (downstream true (downstream false (upstream true (upstream false f))))
  end.

(** An agent connects: its timer fires and the coordinator accepts the socket. *)
Definition connect (side : bool) (f : Fabric) : Fabric :=
  let c := fb_coordinator f in
  mkFabric (set_connections c (<[port side := connection_new (port side) config_default]> (c_connections c)))
    (set_side (fb_agents f) side (fire AgentTimer_Connect (at_side (fb_agents f) side)).2).

Definition operate (s : Script) (f : Fabric) : Fabric := mkFabric (play (fb_coordinator f) s) (fb_agents f).
Definition locally (side : bool) (m : AM unit) (f : Fabric) : Fabric :=
  mkFabric (fb_coordinator f) (set_side (fb_agents f) side (m (at_side (fb_agents f) side)).2).

(** ** The run *)
Definition fabric_new : Fabric := mkFabric (coordinator_on 1 ∅) (agent_on config_a 1001 ∅, agent_on config_b 2001 ∅).
Definition fabric_joined : Fabric := exchange 3 (connect true (connect false fabric_new)).
Definition fabric_consented : Fabric := exchange 2 (operate operator_setup fabric_joined).
Definition fabric_granted : Fabric :=
  exchange 3 (operate [fun c => (0, issue_message (ct_id (first_contract c)))] fabric_consented).

Definition the_grant (f : Fabric) : string := gr_id (first_grant (fb_coordinator f)).
(** What the coordinator and the two agents answer for the grant. *)
Definition verdicts (f : Fabric) : option Outcome * (Result Outcome * Result Outcome) :=
  (answer (fb_coordinator f),
   ((local_enforcement_outcome (the_grant f) (fb_agents f).1).1, (local_enforcement_outcome (the_grant f) (fb_agents f).2).1)).

(** ** The event loops make only the steps of the two daemons *)
#[export] Instance step_frame : HostFrame (rtc step).
Proof. split; [apply _|..]; intros; apply rtc_once; [apply step_network|apply step_world]. Qed.
#[export] Instance agent_step_frame : HostFrame (rtc agent_step).
Proof. split; [apply _|..]; intros; apply rtc_once; [apply as_network|apply as_world]. Qed.

Lemma coordinator_pump_steps c pending id item : rtc step c (pump_connection handle_message pending id item c).2.
Proof. refine (runs_pump_connection handle_message _ _ c pending id item). intros. apply rtc_once, step_message. Qed.
Lemma agent_pump_steps a pending id item : rtc agent_step a (pump_connection agent_handle_message pending id item a).2.
Proof. refine (runs_pump_connection agent_handle_message _ _ a pending id item). intros. apply rtc_once, as_message. Qed.

(** Whatever poll and the sockets answer, one connection's turn in the event loop, one sweep over the
    connections and (for the agent) the due timers take a daemon only through the steps of its reachability
    relation: the frames the parser completes are handled one by one, lost connections are reported to the
    disconnect handler, and nothing else touches the daemon. So the guarantees about reachable states are guarantees about the running loops. *)
Theorem event_loop_steps :
  (forall c pending id item, rtc step c (pump_connection handle_message pending id item c).2) /\
  (forall c pending, rtc step c (sweep_connections handle_disconnect pending c).2) /\
  (forall a pending id item, rtc agent_step a (pump_connection agent_handle_message pending id item a).2) /\
  (forall a pending, rtc agent_step a (sweep_connections (fun id _ => agent_handle_disconnect id) pending a).2) /\
  (forall a, rtc agent_step a (fire_due_timers a).2).
Proof.
  split_and!; [apply coordinator_pump_steps| |apply agent_pump_steps| |].
  - intros c pending. refine (runs_sweep handle_disconnect _ _ c pending). intros. apply rtc_once, step_disconnect.
  - intros a pending. refine (runs_sweep (fun id _ => agent_handle_disconnect id) _ _ a pending).
    intros. apply rtc_once, as_disconnect.
  - intros a. change (runs (rtc agent_step) a fire_due_timers). unfold fire_due_timers. walk.
    + unfold runs, in_loop. destruct (take_due _ _). cbn. apply rtc_once, as_network.
    + apply rtc_once, as_timer.
Qed.

(** ** The states of the fabric are reachable *)
Record fabric_ok (f : Fabric) : Prop := mkFabricOk {
  fb_coordinator_ok : reachable (fb_coordinator f);
  fb_agents_ok side : agent_reachable (at_side (fb_agents f) side);
}.

Lemma reachable_steps c c' : reachable c -> rtc step c c' -> reachable c'.
Proof. intros Hr H. revert Hr. induction H as [|c1 c2 c3 Hs _ IH]; [done|]. intros Hr. apply IH. by eapply reach_step. Qed.
Lemma agent_reachable_steps a a' : agent_reachable a -> rtc agent_step a a' -> agent_reachable a'.
Proof. intros Hr H. revert Hr. induction H as [|a1 a2 a3 Hs _ IH]; [done|]. intros Hr. apply IH. by eapply agent_reach_step. Qed.

Lemma fabric_ok_side f side c a :
  fabric_ok f -> reachable c -> agent_reachable a -> fabric_ok (mkFabric c (set_side (fb_agents f) side a)).
Proof. intros [_ Ha] Hc Hs. split; [done|]. intros side'. pose proof (Ha side') as H. by destruct side, side'. Qed.

Lemma drain_steps {S} `{Host S} (R : S -> S -> Prop) {HR : HostFrame R} id s : R s (drain_connection id s).2.
Proof. apply (runs_on_connection R). Qed.

Lemma upstream_ok side f : fabric_ok f -> fabric_ok (upstream side f).
Proof.
  intros Hf. unfold upstream. set (a := at_side _ _). pose proof (drain_steps (rtc agent_step) (up_connection (a_uplink a)) a) as Hd.
  destruct (drain_connection _ a) as [[data|e|] a'] eqn:E; [|done..]. cbn in Hd. apply fabric_ok_side; [done| |].
  - unfold receive_at. case_bool_decide; [apply Hf|]. eapply reachable_steps; [apply Hf|]. apply coordinator_pump_steps.
  - eapply agent_reachable_steps; [|exact Hd]. apply Hf.
Qed.

Lemma downstream_ok side f : fabric_ok f -> fabric_ok (downstream side f).
Proof.
  intros Hf. unfold downstream. set (a := at_side _ _). pose proof (drain_steps (rtc step) (port side) (fb_coordinator f)) as Hd.
  destruct (drain_connection _ (fb_coordinator f)) as [[data|e|] c'] eqn:E; [|done..]. cbn in Hd. apply fabric_ok_side; [done| |].
  - eapply reachable_steps; [|exact Hd]. apply Hf.
  - unfold receive_at. case_bool_decide; [apply Hf|]. eapply agent_reachable_steps; [apply Hf|]. apply agent_pump_steps.
Qed.

Lemma exchange_ok n f : fabric_ok f -> fabric_ok (exchange n f).
Proof.
  revert f. induction n as [|n IH]; intros f Hf; [done|]. apply IH.
  do 2 apply downstream_ok. by do 2 apply upstream_ok.
Qed.

Lemma connect_ok side f : fabric_ok f -> fabric_ok (connect side f).
Proof.
  intros Hf. apply fabric_ok_side; [done|..].
  - eapply reach_step; [apply Hf|apply step_network].
  - eapply agent_reach_step; [apply Hf|apply as_timer].
Qed.

Lemma operate_ok s f : fabric_ok f -> fabric_ok (operate s f).
Proof. intros [Hc Ha]. split; [by apply play_reachable|done]. Qed.

Lemma agent_on_spec config base d :
  agent_starts config base d = true ->
  agent_start store_io config (run_world base) dial_ok (Val tt) d =
    (Val (agent_on config base d), (agent_start store_io config (run_world base) dial_ok (Val tt) d).2).
Proof.
  unfold agent_starts, agent_on. by destruct (agent_start store_io config (run_world base) dial_ok (Val tt) d) as [[c|e|] d'].
Qed.
Lemma agent_on_reachable config base d : agent_starts config base d = true -> agent_reachable (agent_on config base d).
Proof. intros H%agent_on_spec. by eapply agent_reach_start. Qed.

Lemma coordinator_on_reachable base d :
  is_val (start store_io fabric_config (run_world base) d).1 = true -> reachable (coordinator_on base d).
Proof.
  unfold coordinator_on. destruct (start store_io fabric_config (run_world base) d) as [[c|e|] d'] eqn:E; [|done..].
  intros _. by eapply reach_start.
Qed.

Lemma fabric_new_ok : fabric_ok fabric_new.
Proof.
  split; [apply coordinator_on_reachable; vm_compute; reflexivity|].
  intros []; apply agent_on_reachable; vm_compute; reflexivity.
Qed.
Lemma fabric_joined_ok : fabric_ok fabric_joined.
Proof. apply exchange_ok. do 2 apply connect_ok. apply fabric_new_ok. Qed.
Lemma fabric_consented_ok : fabric_ok fabric_consented.
Proof. apply exchange_ok, operate_ok, fabric_joined_ok. Qed.
Lemma fabric_granted_ok : fabric_ok fabric_granted.
Proof. apply exchange_ok, operate_ok, fabric_consented_ok. Qed.

(** ** End to end *)
Definition contract_states (f : Fabric) : list ContractState := ct_state <$> values (rg_contracts (c_registry (fb_coordinator f))).


(** The agent of the first cluster restarts on its own files and connects again. *)
Definition fabric_reborn : Fabric :=
  let f := fabric_granted in
  mkFabric (handle_disconnect 1 status_ok (fb_coordinator f)).2
    (agent_on config_a 5001 (a_disk (fb_agents f).1), (fb_agents f).2).
(** The coordinator restarts on its own files; the agents lose their connections. *)
Definition fabric_restarted : Fabric :=
  let f := locally true (agent_handle_disconnect 1) (locally false (agent_handle_disconnect 1) fabric_granted) in
  mkFabric (coordinator_on 9001 (c_disk (fb_coordinator fabric_granted))) (fb_agents f).


(** ** The guarantees of the agent at these states *)
Definition agent_a : Agent := at_side (fb_agents fabric_granted) false.
Abbreviation asked_a := ((local_enforcement_outcome (the_grant fabric_granted) agent_a).2).
Definition disk_a : Disk := a_disk agent_a.
(** What the files of the agent hold about its cluster. *)
Abbreviation load_a := (agent_load_state store_io config_a (run_world 5001) dial_ok disk_a).
Definition val_or {A S} (d : A) (p : Result A * S) : A := match p.1 with Val a => a | _ => d end.
Abbreviation loaded_a := (val_or (agent_idle config_a) load_a).
Abbreviation recorded_a := (default cluster_blank (local_cluster loaded_a)).

(** The agent has lost the coordinator and has dialed its successor, which answers under the term 2. *)
Definition waiting_a : Agent := (fb_agents (connect false fabric_restarted)).1.
Definition new_ack : HelloAckMessage := mkHelloAck (sample_uuid 1) (sample_uuid 2) 2 Outcome_Ok 1 zero_digest [] "".
Definition ack_frame : Frame := FabricRun.frame_of (MHelloAck new_ack).
Abbreviation acked := (agent_handle_message (up_connection (a_uplink waiting_a)) ack_frame waiting_a).

(** The first agent before it hears of the commit, and the frame that brings it. *)
Definition fabric_prepared : Fabric :=
  upstream true (upstream false (downstream true (downstream false
    (operate [fun c => (0, issue_message (ct_id (first_contract c)))] fabric_consented)))).
Definition prepared_a : Agent := (fb_agents fabric_prepared).1.
Definition commit_frame : Frame :=
  FabricRun.frame_of (MCommitGrant (mkCommitGrant nil_uuid (the_grant fabric_prepared)
    (gr_attempt (first_grant (fb_coordinator fabric_prepared))))).
Abbreviation committed_a := ((agent_handle_message 1 commit_frame prepared_a).2).
Abbreviation committed_grant := (default sample_grant (find_grant (a_registry committed_a) (the_grant fabric_prepared))).

(** What evaluating the run shows of these states, in one evaluation. *)
Lemma run_facts :
  ((local_enforcement_outcome (the_grant fabric_granted) agent_a).1 = Val Outcome_Ok /\
   ac_require_coordinator (a_config agent_a) = true /\ enforced_grant_count agent_a 2000 = 1) /\
  (agent_starts config_a 5001 disk_a = true /\ is_val load_a.1 = true /\
   bool_decide (is_Some (local_cluster loaded_a)) = true /\ cl_generation recorded_a < u64_max) /\
  (acked.1 = Val tt /\ enforced_grant_count waiting_a 2000 = 1) /\
  (bool_decide (is_Some (find_grant (a_registry committed_a) (the_grant fabric_prepared))) = true /\
   gr_state committed_grant = GrantState_Active).
Proof. vm_compute. split_and!; reflexivity. Qed.

Lemma agent_a_reachable : agent_reachable agent_a.
Proof. apply fb_agents_ok, fabric_granted_ok. Qed.
Lemma val_spec {A S} (p : Result A * S) (x : A) : p.1 = Val x -> p = (Val x, p.2).
Proof. destruct p as [r s]. by intros [= ->]. Qed.
Lemma is_val_spec {A S} (p : Result A * S) (d : A) :
  is_val p.1 = true -> p = (Val (val_or d p), p.2).
Proof. by destruct p as [[a|e|] s]. Qed.
Lemma default_spec {A} (o : option A) (d : A) : bool_decide (is_Some o) = true -> o = Some (default d o).
Proof. intros H. by apply bool_decide_eq_true in H as [x ->]. Qed.

Lemma agent_a_enforces : local_enforcement_outcome (the_grant fabric_granted) agent_a = (Val Outcome_Ok, asked_a).
Proof. destruct run_facts as ((H & _) & _). exact (val_spec _ _ H). Qed.
Lemma agent_a_requires : ac_require_coordinator (a_config agent_a) = true.
Proof. destruct run_facts as ((_ & H & _) & _). exact H. Qed.
Lemma agent_a_count : enforced_grant_count agent_a 2000 = 1.
Proof. destruct run_facts as ((_ & _ & H) & _). exact H. Qed.
Lemma agent_a_restarts : agent_starts config_a 5001 disk_a = true.
Proof. destruct run_facts as (_ & (H & _) & _). exact H. Qed.
Lemma loaded_a_spec : agent_load_state store_io config_a (run_world 5001) dial_ok disk_a = (Val loaded_a, load_a.2).
Proof. destruct run_facts as (_ & (_ & H & _) & _). exact (is_val_spec _ (agent_idle config_a) H). Qed.
Lemma recorded_a_spec : local_cluster loaded_a = Some recorded_a.
Proof. destruct run_facts as (_ & (_ & _ & H & _) & _). exact (default_spec _ cluster_blank H). Qed.
Lemma recorded_a_bound : cl_generation recorded_a < u64_max.
Proof. destruct run_facts as (_ & (_ & _ & _ & H) & _). exact H. Qed.
Lemma acked_spec : agent_handle_message (up_connection (a_uplink waiting_a)) ack_frame waiting_a = (Val tt, acked.2).
Proof. destruct run_facts as (_ & _ & (H & _) & _). exact (val_spec _ tt H). Qed.
Lemma waiting_a_count : enforced_grant_count waiting_a 2000 = 1.
Proof. destruct run_facts as (_ & _ & (_ & H) & _). exact H. Qed.
Lemma ack_decodes : decode_hello_ack (fr_payload ack_frame) = Val (new_ack, []).
Proof. vm_compute. reflexivity. Qed.
Lemma committed_grant_spec :
  find_grant (a_registry (agent_handle_message 1 commit_frame prepared_a).2) (the_grant fabric_prepared) = Some committed_grant.
Proof. destruct run_facts as (_ & _ & _ & (H & _)). exact (default_spec _ sample_grant H). Qed.
Lemma committed_grant_active : gr_state committed_grant = GrantState_Active.
Proof. destruct run_facts as (_ & _ & _ & (_ & H)). exact H. Qed.

Lemma enforced_is_current_witness :
  exists g, find_grant (a_registry agent_a) (the_grant fabric_granted) = Some g /\ gr_state g = GrantState_Active /\
    consented (id_incarnation (a_identity agent_a)) (a_registry agent_a) g.
Proof.
  destruct (enforced_is_current agent_a (the_grant fabric_granted) asked_a agent_a_reachable agent_a_requires agent_a_enforces)
    as (g & ct & side & Hg & Hs & _ & _ & _ & _ & _ & _ & _ & _ & _ & Hc).
  exists g. split; [exact Hg|]. split; [exact Hs|exact Hc].
Defined.

Lemma local_revocation_witness :
  enforced_grant_count agent_a 2000 = 1 /\ enforced_grant_count (withdraw_consent "leaving" agent_a).2 2000 = 0.
Proof.
  split; [exact agent_a_count|]. exact (proj1 (local_revocation agent_a agent_a_requires) "leaving" 2000).
Defined.

Lemma restart_enforces_nothing_witness :
  (local_enforcement_outcome (the_grant fabric_granted) (agent_on config_a 5001 disk_a)).1 <> Val Outcome_Ok.
Proof.
  exact (proj1 (restart_enforces_nothing _ _ _ _ _ _ _ _ (agent_on_spec config_a 5001 disk_a agent_a_restarts))
           (the_grant fabric_granted)).
Defined.

Lemma restart_supersedes_witness :
  cl_generation recorded_a < id_generation (a_identity (agent_on config_a 5001 disk_a)).
Proof.
  exact (proj1 (restart_supersedes store_io config_a (run_world 5001) dial_ok (Val tt) disk_a _ _ loaded_a load_a.2 recorded_a
    (agent_on_spec config_a 5001 disk_a agent_a_restarts) loaded_a_spec recorded_a_spec recorded_a_bound)).
Defined.


Lemma enforcement_is_two_phase_witness :
  exists g0, find_grant (a_registry prepared_a) (the_grant fabric_prepared) = Some g0 /\
    gr_attempt g0 = gr_attempt committed_grant.
Proof.
  destruct (proj1 (enforcement_is_two_phase prepared_a 1 commit_frame _ _ committed_grant_spec) committed_grant_active)
    as (g0 & Hg & Ha & _).
  exists g0. split; [exact Hg|exact Ha].
Defined.

(** ** Behaviours the documents do not describe *)
(** An agent whose event loop is full when it dials: 512 control connections come first. *)
Definition crowded : Agent := Nat.iter 512 (fun a => (accept_control a).2) (agent_on config_a 1001 ∅).
Definition given_up : Agent := (fire_due_timers crowded).2.

Lemma given_up_facts :
  (lp_timers (a_loop given_up)).*2 = [AgentTimer_Tick] /\ up_connection (a_uplink given_up) = 0 /\
  up_connected (a_uplink given_up) = false /\ up_connect_scheduled (a_uplink given_up) = true /\ a_dial given_up = dial_ok.
Proof. vm_compute. split_and!; reflexivity. Qed.

(** Once [connect_scheduled_] is set without a connection, a tick does not dial. *)
Lemma tick_keeps_uplink a :
  up_connect_scheduled (a_uplink a) = true -> a_uplink (agent_tick a).2 = a_uplink a.
Proof.
  intros Hs. assert (H : runs same_self a agent_tick) by (unfold agent_tick; apply runs_gets_bind; rewrite Hs, andb_false_r; walk).
  by destruct H as (_ & _ & H & _).
Qed.

Lemma ticks_keep_uplink a n :
  up_connect_scheduled (a_uplink a) = true ->
  a_uplink (Nat.iter n (fun a => (agent_tick a).2) (a_set_loop a (with_connections ∅ (a_loop a)))) = a_uplink a.
Proof.
  intros Hs. induction n as [|n IH]; [done|]. rewrite Nat.iter_succ, tick_keeps_uplink; [done|]. by rewrite IH.
Qed.

Lemma dial_set_loop a l : a_dial (a_set_loop a l) = a_dial a.
Proof. done. Qed.

(** The agent can give up its coordinator for good: when its event loop is at its connection limit at the moment it
    dials, the attempt fails after the socket was connected, no further attempt is scheduled, and the tick records
    that one is. From then on no number of ticks reconnects it, even when every other connection is gone and the
    coordinator is reachable. *)
Theorem reconnection_is_lost :
  let freed := a_set_loop given_up (with_connections ∅ (a_loop given_up)) in
  (lp_timers (a_loop given_up)).*2 = [AgentTimer_Tick] /\ up_connection (a_uplink given_up) = 0 /\
  up_connected (a_uplink given_up) = false /\ (forall n, a_dial freed n = Val tt) /\
  forall n, a_uplink (Nat.iter n (fun a => (agent_tick a).2) freed) = a_uplink given_up.
Proof.
  intros freed. destruct given_up_facts as (Ht & Hc & Hd & Hs & Hdial).
  split; [exact Ht|]. split; [exact Hc|]. split; [exact Hd|]. split; intros n.
  - unfold freed. rewrite dial_set_loop, Hdial. reflexivity.
  - exact (ticks_keep_uplink given_up n Hs).
Qed.

(** The agent of the first cluster in its second incarnation, connected again, and a grant bound to that
    incarnation that covers the terms of the first one. *)
Definition reborn_a : Agent := (fb_agents (exchange 1 (connect false fabric_reborn))).1.
Definition rebound_grant : GrantRecord :=
  let g := first_grant (fb_coordinator fabric_granted) in
  let i := a_identity reborn_a in
  mkGrant (sample_uuid 77) (gr_contract g) (gr_terms_digest g) (up_term (a_uplink reborn_a)) (gr_coordinator g) (sample_uuid 78)
    (id_incarnation i, (gr_incarnations g).2) (id_generation i, (gr_generations g).2) (gr_policies g) (gr_capacity g)
    (gr_issued_at g) (gr_valid_until g) GrantState_Preparing (false, false) (zero_digest, zero_digest) 0 "" 0 (gr_provenance g).
Definition local_consents (a : Agent) : list string :=
  values (rg_contracts (a_registry a)) ≫= fun ct => option_list (cs_incarnation <$> (ct_consents ct).1).

(** A consent outlives its incarnation: after a restart the agent prepares a grant for its new incarnation on the
    strength of the consent its previous incarnation gave; it compares the digests of the terms, but not the incarnation,
    generation and policy generation that the recorded consent is bound to. *)
Theorem old_consent_suffices :
  judge_grant reborn_a rebound_grant = None /\ length (local_consents reborn_a) = 1%nat /\
  id_incarnation (a_identity reborn_a) ∉ local_consents reborn_a.
Proof.
  rewrite <- (bool_decide_eq_false (id_incarnation (a_identity reborn_a) ∈ local_consents reborn_a)).
  vm_compute. split_and!; reflexivity.
Qed.
