(* ===== verification/ConfigFile.v ===== *)
(** * Configuration files

    Models include/icf/core/config.hpp and src/core/config.cpp: the line format, the typed accessors and the
    decimal parsers. A [Config] is the [std::map] of its entries; it is called [ConfigFile] here, because the
    coordinator has a [Config] of its own. Reading the file is an operating-system call: [config_parse] starts from
    its text. *)
From S2P Require Import Prelude Status Utf8 Ids Time.

(** ** Characters *)
Definition is_blank (c : byte) : bool := (byte_val c =? 32) || (byte_val c =? 9) || (byte_val c =? 13).
Definition newline : byte := byte_of 10.
Definition equals_sign : byte := byte_of 61.
Definition hash_sign : byte := byte_of 35.

(** The first loop of [trim]; the second is the same from the other end. *)
Fixpoint drop_blanks (text : bytes) : bytes :=
  match text with
  | c :: rest => if is_blank c then drop_blanks rest else text
  | [] => []
  end.
Definition trim (text : bytes) : bytes := rev (drop_blanks (rev (drop_blanks text))).

Definition key_char (c : byte) : bool :=
  ((97 <=? byte_val c) && (byte_val c <=? 122)) || ((65 <=? byte_val c) && (byte_val c <=? 90)) || is_digit c ||
  (byte_val c =? 46) || (byte_val c =? 95) || (byte_val c =? 45).
Definition valid_key (key : bytes) : bool :=
  if bool_decide (key = []) || (64 <? zlen key) then false else forallb key_char key.

(** ** Values *)
Definition parse_bool (text : string) : Result bool :=
  if bool_decide (text ∈ ["true"; "yes"; "on"; "1"]%string) then Val true
  else if bool_decide (text ∈ ["false"; "no"; "off"; "0"]%string) then Val false
  else invalid "expected one of true/false, yes/no, on/off, 1/0".

Fixpoint parse_u64_loop (value : Z) (text : bytes) : Result Z :=
  match text with
  | [] => Val value
  | c :: text =>
      if negb (is_digit c) then invalid "expected an unsigned decimal integer"
      else
        match mul_u64 value 10 ≫= fun v => add_u64 v (byte_val c - 48) with
        | None => fail Outcome_Overflow "integer does not fit in 64 bits"
        | Some v => parse_u64_loop v text
        end
  end.
Definition parse_u64 (text : bytes) : Result Z :=
  if bool_decide (text = []) then invalid "expected an unsigned decimal integer" else parse_u64_loop 0 text.

Definition parse_i64 (text : bytes) : Result Z :=
  match text with
  | [] => invalid "expected a signed decimal integer"
  | c :: rest =>
      let negative := byte_val c =? 45 in
      let digits := if negative then rest else if byte_val c =? 43 then rest else text in
      magnitude ← parse_u64 digits;
      let limit := if negative then i64_max + 1 else i64_max in
      if limit <? magnitude then fail Outcome_Overflow "integer does not fit in 64 bits"
      else if negative then if magnitude =? i64_max + 1 then Val i64_min else Val (- magnitude)
      else Val magnitude
  end.

(** ** Config *)
Record ConfigFile := mkConfigFile { cf_values : gmap string string }.
Definition config_empty : ConfigFile := mkConfigFile ∅.
Definition kMaxConfigLines : Z := 512.
Definition kMaxConfigLineLength : Z := 4096.

(** [std::string_view::find] from a position. *)
Definition find_from (c : byte) (text : bytes) (begin : nat) : option nat :=
  (fun p => (begin + p.1)%nat) <$> list_find (fun x => x = c) (drop begin text).

(** One iteration of the loop of [Config::parse]. *)
Definition config_line (origin : string) (line_number : Z) (line : bytes) (config : ConfigFile) : Result ConfigFile :=
  let at_line (what : string) : string :=
    (origin ++ ": line " ++ bytes_str (dec_unsigned line_number) ++ what)%string in
  _ ← reject_if (kMaxConfigLines <? line_number) Outcome_Invalid (origin ++ ": too many configuration lines")%string;
  _ ← reject_if (kMaxConfigLineLength <? zlen line) Outcome_Invalid
        (origin ++ ": configuration line exceeds the maximum length")%string;
  let content := trim line in
  if bool_decide (content = []) || bool_decide (head content = Some hash_sign) then Val config
  else
    match find_from equals_sign content 0 with
    | None => invalid (at_line " is missing '='")
    | Some equals =>
        let key := trim (take equals content) in
        let value := trim (drop (S equals) content) in
        _ ← reject_if (negb (valid_key key)) Outcome_Invalid (at_line " has an invalid key");
        _ ← reject_if (bool_decide (value = [])) Outcome_Invalid (at_line " has an empty value");
        _ ← reject_if (limits.kMaxStringField <? zlen value) Outcome_Invalid (at_line " value is too long");
        match cf_values config !! bytes_str key with
        | Some _ => invalid (origin ++ ": duplicate key '" ++ bytes_str key ++ "'")
        | None => Val (mkConfigFile (<[bytes_str key := bytes_str value]> (cf_values config)))
        end
    end.

(** The loop itself; [None] is a loop that has not ended yet. *)
Fixpoint config_loop (fuel : nat) (origin : string) (text : bytes) (begin : nat) (line_number : Z) (config : ConfigFile) :
    option (Result ConfigFile) :=
  match fuel with
  | O => None
  | S fuel =>
      if (begin <=? length text)%nat then
        let e := find_from newline text begin in
        let line := match e with None => drop begin text | Some e => take (e - begin) (drop begin text) end in
        let begin := match e with None => S (length text) | Some e => S e end in
        match config_line origin (line_number + 1) line config with
        | Val config => config_loop fuel origin text begin (line_number + 1) config
        | r => Some r
        end
      else Some (Val config)
  end.

Definition config_parse (text origin : string) : Result ConfigFile :=
  _ ← reject_if (negb (is_valid_utf8 (str_bytes text))) Outcome_Invalid (origin ++ ": configuration is not valid UTF-8")%string;
  default Throw (config_loop (S (S (String.length text))) origin (str_bytes text) 0 0 config_empty).

(** ** Accessors *)
Definition config_has (key : string) (config : ConfigFile) : bool := bool_decide (is_Some (cf_values config !! key)).
Definition config_is_empty (config : ConfigFile) : bool := bool_decide (cf_values config = ∅).
Definition config_size (config : ConfigFile) : Z := Z.of_nat (size (cf_values config)).

Definition config_set (key value : string) (config : ConfigFile) : Result ConfigFile :=
  _ ← reject_if (negb (valid_key (str_bytes key))) Outcome_Invalid ("invalid configuration key: " ++ key)%string;
  _ ← reject_if ((slen value =? 0) || (limits.kMaxStringField <? slen value)) Outcome_Invalid
        "configuration value has an invalid length";
  _ ← reject_if (negb (is_valid_utf8 (str_bytes value))) Outcome_Invalid "configuration value is not valid UTF-8";
  Val (mkConfigFile (<[key := value]> (cf_values config))).

Definition get_string (key : string) (config : ConfigFile) : Result string :=
  match cf_values config !! key with
  | None => not_found ("missing configuration key '" ++ key ++ "'")
  | Some value => Val value
  end.
Definition get_u64 (key : string) (config : ConfigFile) : Result Z := value ← get_string key config; parse_u64 (str_bytes value).
Definition get_i64 (key : string) (config : ConfigFile) : Result Z := value ← get_string key config; parse_i64 (str_bytes value).
Definition get_bool (key : string) (config : ConfigFile) : Result bool := value ← get_string key config; parse_bool value.
Definition get_duration (key : string) (config : ConfigFile) : Result Z := value ← get_string key config; duration_parse value.

Definition value_or {A} (fallback : A) (r : Result A) : A := match r with Val a => a | _ => fallback end.
Definition get_string_or (key fallback : string) (config : ConfigFile) : string := default fallback (cf_values config !! key).
Definition get_u64_or (key : string) (fallback : Z) (config : ConfigFile) : Z := value_or fallback (get_u64 key config).
Definition get_bool_or (key : string) (fallback : bool) (config : ConfigFile) : bool := value_or fallback (get_bool key config).
Definition get_duration_or (key : string) (fallback : Z) (config : ConfigFile) : Z := value_or fallback (get_duration key config).

(** The first unknown key in key order is reported. *)
Definition reject_unknown (known : list string) (config : ConfigFile) : Result unit :=
  match list_find (fun entry => entry.1 ∉ known) (entries (cf_values config)) with
  | Some (_, (key, _)) => invalid ("unrecognised configuration key '" ++ key ++ "'")
  | None => Val tt
  end.
Definition config_entries (config : ConfigFile) : list (string * string) := entries (cf_values config).

Example config_sample :
  config_parse (bytes_str (str_bytes "# daemon" ++ [newline] ++ str_bytes " listen.port = 7000 " ++ [newline; newline] ++
                           str_bytes "name=a = b")) "f" =
  Val (mkConfigFile (<["name" := "a = b"]> {["listen.port" := "7000"]}))%string.
Proof. vm_compute. reflexivity. Qed.

(** ** The loop and the lines of the text

    [lines_of] is the reference: the pieces between the newlines, in order. The loop of the source finds them with
    [find] and runs once for each. *)
Fixpoint split_on (separator : byte) (text : bytes) : list bytes :=
  match text with
  | [] => [[]]
  | c :: rest =>
      if base.decide (c = separator) then [] :: split_on separator rest
      else match split_on separator rest with piece :: pieces => (c :: piece) :: pieces | [] => [[c]] end
  end.
Abbreviation lines_of := (split_on newline).

Fixpoint config_lines (origin : string) (n : Z) (lines : list bytes) (config : ConfigFile) : Result ConfigFile :=
  match lines with
  | [] => Val config
  | line :: lines => config ← config_line origin (n + 1) line config; config_lines origin (n + 1) lines config
  end.

Lemma split_on_find separator text :
  split_on separator text =
  match list_find (fun x => x = separator) text with
  | None => [text]
  | Some (i, _) => take i text :: split_on separator (drop (S i) text)
  end.
Proof.
  induction text as [|c text IH]; [done|]. cbn [split_on list_find].
  case_decide as Hc; [done|]. rewrite IH. by destruct (list_find _ text) as [[i x]|].
Qed.

(** Enough fuel for the rest of the text: each line takes its newline, the last one ends the loop. *)
Lemma config_loop_lines fuel origin text begin n config :
  (begin <= length text)%nat -> (S (length text - begin) < fuel)%nat ->
  config_loop fuel origin text begin n config = Some (config_lines origin n (lines_of (drop begin text)) config).
Proof.
  revert begin n config. induction fuel as [|fuel IH]; intros begin n config Hb Hf; [lia|].
  cbn [config_loop]. rewrite (proj2 (Nat.leb_le _ _) Hb), split_on_find. unfold find_from.
  destruct (list_find _ (drop begin text)) as [[i x]|] eqn:F; cbn [fmap option_fmap option_map fst config_lines].
  - apply list_find_Some in F as (Hi & -> & _). apply lookup_lt_Some in Hi. rewrite length_drop in Hi.
    replace (begin + i - begin)%nat with i by lia.
    destruct (config_line _ _ _ _) as [config'|e|]; [|done..]. cbn [mbind Result_bind].
    rewrite IH by lia. by rewrite drop_drop, Nat.add_succ_r.
  - destruct (config_line _ _ _ _) as [config'|e|]; [|done..]. destruct fuel as [|fuel]; [lia|].
    cbn [config_loop mbind Result_bind]. by rewrite (proj2 (Nat.leb_gt _ _)) by lia.
Qed.

(** The loop of [Config::parse] ends for every text: with one turn more than the text has bytes, and with every
    larger bound, it returns the same answer, and that answer is the one of handling the lines one after the other. *)
Theorem config_loop_terminates origin text fuel :
  (S (length text) < fuel)%nat ->
  config_loop fuel origin text 0 0 config_empty = Some (config_lines origin 0 (lines_of text) config_empty).
Proof. intros Hf. rewrite config_loop_lines by lia. done. Qed.

Lemma config_loop_terminates_witness :
  config_loop 6 "f" (str_bytes "a=1 ") 0 0 config_empty =
    Some (config_lines "f" 0 (lines_of (str_bytes "a=1 ")) config_empty).
Proof. exact (config_loop_terminates "f" (str_bytes "a=1 ") 6 ltac:(vm_compute; lia)). Defined.

Lemma config_parse_lines text origin :
  config_parse text origin =
  if is_valid_utf8 (str_bytes text) then config_lines origin 0 (lines_of (str_bytes text)) config_empty
  else invalid (origin ++ ": configuration is not valid UTF-8").
Proof.
  unfold config_parse, reject_if. destruct (is_valid_utf8 _); [|done]. cbn [negb mbind Result_bind].
  rewrite config_loop_lines by (rewrite ?length_str_bytes; lia). done.
Qed.

(** ** What the lines say *)
Inductive line_says (line : bytes) : option (string * string) -> Prop :=
  | says_nothing : trim line = [] \/ head (trim line) = Some hash_sign -> line_says line None
  | says_binding l r :
      trim line = l ++ equals_sign :: r -> equals_sign ∉ l -> head (trim line) <> Some hash_sign ->
      valid_key (trim l) = true -> trim r <> [] -> zlen (trim r) <= limits.kMaxStringField ->
      line_says line (Some (bytes_str (trim l), bytes_str (trim r))).

Lemma find_from_0 c text :
  match find_from c text 0 with
  | Some i => text = take i text ++ c :: drop (S i) text /\ c ∉ take i text
  | None => c ∉ text
  end.
Proof.
  unfold find_from. rewrite drop_0. destruct (list_find (fun x => x = c) text) as [[i x]|] eqn:F; cbn [fmap option_fmap option_map fst Nat.add].
  - apply list_find_Some in F as (Hi & -> & Hlt). split; [by rewrite take_drop_middle|].
    intros (j & Hj)%list_elem_of_lookup. apply lookup_take_Some in Hj as [Hj Hji]. by apply (Hlt j _ Hj).
  - apply list_find_None in F. intros Hin. rewrite Forall_forall in F. by apply (F c Hin).
Qed.

Lemma first_split {A} (c : A) l r l' r' :
  c ∉ l -> c ∉ l' -> l ++ c :: r = l' ++ c :: r' -> l = l' /\ r = r'.
Proof.
  revert l'. induction l as [|x l IH]; intros [|x' l'] Hl Hl' Heq; cbn in Heq; simplify_eq; [done|set_solver..|].
  destruct (IH l') as [-> ->]; set_solver.
Qed.

Lemma config_line_spec origin n line config config' :
  config_line origin n line config = Val config' <->
  n <= kMaxConfigLines /\ zlen line <= kMaxConfigLineLength /\
  exists b, line_says line b /\
    match b with
    | None => config' = config
    | Some (k, v) => cf_values config !! k = None /\ config' = mkConfigFile (<[k := v]> (cf_values config))
    end.
Proof.
  unfold config_line, reject_if. split.
  - intros H. destruct (Z.ltb_spec kMaxConfigLines n); [done|]. destruct (Z.ltb_spec kMaxConfigLineLength (zlen line)); [done|].
    split; [done|]. split; [done|]. cbn [mbind Result_bind] in H.
    destruct (_ || _) eqn:Hb in H.
    { injection H as <-. exists None. split; [|done]. constructor. apply orb_true_iff in Hb as [Hb|Hb]; bool_prop; auto. }
    bool_prop. pose proof (find_from_0 equals_sign (trim line)) as Hf.
    destruct (find_from _ _ _) as [i|]; [|done]. destruct Hf as [Hf Hni].
    destruct (valid_key _) eqn:Hk; [|done]. cbn [negb mbind Result_bind] in H.
    case_bool_decide as Hv; [done|]. destruct (Z.ltb_spec limits.kMaxStringField (zlen (trim (drop (S i) (trim line))))); [done|].
    cbn [mbind Result_bind] in H. destruct (cf_values config !! _) eqn:Hd; [done|]. injection H as <-.
    eexists. split; [eapply says_binding; try done|]. done.
  - intros (Hn & Hl & b & Hs & Hb). destruct (Z.ltb_spec kMaxConfigLines n); [lia|].
    destruct (Z.ltb_spec kMaxConfigLineLength (zlen line)); [lia|]. cbn [mbind Result_bind].
    destruct Hs as [Hs|l r Ht Hnl Hh Hk Hv Hlen].
    + subst config'. by destruct Hs as [-> | ->]; [|rewrite orb_true_r].
    + destruct Hb as [Hd ->]. rewrite (bool_decide_eq_false_2 _ Hh).
      rewrite bool_decide_eq_false_2 by (rewrite Ht; by destruct l). cbn [orb].
      pose proof (find_from_0 equals_sign (trim line)) as Hf. destruct (find_from _ _ _) as [i|].
      * destruct Hf as [Hf Hni]. rewrite Ht in Hf at 1. apply first_split in Hf as [<- <-]; [|done..].
        rewrite Hk. cbn [negb mbind Result_bind]. rewrite bool_decide_eq_false_2 by done.
        destruct (Z.ltb_spec limits.kMaxStringField (zlen (trim r))); [lia|]. cbn [mbind Result_bind]. by rewrite Hd.
      * rewrite Ht in Hf. set_solver.
Qed.

Abbreviation bindings bs := (omap (M := list) id bs).

Lemma config_lines_spec origin n lines config config' :
  n <= kMaxConfigLines ->
  config_lines origin n lines config = Val config' <->
  n + zlen lines <= kMaxConfigLines /\ Forall (fun line => zlen line <= kMaxConfigLineLength) lines /\
  exists bs, Forall2 line_says lines bs /\ NoDup (bindings bs).*1 /\
    Forall (fun k => cf_values config !! k = None) (bindings bs).*1 /\
    cf_values config' = list_to_map (bindings bs) ∪ cf_values config.
Proof.
  revert n config. induction lines as [|line lines IH]; intros n config Hn; cbn [config_lines].
  { split.
    - intros [= <-]. split; [unfold zlen; cbn [length]; lia|]. split; [done|]. exists []. cbn. rewrite map_empty_union. repeat constructor.
    - intros (_ & _ & bs & Hbs & _ & _ & Hc). inversion Hbs; subst. cbn in Hc. rewrite map_empty_union in Hc.
      by destruct config, config'; cbn in Hc; subst. }
  split.
  - intros (config1 & Hline & H)%bind_Val. apply config_line_spec in Hline as (Hn1 & Hl & b & Hb & Hc).
    apply IH in H as (Hn' & Hls & bs & Hbs & Hnd & Hnone & Hc'); [|done]. rewrite zlen_cons.
    split; [lia|]. split; [by constructor|]. exists (b :: bs). split; [by constructor|].
    destruct b as [[k v]|]; cbn; [|by subst]. destruct Hc as [Hk ->]. cbn in *.
    rewrite Forall_forall in Hnone. split_and!.
    + apply NoDup_cons. split; [|done]. intros Hin. specialize (Hnone k Hin). by rewrite lookup_insert_eq in Hnone.
    + apply Forall_cons. split; [done|]. apply Forall_forall. intros k' Hin. specialize (Hnone k' Hin).
      by apply lookup_insert_None in Hnone as [].
    + rewrite Hc', <- insert_union_l, <- insert_union_r; [done|]. apply not_elem_of_list_to_map_1. intros Hin.
      specialize (Hnone k Hin). by rewrite lookup_insert_eq in Hnone.
  - rewrite zlen_cons. intros (Hn' & Hls & bs & Hbs & Hnd & Hnone & Hc).
    inversion Hbs as [|? b ? bs' Hb Hbs']; subst. inversion Hls as [|? ? Hl Hls']; subst. pose proof (zlen_nonneg lines).
    assert (Hstep : exists config1, config_line origin (n + 1) line config = Val config1 /\
      Forall (fun k => cf_values config1 !! k = None) (bindings bs').*1 /\ NoDup (bindings bs').*1 /\
      cf_values config' = list_to_map (bindings bs') ∪ cf_values config1).
    { destruct b as [[k v]|]; cbn in Hnd, Hnone, Hc.
      - apply Forall_cons in Hnone as [Hk Hnone]. apply NoDup_cons in Hnd as [Hkn Hnd]. cbn in Hk, Hkn.
        eexists. split; [apply config_line_spec; split_and!; [lia|done|]; by exists (Some (k, v))|]. cbn.
        split_and!; [|done|].
        + rewrite Forall_forall in Hnone |- *. intros k' Hk'. apply lookup_insert_None. split; [by apply Hnone|].
          intros ->. done.
        + rewrite Hc, <- insert_union_l, <- insert_union_r; [done|]. by apply not_elem_of_list_to_map_1.
      - exists config. split; [|done]. apply config_line_spec. split_and!; [lia|done|]. by exists None. }
    destruct Hstep as (config1 & -> & H1 & H2 & H3). cbn. apply IH; [lia|]. split; [lia|]. split; [done|]. eauto.
Qed.

Lemma config_parse_exact text origin config :
  config_parse text origin = Val config <->
  is_valid_utf8 (str_bytes text) = true /\ zlen (lines_of (str_bytes text)) <= kMaxConfigLines /\
  Forall (fun line => zlen line <= kMaxConfigLineLength) (lines_of (str_bytes text)) /\
  exists bs, Forall2 line_says (lines_of (str_bytes text)) bs /\ NoDup (bindings bs).*1 /\
    cf_values config = list_to_map (bindings bs).
Proof.
  rewrite config_parse_lines. destruct (is_valid_utf8 _); [|by split; [|intros []]].
  rewrite config_lines_spec by (unfold kMaxConfigLines; lia). cbn [cf_values config_empty].
  setoid_rewrite map_union_empty. split.
  - intros (Hn & Hl & bs & Hbs & Hnd & _ & Hc). eauto 10.
  - intros (_ & Hn & Hl & bs & Hbs & Hnd & Hc). split; [lia|]. split; [done|]. exists bs. split_and!; [done..| |done].
    apply Forall_forall. intros k _. apply lookup_empty.
Qed.

(** C33. [Config::parse] accepts exactly the texts that are valid UTF-8, have at most 512 lines of at most 4096 bytes,
    of which every line is blank, a comment or one binding of a valid key to a non-empty value of at most 512 bytes,
    and no key is bound twice; the configuration then holds exactly the bindings of the lines. *)
Theorem config_parse_spec text origin config :
  config_parse text origin = Val config <->
  is_valid_utf8 (str_bytes text) = true /\ zlen (lines_of (str_bytes text)) <= kMaxConfigLines /\
  Forall (fun line => zlen line <= kMaxConfigLineLength) (lines_of (str_bytes text)) /\
  exists bs, Forall2 line_says (lines_of (str_bytes text)) bs /\ NoDup (bindings bs).*1 /\
    cf_values config = list_to_map (bindings bs).
Proof. apply config_parse_exact. Qed.

(** ** Printing and parsing again *)
Definition config_text (config : ConfigFile) : string :=
  bytes_str (concat ((fun e => str_bytes (fst e) ++ str_bytes " = " ++ str_bytes (snd e) ++ [newline]) <$> config_entries config)).

(** What a value of a file can be: not empty, bounded, valid, on one line and without blanks around it. *)
Definition file_value (v : bytes) : Prop :=
  v <> [] /\ zlen v <= limits.kMaxStringField /\ utf8_text v /\ (newline ∉ v) /\ trim v = v.
Definition file_config (config : ConfigFile) : Prop :=
  (size (cf_values config) < Z.to_nat kMaxConfigLines)%nat /\
  map_Forall (fun k v => valid_key (str_bytes k) = true /\ file_value (str_bytes v)) (cf_values config).

Lemma drop_blanks_head text : match drop_blanks text with [] => True | c :: _ => is_blank c = false end.
Proof. induction text as [|c text IH]; cbn; [done|]. by destruct (is_blank c) eqn:E. Qed.
Lemma drop_blanks_id c text : is_blank c = false -> drop_blanks (c :: text) = c :: text.
Proof. intros H. cbn. by rewrite H. Qed.
Lemma drop_blanks_snoc text c : is_blank c = false -> drop_blanks (text ++ [c]) = drop_blanks text ++ [c].
Proof. intros H. induction text as [|x text IH]; cbn; [by rewrite H|]. by destruct (is_blank x). Qed.

(** A text whose two ends are not blank stays as it is. *)
Lemma trim_ends c text d : is_blank c = false -> is_blank d = false -> trim (c :: text ++ [d]) = c :: text ++ [d].
Proof.
  intros Hc Hd. unfold trim. rewrite drop_blanks_id by done.
  change (c :: text ++ [d]) with ((c :: text) ++ [d]). rewrite rev_app_distr. cbn [rev app].
  rewrite drop_blanks_id by done. cbn [rev]. by rewrite rev_app_distr, rev_involutive.
Qed.

Lemma trim_one c : is_blank c = false -> trim [c] = [c].
Proof. intros H. unfold trim. rewrite drop_blanks_id by done. cbn [rev app]. rewrite drop_blanks_id by done. done. Qed.

Lemma trim_fixed text :
  trim text = text <-> match head text with None => True | Some c => is_blank c = false end /\
                       match last text with None => True | Some c => is_blank c = false end.
Proof.
  split.
  - intros H. split.
    + destruct text as [|c text]; [done|]. cbn [head]. destruct (is_blank c) eqn:E; [|done].
      apply (f_equal length) in H. unfold trim in H. rewrite length_rev in H.
      assert (Hl : forall t, (length (drop_blanks t) <= length t)%nat)
        by (intros t; induction t as [|x t IH]; cbn; [lia|]; destruct (is_blank x); cbn; lia).
      pose proof (Hl (rev (drop_blanks (c :: text)))) as H1. cbn [drop_blanks] in H, H1. rewrite E in H, H1. rewrite length_rev in H1.
      pose proof (Hl text). cbn [length] in H. lia.
    + unfold trim in H. pose proof (drop_blanks_head (rev (drop_blanks text))) as Hh.
      destruct (drop_blanks (rev (drop_blanks text))) as [|c t]; cbn [rev] in H; rewrite <- H; [done|]. by rewrite last_snoc.
  - destruct text as [|c text]; [done|]. cbn [head]. intros [Hc Hl].
    destruct text as [|d text _] using rev_ind; [by apply trim_one|].
    change (c :: text ++ [d]) with ((c :: text) ++ [d]) in Hl. rewrite last_snoc in Hl. by apply trim_ends.
Qed.

Lemma str_bytes_app s t : str_bytes (s ++ t)%string = str_bytes s ++ str_bytes t.
Proof. induction s as [|c s IH]; [done|]. exact (f_equal (cons c) IH). Qed.
Lemma split_on_plain separator piece : (separator ∉ piece) -> split_on separator piece = [piece].
Proof.
  induction piece as [|c piece IH]; intros Hn; [done|]. apply not_elem_of_cons in Hn as [Hc Hn]. cbn [split_on].
  case_decide; [done|]. by rewrite IH.
Qed.
Lemma split_on_snoc separator piece rest :
  (separator ∉ piece) -> split_on separator (piece ++ separator :: rest) = piece :: split_on separator rest.
Proof.
  induction piece as [|c piece IH]; intros Hn; cbn [app split_on].
  - by rewrite decide_True.
  - apply not_elem_of_cons in Hn as [Hc Hn]. rewrite decide_False by done. by rewrite IH.
Qed.
Lemma lines_of_concat {A} (f : A -> bytes) (l : list A) :
  Forall (fun x => newline ∉ f x) l -> lines_of (concat ((fun x => f x ++ [newline]) <$> l)) = (f <$> l) ++ [[]].
Proof.
  induction 1 as [|x l Hx _ IH]; [done|]. cbn [fmap list_fmap concat app].
  rewrite <- app_assoc. cbn [app]. rewrite split_on_snoc by done. by rewrite IH.
Qed.

Lemma key_char_range c : key_char c = true -> 45 <= byte_val c <= 122 /\ is_blank c = false /\ c <> equals_sign.
Proof.
  unfold key_char, is_digit, is_blank. intros H.
  assert (Hr : 45 <= byte_val c <= 122 /\ byte_val c <> 61) by (repeat (apply orb_true_iff in H as [H|H]); bool_prop; lia).
  split; [lia|]. split; [destruct Hr as [Hr _]; repeat (apply orb_false_iff; split); apply Z.eqb_neq; lia|].
  intros ->. by destruct Hr as [_ []].
Qed.

Lemma valid_key_spec key :
  valid_key key = true <-> key <> [] /\ zlen key <= 64 /\ Forall (fun c => key_char c = true) key.
Proof.
  unfold valid_key. rewrite List.Forall_forall, <- forallb_forall.
  case_bool_decide; cbn [orb]; [by split; [|intros []]|].
  destruct (Z.ltb_spec 64 (zlen key)); [split; [done|intros (_ & ? & _); lia]|].
  split; [done|]. by intros (_ & _ & ?).
Qed.

Lemma key_trim key : Forall (fun c => key_char c = true) key -> trim key = key.
Proof.
  intros H. apply trim_fixed. rewrite Forall_forall in H. split.
  - destruct key as [|c key]; [done|]. by apply key_char_range, H, elem_of_cons; left.
  - destruct (last key) as [c|] eqn:E; [|done]. apply last_Some in E as (l & ->).
    by apply key_char_range, H, elem_of_app; right; apply list_elem_of_singleton.
Qed.

Lemma trim_app_blank text : trim (text ++ [byte_of 32]) = trim text.
Proof.
  assert (H : forall l, drop_blanks (l ++ [byte_of 32]) = drop_blanks l ++ [byte_of 32] \/
                        (drop_blanks l = [] /\ drop_blanks (l ++ [byte_of 32]) = [])).
  { induction l as [|c l IH]; cbn [app drop_blanks]; [by right|]. destruct (is_blank c); [done|by left]. }
  unfold trim. destruct (H text) as [-> | [-> ->]]; [|done]. rewrite rev_app_distr. done.
Qed.
Lemma trim_cons_blank text : trim (byte_of 32 :: text) = trim text.
Proof. done. Qed.

(** The line that [config_text] writes for an entry says that entry. *)
Lemma entry_line_says (k v : string) :
  valid_key (str_bytes k) = true -> file_value (str_bytes v) ->
  line_says (str_bytes k ++ str_bytes " = " ++ str_bytes v) (Some (k, v)).
Proof.
  intros Hk (Hv & Hlen & _ & _ & Ht). apply valid_key_spec in Hk as (Hne & Hkl & Hall).
  set (line := str_bytes k ++ str_bytes " = " ++ str_bytes v).
  assert (Hline : trim line = (str_bytes k ++ [byte_of 32]) ++ equals_sign :: byte_of 32 :: str_bytes v).
  { transitivity line; [|unfold line; by rewrite <- app_assoc]. apply trim_fixed. unfold line. split.
    - destruct (str_bytes k) as [|c t]; [done|]. by apply key_char_range; inversion Hall.
    - apply trim_fixed in Ht as [_ Ht]. rewrite app_assoc, last_app.
      destruct (str_bytes v) as [|c t] using rev_ind; [done|]. by rewrite last_snoc in *. }
  assert (Hkt : trim (str_bytes k ++ [byte_of 32]) = str_bytes k) by (rewrite trim_app_blank; by apply key_trim).
  replace (Some (k, v)) with (Some (bytes_str (trim (str_bytes k ++ [byte_of 32])), bytes_str (trim (byte_of 32 :: str_bytes v))))
    by (by rewrite Hkt, trim_cons_blank, Ht, !bytes_str_bytes).
  econstructor; [exact Hline|..].
  - rewrite elem_of_app, list_elem_of_singleton. intros [Hin|Hin]; [|done]. rewrite Forall_forall in Hall.
    by apply Hall, key_char_range in Hin as (_ & _ & []).
  - rewrite Hline. destruct (str_bytes k) as [|c t]; [done|]. cbn [app head]. intros [= ->].
    inversion Hall as [|? ? Hc]. done.
  - rewrite Hkt. by apply valid_key_spec.
  - by rewrite trim_cons_blank, Ht.
  - by rewrite trim_cons_blank, Ht.
Qed.

Lemma utf8_text_app l r : utf8_text l -> utf8_text r -> utf8_text (l ++ r).
Proof.
  intros (cl & Hl & ->) (cr & Hr & ->). exists (cl ++ cr). split; [by apply Forall_app|]. by rewrite fmap_app, concat_app.
Qed.
Lemma utf8_text_concat ls : Forall utf8_text ls -> utf8_text (concat ls).
Proof. induction 1 as [|l ls Hl _ IH]; [by exists []|]. by apply utf8_text_app. Qed.

Lemma key_no_newline key : Forall (fun c => key_char c = true) key -> newline ∉ key.
Proof. intros H Hin. rewrite Forall_forall in H. apply H, key_char_range in Hin as [Hin _]. by destruct Hin as [[]]. Qed.

Lemma file_config_entries config :
  file_config config ->
  Forall (fun e => valid_key (str_bytes e.1) = true /\ file_value (str_bytes e.2)) (config_entries config).
Proof. intros [_ H]. apply Forall_forall. intros [k v] Hin. apply elem_of_entries in Hin. exact (H k v Hin). Qed.

Lemma bindings_entries (l : list (string * string)) : bindings ((Some <$> l) ++ [None]) = l.
Proof. induction l as [|x l IH]; cbn; [done|]. by f_equal. Qed.

Lemma entry_line_short (k v : string) :
  valid_key (str_bytes k) = true -> file_value (str_bytes v) ->
  zlen (str_bytes k ++ str_bytes " = " ++ str_bytes v) <= kMaxConfigLineLength.
Proof.
  intros (_ & Hk & _)%valid_key_spec (_ & Hv & _). rewrite !zlen_app. change (zlen (str_bytes " = ")) with 3.
  unfold kMaxConfigLineLength, limits.kMaxStringField in *. lia.
Qed.

(** Round trip: a configuration of at most 511 entries with valid keys and values that can stand in a file is read
    back unchanged from the text with one line "key = value" for each entry. *)
Theorem config_roundtrip config origin : file_config config -> config_parse (config_text config) origin = Val config.
Proof.
  intros H. pose proof (file_config_entries _ H) as He. destruct H as [Hsize _].
  set (line (e : string * string) := str_bytes e.1 ++ str_bytes " = " ++ str_bytes e.2).
  assert (Htext : str_bytes (config_text config) = concat ((fun e => line e ++ [newline]) <$> config_entries config)).
  { unfold config_text. rewrite str_bytes_str. f_equal. apply list_fmap_ext. intros _ e _. unfold line. by rewrite <- !app_assoc. }
  assert (Hlines : lines_of (str_bytes (config_text config)) = (line <$> config_entries config) ++ [[]]).
  { rewrite Htext. apply lines_of_concat. eapply Forall_impl; [exact He|]. intros e [Hk (_ & _ & _ & Hv & _)].
    apply valid_key_spec in Hk as (_ & _ & Hk%key_no_newline). unfold line. rewrite !elem_of_app.
    intros [Hin|[Hin|Hin]]; [done| |done]. repeat (apply elem_of_cons in Hin as [Hin|Hin]; [done|]). set_solver. }
  apply config_parse_exact. rewrite Hlines. split_and!.
  - apply is_valid_utf8_spec. rewrite Htext. apply utf8_text_concat, Forall_fmap. eapply Forall_impl; [exact He|].
    intros e [(_ & _ & Hk)%valid_key_spec (_ & _ & Hv & _)]. unfold line, compose. rewrite <- app_assoc.
    repeat apply utf8_text_app; try done; apply is_valid_utf8_spec; [|done..]. apply ascii_text_valid.
    eapply Forall_impl; [exact Hk|]. intros c Hc%key_char_range. lia.
  - unfold zlen. rewrite length_app, length_fmap. unfold config_entries. rewrite length_entries. cbn [length].
    unfold kMaxConfigLines in *. lia.
  - apply Forall_app. split; [|by repeat constructor]. apply Forall_fmap. eapply Forall_impl; [exact He|].
    intros e [Hk Hv]. by apply entry_line_short.
  - exists ((Some <$> config_entries config) ++ [None]). rewrite bindings_entries. split_and!.
    + apply Forall2_app; [|by repeat constructor]. apply Forall2_fmap, Forall_Forall2_diag. eapply Forall_impl; [exact He|].
      intros [k v] [Hk Hv]. by apply entry_line_says.
    + apply entries_keys_NoDup.
    + symmetry. apply list_to_map_entries.
Qed.

Definition sample_config_file : ConfigFile := mkConfigFile (<["name" := "a = b"]> {["listen.port" := "7000"]})%string.
Lemma sample_config_file_ok : file_config sample_config_file.
Proof.
  split; [vm_compute; lia|].
  apply map_Forall_insert_2; [|apply map_Forall_singleton]; (split; [reflexivity|]); split_and!; try done;
    [apply is_valid_utf8_spec; reflexivity|set_solver|apply is_valid_utf8_spec; reflexivity|set_solver].
Qed.
Lemma config_roundtrip_witness : config_parse (config_text sample_config_file) "f" = Val sample_config_file.
Proof. exact (config_roundtrip sample_config_file "f" sample_config_file_ok). Defined.

(** ** Numbers *)
Lemma digit_range c : is_digit c = true -> 48 <= byte_val c <= 57.
Proof. unfold is_digit. intros H. bool_prop. lia. Qed.

(** One digit, both ways the code tests it for overflow. *)
Lemma push_digit v c :
  is_u64 v -> is_digit c = true ->
  (mul_u64 v 10 ≫= fun v => add_u64 v (byte_val c - 48)) =
  if (u64_max - (byte_val c - 48)) / 10 <? v then None else Some (v * 10 + (byte_val c - 48)).
Proof.
  intros Hv Hc%digit_range. unfold is_u64 in Hv. rewrite mul_u64_spec by (unfold is_u64, u64_max in *; lia).
  destruct (Z.ltb_spec ((u64_max - (byte_val c - 48)) / 10) v) as [H|H]; (case_decide; cbn [mbind option_bind]; [|try done]).
  - rewrite add_u64_spec by (unfold is_u64, u64_max in *; lia). rewrite decide_False; [done|]. unfold u64_max in *. dlia.
  - rewrite add_u64_spec by (unfold is_u64, u64_max in *; lia). rewrite decide_True; [done|]. unfold u64_max in *. dlia.
  - unfold u64_max in *. exfalso. dlia.
Qed.

(** The two decimal loops of the code differ in the overflow test and in the messages. *)
Lemma parse_loops_agree v text :
  is_u64 v ->
  match counter_parse_loop v text, parse_u64_loop v text with
  | Val a, Val b => a = b
  | Err s, Err t => st_outcome s = st_outcome t
  | _, _ => False
  end.
Proof.
  revert v. induction text as [|c text IH]; intros v Hv; cbn [counter_parse_loop parse_u64_loop]; [done|].
  destruct (is_digit c) eqn:Hc; cbn [negb]; [|done]. rewrite push_digit by done.
  destruct (Z.ltb_spec ((u64_max - (byte_val c - 48)) / 10) v) as [H|H]; [done|]. apply IH.
  apply digit_range in Hc. unfold is_u64, u64_max in *. dlia.
Qed.

Lemma parse_u64_loop_digits v text :
  is_u64 v -> digits_text text ->
  parse_u64_loop v text =
  if base.decide (decimal_from v text <= u64_max) then Val (decimal_from v text)
  else fail Outcome_Overflow "integer does not fit in 64 bits".
Proof.
  intros Hv Hd. revert v Hv. induction Hd as [|c text Hc Hd IH]; intros v Hv; cbn [parse_u64_loop foldl].
  { unfold is_u64 in Hv. by rewrite decide_True by lia. }
  rewrite Hc. cbn [negb]. rewrite push_digit by done. pose proof (digit_range c Hc).
  destruct (Z.ltb_spec ((u64_max - (byte_val c - 48)) / 10) v) as [H1|H1]; [|apply IH; unfold is_u64, u64_max in *; dlia].
  rewrite decide_False; [done|].
  pose proof (decimal_value_ge text (v * 10 + (byte_val c - 48)) Hd ltac:(unfold is_u64 in *; lia)). unfold u64_max in *. dlia.
Qed.

Lemma parse_u64_loop_val v text n : parse_u64_loop v text = Val n -> digits_text text.
Proof.
  revert v. induction text as [|c text IH]; intros v H; [constructor|]. cbn [parse_u64_loop] in H.
  destruct (is_digit c) eqn:Hc; [|done]. cbn [negb] in H. destruct (mul_u64 v 10 ≫= _); [|done]. constructor; [done|by eapply IH].
Qed.

(** [parse_u64] reads exactly the non-empty decimal numerals of 64-bit values: it returns their value; a numeral
    that is too large is an overflow, never a wrapped value; and anything else is not accepted. *)
Theorem parse_u64_spec text :
  (forall n, parse_u64 text = Val n <-> text <> [] /\ digits_text text /\ n = decimal_value text /\ n <= u64_max) /\
  (text <> [] -> digits_text text -> u64_max < decimal_value text ->
   parse_u64 text = fail Outcome_Overflow "integer does not fit in 64 bits").
Proof.
  assert (H0 : is_u64 0) by (unfold is_u64, u64_max; lia). unfold parse_u64. case_bool_decide as Hne.
  { split; [|done]. intros n. split; [done|]. by intros [? _]. }
  split.
  - intros n. split.
    + intros H. pose proof (parse_u64_loop_val _ _ _ H) as Hd. rewrite parse_u64_loop_digits in H by done.
      case_decide; [|done]. injection H as <-. done.
    + intros (_ & Hd & -> & Hle). rewrite parse_u64_loop_digits by done. by rewrite decide_True.
  - intros _ Hd Hlt. rewrite parse_u64_loop_digits by done. rewrite decide_False; [done|]. unfold decimal_value in Hlt. lia.
Qed.

Lemma parse_u64_nonneg text n : parse_u64 text = Val n -> is_u64 n.
Proof.
  unfold parse_u64. case_bool_decide as Hne; [done|]. intros H. pose proof (parse_u64_loop_val _ _ _ H) as Hd.
  rewrite parse_u64_loop_digits in H by (done || (unfold is_u64, u64_max; lia)). case_decide; [|done]. injection H as <-.
  split; [|done]. by apply decimal_value_ge.
Qed.

(** *** Printing numbers *)
Lemma decimal_from_snoc v text d : decimal_from v (text ++ [d]) = decimal_from v text * 10 + (byte_val d - 48).
Proof. by rewrite foldl_app. Qed.

Lemma dec_digit_val v : 0 <= v < 10 -> byte_val (dec_digit v) = 48 + v /\ is_digit (dec_digit v) = true.
Proof.
  intros H. unfold dec_digit, is_digit. rewrite byte_val_of, Z.mod_small by lia. split; [done|].
  apply andb_true_iff. split; apply Z.leb_le; lia.
Qed.

Lemma dec_loop_spec fuel v :
  0 <= v < 10 ^ Z.of_nat fuel -> (0 < fuel)%nat ->
  digits_text (dec_loop fuel v) /\ decimal_value (dec_loop fuel v) = v /\ dec_loop fuel v <> [].
Proof.
  revert v. induction fuel as [|fuel IH]; intros v Hv Hf; [lia|]. cbn [dec_loop].
  destruct (Z.ltb_spec v 10) as [H|H].
  - destruct (dec_digit_val v) as [Hd1 Hd2]; [lia|]. split; [by repeat constructor|]. split; [|done].
    unfold decimal_value. cbn [foldl]. rewrite Hd1. lia.
  - rewrite Nat2Z.inj_succ, Z.pow_succ_r in Hv by lia. destruct fuel as [|fuel]; [cbn in Hv; lia|].
    destruct (IH (v / 10)) as (H1 & H2 & H3); [dlia|lia|]. destruct (dec_digit_val (v mod 10)) as [Hd1 Hd2]; [dlia|].
    split; [apply Forall_app; split; [done|by repeat constructor]|]. split; [|by destruct (dec_loop (S fuel) (v / 10))].
    unfold decimal_value in *. rewrite decimal_from_snoc, H2, Hd1. dlia.
Qed.

Lemma parse_u64_dec n : is_u64 n -> parse_u64 (dec_unsigned n) = Val n.
Proof.
  intros Hn. destruct (dec_loop_spec 20 n) as (Hd & Hv & Hne); [unfold is_u64, u64_max in Hn; cbn; lia|lia|].
  unfold parse_u64, dec_unsigned. rewrite bool_decide_eq_false_2 by done.
  rewrite parse_u64_loop_digits by (done || (unfold is_u64, u64_max; lia)). unfold decimal_value in Hv. rewrite Hv.
  unfold is_u64 in Hn. by rewrite decide_True by lia.
Qed.

(** Round trip: every 64-bit value is read back from its decimal form, with [parse_i64] also the negative ones
    down to the smallest, whose magnitude is not a signed value. *)
Theorem numbers_roundtrip n :
  (is_u64 n -> parse_u64 (dec_unsigned n) = Val n) /\ (is_i64 n -> parse_i64 (dec_signed n) = Val n).
Proof.
  split; [apply parse_u64_dec|]. intros Hn. unfold is_i64, i64_min, i64_max in Hn.
  unfold dec_signed. destruct (Z.ltb_spec n 0) as [H|H].
  - unfold parse_i64. change (byte_val (byte_of 45) =? 45) with true. cbv iota zeta.
    rewrite parse_u64_dec by (unfold is_u64, u64_max; lia). cbn [mbind Result_bind].
    destruct (Z.ltb_spec (i64_max + 1) (- n)); [unfold i64_max in *; lia|].
    destruct (Z.eqb_spec (- n) (i64_max + 1)); [unfold i64_max, i64_min in *; f_equal; lia|]. f_equal. lia.
  - destruct (dec_loop_spec 20 n) as (Hd & _ & Hne); [cbn; lia|lia|].
    pose proof (parse_u64_dec n ltac:(unfold is_u64, u64_max; lia)) as Hp. unfold dec_unsigned in *.
    destruct (dec_loop 20 n) as [|c rest]; [done|]. inversion Hd as [|? ? Hc _]; subst. apply digit_range in Hc. unfold parse_i64.
    destruct (Z.eqb_spec (byte_val c) 45); [lia|]. destruct (Z.eqb_spec (byte_val c) 43); [lia|].
    rewrite Hp. cbn [mbind Result_bind]. destruct (Z.ltb_spec i64_max n); [unfold i64_max in *; lia|]. done.
Qed.

Lemma numbers_roundtrip_witness :
  parse_u64 (dec_unsigned u64_max) = Val u64_max /\ parse_i64 (dec_signed i64_min) = Val i64_min.
Proof.
  split; [apply (proj1 (numbers_roundtrip u64_max)); unfold is_u64, u64_max; lia|].
  apply (proj2 (numbers_roundtrip i64_min)). unfold is_i64, i64_min, i64_max. lia.
Defined.

(** The typed accessors do not tell a malformed value from a missing one: with a fallback, a value that is present
    but is not a number or a truth value gives the fallback, without an error. *)
Theorem malformed_is_missing key value config :
  cf_values config !! key = Some value ->
  (forall fallback, ~ (exists n, parse_u64 (str_bytes value) = Val n) -> get_u64_or key fallback config = fallback) /\
  (forall fallback, ~ (exists b, parse_bool value = Val b) -> get_bool_or key fallback config = fallback).
Proof.
  intros H. unfold get_u64_or, get_u64, get_bool_or, get_bool, get_string. rewrite H. cbn [mbind Result_bind].
  split; intros fallback Hn; [destruct (parse_u64 _)|destruct (parse_bool _)]; try done; exfalso; eauto.
Qed.
