(* ===== verification/Rng.v ===== *)
(** * The random source

    Models include/icf/core/rng.hpp and src/core/rng.cpp: the seeding with splitmix64, the xoshiro256** step, bounded
    sampling by rejection, filling a buffer, and [Uuid::random] of src/core/ids.cpp. The seed itself comes from the
    operating system and is an argument. In the daemons a random identifier is an answer of the world
    ([random_uuid]); this file is about what the generator makes of a seed. *)
From S2P Require Import Prelude Status Utf8 Bytes Ids.

(** Arithmetic of [std::uint64_t]. *)
Definition w64 (z : Z) : Z := z mod 2 ^ 64.

(** [splitmix64]: the advanced state and the output. *)
Definition splitmix_gamma : Z := 0x9E3779B97F4A7C15.
Definition splitmix_mix (state : Z) : Z :=
  let z := w64 (Z.lxor state (Z.shiftr state 30) * 0xBF58476D1CE4E5B9) in
  let z := w64 (Z.lxor z (Z.shiftr z 27) * 0x94D049BB133111EB) in
  Z.lxor z (Z.shiftr z 31).
Definition splitmix64 (state : Z) : Z * Z :=
  let state := w64 (state + splitmix_gamma) in (state, splitmix_mix state).

Definition rotl (value shift : Z) : Z := Z.lor (w64 (Z.shiftl value shift)) (Z.shiftr value (64 - shift)).

Record Rng := mkRng { rng_0 : Z; rng_1 : Z; rng_2 : Z; rng_3 : Z; rng_seed : Z }.

Definition rng_new (seed : Z) : Rng :=
  let s1 := splitmix64 seed in
  let s2 := splitmix64 s1.1 in
  let s3 := splitmix64 s2.1 in
  let s4 := splitmix64 s3.1 in
  mkRng s1.2 s2.2 s3.2 s4.2 seed.

Definition next_u64 (r : Rng) : Z * Rng :=
  let result := w64 (rotl (w64 (rng_1 r * 5)) 7 * 9) in
  let t := w64 (Z.shiftl (rng_1 r) 17) in
  let s2 := Z.lxor (rng_2 r) (rng_0 r) in
  let s3 := Z.lxor (rng_3 r) (rng_1 r) in
  let s1 := Z.lxor (rng_1 r) s2 in
  let s0 := Z.lxor (rng_0 r) s3 in
  let s2 := Z.lxor s2 t in
  let s3 := rotl s3 45 in
  (result, mkRng s0 s1 s2 s3 (rng_seed r)).

Definition next_u32 (r : Rng) : Z * Rng := let '(v, r) := next_u64 r in (Z.shiftr v 32, r).

(** The rejection loop; [None] is a loop that has not ended yet. *)
Definition below_threshold (bound : Z) : Z := w64 (0 - bound) mod bound.
Fixpoint below_loop (fuel : nat) (bound : Z) (r : Rng) : option (Z * Rng) :=
  match fuel with
  | O => None
  | S fuel =>
      let '(value, r) := next_u64 r in
      if below_threshold bound <=? value then Some (value mod bound, r) else below_loop fuel bound r
  end.
Definition below (fuel : nat) (bound : Z) (r : Rng) : option (Z * Rng) :=
  if bound <=? 1 then Some (0, r) else below_loop fuel bound r.

Definition range (fuel : nat) (low high : Z) (r : Rng) : option (Z * Rng) :=
  if high <=? low then Some (low, r)
  else '(v, r) ← below fuel (w64 (w64 (high - low) + 1)) r; Some (w64 (low + v), r).

(** The bytes of one word, least significant first. *)
Fixpoint word_bytes (n : nat) (value : Z) : bytes :=
  match n with
  | O => []
  | S n => byte_of (Z.land value 255) :: word_bytes n (Z.shiftr value 8)
  end.

(** [Rng::fill]: the outer loop runs while bytes are missing; one turn writes up to eight of them. *)
Fixpoint fill_loop (fuel missing : nat) (r : Rng) : option (bytes * Rng) :=
  match missing with
  | O => Some ([], r)
  | _ =>
      match fuel with
      | O => None
      | S fuel =>
          let '(value, r) := next_u64 r in
          let n := Nat.min 8 missing in
          '(rest, r) ← fill_loop fuel (missing - n) r; Some (word_bytes n value ++ rest, r)
      end
  end.
Definition fill_random (count : nat) (r : Rng) : bytes * Rng := default ([], r) (fill_loop count count r).

(** [Rng::state_string]: sixteen hexadecimal digits for each word. *)
Definition word_hex (word : Z) : bytes :=
  (fun i => hex_digit (Z.land (Z.shiftr word (60 - 4 * Z.of_nat i)) 15)) <$> seq 0 16.
Definition state_string (r : Rng) : string :=
  bytes_str (word_hex (rng_0 r) ++ word_hex (rng_1 r) ++ word_hex (rng_2 r) ++ word_hex (rng_3 r)).

(** [Uuid::random] *)
Definition set_version (raw : bytes) : bytes :=
  let b6 := default (byte_of 0) (raw !! 6%nat) in
  let b8 := default (byte_of 0) (raw !! 8%nat) in
  <[8%nat := byte_of (Z.lor (Z.land (byte_val b8) 0x3F) 0x80)]>
    (<[6%nat := byte_of (Z.lor (Z.land (byte_val b6) 0x0F) 0x40)]> raw).
Definition uuid_random (r : Rng) : string * Rng :=
  let '(raw, r) := fill_random 16 r in (bytes_str (set_version raw), r).

(** ** The state stays in range *)
Lemma w64_range z : 0 <= w64 z < 2 ^ 64.
Proof. apply Z.mod_pos_bound. lia. Qed.
Lemma w64_small z : 0 <= z < 2 ^ 64 -> w64 z = z.
Proof. apply Z.mod_small. Qed.

Lemma bits_range z : 0 <= z -> (forall i, 64 <= i -> Z.testbit z i = false) -> z < 2 ^ 64.
Proof.
  intros Hz H. destruct (Z.lt_ge_cases z (2 ^ 64)) as [|Hge]; [done|].
  assert (0 < z) by lia. pose proof (Z.log2_le_pow2 z 64 ltac:(lia)) as [H1 _]. specialize (H1 Hge).
  specialize (H (Z.log2 z) H1). by rewrite Z.bit_log2 in H by lia.
Qed.

Lemma range_bits z i : 0 <= z < 2 ^ 64 -> 64 <= i -> Z.testbit z i = false.
Proof.
  intros Hz Hi. destruct (Z.eq_dec z 0) as [->|Hn]; [apply Z.bits_0|]. apply Z.bits_above_log2; [lia|].
  apply Z.lt_le_trans with 64; [|done]. apply Z.log2_lt_pow2; lia.
Qed.

Lemma lxor_range a b : 0 <= a < 2 ^ 64 -> 0 <= b < 2 ^ 64 -> 0 <= Z.lxor a b < 2 ^ 64.
Proof.
  intros Ha Hb. assert (H : 0 <= Z.lxor a b) by (apply Z.lxor_nonneg; lia). split; [done|]. apply bits_range; [done|].
  intros i Hi. by rewrite Z.lxor_spec, !range_bits.
Qed.
Lemma lor_range a b : 0 <= a < 2 ^ 64 -> 0 <= b < 2 ^ 64 -> 0 <= Z.lor a b < 2 ^ 64.
Proof.
  intros Ha Hb. assert (H : 0 <= Z.lor a b) by (apply Z.lor_nonneg; lia). split; [done|]. apply bits_range; [done|].
  intros i Hi. by rewrite Z.lor_spec, !range_bits.
Qed.
Lemma shiftr_range a k : 0 <= a < 2 ^ 64 -> 0 <= k -> 0 <= Z.shiftr a k < 2 ^ 64.
Proof. intros Ha Hk. rewrite Z.shiftr_div_pow2 by done. assert (0 < 2 ^ k) by (apply Z.pow_pos_nonneg; lia). split; [apply Z.div_pos; lia|].
  apply Z.le_lt_trans with a; [|lia]. apply Z.div_le_upper_bound; [lia|]. nia.
Qed.
Lemma rotl_range a k : 0 <= a < 2 ^ 64 -> 0 <= k <= 64 -> 0 <= rotl a k < 2 ^ 64.
Proof. intros Ha Hk. apply lor_range; [apply w64_range|apply shiftr_range; lia]. Qed.

Definition word_ok (z : Z) : Prop := 0 <= z < 2 ^ 64.
Definition rng_ok (r : Rng) : Prop := word_ok (rng_0 r) /\ word_ok (rng_1 r) /\ word_ok (rng_2 r) /\ word_ok (rng_3 r).

Lemma next_u64_ok r : rng_ok r -> rng_ok (next_u64 r).2 /\ word_ok (next_u64 r).1.
Proof.
  intros (H0 & H1 & H2 & H3). unfold word_ok in *. split; [|apply w64_range].
  unfold rng_ok, word_ok. cbn [rng_0 rng_1 rng_2 rng_3 next_u64 snd].
  refine (conj _ (conj _ (conj _ _))); repeat apply lxor_range; try apply rotl_range; repeat apply lxor_range;
    try done; try apply w64_range; lia.
Qed.

(** ** The state is never all zero *)
Lemma lxor_shiftr_inj a b k :
  word_ok a -> word_ok b -> 0 < k -> Z.lxor a (Z.shiftr a k) = Z.lxor b (Z.shiftr b k) -> a = b.
Proof.
  intros Ha Hb Hk H. set (d := Z.lxor a b).
  assert (Hd : d = Z.shiftr d k).
  { unfold d. rewrite Z.shiftr_lxor. apply Z.bits_inj'. intros i _. apply (f_equal (fun z => Z.testbit z i)) in H.
    rewrite !Z.lxor_spec in *. by destruct (Z.testbit a i), (Z.testbit b i), (Z.testbit (Z.shiftr a k) i),
      (Z.testbit (Z.shiftr b k) i). }
  apply Z.lxor_eq. fold d. pose proof (lxor_range a b Ha Hb) as Hr. fold d in Hr.
  rewrite Z.shiftr_div_pow2 in Hd by lia. assert (2 <= 2 ^ k) by (change 2 with (2 ^ 1) at 1; apply Z.pow_le_mono_r; lia).
  destruct (Z.eq_dec d 0) as [|Hn]; [done|]. assert (d / 2 ^ k < d) by (apply Z.div_lt; lia). lia.
Qed.

Lemma odd_mul_inj a b c inverse :
  word_ok a -> word_ok b -> w64 (c * inverse) = 1 -> w64 (a * c) = w64 (b * c) -> a = b.
Proof.
  unfold w64. intros Ha Hb Hc H. rewrite <- (Z.mod_small a (2 ^ 64)), <- (Z.mod_small b (2 ^ 64)) by done.
  rewrite <- (Z.mul_1_r a), <- (Z.mul_1_r b), <- Hc, !Zmult_mod_idemp_r, !Z.mul_assoc.
  by rewrite <- (Zmult_mod_idemp_l (a * c)), H, Zmult_mod_idemp_l.
Qed.

Lemma splitmix_mix_inj a b : word_ok a -> word_ok b -> splitmix_mix a = splitmix_mix b -> a = b.
Proof.
  intros Ha Hb H. unfold splitmix_mix in H. apply lxor_shiftr_inj in H; [|apply w64_range..|lia].
  apply (odd_mul_inj _ _ _ 0x319642B2D24D8EC3) in H; [|by apply lxor_range; [apply w64_range|apply shiftr_range; [apply w64_range|]]..|done].
  apply lxor_shiftr_inj in H; [|apply w64_range..|lia].
  apply (odd_mul_inj _ _ _ 0x96DE1B173F119089) in H; [|by apply lxor_range; [|apply shiftr_range]..|done].
  by apply lxor_shiftr_inj in H.
Qed.

Definition rng_live (r : Rng) : Prop := ~ (rng_0 r = 0 /\ rng_1 r = 0 /\ rng_2 r = 0 /\ rng_3 r = 0).

Lemma rotl_zero a k : word_ok a -> 0 <= k <= 64 -> rotl a k = 0 -> a = 0.
Proof.
  unfold rotl, w64. intros Ha Hk [H1 H2]%Z.lor_eq_0_iff. rewrite Z.shiftr_div_pow2 in H2 by lia.
  rewrite Z.shiftl_mul_pow2 in H1 by lia. assert (0 < 2 ^ k) by (apply Z.pow_pos_nonneg; lia).
  assert (H64 : 2 ^ 64 = 2 ^ (64 - k) * 2 ^ k) by (rewrite <- Z.pow_add_r by lia; f_equal; lia).
  apply Z.div_small_iff in H2; [|apply Z.pow_nonzero; lia]. destruct H2 as [H2|H2]; [|unfold word_ok in Ha; lia].
  rewrite Z.mod_small in H1 by nia. nia.
Qed.

Lemma lxor_shiftl_zero a k : word_ok a -> 0 < k -> Z.lxor a (w64 (Z.shiftl a k)) = 0 -> a = 0.
Proof.
  intros Ha Hk H%Z.lxor_eq. apply Z.bits_inj'. intros i Hi. rewrite Z.bits_0. revert i Hi.
  apply (Zlt_0_ind (fun i => Z.testbit a i = false)). intros i IH Hi.
  destruct (Z.lt_ge_cases i 64); [|by apply range_bits]. rewrite H. unfold w64.
  rewrite Z.mod_pow2_bits_low by done. destruct (Z.lt_ge_cases i k); [by rewrite Z.shiftl_spec_low|].
  rewrite Z.shiftl_spec by done. apply IH; lia.
Qed.

Lemma next_u64_live r : rng_ok r -> rng_live r -> rng_live (next_u64 r).2.
Proof.
  intros (H0 & H1 & H2 & H3) Hlive. unfold rng_live in *. cbn [next_u64 snd rng_0 rng_1 rng_2 rng_3].
  intros (E0 & E1 & E2 & E3). apply Hlive.
  apply rotl_zero in E3; [|by apply lxor_range|lia]. rewrite E3, Z.lxor_0_r in E0.
  rewrite E0, Z.lxor_0_r in E1, E2. apply Z.lxor_eq in E1. rewrite <- E1 in E2.
  apply lxor_shiftl_zero in E2; [|done|lia]. apply Z.lxor_eq in E3. rewrite E2 in E1, E3. auto.
Qed.

Lemma splitmix_ok state : word_ok (splitmix64 state).1 /\ word_ok (splitmix64 state).2.
Proof.
  split; [apply w64_range|]. apply lxor_range; [apply w64_range|]. apply shiftr_range; [apply w64_range|lia].
Qed.

Lemma rng_new_ok seed : rng_ok (rng_new seed) /\ rng_live (rng_new seed).
Proof.
  unfold rng_new. cbv zeta. set (s1 := splitmix64 seed). set (s2 := splitmix64 s1.1). split.
  - repeat split; apply splitmix_ok.
  - unfold rng_live. cbn [rng_0 rng_1 rng_2 rng_3]. intros (E1 & E2 & _). assert (E : s1.2 = s2.2) by congruence. apply splitmix_mix_inj in E; [|apply w64_range..].
    change (s1.1 = w64 (s1.1 + splitmix_gamma)) in E. pose proof (proj1 (splitmix_ok seed)) as Hr. fold s1 in Hr.
    unfold word_ok in Hr. unfold w64, splitmix_gamma in E. generalize dependent (s1.1). intros x E Hr. dlia.
Qed.

(** The generator cannot get stuck: from every seed, after any number of draws, the four words of the state are
    64-bit values and are not all zero, the only state that xoshiro256** does not leave. *)
Theorem rng_never_stuck seed n :
  rng_ok (Nat.iter n (fun r => (next_u64 r).2) (rng_new seed)) /\ rng_live (Nat.iter n (fun r => (next_u64 r).2) (rng_new seed)).
Proof.
  induction n as [|n [IHo IHl]]; [apply rng_new_ok|]. rewrite !Nat.iter_succ. split; [by apply next_u64_ok|by apply next_u64_live].
Qed.

(** ** Bounded sampling *)
Lemma threshold_spec bound :
  1 < bound < 2 ^ 64 -> below_threshold bound = 2 ^ 64 mod bound /\ 0 <= below_threshold bound < bound /\
  2 * below_threshold bound < 2 ^ 64.
Proof.
  intros Hb. unfold below_threshold, w64.
  assert (H : (0 - bound) mod 2 ^ 64 = 2 ^ 64 - bound).
  { symmetry. apply (Z.mod_unique_pos _ _ (-1)); lia. }
  rewrite H. replace (2 ^ 64 - bound) with (2 ^ 64 + (-1) * bound) by lia. rewrite Z.mod_add by lia.
  pose proof (Z.mod_pos_bound (2 ^ 64) bound ltac:(lia)). split; [done|]. split; [lia|].
  pose proof (Z.div_mod (2 ^ 64) bound ltac:(lia)). assert (1 <= 2 ^ 64 / bound) by (apply Z.div_le_lower_bound; lia). nia.
Qed.

Lemma below_loop_spec fuel bound r v r' :
  1 < bound -> rng_ok r -> below_loop fuel bound r = Some (v, r') ->
  exists n value, (value, r') = next_u64 (Nat.iter n (fun r => (next_u64 r).2) r) /\ below_threshold bound <= value < 2 ^ 64 /\
    v = value mod bound.
Proof.
  intros Hb. revert r. induction fuel as [|fuel IH]; intros r Hr H; [done|]. cbn [below_loop] in H.
  destruct (next_u64 r) as [value r1] eqn:E. pose proof (next_u64_ok r Hr) as [Hr1 Hv]. rewrite E in Hr1, Hv. cbn in Hr1, Hv.
  destruct (Z.leb_spec (below_threshold bound) value) as [Hle|Hgt].
  - injection H as <- <-. exists 0%nat, value. cbn. unfold word_ok in Hv. split_and!; try done; lia.
  - destruct (IH r1 Hr1 H) as (n & w & Hn & Hw). exists (S n), w. split; [|done]. rewrite Nat.iter_succ_r. by rewrite E.
Qed.

(** [Rng::below] samples without bias: what it returns is a 64-bit draw that was not rejected, reduced modulo the
    bound; every result below the bound comes from the same number of accepted draws; and fewer than half of
    the draws are rejected. *)
Theorem below_unbiased bound :
  1 < bound < 2 ^ 64 ->
  (forall fuel r v r', rng_ok r -> below fuel bound r = Some (v, r') -> 0 <= v < bound) /\
  2 * below_threshold bound < 2 ^ 64 /\
  exists q, 0 < q /\ forall k, 0 <= k < bound -> exists first, forall value,
    (below_threshold bound <= value < 2 ^ 64 /\ value mod bound = k) <-> exists j, 0 <= j < q /\ value = first + j * bound.
Proof.
  intros Hb. destruct (threshold_spec bound Hb) as (Ht & Htr & Hhalf). split; [|split; [done|]].
  - intros fuel r v r' Hr H. unfold below in H. rewrite (proj2 (Z.leb_gt _ _)) in H by lia.
    destruct (below_loop_spec _ _ _ _ _ (proj1 Hb) Hr H) as (n & value & _ & _ & ->). apply Z.mod_pos_bound. lia.
  - pose proof (Z.div_mod (2 ^ 64) bound ltac:(lia)) as Hdiv. rewrite <- Ht in Hdiv.
    set (q := 2 ^ 64 / bound) in *. set (t := below_threshold bound) in *.
    exists q. split; [apply Z.div_str_pos; lia|]. intros k Hk. exists (t + (k - t) mod bound). intros value.
    pose proof (Z.mod_pos_bound (k - t) bound ltac:(lia)) as Hm. pose proof (Z.div_mod (k - t) bound ltac:(lia)) as Hd.
    split.
    + intros [Hv Hvk]. pose proof (Z.div_mod value bound ltac:(lia)) as Hvd. rewrite Hvk in Hvd.
      generalize dependent (value / bound). generalize dependent ((k - t) / bound). intros kq Hd vq Hvd.
      exists (vq + kq). assert (Hj : (vq + kq) * bound = value - t - (k - t) mod bound) by lia. split; [|lia].
      generalize dependent (vq + kq). intros j Hj. split; [|nia]. destruct (Z.lt_ge_cases j 0); [|done]. nia.
    + intros (j & Hj & ->). split; [nia|]. replace (t + (k - t) mod bound + j * bound) with (k + (j - (k - t) / bound) * bound) by nia.
      rewrite Z.mod_add by lia. by apply Z.mod_small.
Qed.

Lemma below_unbiased_witness : 2 * below_threshold 1000 < 2 ^ 64.
Proof. exact (proj1 (proj2 (below_unbiased 1000 ltac:(lia)))). Defined.

(** [range] stays in its interval, unless the interval is the whole of [0, 2^64): the computed bound is then zero. *)
Lemma range_bounds fuel low high r v r' :
  is_u64 low -> is_u64 high -> low <= high -> rng_ok r -> range fuel low high r = Some (v, r') -> low <= v <= high.
Proof.
  unfold is_u64, u64_max. intros Hl Hh Hle Hr H. unfold range in H. destruct (Z.leb_spec high low) as [Hhl|Hhl].
  { injection H as <- <-. lia. }
  rewrite (w64_small (high - low)) in H by lia. destruct (Z.eq_dec (high - low) (2 ^ 64 - 1)) as [E|E].
  { replace (w64 (high - low + 1)) with 0 in H by (rewrite E; done). cbn in H. injection H as <- <-.
    rewrite Z.add_0_r, w64_small by lia. lia. }
  rewrite w64_small in H by lia. destruct (below fuel (high - low + 1) r) as [[w r1]|] eqn:B; [|done].
  cbn in H. injection H as <- <-. unfold below in B. rewrite (proj2 (Z.leb_gt _ _)) in B by lia.
  apply below_loop_spec in B as (n & value & _ & _ & ->); [|lia|done].
  pose proof (Z.mod_pos_bound value (high - low + 1) ltac:(lia)). rewrite w64_small by lia. lia.
Qed.

(** Sampling from the full 64-bit interval is not random: [range(0, UINT64_MAX)] computes the bound 0 and
    returns 0 without a draw, from every state of the generator. *)
Theorem full_range_is_constant fuel r : range fuel 0 u64_max r = Some (0, r).
Proof. done. Qed.

(** ** Filling buffers *)
Lemma length_word_bytes n v : length (word_bytes n v) = n.
Proof. revert v. induction n as [|n IH]; intros v; cbn; [done|]. by rewrite IH. Qed.

Lemma fill_loop_total fuel missing r :
  (missing <= fuel)%nat -> exists bs r', fill_loop fuel missing r = Some (bs, r') /\ length bs = missing.
Proof.
  revert missing r. induction fuel as [|fuel IH]; intros missing r Hf.
  { destruct missing; [|lia]. by exists [], r. }
  destruct missing as [|missing]; [by exists [], r|]. cbn [fill_loop].
  destruct (next_u64 r) as [value r1]. destruct (IH (S missing - Nat.min 8 (S missing))%nat r1) as (bs & r' & E & Hl); [lia|].
  rewrite E. cbn [mbind option_bind]. eexists _, _. split; [done|]. rewrite length_app, length_word_bytes. lia.
Qed.

Lemma length_fill_random count r : length (fill_random count r).1 = count.
Proof. unfold fill_random. destruct (fill_loop_total count count r) as (bs & r' & -> & Hl); [lia|]. done. Qed.

(** [Uuid::random] always returns a version 4 identifier: sixteen bytes with the version and variant bits of
    RFC 4122, and therefore never the nil identifier that the records use for "none". *)
Theorem uuid_random_wellformed r :
  exists b6 b8, let u := str_bytes (uuid_random r).1 in
    length u = 16%nat /\ u !! 6%nat = Some b6 /\ u !! 8%nat = Some b8 /\
    byte_val b6 / 16 = 4 /\ byte_val b8 / 64 = 2 /\ uuid_is_nil (uuid_random r).1 = false.
Proof.
  unfold uuid_random. pose proof (length_fill_random 16 r) as Hl. destruct (fill_random 16 r) as [raw r']. cbn [fst] in *.
  unfold set_version, uuid_is_nil. rewrite str_bytes_str.
  set (z6 := byte_val (default (byte_of 0) (raw !! 6%nat))). set (z8 := byte_val (default (byte_of 0) (raw !! 8%nat))).
  assert (H6 : byte_val (byte_of (Z.lor (Z.land z6 15) 64)) / 16 = 4).
  { apply Z.eqb_eq. apply (byte_forall (fun z => byte_val (byte_of (Z.lor (Z.land z 15) 64)) / 16 =? 4)); [by vm_compute|].
    apply byte_val_range. }
  assert (H8 : byte_val (byte_of (Z.lor (Z.land z8 63) 128)) / 64 = 2).
  { apply Z.eqb_eq. apply (byte_forall (fun z => byte_val (byte_of (Z.lor (Z.land z 63) 128)) / 64 =? 2)); [by vm_compute|].
    apply byte_val_range. }
  exists (byte_of (Z.lor (Z.land z6 15) 64)), (byte_of (Z.lor (Z.land z8 63) 128)). cbv zeta.
  generalize dependent (byte_of (Z.lor (Z.land z6 15) 64)). generalize dependent (byte_of (Z.lor (Z.land z8 63) 128)).
  intros b8 H8 b6 H6. do 16 (destruct raw as [|? raw]; [done|]). destruct raw; [|done]. cbn.
  split_and!; [done..|]. assert (Hz : bool_decide (b6 = byte_of 0) = false) by (apply bool_decide_eq_false; intros ->; done).
  rewrite Hz. by rewrite !andb_false_r.
Qed.
