(* ===== verification/Log.v ===== *)
(** * Logging

    Models include/icf/core/log.hpp and src/core/log.cpp: the levels, the line that one event becomes, and which
    stream the logger owns. The lock around the stream is not modelled: a line is one step. *)
From S2P Require Import Prelude Status Utf8 Time.

Inductive LogLevel :=
  | LogLevel_Trace | LogLevel_Debug | LogLevel_Info | LogLevel_Warn | LogLevel_Error | LogLevel_Off.
#[export] Instance LogLevel_eq_dec : EqDecision LogLevel.
Proof. solve_decision. Defined.
#[export] Program Instance LogLevel_enum : CEnum LogLevel := {|
  enumerators := [LogLevel_Trace; LogLevel_Debug; LogLevel_Info; LogLevel_Warn; LogLevel_Error; LogLevel_Off];
  enum_first := LogLevel_Trace |}.
Solve Obligations with solve_enum.

Definition log_level_to_string (level : LogLevel) : string :=
  match level with
  | LogLevel_Trace => "TRACE"
  | LogLevel_Debug => "DEBUG"
  | LogLevel_Info => "INFO"
  | LogLevel_Warn => "WARN"
  | LogLevel_Error => "ERROR"
  | LogLevel_Off => "OFF"
  end.

(** [None] is [false], with the output unchanged. *)
Definition log_level_from_string (text : string) : option LogLevel :=
  snd ∘ snd <$> list_find (fun e => e.1 = text)
    [("trace", LogLevel_Trace); ("debug", LogLevel_Debug); ("info", LogLevel_Info); ("warn", LogLevel_Warn);
     ("error", LogLevel_Error); ("off", LogLevel_Off)]%string.

Definition quote : byte := byte_of 34.
Definition backslash : byte := byte_of 92.
Definition question_mark : byte := byte_of 63.
Definition is_control (c : byte) : bool := (byte_val c <? 0x20) || (byte_val c =? 0x7F).

Definition sanitize_char (c : byte) : bytes :=
  if bool_decide (c = quote) || bool_decide (c = backslash) then [backslash; c]
  else if is_control c then [question_mark] else [c].
Definition sanitize (text : bytes) : bytes :=
  concat (sanitize_char <$> take (utf8_prefix_length text 256) text).

(** [Logger]: the level; the stream is where the lines go. *)
Record Logger := mkLogger { lg_level : LogLevel }.
Definition log_enabled (level : LogLevel) (logger : Logger) : bool := enum_code (lg_level logger) <=? enum_code level.
Definition kMaxLogLineLength : nat := Z.to_nat 4096.

(** The text of one event before it is bounded. *)
Definition log_text (timestamp : Z) (level : LogLevel) (component message : bytes) (fields : list (bytes * bytes)) : bytes :=
  str_bytes (to_iso8601 timestamp) ++ str_bytes " level=" ++ str_bytes (log_level_to_string level) ++
  str_bytes " component=" ++ take (utf8_prefix_length component 64) component ++
  str_bytes " message=" ++ [quote] ++ sanitize message ++ [quote] ++
  concat ((fun field => byte_of 32 :: take 48 (fst field) ++ byte_of 61 :: sanitize (snd field)) <$> fields).

(** [Logger::write_fields]: the bytes that are written, if any. *)
Definition write_fields (timestamp : Z) (level : LogLevel) (component message : bytes) (fields : list (bytes * bytes))
    (logger : Logger) : option bytes :=
  if negb (log_enabled level logger) then None
  else
    let line := log_text timestamp level component message fields in
    let line := if (kMaxLogLineLength <? length line)%nat then take (utf8_prefix_length line kMaxLogLineLength) line else line in
    Some (line ++ [byte_of 10]).
Definition write (timestamp : Z) (level : LogLevel) (component message : bytes) (logger : Logger) : option bytes :=
  write_fields timestamp level component message [] logger.

(** ** Lemmas *)
Lemma utf8_walk_back_le text e : (utf8_walk_back text e <= e)%nat.
Proof. induction e as [|e IH]; cbn [utf8_walk_back]; [lia|]. destruct (text !! S e) as [c|]; [|lia]. destruct (is_continuation c); lia. Qed.
Lemma utf8_prefix_length_le text n : (utf8_prefix_length text n <= n)%nat.
Proof. unfold utf8_prefix_length. destruct (Nat.leb_spec (length text) n); [done|]. apply utf8_walk_back_le. Qed.

Definition printable (text : bytes) : Prop := Forall (fun c => is_control c = false) text.

Lemma printable_take n text : printable text -> printable (take n text).
Proof. apply Forall_take. Qed.
Lemma sanitize_char_printable c : printable (sanitize_char c).
Proof.
  unfold sanitize_char. destruct (_ || _) eqn:E.
  - apply orb_true_iff in E as [E|E]; bool_prop; subst; by repeat constructor.
  - destruct (is_control c) eqn:Hc; by repeat constructor.
Qed.
Lemma printable_concat ls : Forall printable ls -> printable (concat ls).
Proof. induction 1; [constructor|]. by apply Forall_app. Qed.
Lemma sanitize_printable text : printable (sanitize text).
Proof. apply printable_concat, Forall_fmap, Forall_forall. intros c _. apply sanitize_char_printable. Qed.

Lemma dec_digit_printable v : 0 <= v < 10 -> is_control (dec_digit v) = false.
Proof.
  intros H. unfold is_control, dec_digit. rewrite byte_val_of, Z.mod_small by lia.
  apply orb_false_iff. split; [apply Z.ltb_ge; lia|apply Z.eqb_neq; lia].
Qed.
Lemma dec_fixed_printable w v : printable (dec_fixed w v).
Proof.
  revert v. induction w as [|w IH]; intros v; [constructor|]. cbn [dec_fixed]. apply Forall_app. split; [apply IH|].
  constructor; [|constructor]. apply dec_digit_printable. dlia.
Qed.
Lemma dec_loop_printable fuel v : 0 <= v -> printable (dec_loop fuel v).
Proof.
  revert v. induction fuel as [|fuel IH]; intros v Hv; [constructor|]. cbn [dec_loop].
  destruct (Z.ltb_spec v 10); [constructor; [apply dec_digit_printable; lia|constructor]|].
  apply Forall_app. split; [apply IH; dlia|]. constructor; [apply dec_digit_printable; dlia|constructor].
Qed.
Lemma dec_pad_printable w v : printable (dec_pad w v).
Proof.
  unfold dec_pad. destruct (Z.ltb_spec v (10 ^ Z.of_nat w)) as [H|H]; [apply dec_fixed_printable|].
  apply dec_loop_printable. assert (0 < 10 ^ Z.of_nat w) by (apply Z.pow_pos_nonneg; lia). lia.
Qed.
Lemma iso8601_printable nanos : printable (str_bytes (to_iso8601 nanos)).
Proof.
  unfold to_iso8601. destruct (if _ <? 0 then _ else _) as [seconds fraction]. destruct (if _ <? 0 then _ else _) as [days second].
  rewrite str_bytes_str. unfold printable. rewrite !Forall_app.
  split_and!; apply dec_pad_printable || by repeat constructor.
Qed.

Lemma log_text_printable timestamp level component message fields :
  printable component -> Forall (fun field => printable (fst field)) fields ->
  printable (log_text timestamp level component message fields).
Proof.
  intros Hc Hf. unfold log_text, printable. rewrite !Forall_app.
  split_and!; try apply iso8601_printable; try apply sanitize_printable; try (by repeat constructor);
    [by destruct level; repeat constructor|by apply printable_take|].
  apply printable_concat, Forall_fmap. eapply Forall_impl; [exact Hf|]. intros [name value] Hn. cbn in *.
  constructor; [done|]. apply Forall_app. split; [by apply printable_take|]. constructor; [done|]. apply sanitize_printable.
Qed.

(** How a reader takes a quoted text: up to the first quote that no backslash precedes. *)
Fixpoint read_quoted (text : bytes) : option (bytes * bytes) :=
  match text with
  | [] => None
  | c :: rest =>
      if bool_decide (c = quote) then Some ([], rest)
      else if bool_decide (c = backslash) then
        match rest with
        | [] => None
        | d :: rest => '(text, rest) ← read_quoted rest; Some (d :: text, rest)
        end
      else '(text, rest) ← read_quoted rest; Some (c :: text, rest)
  end.

Definition masked (text : bytes) : bytes := (fun c => if is_control c then question_mark else c) <$> text.

Lemma read_sanitized text rest :
  read_quoted (concat (sanitize_char <$> text) ++ quote :: rest) = Some (masked text, rest).
Proof.
  induction text as [|c text IH]; [done|]. cbn [fmap list_fmap concat masked]. rewrite <- app_assoc. unfold sanitize_char at 1.
  destruct (_ || _) eqn:E.
  - assert (Hc : is_control c = false) by (apply orb_true_iff in E as [E|E]; bool_prop; by subst). rewrite Hc.
    cbn [app read_quoted]. rewrite bool_decide_eq_false_2, bool_decide_eq_true_2 by done. by rewrite IH.
  - apply orb_false_iff in E as [Eq Eb]. destruct (is_control c); cbn [app read_quoted].
    + rewrite !bool_decide_eq_false_2 by done. by rewrite IH.
    + rewrite Eq, Eb. by rewrite IH.
Qed.


Definition forged : bytes := str_bytes "x" ++ [byte_of 10] ++ str_bytes "2026 level=ERROR " ++ [quote].
Definition forged_line : bytes :=
  default [] (write_fields 0 LogLevel_Warn (str_bytes "net") forged [(str_bytes "peer", forged)] (mkLogger LogLevel_Info)).

(** The eight-bit control characters of some terminals are not masked. *)
Example csi_passes : sanitize [byte_of 0x9B] = [byte_of 0x9B].
Proof. reflexivity. Qed.

(** ** The stream of the logger

    [stream_] and [owns_stream_], the files that [fopen] has given the logger and those it has given to [fclose], the
    latest first. Streams are numbered; no stream means the standard error. *)
Record LogOutput := mkLogOutput { lo_stream : option Z; lo_owns : bool; lo_opened : list Z; lo_closed : list Z }.
Definition log_output_start : LogOutput := mkLogOutput None false [] [].
Definition close_file (l : LogOutput) : LogOutput :=
  mkLogOutput None false (lo_opened l)
    (match lo_stream l with Some file => if lo_owns l then file :: lo_closed l else lo_closed l | None => lo_closed l end).
Definition set_stream (stream : option Z) (l : LogOutput) : LogOutput :=
  let l := close_file l in mkLogOutput stream false (lo_opened l) (lo_closed l).
(** The argument is the answer of [fopen]. *)
Definition set_file (answer : option Z) (path : string) (l : LogOutput) : Result unit * LogOutput :=
  match answer with
  | None => (fail Outcome_Internal ("cannot open log file: " ++ path), l)
  | Some file => let l := close_file l in (Val tt, mkLogOutput (Some file) true (file :: lo_opened l) (lo_closed l))
  end.

Inductive log_output_step : LogOutput -> LogOutput -> Prop :=
  | los_stream stream l : log_output_step l (set_stream stream l)
  | los_file answer path l : log_output_step l (set_file answer path l).2
  | los_close l : log_output_step l (close_file l).
(** The file that is open now. *)
Definition owned_file (l : LogOutput) : list Z := if lo_owns l then option_list (lo_stream l) else [].

Lemma close_file_balance l : lo_opened l ≡ₚ lo_closed l ++ owned_file l -> lo_opened (close_file l) ≡ₚ lo_closed (close_file l).
Proof.
  unfold owned_file. cbn. intros ->. destruct (lo_stream l) as [file|], (lo_owns l); cbn; rewrite ?app_nil_r; [|done..].
  by rewrite <- Permutation_cons_append.
Qed.
Lemma log_output_step_balance l l' :
  log_output_step l l' -> lo_opened l ≡ₚ lo_closed l ++ owned_file l -> lo_opened l' ≡ₚ lo_closed l' ++ owned_file l'.
Proof.
  intros Hs H. destruct Hs as [stream l|[file|] path l|l]; [| |done|]; apply close_file_balance in H; unfold owned_file; cbn in *;
    rewrite ?app_nil_r; try done.
  by rewrite H, Permutation_cons_append.
Qed.
(** Every log file is closed exactly once, when the next stream replaces it or the logger ends; a stream that was handed in
    is never closed, and a file that cannot be opened leaves the output as it is. *)
Theorem log_files_closed_once l :
  rtc log_output_step log_output_start l ->
  lo_opened l ≡ₚ lo_closed l ++ owned_file l /\ lo_opened (close_file l) ≡ₚ lo_closed (close_file l).
Proof.
  intros Hl. assert (H : lo_opened l ≡ₚ lo_closed l ++ owned_file l); [|by split; [|apply close_file_balance]].
  assert (H0 : lo_opened log_output_start ≡ₚ lo_closed log_output_start ++ owned_file log_output_start) by done.
  induction Hl as [|l1 l2 l3 Hs _ IH]; [done|]. by apply IH, (log_output_step_balance l1).
Qed.
