(* ===== verification/AppSupport.v ===== *)
(** * Command lines and merged configuration

    Models apps/common/app_support.hpp, the shared support of the programs: option names, the parsing of command
    lines, the merge with the configuration file, and the declarations of channel keys and endpoints in it. The signal
    handlers and reading a file are operating-system calls; what reading a path gives is an argument. *)
From S2P Require Import Prelude Status Utf8 Bytes Ids Types Time ConfigFile Log.

Definition dash : byte := byte_of 45.
Definition underscore : byte := byte_of 95.
Definition dot_char : byte := byte_of 46.
Definition colon_char : byte := byte_of 58.

(** [normalize_option]: dashes before the first dot become underscores. *)
Definition normalize_option (key : string) : string :=
  let text := str_bytes key in
  let head_length := default (length text) (find_from dot_char text 0) in
  bytes_str (((fun c => if bool_decide (c = dash) then underscore else c) <$> take head_length text) ++ drop head_length text).

Fixpoint app_parse_u64_loop (value : Z) (text : bytes) : Result Z :=
  match text with
  | [] => Val value
  | c :: text =>
      if negb (is_digit c) then invalid "expected an unsigned decimal integer"
      else
        let digit := byte_val c - 48 in
        if (u64_max - digit) / 10 <? value then fail Outcome_Overflow "integer does not fit in 64 bits"
        else app_parse_u64_loop (value * 10 + digit) text
  end.
Definition app_parse_u64 (text : bytes) : Result Z :=
  if bool_decide (text = []) || (20 <? zlen text) then invalid "expected an unsigned decimal integer"
  else app_parse_u64_loop 0 text.

Definition app_parse_bool (text : string) : Result bool :=
  if bool_decide (text ∈ ["true"; "1"; "yes"; "on"]%string) then Val true
  else if bool_decide (text ∈ ["false"; "0"; "no"; "off"]%string) then Val false
  else invalid "expected a boolean value".

(** ** Programs *)
(** A program either goes on, or has exited with a code and lines on the error stream, or has executed an operation whose
    behaviour the language leaves undefined (signed overflow) or that ends it (an exception). *)
Inductive Launch (A : Type) :=
  | Launched (a : A)
  | Exited (code : Z) (errors : list string)
  | Undefined.
Arguments Launched {A} a.
Arguments Exited {A} code errors.
Arguments Undefined {A}.
#[export] Instance Launch_ret : MRet Launch := fun A a => Launched a.
#[export] Instance Launch_bind : MBind Launch := fun A B f m =>
  match m with Launched a => f a | Exited code errors => Exited code errors | Undefined => Undefined end.

(** [if (!result) { fprintf(stderr, "<program>: %s\n", ...); return code; }] *)
Definition or_exit {A} (program : string) (code : Z) (show : Status -> string) (r : Result A) : Launch A :=
  match r with
  | Val a => Launched a
  | Err s => Exited code [(program ++ ": " ++ show s)%string]
  | Throw => Undefined
  end.

(** ** Arguments *)
Record Arguments := mkArguments { ar_options : gmap string string; ar_positional : list string }.
Definition args_has (key : string) (a : Arguments) : bool := bool_decide (is_Some (ar_options a !! normalize_option key)).
Definition args_get (key fallback : string) (a : Arguments) : string := default fallback (ar_options a !! normalize_option key).
Definition args_get_u64 (key : string) (a : Arguments) : Result Z :=
  match ar_options a !! normalize_option key with
  | None => not_found ("missing option --" ++ key)
  | Some value => app_parse_u64 (str_bytes value)
  end.

Definition set_option (key value : string) (a : Arguments) : Arguments :=
  mkArguments (<[key := value]> (ar_options a)) (ar_positional a).
Definition push_positional (token : string) (a : Arguments) : Arguments :=
  mkArguments (ar_options a) (ar_positional a ++ [token]).

(** [argv[index + 1][0] != '-' || argv[index + 1][1] == '\0'] *)
Definition is_value (next : bytes) : bool :=
  match next with
  | c :: rest => negb (bool_decide (c = dash)) || bool_decide (rest = [])
  | [] => true
  end.
Definition is_option (token : bytes) : bool :=
  match token with
  | a :: b :: _ :: _ => bool_decide (a = dash) && bool_decide (b = dash)
  | _ => false
  end.

(** The loop of [parse_arguments] over the tokens after the program name. *)
Fixpoint parse_tokens (positional_only : bool) (tokens : list string) (a : Arguments) : Arguments :=
  match tokens with
  | [] => a
  | token :: rest =>
      if positional_only then parse_tokens true rest (push_positional token a)
      else if bool_decide (token = "--"%string) then parse_tokens true rest a
      else if is_option (str_bytes token) then
        match find_from equals_sign (str_bytes token) 0 with
        | Some equals =>
            let key := bytes_str (take (equals - 2) (drop 2 (str_bytes token))) in
            let value := bytes_str (drop (S equals) (str_bytes token)) in
            parse_tokens false rest (set_option (normalize_option key) value a)
        | None =>
            let key := normalize_option (bytes_str (drop 2 (str_bytes token))) in
            match rest with
            | next :: rest' =>
                if is_value (str_bytes next) then parse_tokens false rest' (set_option key next a)
                else parse_tokens false rest (set_option key "true" a)
            | [] => set_option key "true" a
            end
        end
      else parse_tokens false rest (push_positional token a)
  end.
Definition parse_arguments (argv : list string) : Result Arguments := Val (parse_tokens false argv (mkArguments ∅ [])).

Definition log_level_from (a : Arguments) (fallback : LogLevel) : LogLevel :=
  let text := args_get "log_level" "" a in
  if bool_decide (text = ""%string) then fallback else default fallback (log_level_from_string text).

(** ** Addresses *)
(** [std::string::rfind] *)
Definition rfind (c : byte) (text : bytes) : option nat :=
  (fun p => (length text - 1 - p.1)%nat) <$> list_find (fun x => x = c) (rev text).
(** What a C string function sees: the text before a NUL. *)
Fixpoint c_str (text : bytes) : bytes :=
  match text with
  | c :: rest => if byte_val c =? 0 then [] else c :: c_str rest
  | [] => []
  end.
Definition parse_endpoint (source : string) : Result (string * Z) :=
  let text := str_bytes source in
  match rfind colon_char text with
  | None => invalid "expected host:port"
  | Some colon =>
      if (colon =? 0)%nat || (length text <=? colon + 1)%nat then invalid "expected host:port"
      else
        let host := take colon text in
        port ← app_parse_u64 (drop (S colon) text);
        _ ← reject_if (65535 <? port) Outcome_Invalid "port is out of range";
        _ ← reject_if (bool_decide (byte_of 64 ∈ c_str host) || bool_decide (byte_of 47 ∈ c_str host)) Outcome_Invalid
              "host contains characters that are not accepted";
        Val (bytes_str host, port)
  end.

(** ** Configuration *)
(** What reading a path gives. *)
Inductive FileRead := FileMissing | FileBroken | FileText (text : string).
Definition load_file (files : string -> FileRead) (path : string) : Result ConfigFile :=
  match files path with
  | FileMissing => not_found ("cannot open configuration file: " ++ path)
  | FileBroken => fail Outcome_Internal ("failed while reading configuration file: " ++ path)
  | FileText text => config_parse text path
  end.

Fixpoint apply_options (options : list (string * string)) (config : ConfigFile) : Result ConfigFile :=
  match options with
  | [] => Val config
  | (key, value) :: options =>
      if bool_decide (key = "config"%string) || bool_decide (key = "log_level"%string) then apply_options options config
      else config ← config_set key value config; apply_options options config
  end.
Definition load_config (files : string -> FileRead) (a : Arguments) : Result ConfigFile :=
  let path := args_get "config" "" a in
  config ← (if bool_decide (path = ""%string) then Val config_empty else load_file files path);
  apply_options (entries (ar_options a)) config.

Definition config_string (config : ConfigFile) (a : Arguments) (key fallback : string) : string :=
  if args_has key a then args_get key "" a else get_string_or key fallback config.
Definition config_u64 (config : ConfigFile) (a : Arguments) (key : string) (fallback : Z) : Z :=
  if args_has key a then value_or fallback (app_parse_u64 (str_bytes (args_get key "" a))) else get_u64_or key fallback config.
Definition config_bool (config : ConfigFile) (a : Arguments) (key : string) (fallback : bool) : bool :=
  if args_has key a then value_or fallback (app_parse_bool (args_get key "" a)) else get_bool_or key fallback config.

(** The rest of a key after a proper prefix. *)
Definition after_prefix (prefix key : string) : option string :=
  if (slen prefix <? slen key) && String.prefix prefix key
  then Some (bytes_str (drop (String.length prefix) (str_bytes key))) else None.

Definition channel_keys (config : ConfigFile) : gmap string string :=
  foldl (fun keys entry => match after_prefix "domain_key." entry.1 with
                           | Some domain => <[domain := entry.2]> keys
                           | None => keys
                           end) ∅ (config_entries config).

(** ** Endpoint declarations

    [endpoints] and [index_by_id] are the two locals of [parse_endpoints]; the reference into the vector is the index. *)
Record EndpointTable := mkEndpointTable { et_endpoints : list EndpointRecord; et_index : gmap string nat }.

Definition new_endpoint (cluster id : string) : EndpointRecord :=
  mkEndpoint id cluster "" 0 0 0 EndpointState_Active true false provenance_default.
Definition with_scope (scope : string) (e : EndpointRecord) : EndpointRecord :=
  mkEndpoint (ep_id e) (ep_cluster e) scope (ep_capacity e) (ep_reserved e) (ep_policy_generation e) (ep_state e)
    (ep_inter_cluster_allowed e) (ep_permits_degraded e) (ep_provenance e).
Definition with_capacity (capacity : Z) (e : EndpointRecord) : EndpointRecord :=
  mkEndpoint (ep_id e) (ep_cluster e) (ep_scope e) capacity (ep_reserved e) (ep_policy_generation e) (ep_state e)
    (ep_inter_cluster_allowed e) (ep_permits_degraded e) (ep_provenance e).
Definition with_degraded (degraded : bool) (e : EndpointRecord) : EndpointRecord :=
  mkEndpoint (ep_id e) (ep_cluster e) (ep_scope e) (ep_capacity e) (ep_reserved e) (ep_policy_generation e) (ep_state e)
    (ep_inter_cluster_allowed e) degraded (ep_provenance e).
Definition with_allowed (allowed : bool) (e : EndpointRecord) : EndpointRecord :=
  mkEndpoint (ep_id e) (ep_cluster e) (ep_scope e) (ep_capacity e) (ep_reserved e) (ep_policy_generation e) (ep_state e)
    allowed (ep_permits_degraded e) (ep_provenance e).

(** The index of a declared endpoint, appended when it is new. *)
Definition endpoint_slot (cluster id : string) (t : EndpointTable) : Result (nat * EndpointTable) :=
  match et_index t !! id with
  | Some index => Val (index, t)
  | None =>
      _ ← reject_if (limits.kMaxEndpointsPerCluster <=? zlen (et_endpoints t)) Outcome_CapacityExceeded
            "too many endpoint scopes declared";
      let index := length (et_endpoints t) in
      Val (index, mkEndpointTable (et_endpoints t ++ [new_endpoint cluster id]) (<[id := index]> (et_index t)))
  end.

Definition endpoint_field (field value : string) (e : EndpointRecord) : Result EndpointRecord :=
  if bool_decide (field = "scope"%string) then scope ← name_parse ScopeNameTag value; Val (with_scope scope e)
  else if bool_decide (field = "capacity"%string) then
    capacity ← app_parse_u64 (str_bytes value);
    _ ← reject_if (limits.kMaxCapacity <? capacity) Outcome_Overflow "endpoint capacity exceeds the maximum";
    Val (with_capacity capacity e)
  else if bool_decide (field = "degraded"%string) then degraded ← app_parse_bool value; Val (with_degraded degraded e)
  else if bool_decide (field = "allow"%string) then allowed ← app_parse_bool value; Val (with_allowed allowed e)
  else invalid ("unknown endpoint configuration field: " ++ field).

(** One entry of the configuration. *)
Definition endpoint_entry (cluster : string) (entry : string * string) (t : EndpointTable) : Result EndpointTable :=
  match after_prefix "endpoint." entry.1 with
  | None => Val t
  | Some remainder =>
      match find_from dot_char (str_bytes remainder) 0 with
      | None => invalid ("endpoint configuration key must be endpoint.<id>.<field>: " ++ entry.1)
      | Some dot =>
          let id_text := bytes_str (take dot (str_bytes remainder)) in
          let field := bytes_str (drop (S dot) (str_bytes remainder)) in
          id ← name_parse IdTag id_text;
          '(index, t) ← endpoint_slot cluster id t;
          record ← endpoint_field field entry.2 (default (new_endpoint cluster id) (et_endpoints t !! index));
          record ← (if bool_decide (ep_scope record = ""%string) then
                      scope ← value_or_throw (name_parse ScopeNameTag ("/" ++ id_text)); Val (with_scope scope record)
                    else Val record);
          Val (mkEndpointTable (<[index := record]> (et_endpoints t)) (et_index t))
      end
  end.

Fixpoint endpoint_entries (cluster : string) (l : list (string * string)) (t : EndpointTable) : Result EndpointTable :=
  match l with
  | [] => Val t
  | entry :: l => t ← endpoint_entry cluster entry t; endpoint_entries cluster l t
  end.

Definition endpoint_id_le (a b : EndpointRecord) : Prop := String.le (ep_id a) (ep_id b).
#[export] Instance endpoint_id_le_dec : RelDecision endpoint_id_le.
Proof. intros a b. unfold endpoint_id_le. apply _. Defined.
#[export] Instance endpoint_id_le_total : Total endpoint_id_le.
Proof. intros a b. unfold endpoint_id_le. apply String.le_total. Qed.
#[export] Instance endpoint_id_le_trans : Transitive endpoint_id_le.
Proof. intros a b c. unfold endpoint_id_le. apply String.le_po. Qed.

Definition parse_endpoints (config : ConfigFile) (cluster : string) : Result (list EndpointRecord) :=
  t ← endpoint_entries cluster (config_entries config) (mkEndpointTable [] ∅);
  Val (merge_sort endpoint_id_le (et_endpoints t)).

Example endpoints_sample :
  parse_endpoints (mkConfigFile (list_to_map [("endpoint.a.capacity", "10"); ("endpoint.a-b.allow", "no");
                                              ("endpoint.a.scope", "svc/a"); ("domain", "d")]%string)) "c" =
  Val [with_capacity 10 (with_scope "svc/a" (new_endpoint "c" "a"));
       with_allowed false (with_scope "/a-b" (new_endpoint "c" "a-b"))].
Proof. vm_compute. reflexivity. Qed.

(** ** Numbers *)
Lemma app_parse_u64_loop_eq v text : is_u64 v -> app_parse_u64_loop v text = parse_u64_loop v text.
Proof.
  revert v. induction text as [|c text IH]; intros v Hv; cbn [app_parse_u64_loop parse_u64_loop]; [done|].
  destruct (is_digit c) eqn:Hc; cbn [negb]; [|done]. rewrite push_digit by done.
  destruct (Z.ltb_spec ((u64_max - (byte_val c - 48)) / 10) v) as [H|H]; [done|]. apply IH.
  apply digit_range in Hc. unfold is_u64, u64_max in *. dlia.
Qed.

Lemma app_parse_u64_eq text :
  app_parse_u64 text = if 20 <? zlen text then invalid "expected an unsigned decimal integer" else parse_u64 text.
Proof.
  unfold app_parse_u64, parse_u64. destruct (20 <? zlen text); [by rewrite orb_true_r|]. rewrite orb_false_r.
  case_bool_decide; [done|]. apply app_parse_u64_loop_eq. unfold is_u64, u64_max. lia.
Qed.

(** The decimal parsers agree: the one of the command line and the one of the configuration files give the same
    answer, value or error, for every text of at most 20 bytes, although they detect overflow differently; the former
    refuses longer texts, even a value with leading zeros. The one of the counters accepts the same numbers. *)
Theorem decimal_parsers_agree text :
  zlen text <= 20 ->
  app_parse_u64 text = parse_u64 text /\
  forall n, counter_parse (bytes_str text) = Val n <-> parse_u64 text = Val n.
Proof.
  intros Hl. split; [rewrite app_parse_u64_eq; destruct (Z.ltb_spec 20 (zlen text)); [lia|done]|].
  intros n. unfold counter_parse, parse_u64, slen. rewrite length_bytes_str, str_bytes_str. fold (zlen text).
  destruct (Z.ltb_spec 20 (zlen text)); [lia|]. rewrite orb_false_r.
  replace (zlen text =? 0) with (bool_decide (text = [])) by
    (case_bool_decide; [by subst|]; destruct text; [done|]; rewrite zlen_cons; pose proof (zlen_nonneg text);
     symmetry; apply Z.eqb_neq; lia).
  case_bool_decide; [done|].
  pose proof (parse_loops_agree 0 text ltac:(unfold is_u64, u64_max; lia)) as Ha.
  destruct (counter_parse_loop 0 text), (parse_u64_loop 0 text); try done. by subst.
Qed.
Lemma decimal_parsers_agree_witness : app_parse_u64 (str_bytes "18446744073709551616") = parse_u64 (str_bytes "18446744073709551616").
Proof. exact (proj1 (decimal_parsers_agree (str_bytes "18446744073709551616") ltac:(vm_compute; discriminate))). Defined.

(** ** Command lines *)
Definition option_token (e : string * string) : string :=
  bytes_str (dash :: dash :: str_bytes (fst e) ++ equals_sign :: str_bytes (snd e)).
Definition option_key (key : string) : Prop := (equals_sign ∉ str_bytes key) /\ normalize_option key = key.

Lemma option_token_parse e rest a :
  option_key (fst e) -> parse_tokens false (option_token e :: rest) a = parse_tokens false rest (set_option (fst e) (snd e) a).
Proof.
  intros [Hk Hn]. destruct e as [k v]. cbn [fst snd] in *. unfold option_token. cbn [fst snd].
  set (text := dash :: dash :: str_bytes k ++ equals_sign :: str_bytes v). cbn [parse_tokens]. rewrite str_bytes_str.
  assert (Hf : find_from equals_sign text 0 = Some (2 + length (str_bytes k))%nat).
  { pose proof (find_from_0 equals_sign text) as Hf. destruct (find_from equals_sign text 0) as [i|].
    - destruct Hf as [Hf Hni]. change text with ((dash :: dash :: str_bytes k) ++ equals_sign :: str_bytes v) in Hf at 1.
      apply first_split in Hf as [Hf _]; [|set_solver|done]. apply (f_equal length) in Hf. rewrite length_take in Hf.
      cbn [length] in Hf. f_equal. unfold text in Hf. cbn [length] in Hf. rewrite length_app in Hf. cbn [length] in Hf. lia.
    - destruct Hf. unfold text. rewrite !elem_of_cons, elem_of_app, elem_of_cons. auto. }
  rewrite bool_decide_eq_false_2 by (intros E; apply (f_equal String.length) in E; rewrite length_bytes_str in E;
    unfold text in E; cbn [length String.length] in E; rewrite length_app in E; cbn [length] in E; lia).
  assert (Ho : is_option text = true) by (unfold text; cbn [is_option]; destruct (str_bytes k); done).
  assert (Hkey : take (2 + length (str_bytes k) - 2) (drop 2 text) = str_bytes k).
  { replace (2 + length (str_bytes k) - 2)%nat with (length (str_bytes k)) by lia. apply take_app_length. }
  assert (Hval : drop (S (2 + length (str_bytes k))) text = str_bytes v).
  { change text with ((dash :: dash :: str_bytes k) ++ [equals_sign] ++ str_bytes v). rewrite app_assoc.
    apply drop_app_length'. rewrite length_app. cbn [length]. lia. }
  by rewrite Ho, Hf, Hkey, Hval, !bytes_str_bytes, Hn.
Qed.

Lemma option_tokens_parse l rest a :
  Forall (fun e => option_key (fst e)) l ->
  parse_tokens false ((option_token <$> l) ++ rest) a =
  parse_tokens false rest (mkArguments (foldl (fun acc p => <[p.1 := p.2]> acc) (ar_options a) l) (ar_positional a)).
Proof.
  intros H. revert a. induction H as [|e l He _ IH]; intros a; [by destruct a|].
  cbn [fmap list_fmap app foldl]. rewrite option_token_parse by done. by rewrite IH.
Qed.

Lemma positional_parse tokens a : parse_tokens true tokens a = mkArguments (ar_options a) (ar_positional a ++ tokens).
Proof.
  revert a. induction tokens as [|t tokens IH]; intros a; cbn [parse_tokens]; [rewrite app_nil_r; by destruct a|].
  rewrite IH. unfold push_positional. cbn. by rewrite <- app_assoc.
Qed.

(** Round trip of command lines: options written as "--key=value", whatever the values are, and positional
    arguments after "--", whatever they look like, are read back as they were. *)
Theorem arguments_roundtrip options positional :
  map_Forall (fun key _ => option_key key) options ->
  parse_arguments ((option_token <$> entries options) ++ "--"%string :: positional) = Val (mkArguments options positional).
Proof.
  intros H. unfold parse_arguments. rewrite option_tokens_parse.
  - cbn [parse_tokens ar_options ar_positional]. rewrite bool_decide_eq_true_2 by done. rewrite positional_parse. cbn.
    rewrite foldl_insert_entries by apply entries_keys_NoDup. by rewrite map_union_empty, list_to_map_entries.
  - apply Forall_forall. intros [k v] Hin. apply elem_of_entries in Hin. exact (H k v Hin).
Qed.
Definition sample_options : gmap string string := {["state_dir" := "--=x"]}%string.
Lemma sample_options_ok : map_Forall (fun key _ => option_key key) sample_options.
Proof.
  apply map_Forall_singleton. split; [|reflexivity]. apply (bool_decide_eq_false (equals_sign ∈ str_bytes "state_dir")).
  vm_compute. reflexivity.
Qed.
Lemma arguments_roundtrip_witness :
  parse_arguments ["--state_dir=--=x"; "--"; "--help"]%string = Val (mkArguments sample_options ["--help"%string]).
Proof. exact (arguments_roundtrip sample_options ["--help"%string] sample_options_ok). Defined.

(** ** The merged configuration *)
Definition overrides (key : string) : bool :=
  negb (bool_decide (key = "config"%string) || bool_decide (key = "log_level"%string)).

Lemma config_set_inv key value config config' :
  config_set key value config = Val config' -> cf_values config' = <[key := value]> (cf_values config).
Proof.
  unfold config_set. intros ([] & _ & H)%bind_Val. apply bind_Val in H as ([] & _ & H). apply bind_Val in H as ([] & _ & H).
  by injection H as <-.
Qed.

Lemma apply_options_spec l config config' key :
  NoDup l.*1 -> apply_options l config = Val config' ->
  cf_values config' !! key =
  match list_to_map (M := gmap string string) l !! key with
  | Some value => if overrides key then Some value else cf_values config !! key
  | None => cf_values config !! key
  end.
Proof.
  intros Hnd. revert config. induction l as [|[k v] l IH]; intros config H; cbn [apply_options] in H; [by injection H as <-|].
  apply NoDup_cons in Hnd as [Hk Hnd]. cbn [fst] in Hk. cbn [list_to_map foldr]. destruct (_ || _) eqn:Eo in H.
  - rewrite (IH Hnd _ H). destruct (base.decide (k = key)) as [->|Hne].
    + rewrite lookup_insert_eq. unfold overrides. rewrite Eo. cbn [negb].
      change (foldr _ _ l) with (list_to_map (M := gmap string string) l). by rewrite not_elem_of_list_to_map_1.
    + by rewrite lookup_insert_ne.
  - apply bind_Val in H as (config1 & Hs & H). apply config_set_inv in Hs. rewrite (IH Hnd _ H), Hs.
    destruct (base.decide (k = key)) as [->|Hne].
    + rewrite !lookup_insert_eq. unfold overrides. rewrite Eo. cbn [negb].
      change (foldr _ _ l) with (list_to_map (M := gmap string string) l). by rewrite not_elem_of_list_to_map_1.
    + by rewrite !lookup_insert_ne.
Qed.

(** The command line wins: in a merged configuration every option of the command line, except the two that are
    not part of the configuration, has its value, and every other key has the value of the file, if one is named. *)
Theorem command_line_wins files a config :
  load_config files a = Val config ->
  exists base,
    (if bool_decide (args_get "config" "" a = ""%string) then Val config_empty else load_file files (args_get "config" "" a)) =
      Val base /\
    forall key, cf_values config !! key =
      match ar_options a !! key with
      | Some value => if overrides key then Some value else cf_values base !! key
      | None => cf_values base !! key
      end.
Proof.
  unfold load_config. intros (base & Hb & H)%bind_Val. exists base. split; [done|]. intros key.
  rewrite (apply_options_spec _ _ _ key (entries_keys_NoDup _) H). by rewrite list_to_map_entries.
Qed.

Definition sample_files (path : string) : FileRead :=
  if bool_decide (path = "f"%string) then FileText "domain = d" else FileMissing.
Definition sample_arguments : Arguments := mkArguments {["config" := "f"; "state_dir" := "s"]}%string [].
Lemma command_line_wins_witness :
  exists base, forall key, cf_values (value_or config_empty (load_config sample_files sample_arguments)) !! key =
    match ar_options sample_arguments !! key with
    | Some value => if overrides key then Some value else cf_values base !! key
    | None => cf_values base !! key
    end.
Proof.
  destruct (command_line_wins sample_files sample_arguments (value_or config_empty (load_config sample_files sample_arguments))
    ltac:(vm_compute; reflexivity)) as (base & _ & H). exists base. exact H.
Defined.

(** ** Declared endpoints *)
Definition endpoint_ok (cluster : string) (e : EndpointRecord) : Prop :=
  valid_name IdTag (ep_id e) /\ ep_cluster e = cluster /\ valid_name ScopeNameTag (ep_scope e) /\
  0 <= ep_capacity e <= limits.kMaxCapacity /\ ep_reserved e = 0 /\ ep_state e = EndpointState_Active.

Definition table_ok (cluster : string) (t : EndpointTable) : Prop :=
  (forall id i, et_index t !! id = Some i <-> exists e, et_endpoints t !! i = Some e /\ ep_id e = id) /\
  Forall (endpoint_ok cluster) (et_endpoints t) /\ zlen (et_endpoints t) <= limits.kMaxEndpointsPerCluster.

(** What a field of an endpoint says of its record. *)
Definition field_holds (field value : string) (e : EndpointRecord) : Prop :=
  (field = "scope"%string /\ ep_scope e = value) \/
  (field = "capacity"%string /\ app_parse_u64 (str_bytes value) = Val (ep_capacity e)) \/
  (field = "degraded"%string /\ app_parse_bool value = Val (ep_permits_degraded e)) \/
  (field = "allow"%string /\ app_parse_bool value = Val (ep_inter_cluster_allowed e)).

Lemma endpoint_field_spec field value e e' :
  endpoint_field field value e = Val e' ->
  ep_id e' = ep_id e /\ ep_cluster e' = ep_cluster e /\ ep_reserved e' = ep_reserved e /\ ep_state e' = ep_state e /\
  (0 <= ep_capacity e <= limits.kMaxCapacity -> 0 <= ep_capacity e' <= limits.kMaxCapacity) /\
  (ep_scope e' = ep_scope e /\ field <> "scope"%string \/ valid_name ScopeNameTag (ep_scope e')) /\
  field_holds field value e' /\ forall f w, f <> field -> field_holds f w e -> field_holds f w e'.
Proof.
  unfold endpoint_field, field_holds. intros H. repeat case_bool_decide; subst; try done.
  - apply bind_Val in H as (scope & [-> Hn]%name_parse_Val & [= <-]). cbn. split_and!; auto. intros f w Hf [[]|Hx]; auto. by destruct Hf.
  - apply bind_Val in H as (capacity & Hc & H). unfold reject_if in H.
    destruct (Z.ltb_spec limits.kMaxCapacity capacity); [done|]. injection H as <-. cbn.
    assert (0 <= capacity).
    { rewrite app_parse_u64_eq in Hc. destruct (20 <? _); [done|]. apply parse_u64_nonneg in Hc. unfold is_u64 in Hc. lia. }
    split_and!; auto. intros f w Hf [?|[[? _]|Hx]]; auto. by destruct Hf.
  - apply bind_Val in H as (degraded & Hd & [= <-]). cbn. split_and!; auto.
    intros f w Hf [?|[?|[[? _]|Hx]]]; auto. by destruct Hf.
  - apply bind_Val in H as (allowed & Hd & [= <-]). cbn. split_and!; auto 6.
    intros f w Hf [?|[?|[?|[? _]]]]; auto. by destruct Hf.
Qed.

(** The endpoint and the field that a key of the configuration names. *)
Definition endpoint_key (key : string) : option (string * string) :=
  remainder ← after_prefix "endpoint." key;
  dot ← find_from dot_char (str_bytes remainder) 0;
  Some (bytes_str (take dot (str_bytes remainder)), bytes_str (drop (S dot) (str_bytes remainder))).

Lemma endpoint_slot_spec cluster id t i t' :
  table_ok cluster t -> endpoint_slot cluster id t = Val (i, t') ->
  zlen (et_endpoints t') <= limits.kMaxEndpointsPerCluster /\
  (forall id' j, et_index t' !! id' = Some j <-> exists e, et_endpoints t' !! j = Some e /\ ep_id e = id') /\
  (forall j e, et_endpoints t !! j = Some e -> et_endpoints t' !! j = Some e) /\
  (forall j e, et_endpoints t' !! j = Some e -> j <> i -> et_endpoints t !! j = Some e) /\
  exists e, et_endpoints t' !! i = Some e /\ ep_id e = id /\ (e = new_endpoint cluster id \/ et_endpoints t !! i = Some e).
Proof.
  intros (Hix & Hall & Hlen). unfold endpoint_slot. destruct (et_index t !! id) as [i0|] eqn:E.
  - intros [= <- <-]. apply Hix in E as (e & He & Hid). split_and!; eauto.
  - unfold reject_if. destruct (Z.leb_spec limits.kMaxEndpointsPerCluster (zlen (et_endpoints t))); [done|].
    intros [= <- <-]. cbn [et_endpoints et_index]. split_and!.
    + rewrite zlen_app. unfold zlen at 2. cbn [length]. lia.
    + intros id' j. destruct (base.decide (id' = id)) as [->|Hne].
      * rewrite lookup_insert_eq. split.
        -- intros [= <-]. rewrite lookup_app_r, Nat.sub_diag by done. by eexists.
        -- intros (e & He & Hid). apply lookup_app_Some in He as [He|[Hj He]].
           ++ exfalso. assert (et_index t !! id = Some j) by (apply Hix; eauto). congruence.
           ++ apply list_lookup_singleton_Some in He as [Hz _]. f_equal. lia.
      * rewrite lookup_insert_ne by done. rewrite Hix. split.
        -- intros (e & He & Hid). exists e. split; [by apply lookup_app_l_Some|done].
        -- intros (e & He & Hid). apply lookup_app_Some in He as [He|[Hj He]]; [eauto|].
           apply list_lookup_singleton_Some in He as [_ <-]. by destruct Hne.
    + intros j e He. by apply lookup_app_l_Some.
    + intros j e He Hj. apply lookup_app_Some in He as [He|[Hj' He]]; [done|].
      apply list_lookup_singleton_Some in He as [Hz _]. exfalso. lia.
    + exists (new_endpoint cluster id). split; [|auto]. rewrite lookup_app_r, Nat.sub_diag by done. done.
Qed.

(** What every step of the loop keeps of the earlier records: everything but the field that the entry sets. *)
Definition keeps (changed : option (string * string)) (l l' : list EndpointRecord) : Prop :=
  forall j e, l !! j = Some e -> exists e', l' !! j = Some e' /\ ep_id e' = ep_id e /\
    forall f w, changed <> Some (ep_id e, f) -> field_holds f w e -> field_holds f w e'.

Lemma endpoint_entry_spec cluster k v t t' :
  table_ok cluster t -> endpoint_entry cluster (k, v) t = Val t' ->
  table_ok cluster t' /\ keeps (endpoint_key k) (et_endpoints t) (et_endpoints t') /\
  forall id field, endpoint_key k = Some (id, field) ->
    exists e, e ∈ et_endpoints t' /\ ep_id e = id /\ field_holds field v e.
Proof.
  intros Hok. unfold endpoint_entry, endpoint_key. cbn [fst snd]. destruct (after_prefix "endpoint." k) as [remainder|]; cbn [mbind option_bind].
  2:{ intros [= <-]. split_and!; [done| |done]. intros j e He. eauto. }
  destruct (find_from dot_char (str_bytes remainder) 0) as [dot|]; [|done]. cbn [mbind option_bind].
  set (id_text := bytes_str (take dot _)). set (field := bytes_str (drop (S dot) _)).
  intros (id & [-> Hid]%name_parse_Val & H)%bind_Val. apply bind_Val in H as ([i t1] & Hslot & H).
  apply endpoint_slot_spec in Hslot as (Hlen & Hix & Hold & Hnew & e & He & Heid & Hor); [|done]. rewrite He in H. cbn [from_option id] in H.
  apply bind_Val in H as (e1 & Hf & H). apply endpoint_field_spec in Hf as (F1 & F2 & F3 & F4 & F5 & F6 & F7 & F8).
  apply bind_Val in H as (e2 & Hscope & [= <-]). cbn [et_endpoints et_index].
  assert (Hbase : ep_cluster e = cluster /\ ep_reserved e = 0 /\ ep_state e = EndpointState_Active /\
                  0 <= ep_capacity e <= limits.kMaxCapacity /\ (ep_scope e = ""%string \/ valid_name ScopeNameTag (ep_scope e))).
  { destruct Hor as [->|Hin]; [cbn; split_and!; auto; unfold limits.kMaxCapacity; lia|].
    destruct Hok as (_ & Hall & _). rewrite Forall_lookup in Hall. destruct (Hall _ _ Hin) as (? & ? & ? & ? & ? & ?). auto 10. }
  destruct Hbase as (B1 & B2 & B3 & B4 & B5).
  assert (He2 : ep_id e2 = id_text /\ endpoint_ok cluster e2 /\
                forall f w, (f = "scope"%string -> ep_scope e1 <> ""%string) -> field_holds f w e1 -> field_holds f w e2).
  { rewrite <- Heid, <- F1. unfold endpoint_ok. case_bool_decide as Hs.
    - apply bind_Val in Hscope as (scope & Hv & [= <-]). unfold value_or_throw in Hv.
      destruct (name_parse ScopeNameTag _) as [n| |] eqn:Hn; try done. injection Hv as <-.
      apply name_parse_Val in Hn as [-> Hn]. cbn. rewrite F1, Heid. split_and!; try congruence; auto; try lia.
      intros f w Hne [[-> Hw]|Hx]; [by destruct (Hne eq_refl)|]. by right.
    - injection Hscope as <-. rewrite F1, Heid. split_and!; try congruence; auto; try (apply F5; lia).
      destruct F6 as [[F6 _]|F6]; [|done]. rewrite F6 in Hs |- *. by destruct B5. }
  destruct He2 as (E1 & E2 & E3).
  assert (Hi : (i < length (et_endpoints t1))%nat) by (by eapply lookup_lt_Some).
  split_and!.
  - unfold table_ok. cbn [et_endpoints et_index]. split_and!.
    + intros id' j. rewrite Hix. destruct (base.decide (j = i)) as [->|Hne].
      * rewrite list_lookup_insert_eq by done. split; [intros (x & Hx & <-)|intros (x & [= <-] & <-)]; [|by exists e; rewrite E1].
        rewrite He in Hx. injection Hx as <-. exists e2. by rewrite E1.
      * by rewrite list_lookup_insert_ne.
    + apply Forall_lookup. intros j x Hx. destruct (base.decide (j = i)) as [->|Hne].
      * rewrite list_lookup_insert_eq in Hx by done. by injection Hx as <-.
      * rewrite list_lookup_insert_ne in Hx by done. destruct Hok as (_ & Hall & _). rewrite Forall_lookup in Hall.
        by apply (Hall j), Hnew.
    + unfold zlen. rewrite length_insert. exact Hlen.
  - intros j x Hx. destruct (base.decide (j = i)) as [->|Hne].
    + exists e2. rewrite list_lookup_insert_eq by done. rewrite (Hold _ _ Hx) in He. injection He as ->.
      split; [done|]. split; [congruence|]. intros f w Hch Hh. assert (Hff : f <> field) by (intros ->; apply Hch; by rewrite Heid).
      apply E3; [|by apply F8]. intros ->. destruct Hok as (_ & Hall & _). rewrite Forall_lookup in Hall.
      destruct (Hall _ _ Hx) as (_ & _ & Hv & _). destruct F6 as [[-> _]|F6]; intros Hnil; [rewrite Hnil in Hv|rewrite Hnil in F6]; done.
    + exists x. rewrite list_lookup_insert_ne by done. auto.
  - intros id' field' [= <- <-]. exists e2. split; [|split; [done|]].
    + apply list_elem_of_lookup. exists i. by rewrite list_lookup_insert_eq.
    + apply E3; [|done]. intros Hf Hnil. destruct F6 as [[_ F6]|F6]; [done|]. by rewrite Hnil in F6.
Qed.

Lemma endpoint_key_inj k k' x : endpoint_key k = Some x -> endpoint_key k' = Some x -> k = k'.
Proof.
  assert (H : forall k id field, endpoint_key k = Some (id, field) ->
    str_bytes k = str_bytes "endpoint." ++ str_bytes id ++ dot_char :: str_bytes field).
  { clear. intros k id field. unfold endpoint_key, after_prefix. destruct (_ && _) eqn:E; [|done]. apply andb_true_iff in E as [_ E].
    cbn [mbind option_bind]. rewrite str_bytes_str. set (rest := drop _ (str_bytes k)).
    pose proof (find_from_0 dot_char rest) as Hf. destruct (find_from dot_char rest 0) as [i|]; [|done].
    destruct Hf as [Hf _]. cbn [mbind option_bind]. intros [= <- <-]. rewrite !str_bytes_str, <- Hf. unfold rest. clear Hf rest.
    apply String.prefix_correct in E. revert E. generalize "endpoint."%string. clear. intros p. revert k.
    induction p as [|c p IH]; intros k E; [done|]. destruct k as [|d k]; [done|]. cbn in E |- *. injection E as -> E. f_equal. by apply IH. }
  destruct x as [id field]. intros H1%H H2%H. apply str_bytes_inj. congruence.
Qed.


(** Every processed declaration holds. *)
Lemma endpoint_entries_spec cluster l t t' :
  table_ok cluster t -> NoDup l.*1 -> endpoint_entries cluster l t = Val t' ->
  table_ok cluster t' /\
  (forall j e, et_endpoints t !! j = Some e -> exists e', et_endpoints t' !! j = Some e' /\ ep_id e' = ep_id e /\
     forall f w, (forall k v, (k, v) ∈ l -> endpoint_key k <> Some (ep_id e, f)) -> field_holds f w e -> field_holds f w e') /\
  forall k v id field, (k, v) ∈ l -> endpoint_key k = Some (id, field) ->
    exists e, e ∈ et_endpoints t' /\ ep_id e = id /\ field_holds field v e.
Proof.
  revert t. induction l as [|[k v] l IH]; intros t Hok Hnd H; cbn [endpoint_entries] in H.
  { injection H as <-. split; [done|]. split; [eauto|]. intros k v id field Hin. by apply not_elem_of_nil in Hin. }
  apply bind_Val in H as (t1 & H1 & H). apply endpoint_entry_spec in H1 as (Hok1 & Hkeep & Hset); [|done].
  apply NoDup_cons in Hnd as [Hk Hnd]. cbn [fst] in Hk. destruct (IH t1 Hok1 Hnd H) as (Hok' & Hkeep' & Hset').
  split; [done|]. split.
  - intros j e He. destruct (Hkeep j e He) as (e1 & He1 & Hid1 & Hf1). destruct (Hkeep' j e1 He1) as (e2 & He2 & Hid2 & Hf2).
    exists e2. split; [done|]. split; [congruence|]. intros f w Hn Hh. apply Hf2.
    + intros k' v' Hin. rewrite Hid1. apply (Hn k' v'). by apply elem_of_cons; right.
    + apply Hf1; [|done]. apply (Hn k v). by apply elem_of_cons; left.
  - intros k' v' id field [[= -> ->]|Hin]%elem_of_cons Hkey; [|by apply (Hset' k' v')].
    destruct (Hset id field Hkey) as (e & [j Hj]%list_elem_of_lookup & Hid & Hh). destruct (Hkeep' j e Hj) as (e' & He' & Hid' & Hf').
    exists e'. split; [by eapply list_elem_of_lookup_2|]. split; [congruence|]. apply Hf'; [|done].
    intros k2 v2 Hin Hk2. rewrite Hid in Hk2. pose proof (endpoint_key_inj _ _ _ Hkey Hk2) as ->.
    apply Hk. by apply (list_elem_of_fmap_2 fst) in Hin.
Qed.

(** C35. The endpoints of a configuration: what [parse_endpoints] returns is sorted by identity without duplicates and
    within the limit of a cluster; every endpoint belongs to the cluster, is active, unreserved, with a valid scope
    and a bounded capacity; and every declaration "endpoint.<id>.<field>" of the configuration is the value
    of that field in the endpoint of that identity. *)
Theorem parse_endpoints_spec config cluster endpoints :
  parse_endpoints config cluster = Val endpoints ->
  StronglySorted endpoint_id_le endpoints /\ NoDup (ep_id <$> endpoints) /\
  zlen endpoints <= limits.kMaxEndpointsPerCluster /\ Forall (endpoint_ok cluster) endpoints /\
  forall key value id field, cf_values config !! key = Some value -> endpoint_key key = Some (id, field) ->
    exists e, e ∈ endpoints /\ ep_id e = id /\ field_holds field value e.
Proof.
  unfold parse_endpoints. intros (t & H & [= <-])%bind_Val.
  assert (Hempty : table_ok cluster (mkEndpointTable [] ∅)).
  { split; [|split; [constructor|unfold zlen, limits.kMaxEndpointsPerCluster; cbn; lia]].
    intros id i. cbn. rewrite lookup_empty, lookup_nil. split; [done|]. by intros (e & ? & _). }
  apply endpoint_entries_spec in H as ((Hix & Hall & Hlen) & _ & Hset); [|done|apply entries_keys_NoDup].
  pose proof (merge_sort_Permutation endpoint_id_le (et_endpoints t)) as Hperm.
  split_and!.
  - apply StronglySorted_merge_sort; apply _.
  - rewrite Hperm. apply NoDup_alt. intros i j id Hi Hj. rewrite !list_lookup_fmap in Hi, Hj.
    apply fmap_Some in Hi as (e & Hi & ->). apply fmap_Some in Hj as (e' & Hj & Hid).
    assert (et_index t !! ep_id e = Some i) by (apply Hix; eauto). assert (et_index t !! ep_id e = Some j) by (apply Hix; eauto).
    congruence.
  - unfold zlen. rewrite Hperm. exact Hlen.
  - by rewrite Hperm.
  - intros key value id field Hkey Hfield. apply elem_of_entries in Hkey. destruct (Hset _ _ _ _ Hkey Hfield) as (e & He & Hx).
    exists e. by rewrite Hperm.
Qed.

Definition endpoints_config : ConfigFile :=
  mkConfigFile {["endpoint.a.capacity" := "10"; "endpoint.a-b.allow" := "no"]}%string.
Lemma parse_endpoints_spec_witness :
  exists e, e ∈ value_or [] (parse_endpoints endpoints_config "c") /\ ep_id e = "a"%string /\ field_holds "capacity" "10" e.
Proof.
  refine (proj2 (proj2 (proj2 (proj2 (parse_endpoints_spec endpoints_config "c" (value_or [] (parse_endpoints endpoints_config "c")) _))))
    "endpoint.a.capacity" "10" "a" "capacity" _ _)%string; vm_compute; reflexivity.
Defined.
