(* ===== verification/Daemons.v ===== *)
(** * The two daemons

    Models apps/icfd/main.cpp and apps/icfclusterd/main.cpp: from the command line and the configuration file to the
    configuration of the coordinator or the agent, and to its start; every exit code and message on the way. The
    event loop ([serve]) is the subject of EventLoop.v and runs until a [stop]; signals and the standard streams are
    the operating system's. *)
From S2P Require Import Prelude Status Utf8 Bytes Ids Types Registry Time Files DurableStore Effects ConfigFile Log AppSupport.
From S2P Require Import Coordinator Agent.

(** [Status::to_string] *)
Definition status_to_string (s : Status) : string :=
  (outcome_to_string (st_outcome s) ++ (if bool_decide (st_message s = "") then "" else ": " ++ st_message s))%string.

(** [Duration::from_millis] of an unsigned 64-bit value: the conversion wraps, the product must not overflow. *)
Definition from_millis (value : Z) : Launch Z :=
  let nanos := cast_i64 value * 1000000 in
  if (i64_min <=? nanos) && (nanos <=? i64_max) then Launched nanos else Undefined.

(** ** icfd *)
Definition icfd_usage : list string :=
  ["usage: icfd --state-dir <dir> [options]";
   "  --config <file>            configuration file (key = value)";
   "  --state-dir <dir>          durable state directory (required)";
   "  --domain <id>              authority domain identity (required)";
   "  --listen <host:port>       listen address (default 127.0.0.1:0)";
   "  --ready-file <path>        file written once the listener is bound";
   "  --durable <bool>           fsync every durable write (default true)";
   "  --allow-agent-registration <bool>  accept unregistered cluster identities (default true)";
   "  --log-level <level>        trace|debug|info|warn|error|off";
   "  --domain-key.<domain> <k>  shared channel key for one authority domain"]%string.

(** [kKnownKeys]: declared, and used by nothing. *)
Definition kKnownKeys : list string :=
  ["state_dir"; "listen_address"; "listen_port"; "domain"; "durable"; "allow_agent_registration"; "agent_idle_ms";
   "lease_ms"; "ping_ms"; "compact_bytes"; "ready_file"; "log_level"]%string.

(** [Coordinator::Config] with the members that only the network and the readiness file use. *)
Record IcfdConfig := mkIcfdConfig {
  ic_config : Config;
  ic_listen_address : string;
  ic_listen_port : Z;
  ic_agent_idle_deadline : Z;
  ic_readiness_file : string;
  ic_log_level : LogLevel;
}.

(** From the merged configuration to the one of the coordinator. *)
Definition icfd_settings (config : ConfigFile) (arguments : Arguments) : Launch IcfdConfig :=
  let level := log_level_from arguments LogLevel_Info in
  let state_dir := config_string config arguments "state_dir" "" in
  let domain_text := config_string config arguments "domain" "" in
  if bool_decide (state_dir = ""%string) || bool_decide (domain_text = ""%string)
  then Exited 2 (icfd_usage ++ ["icfd: --state-dir and --domain are required"%string])
  else
    let listen := config_string config arguments "listen"
      (config_string config arguments "listen_address" "127.0.0.1" ++ ":" ++
       num (config_u64 config arguments "listen_port" 0)) in
    endpoint ← or_exit "icfd" 2 st_message (parse_endpoint listen);
    agent_idle_deadline ← from_millis (config_u64 config arguments "agent_idle_ms" 30000);
    default_lease ← from_millis (config_u64 config arguments "lease_ms" 120000);
    ping_interval ← from_millis (config_u64 config arguments "ping_ms" 5000);
    domain ← or_exit "icfd" 2 st_message (name_parse IdTag domain_text);
    Launched (mkIcfdConfig
      (mkConfig state_dir domain (config_bool config arguments "durable" true)
         (config_bool config arguments "allow_agent_registration" true) (channel_keys config) default_lease ping_interval
         10000000000 (config_u64 config arguments "compact_bytes" (8 * 2 ^ 20)) 16384)
      endpoint.1 endpoint.2 agent_idle_deadline (config_string config arguments "ready_file" "") level).

Definition icfd_configure (files : string -> FileRead) (argv : list string) : Launch IcfdConfig :=
  arguments ← or_exit "icfd" 2 st_message (parse_arguments argv);
  if args_has "help" arguments then Exited 0 icfd_usage
  else
    config ← or_exit "icfd" 2 st_message (load_config files arguments);
    icfd_settings config arguments.

(** The rest of [main] up to [serve]; [port] is the port the listener was given. *)
Definition icfd_main (io : StoreIo) (files : string -> FileRead) (argv : list string) (port : Z) (w : World) (d : Disk) :
    Launch (Coordinator * string) * Disk :=
  match icfd_configure files argv with
  | Launched ic =>
      let '(r, d) := start io (ic_config ic) w d in
      (coordinator ← or_exit "icfd" 1 status_to_string r;
       Launched (coordinator,
         ("icfd: listening on " ++ ic_listen_address ic ++ ":" ++ num port ++ " term=" ++ num (c_term coordinator) ++
          " recovered=" ++ (if rc_recovered_from_store (c_recovery coordinator) then "true" else "false"))%string), d)
  | Exited code errors => (Exited code errors, d)
  | Undefined => (Undefined, d)
  end.

(** After [serve] has returned. *)
Definition icfd_finish (served : Result unit) : Launch string :=
  _ ← or_exit "icfd" 1 status_to_string served; Launched "icfd: stopped"%string.

(** ** icfclusterd *)
Definition icfclusterd_usage : list string :=
  ["usage: icfclusterd --cluster <id> --domain <id> --coordinator <host:port> [options]";
   "  --config <file>            configuration file (key = value)";
   "  --cluster <id>             cluster identity (required)";
   "  --domain <id>              authority domain identity (required)";
   "  --coordinator <host:port>  coordinator address (required)";
   "  --generation <n>           cluster generation (default 1)";
   "  --policy-generation <n>    policy generation (default 1)";
   "  --state-dir <dir>          durable state directory (required)";
   "  --control <host:port>      local control address (default 127.0.0.1:0)";
   "  --ready-file <path>        file written once the control listener is bound";
   "  --shared-key <key>         shared channel key for the domain";
   "  --state <active|suspended|draining>  initial cluster state";
   "  --log-level <level>        trace|debug|info|warn|error|off";
   "  endpoint.<id>.scope|capacity|degraded|allow   endpoint declarations"]%string.

Record IcfclusterdConfig := mkIcfclusterdConfig {
  cc_config : AgentConfig;
  cc_coordinator_host : string;
  cc_control_address : string;
  cc_control_port : Z;
  cc_readiness_file : string;
}.

Definition cluster_state_option (text : string) : option ClusterState :=
  if bool_decide (text = "active"%string) then Some ClusterState_Active
  else if bool_decide (text = "suspended"%string) then Some ClusterState_Suspended
  else if bool_decide (text = "draining"%string) then Some ClusterState_Draining
  else None.

Definition icfclusterd_configure (files : string -> FileRead) (argv : list string) : Launch IcfclusterdConfig :=
  let check {A} := or_exit (A := A) "icfclusterd" 2 st_message in
  arguments ← check (parse_arguments argv);
  if args_has "help" arguments then Exited 0 icfclusterd_usage
  else
    config ← check (load_config files arguments);
    let cluster_text := config_string config arguments "cluster" "" in
    let domain_text := config_string config arguments "domain" "" in
    let coordinator_text := config_string config arguments "coordinator" "" in
    let state_dir := config_string config arguments "state_dir" "" in
    if bool_decide (cluster_text = ""%string) || bool_decide (domain_text = ""%string) ||
       bool_decide (coordinator_text = ""%string) || bool_decide (state_dir = ""%string)
    then Exited 2 (icfclusterd_usage ++ ["icfclusterd: --cluster, --domain, --coordinator, and --state-dir are required"%string])
    else
      domain ← check (name_parse IdTag domain_text);
      coordinator_address ← check (parse_endpoint coordinator_text);
      cluster ← check (name_parse IdTag cluster_text);
      control_address ← check (parse_endpoint (config_string config arguments "control" "127.0.0.1:0"));
      match cluster_state_option (config_string config arguments "state" "active") with
      | None => Exited 2 ["icfclusterd: --state must be active, suspended, or draining"%string]
      | Some state =>
          endpoints ← check (parse_endpoints config cluster);
          Launched (mkIcfclusterdConfig
            (mkAgentConfig cluster domain (config_u64 config arguments "generation" 1)
               (config_u64 config arguments "policy_generation" 1) state endpoints coordinator_address.2 state_dir
               (config_string config arguments "shared_key" "") (config_bool config arguments "durable" true)
               10000000000 250000000 8000000000 (2 * 2 ^ 20) 8192 true)
            coordinator_address.1 control_address.1 control_address.2 (config_string config arguments "ready_file" ""))
      end.

Definition icfclusterd_main (io : StoreIo) (files : string -> FileRead) (argv : list string) (port : Z) (w : World)
    (network : nat -> Result unit) (listening : Result unit) (d : Disk) : Launch (Agent * string) * Disk :=
  match icfclusterd_configure files argv with
  | Launched cc =>
      let '(r, d) := agent_start io (cc_config cc) w network listening d in
      (agent ← or_exit "icfclusterd" 1 status_to_string r;
       Launched (agent,
         ("icfclusterd: cluster=" ++ ac_cluster (cc_config cc) ++ " control_port=" ++ num port ++ " incarnation=" ++
          uuid_to_string (id_incarnation (a_identity agent)) ++ " term=" ++ num (id_term (a_identity agent)) ++
          " generation=" ++ num (id_generation (a_identity agent)))%string), d)
  | Exited code errors => (Exited code errors, d)
  | Undefined => (Undefined, d)
  end.

Definition icfclusterd_finish (served : Result unit) : Launch string :=
  _ ← or_exit "icfclusterd" 1 status_to_string served; Launched "icfclusterd: stopped"%string.

(** ** What a configuration decides *)
Lemma after_prefix_spec prefix key rest :
  after_prefix prefix key = Some rest <-> rest <> ""%string /\ key = (prefix ++ rest)%string.
Proof.
  unfold after_prefix, slen. split.
  - destruct (_ && _) eqn:E; [|done]. apply andb_true_iff in E as [Hlen Hp]. apply Z.ltb_lt in Hlen.
    intros [= <-]. revert key Hlen Hp. induction prefix as [|c prefix IH]; intros key Hlen Hp.
    + cbn [String.length String.append]. rewrite drop_0, bytes_str_bytes. split; [|done]. by intros ->.
    + destruct key as [|d key]; [done|]. cbn in Hp. destruct (Ascii.ascii_dec c d) as [->|]; [|done]. cbn [String.length] in Hlen.
      destruct (IH key) as [H1 H2]; [lia|done|]. cbn [str_bytes list_ascii_of_string skipn String.length].
      split; [exact H1|]. exact (f_equal (String d) H2).
  - intros [Hne ->]. assert (Hlen : String.length (prefix ++ rest) = (String.length prefix + String.length rest)%nat).
    { clear. induction prefix as [|c p IH]; [done|]. exact (f_equal S IH). }
    assert (Hr : (0 < String.length rest)%nat) by (destruct rest; [done|cbn; lia]).
    rewrite (proj2 (Z.ltb_lt _ _)) by lia.
    assert (Hp : String.prefix prefix (prefix ++ rest) = true).
    { clear. induction prefix as [|c p IH]; [by destruct rest|].
      change ((if Ascii.ascii_dec c c then String.prefix p (p +:+ rest) else false) = true). destruct (Ascii.ascii_dec c c) as [_|[]]; [exact IH|done]. }
    rewrite Hp. cbn [andb]. f_equal. clear. induction prefix as [|c p IH]; [cbn [String.length String.append]; rewrite drop_0; apply bytes_str_bytes|exact IH].
Qed.

Lemma channel_keys_fold (l : list (string * string)) (keys : gmap string string) (domain : string) :
  NoDup l.*1 ->
  foldl (fun (keys : gmap string string) (entry : string * string) => match after_prefix "domain_key." entry.1 with
                           | Some domain => <[domain := entry.2]> keys
                           | None => keys
                           end) keys l !! domain =
  match (if bool_decide (domain = ""%string) then None
         else list_to_map (M := gmap string string) l !! ("domain_key." ++ domain)%string) with
  | Some v => Some v
  | None => keys !! domain
  end.
Proof.
  revert keys. induction l as [|[k v] l IH]; intros keys Hnd; cbn [foldl].
  { case_bool_decide; [done|]. done. }
  apply NoDup_cons in Hnd as [Hk Hnd]. cbn [fst] in Hk. rewrite IH by done. cbn [fst snd list_to_map foldr].
  case_bool_decide as Hd.
  - destruct (after_prefix "domain_key." k) as [d|] eqn:E; [|done]. apply after_prefix_spec in E as [Hne _].
    by rewrite lookup_insert_ne by congruence.
  - change (foldr _ _ l) with (list_to_map (M := gmap string string) l).
    destruct (base.decide (k = ("domain_key." ++ domain)%string)) as [->|Hne].
    + rewrite lookup_insert_eq, (not_elem_of_list_to_map_1 l) by done.
      rewrite (proj2 (after_prefix_spec _ _ domain)) by done. by rewrite lookup_insert_eq.
    + rewrite lookup_insert_ne by done. destruct (list_to_map l !! _); [done|].
      destruct (after_prefix "domain_key." k) as [d|] eqn:E; [|done]. apply after_prefix_spec in E as [_ ->].
      by rewrite lookup_insert_ne by congruence.
Qed.

Lemma channel_keys_spec config domain :
  channel_keys config !! domain =
  if bool_decide (domain = ""%string) then None else cf_values config !! ("domain_key." ++ domain)%string.
Proof.
  unfold channel_keys. rewrite channel_keys_fold by apply entries_keys_NoDup. unfold config_entries.
  rewrite list_to_map_entries, lookup_empty. case_bool_decide; [done|]. by destruct (cf_values config !! _).
Qed.

(** The keys that [icfd] looks up. *)
Definition icfd_keys : list string :=
  ["state_dir"; "domain"; "listen"; "listen_address"; "listen_port"; "agent_idle_ms"; "lease_ms"; "ping_ms"; "durable";
   "allow_agent_registration"; "compact_bytes"; "ready_file"]%string.

Section unknown_key.
Context (key value : string) (config : ConfigFile) (arguments : Arguments).
Context (Hkey : key ∉ icfd_keys) (Hdomain : after_prefix "domain_key." key = None).
Let config' : ConfigFile := mkConfigFile (<[key := value]> (cf_values config)).

Lemma known_lookup k : k ∈ icfd_keys -> cf_values config' !! k = cf_values config !! k.
Proof. intros H. unfold config'. cbn. apply lookup_insert_ne. by intros ->. Qed.
Lemma known_string k fallback : k ∈ icfd_keys -> config_string config' arguments k fallback = config_string config arguments k fallback.
Proof. intros H. unfold config_string, get_string_or. by rewrite known_lookup. Qed.
Lemma known_u64 k fallback : k ∈ icfd_keys -> config_u64 config' arguments k fallback = config_u64 config arguments k fallback.
Proof. intros H. unfold config_u64, get_u64_or, get_u64, get_string. by rewrite known_lookup. Qed.
Lemma known_bool k fallback : k ∈ icfd_keys -> config_bool config' arguments k fallback = config_bool config arguments k fallback.
Proof. intros H. unfold config_bool, get_bool_or, get_bool, get_string. by rewrite known_lookup. Qed.
Lemma known_channel_keys : channel_keys config' = channel_keys config.
Proof.
  apply map_eq. intros domain. rewrite !channel_keys_spec. case_bool_decide as Hd; [done|]. unfold config'. cbn.
  apply lookup_insert_ne. intros ->. by rewrite (proj2 (after_prefix_spec _ _ domain)) in Hdomain.
Qed.
Lemma unknown_settings : icfd_settings config' arguments = icfd_settings config arguments.
Proof.
  unfold icfd_settings. rewrite known_channel_keys.
  rewrite !known_string, !known_bool, !known_u64 by (unfold icfd_keys; set_solver). done.
Qed.
End unknown_key.

(** A file in which the operator has misspelled the key that closes the registration. *)
Definition misspelled (path : string) : FileRead :=
  FileText (bytes_str (str_bytes "state_dir = s" ++ [newline] ++ str_bytes "domain = ops" ++ [newline] ++
                       str_bytes "allow_agent_registraton = false" ++ [newline])).
(** And one in which the value is misspelled. *)
Definition misspelled_value (path : string) : FileRead :=
  FileText (bytes_str (str_bytes "state_dir = s" ++ [newline] ++ str_bytes "domain = ops" ++ [newline] ++
                       str_bytes "allow_agent_registration = flase" ++ [newline])).
Definition registration_open (l : Launch IcfdConfig) : option bool :=
  match l with Launched ic => Some (cf_allow_agent_registration (ic_config ic)) | _ => None end.

(** The daemon ignores the keys it does not know: an entry under any other key changes nothing of the configuration of
    the coordinator. So a misspelled key, and likewise a misspelled value, leaves the registration of unknown
    clusters open without an error, although the configuration could be checked against the known keys. *)
Theorem unknown_keys_are_ignored :
  (forall key value config arguments, key ∉ icfd_keys -> after_prefix "domain_key." key = None ->
     icfd_settings (mkConfigFile (<[key := value]> (cf_values config))) arguments = icfd_settings config arguments) /\
  registration_open (icfd_configure misspelled ["--config=f"%string]) = Some true /\
  registration_open (icfd_configure misspelled_value ["--config=f"%string]) = Some true /\
  exists config s, load_file misspelled "f" = Val config /\ reject_unknown kKnownKeys config = Err s.
Proof.
  split; [intros; by apply unknown_settings|]. split; [vm_compute; reflexivity|]. split; [vm_compute; reflexivity|].
  eexists _, _. split; vm_compute; reflexivity.
Qed.

Lemma launch_inv {A B} (f : A -> Launch B) m b : m ≫= f = Launched b -> exists a, m = Launched a /\ f a = Launched b.
Proof. destruct m; cbn; [eauto|done|done]. Qed.
Lemma or_exit_inv {A} program code show (r : Result A) a : or_exit program code show r = Launched a -> r = Val a.
Proof. destruct r; cbn; [by intros [= ->]|done|done]. Qed.
Lemma from_millis_i64 v n : from_millis v = Launched n -> is_i64 n.
Proof. unfold from_millis, is_i64. destruct (_ && _) eqn:E; [|done]. intros [= <-]. bool_prop. lia. Qed.
Lemma parse_endpoint_port text host port : parse_endpoint text = Val (host, port) -> 0 <= port <= 65535.
Proof.
  unfold parse_endpoint. destruct (rfind _ _) as [i|]; [|done]. destruct (_ || _); [done|].
  intros (p & Hp & H)%bind_Val. rewrite app_parse_u64_eq in Hp. destruct (20 <? _); [done|]. apply parse_u64_nonneg in Hp.
  unfold reject_if, is_u64 in *. destruct (Z.ltb_spec 65535 p); [done|]. cbn [mbind Result_bind] in H.
  destruct (_ || _) in H; [done|]. injection H as <- <-. lia.
Qed.

(** What [icfd] starts with: a launch means a non-empty state directory, a valid domain, a port of 16 bits, durations
    that are 64-bit values, and as channel key of a domain exactly the value of its "domain_key." entry, the command
    line first. *)
Theorem icfd_configure_sound files argv ic :
  icfd_configure files argv = Launched ic ->
  cf_state_directory (ic_config ic) <> ""%string /\ valid_name IdTag (cf_domain (ic_config ic)) /\
  0 <= ic_listen_port ic <= 65535 /\
  is_i64 (ic_agent_idle_deadline ic) /\ is_i64 (cf_default_lease (ic_config ic)) /\ is_i64 (cf_ping_interval (ic_config ic)) /\
  exists arguments config, parse_arguments argv = Val arguments /\ load_config files arguments = Val config /\
    forall domain, domain <> ""%string ->
      cf_domain_keys (ic_config ic) !! domain = cf_values config !! ("domain_key." ++ domain)%string.
Proof.
  unfold icfd_configure. intros (arguments & Ha & H)%launch_inv. apply or_exit_inv in Ha. destruct (args_has "help" arguments); [done|].
  apply launch_inv in H as (config & Hc & H). apply or_exit_inv in Hc. unfold icfd_settings in H.
  destruct (_ || _) eqn:Hne in H; [done|]. apply orb_false_iff in Hne as [Hs _]. apply bool_decide_eq_false in Hs.
  apply launch_inv in H as ([host port] & He & H). apply or_exit_inv, parse_endpoint_port in He.
  apply launch_inv in H as (idle & Hi%from_millis_i64 & H). apply launch_inv in H as (lease & Hl%from_millis_i64 & H).
  apply launch_inv in H as (ping & Hp%from_millis_i64 & H). apply launch_inv in H as (domain & Hd & H).
  apply or_exit_inv, name_parse_Val in Hd as [-> Hd]. injection H as <-. cbn. split_and!; try done; try lia.
  exists arguments, config. split; [done|]. split; [done|]. intros d Hd'. rewrite channel_keys_spec. by rewrite bool_decide_eq_false_2.
Qed.

Definition good_arguments : list string :=
  ["--state-dir"; "s"; "--domain=ops"; "--listen"; "0.0.0.0:7000"; "--domain-key.dom-a"; "k"]%string.
Definition good_launch : IcfdConfig :=
  match icfd_configure (fun _ => FileMissing) good_arguments with
  | Launched ic => ic
  | _ => mkIcfdConfig (mkConfig "" "" false false ∅ 0 0 0 0 0) "" 0 0 "" LogLevel_Off
  end.
Lemma icfd_configure_sound_witness : 0 <= ic_listen_port good_launch <= 65535 /\ ic_listen_port good_launch = 7000.
Proof.
  split; [|vm_compute; reflexivity].
  exact (proj1 (proj2 (proj2 (icfd_configure_sound (fun _ => FileMissing) good_arguments good_launch ltac:(vm_compute; reflexivity))))).
Defined.

(** A duration in milliseconds that does not fit in nanoseconds is multiplied all the same. *)
Example long_lease_overflows :
  icfd_configure (fun _ => FileMissing) (good_arguments ++ ["--lease-ms=9223372036855"%string]) = Undefined.
Proof. vm_compute. reflexivity. Qed.
