(* ===== verification/Sockets.v ===== *)
(** * Sockets

    Models src/net/platform.cpp, src/net/poller.cpp and src/net/socket.cpp on POSIX: the translation of the error codes, one
    call of [poll], the bounded wait, connecting to the first address that answers, binding a listener, and the sending
    and receiving of bytes. The system calls are the operating system's: what they answer is read from a [Net]. *)
From S2P Require Import Prelude Status Utf8.

(** ** Errors *)
Inductive SocketError :=
  | SocketError_None | SocketError_WouldBlock | SocketError_Interrupted | SocketError_InProgress
  | SocketError_AlreadyConnected | SocketError_ConnectionRefused | SocketError_ConnectionReset
  | SocketError_ConnectionAborted | SocketError_NotConnected | SocketError_TimedOut | SocketError_AddressInUse
  | SocketError_AddressNotAvailable | SocketError_InvalidArgument | SocketError_MessageTooLarge
  | SocketError_NetworkUnreachable | SocketError_HostUnreachable | SocketError_NameResolutionFailed | SocketError_Unknown.
#[export] Instance SocketError_eq_dec : EqDecision SocketError.
Proof. solve_decision. Defined.

(** The codes that the source names; [ErrnoOther] is any other value of [errno]. *)
Inductive Errno :=
  | Errno0 | EAGAIN | EWOULDBLOCK | EINTR | EINPROGRESS | EISCONN | ECONNREFUSED | ECONNRESET | ECONNABORTED | ENOTCONN
  | ETIMEDOUT | EADDRINUSE | EADDRNOTAVAIL | EINVAL | EMSGSIZE | ENETUNREACH | EHOSTUNREACH | EAI_NONAME | EAI_AGAIN
  | EAI_FAIL | ErrnoOther.
Definition translate_socket_error (code : Errno) : SocketError :=
  match code with
  | Errno0 => SocketError_None
  | EAGAIN | EWOULDBLOCK => SocketError_WouldBlock
  | EINTR => SocketError_Interrupted
  | EINPROGRESS => SocketError_InProgress
  | EISCONN => SocketError_AlreadyConnected
  | ECONNREFUSED => SocketError_ConnectionRefused
  | ECONNRESET => SocketError_ConnectionReset
  | ECONNABORTED => SocketError_ConnectionAborted
  | ENOTCONN => SocketError_NotConnected
  | ETIMEDOUT => SocketError_TimedOut
  | EADDRINUSE => SocketError_AddressInUse
  | EADDRNOTAVAIL => SocketError_AddressNotAvailable
  | EINVAL => SocketError_InvalidArgument
  | EMSGSIZE => SocketError_MessageTooLarge
  | ENETUNREACH => SocketError_NetworkUnreachable
  | EHOSTUNREACH => SocketError_HostUnreachable
  | EAI_NONAME | EAI_AGAIN | EAI_FAIL => SocketError_NameResolutionFailed
  | ErrnoOther => SocketError_Unknown
  end.

Definition socket_error_to_string (error : SocketError) : string :=
  match error with
  | SocketError_None => "NONE"
  | SocketError_WouldBlock => "WOULD_BLOCK"
  | SocketError_Interrupted => "INTERRUPTED"
  | SocketError_InProgress => "IN_PROGRESS"
  | SocketError_AlreadyConnected => "ALREADY_CONNECTED"
  | SocketError_ConnectionRefused => "CONNECTION_REFUSED"
  | SocketError_ConnectionReset => "CONNECTION_RESET"
  | SocketError_ConnectionAborted => "CONNECTION_ABORTED"
  | SocketError_NotConnected => "NOT_CONNECTED"
  | SocketError_TimedOut => "TIMED_OUT"
  | SocketError_AddressInUse => "ADDRESS_IN_USE"
  | SocketError_AddressNotAvailable => "ADDRESS_NOT_AVAILABLE"
  | SocketError_InvalidArgument => "INVALID_ARGUMENT"
  | SocketError_MessageTooLarge => "MESSAGE_TOO_LARGE"
  | SocketError_NetworkUnreachable => "NETWORK_UNREACHABLE"
  | SocketError_HostUnreachable => "HOST_UNREACHABLE"
  | SocketError_NameResolutionFailed => "NAME_RESOLUTION_FAILED"
  | SocketError_Unknown => "UNKNOWN"
  end.

Definition outcome_for (error : SocketError) : Outcome :=
  match error with
  | SocketError_WouldBlock | SocketError_Interrupted | SocketError_InProgress => Outcome_Busy
  | SocketError_TimedOut | SocketError_ConnectionRefused | SocketError_ConnectionReset | SocketError_ConnectionAborted
  | SocketError_NetworkUnreachable | SocketError_HostUnreachable | SocketError_NotConnected
  | SocketError_NameResolutionFailed => Outcome_Unreachable
  | SocketError_AddressInUse | SocketError_AlreadyConnected => Outcome_AlreadyExists
  | SocketError_AddressNotAvailable | SocketError_InvalidArgument | SocketError_MessageTooLarge => Outcome_Invalid
  | SocketError_None => Outcome_Ok
  | SocketError_Unknown => Outcome_Unknown
  end.

(** A system call either answers or leaves a code in [errno]. *)
Definition Call (A : Type) : Type := Errno + A.
Definition make_error {A} (code : Errno) (what : string) : Result A :=
  let error := translate_socket_error code in
  fail (outcome_for error) (what ++ " failed: " ++ socket_error_to_string error).
Definition checked {A} (what : string) (c : Call A) : Result A :=
  match c with inl code => make_error code what | inr a => Val a end.

(** ** Polling *)
Record Revents := mkRevents { ev_readable : bool; ev_writable : bool; ev_failed : bool }.
Definition is_ready (e : Revents) : bool := ev_readable e || ev_writable e || ev_failed e.
Definition poll_sockets (items : nat) (answer : Call (list Revents)) : Result (Z * list Revents) :=
  _ ← reject_if (limits.kMaxConnections + 4 <? Z.of_nat items) Outcome_Invalid
        "poll set exceeds the maximum number of connections";
  if (items =? 0)%nat then Val (0, [])
  else
    match answer with
    | inl code =>
        let error := translate_socket_error code in
        if bool_decide (error = SocketError_Interrupted) then Val (0, replicate items (mkRevents false false false))
        else fail (outcome_for error) ("poll failed: " ++ socket_error_to_string error)
    | inr events => Val (zlen (filter (fun e => is_ready e = true) events), events)
    end.

(** ** The operating system

    The answers of the clock and of the calls on one socket, each read in order. *)
Record Net := mkNet {
  nt_clock : nat -> Z;
  nt_poll : nat -> Call Revents;
  nt_errno : nat -> Errno;
  nt_send : nat -> Call Z;
  nt_receive : nat -> Call bytes;
  nt_clocks : nat;
  nt_polls : nat;
  nt_sends : nat;
  nt_receives : nat;
}.
Definition monotonic_nanos (n : Net) : Z * Net :=
  (nt_clock n (nt_clocks n),
   mkNet (nt_clock n) (nt_poll n) (nt_errno n) (nt_send n) (nt_receive n) (S (nt_clocks n)) (nt_polls n) (nt_sends n) (nt_receives n)).
Definition poll_one (n : Net) : Result (Z * Revents) * Net :=
  (match poll_sockets 1 (match nt_poll n (nt_polls n) with inl code => inl code | inr e => inr [e] end) with
   | Val (ready, events) => Val (ready, default (mkRevents false false false) (head events))
   | Err s => Err s
   | Throw => Throw
   end,
   mkNet (nt_clock n) (nt_poll n) (nt_errno n) (nt_send n) (nt_receive n) (nt_clocks n) (S (nt_polls n)) (nt_sends n) (nt_receives n)).

(** [Socket::send] and [Socket::receive] on a valid handle; a send transfers at most what it is given. *)
Definition socket_send (data : bytes) (n : Net) : Result Z * Net :=
  if bool_decide (data = []) then (Val 0, n)
  else
    (match nt_send n (nt_sends n) with
     | inl code => make_error code "send"
     | inr written => Val (Z.min written (zlen data))
     end,
     mkNet (nt_clock n) (nt_poll n) (nt_errno n) (nt_send n) (nt_receive n) (nt_clocks n) (nt_polls n) (S (nt_sends n)) (nt_receives n)).
Definition socket_receive (capacity : nat) (n : Net) : Result bytes * Net :=
  if (capacity =? 0)%nat then (Val [], n)
  else
    (match nt_receive n (nt_receives n) with
     | inl code => make_error code "receive"
     | inr data => Val (take capacity data)
     end,
     mkNet (nt_clock n) (nt_poll n) (nt_errno n) (nt_send n) (nt_receive n) (nt_clocks n) (nt_polls n) (nt_sends n) (S (nt_receives n))).

(** ** The bounded wait; [None] is a loop that has not ended yet. *)
Definition poll_slice (remaining : Z) : Z :=
  let slice := Z.quot remaining 1000000 in
  let slice := if slice <=? 0 then 1 else slice in
  if 250 <? slice then 250 else slice.
Fixpoint wait_loop (fuel : nat) (start deadline : Z) (n : Net) : option (Result unit * Net) :=
  match fuel with
  | O => None
  | S fuel =>
      let '(clock, n) := monotonic_nanos n in
      let remaining := deadline - (clock - start) in
      if remaining <=? 0 then Some (fail Outcome_Unreachable "connect deadline expired", n)
      else
        match poll_one n with
        | (Val (ready, events), n) =>
            if ev_failed events then
              let error := translate_socket_error (nt_errno n (nt_polls n)) in
              Some (fail (outcome_for error) ("socket failed while waiting: " ++ socket_error_to_string error), n)
            else if 0 <? ready then Some (Val tt, n)
            else wait_loop fuel start deadline n
        | (Err s, n) => Some (Err s, n)
        | (Throw, n) => Some (Throw, n)
        end
  end.
Definition wait_for (fuel : nat) (deadline : Z) (n : Net) : option (Result unit * Net) :=
  let '(start, n) := monotonic_nanos n in wait_loop fuel start deadline n.

(** ** Connecting

    One address of the resolved list, with what the calls on it answer. *)
Record Candidate := mkCandidate {
  cd_socket : Call Z;
  cd_getfl : Call unit;
  cd_setfl : Call unit;
  cd_connect : option Errno;
  cd_so_error : Call Errno;
}.
Definition set_nonblocking (getfl setfl : Call unit) : Result unit :=
  _ ← checked "fcntl(F_GETFL)" getfl; checked "fcntl(F_SETFL)" setfl.

Definition connect_failed (error : SocketError) : Result Z :=
  fail (outcome_for error) ("connect failed: " ++ socket_error_to_string error).

(** The body of the loop: the handle of a connected socket, or the error to remember. *)
Definition try_address (fuel : nat) (deadline : Z) (c : Candidate) (n : Net) : option (Result Z * Net) :=
  match checked "socket" (cd_socket c) with
  | Val handle =>
      match set_nonblocking (cd_getfl c) (cd_setfl c) with
      | Val _ =>
          match cd_connect c with
          | None => Some (Val handle, n)
          | Some code =>
              let error := translate_socket_error code in
              if negb (bool_decide (error ∈ [SocketError_WouldBlock; SocketError_InProgress; SocketError_Interrupted]))
              then Some (connect_failed error, n)
              else
                '(ready, n) ← wait_for fuel deadline n;
                Some (match ready with
                      | Val _ =>
                          match checked "getsockopt(SO_ERROR)" (cd_so_error c) with
                          | Val Errno0 => Val handle
                          | Val code => connect_failed (translate_socket_error code)
                          | Err s => Err s
                          | Throw => Throw
                          end
                      | Err s => Err s
                      | Throw => Throw
                      end, n)
          end
      | Err s => Some (Err s, n)
      | Throw => Some (Throw, n)
      end
  | Err s => Some (Err s, n)
  | Throw => Some (Throw, n)
  end.
Fixpoint connect_loop (fuel : nat) (deadline : Z) (last_error : Status) (candidates : list Candidate) (n : Net) :
    option (Result Z * Net) :=
  match candidates with
  | [] => Some (Err last_error, n)
  | c :: candidates =>
      '(r, n) ← try_address fuel deadline c n;
      match r with
      | Err s => connect_loop fuel deadline s candidates n
      | r => Some (r, n)
      end
  end.
(** [resolved] is the answer of [getaddrinfo]; [scope] is whether the socket subsystem is up. *)
Definition socket_connect (scope : bool) (resolved : option (list Candidate)) (fuel : nat) (deadline : Z) (n : Net) :
    option (Result Z * Net) :=
  if negb scope then Some (fail Outcome_Unsupported "the socket subsystem could not be initialised", n)
  else
    match resolved with
    | None | Some [] => Some (fail Outcome_Unreachable "cannot resolve the coordinator address", n)
    | Some candidates =>
        connect_loop fuel deadline (status_make Outcome_Unreachable "no address attempted") candidates n
    end.

(** ** Listening *)
Record ListenCandidate := mkListenCandidate {
  lc_socket : Call Z;
  lc_reuse : Call unit;
  lc_bind : Call unit;
  lc_listen : Call unit;
  lc_port : option Z;
  lc_getfl : Call unit;
  lc_setfl : Call unit;
}.
(** The handle and the port of the listener. *)
Definition try_listen (c : ListenCandidate) : Result (Z * Z) :=
  handle ← checked "socket" (lc_socket c);
  _ ← checked "setsockopt(SO_REUSEADDR)" (lc_reuse c);
  _ ← checked "bind" (lc_bind c);
  _ ← checked "listen" (lc_listen c);
  let port := default 0 (lc_port c) in
  _ ← set_nonblocking (lc_getfl c) (lc_setfl c);
  Val (handle, port).
Fixpoint listen_loop (last_error : Status) (candidates : list ListenCandidate) : Result (Z * Z) :=
  match candidates with
  | [] => Err last_error
  | c :: candidates =>
      match try_listen c with
      | Err s => listen_loop s candidates
      | r => r
      end
  end.
Definition listener_bind (scope : bool) (resolved : option (list ListenCandidate)) : Result (Z * Z) :=
  if negb scope then fail Outcome_Unsupported "the socket subsystem could not be initialised"
  else
    match resolved with
    | None | Some [] => fail Outcome_Invalid "cannot resolve the listen address"
    | Some candidates => listen_loop (status_make Outcome_Invalid "no address attempted") candidates
    end.
(** [TcpListener::accept]; the two options that are set on the socket are best effort. *)
Definition listener_accept (valid : bool) (answer : Call Z) : Result Z :=
  if negb valid then fail Outcome_Invalid "listener is closed"
  else match answer with inl code => make_error code "accept" | inr handle => Val handle end.

(** ** The waits end *)
Definition clock_advances (n : Net) : Prop := forall t, exists k, forall j, (k <= j)%nat -> t < nt_clock n j.

Lemma poll_one_net n : (poll_one n).2 = mkNet (nt_clock n) (nt_poll n) (nt_errno n) (nt_send n) (nt_receive n) (nt_clocks n)
                                          (S (nt_polls n)) (nt_sends n) (nt_receives n).
Proof. done. Qed.

Lemma wait_loop_mono fuel fuel' start deadline n r :
  (fuel <= fuel')%nat -> wait_loop fuel start deadline n = Some r -> wait_loop fuel' start deadline n = Some r.
Proof.
  revert fuel' n. induction fuel as [|fuel IH]; intros fuel' n Hf H; [done|]. destruct fuel' as [|fuel']; [lia|].
  cbn [wait_loop] in *. destruct (monotonic_nanos n) as [clock n1]. destruct (_ <=? 0); [done|].
  destruct (poll_one n1) as [[[ready events]|s|] n2]; [|done..]. destruct (ev_failed events); [done|].
  destruct (0 <? ready); [done|]. apply IH; [lia|done].
Qed.

Lemma wait_loop_total k start deadline n :
  (forall j, (k <= j)%nat -> start + deadline < nt_clock n j) ->
  exists r, wait_loop (S (k - nt_clocks n)) start deadline n = Some r /\ nt_clock r.2 = nt_clock n.
Proof.
  intros Hk. remember (k - nt_clocks n)%nat as m eqn:Em. revert n Hk Em. induction m as [|m IH]; intros n Hk Em;
    cbn [wait_loop monotonic_nanos].
  - rewrite (proj2 (Z.leb_le _ _)) by (specialize (Hk (nt_clocks n) ltac:(lia)); lia). eexists. split; [done|done].
  - destruct (deadline - (nt_clock n (nt_clocks n) - start) <=? 0); [eexists; split; [done|done]|].
    set (n1 := mkNet _ _ _ _ _ (S (nt_clocks n)) _ _ _). pose proof (poll_one_net n1) as Hp.
    destruct (poll_one n1) as [[[ready events]|s|] n2]; cbn [snd] in Hp; subst n2; [|eexists; split; [done|done]..].
    destruct (ev_failed events); [eexists; split; [done|done]|].
    destruct (0 <? ready); [eexists; split; [done|done]|].
    apply (IH (mkNet (nt_clock n) (nt_poll n) (nt_errno n) (nt_send n) (nt_receive n) (S (nt_clocks n)) (S (nt_polls n))
      (nt_sends n) (nt_receives n))); [exact Hk|cbn; lia].
Qed.

Lemma wait_for_total deadline n :
  clock_advances n -> exists fuel r, nt_clock r.2 = nt_clock n /\
    forall fuel', (fuel <= fuel')%nat -> wait_for fuel' deadline n = Some r.
Proof.
  intros H. unfold wait_for. cbn [monotonic_nanos]. destruct (H (nt_clock n (nt_clocks n) + deadline)) as [k Hk].
  destruct (wait_loop_total k (nt_clock n (nt_clocks n)) deadline
    (mkNet (nt_clock n) (nt_poll n) (nt_errno n) (nt_send n) (nt_receive n) (S (nt_clocks n)) (nt_polls n) (nt_sends n) (nt_receives n)) Hk)
    as (r & Hr & Hc).
  exists (S (k - S (nt_clocks n))), r. split; [done|]. intros fuel' Hf. by eapply wait_loop_mono.
Qed.

Lemma try_candidate_total deadline c n :
  clock_advances n -> exists fuel r, nt_clock r.2 = nt_clock n /\
    forall fuel', (fuel <= fuel')%nat -> try_address fuel' deadline c n = Some r.
Proof.
  intros H. unfold try_address. destruct (checked "socket" _) as [handle|s|]; [|by exists 0%nat, (Err s, n)|by exists 0%nat, (Throw, n)].
  destruct (set_nonblocking _ _) as [[]|s|]; [|by exists 0%nat, (Err s, n)|by exists 0%nat, (Throw, n)].
  destruct (cd_connect c) as [code|]; [|by exists 0%nat, (Val handle, n)].
  destruct (negb _); [by eexists 0%nat, (_, n)|]. destruct (wait_for_total deadline n H) as (fuel & [ready n1] & Hc & Hr).
  exists fuel. eexists (_, n1). split; [done|]. intros fuel' Hf. by rewrite (Hr fuel' Hf).
Qed.

Lemma connect_loop_total deadline last candidates n :
  clock_advances n -> exists fuel r, forall fuel', (fuel <= fuel')%nat -> connect_loop fuel' deadline last candidates n = Some r.
Proof.
  revert last n. induction candidates as [|c candidates IH]; intros last n H; cbn [connect_loop].
  { by exists 0%nat, (Err last, n). }
  destruct (try_candidate_total deadline c n H) as (fuel & [r n'] & Hc & Hr). cbn [snd] in Hc.
  destruct r as [handle|s|]; [by exists fuel; eexists; intros fuel' Hf; rewrite (Hr fuel' Hf)| |
    by exists fuel; eexists; intros fuel' Hf; rewrite (Hr fuel' Hf)].
  destruct (IH s n') as (fuel2 & r2 & Hr2); [unfold clock_advances; by rewrite Hc|].
  exists (max fuel fuel2), r2. intros fuel' Hf. rewrite (Hr fuel') by lia. cbn [mbind option_bind]. apply Hr2. lia.
Qed.


(** [Socket::connect] takes the first address that connects: the addresses before it have all failed; and when none
    connects, the error is the one of the last address. *)
Theorem connect_first_address fuel deadline c candidates n r n' :
  socket_connect true (Some (c :: candidates)) fuel deadline n = Some (r, n') ->
  exists before last n1, (before ++ [last]) `prefix_of` (c :: candidates) /\
    try_address fuel deadline last n1 = Some (r, n') /\
    (is_val r = true \/ r = Throw \/ before ++ [last] = c :: candidates) /\
    Forall (fun b => exists m s m', try_address fuel deadline b m = Some (Err s, m')) before.
Proof.
  cbn [socket_connect negb]. generalize (status_make Outcome_Unreachable "no address attempted"). revert c n.
  induction candidates as [|d candidates IH]; intros c n s; cbn [connect_loop];
    destruct (try_address fuel deadline c n) as [[r1 n1]|] eqn:E; cbn [mbind option_bind]; try done.
  - intros H. exists [], c, n. assert (r = r1 /\ n' = n1) as [-> ->] by (destruct r1; by injection H as <- <-).
    split; [done|]. split; [done|]. split; [auto|constructor].
  - destruct r1 as [handle|s1|].
    + intros [= <- <-]. exists [], c, n. split; [by exists (d :: candidates)|]. split; [done|]. split; [by left|constructor].
    + intros H. destruct (IH d n1 s1 H) as (before & last & n2 & Hp & Ht & Hv & Hf).
      exists (c :: before), last, n2. split; [by apply prefix_cons|]. split; [done|].
      split; [destruct Hv as [?|[?|Hv]]; [by left|by right; left|right; right; cbn; by f_equal]|].
      constructor; [by exists n, s1, n1|done].
    + intros [= <- <-]. exists [], c, n. split; [by exists (d :: candidates)|]. split; [done|]. split; [by right; left|constructor].
Qed.

Definition quiet_net : Net :=
  mkNet (fun k => 100000000 * Z.of_nat k) (fun _ => inr (mkRevents false false false)) (fun _ => Errno0) (fun _ => inr 1) (fun _ => inr [])
    0 0 0 0.
Lemma quiet_net_advances : clock_advances quiet_net.
Proof. intros t. exists (Z.to_nat (Z.max 0 t) + 1)%nat. intros j Hj. cbn. lia. Qed.
Definition refused : Candidate := mkCandidate (inr 7) (inr tt) (inr tt) (Some ECONNREFUSED) (inr Errno0).
Definition pending : Candidate := mkCandidate (inr 8) (inr tt) (inr tt) (Some EINPROGRESS) (inr Errno0).
Definition accepting : Candidate := mkCandidate (inr 9) (inr tt) (inr tt) None (inr Errno0).

(** The first address refuses, the second does not answer within the second, the third accepts. *)
Abbreviation third_address := (socket_connect true (Some [refused; pending; accepting]) 20 1000000000 quiet_net).
Lemma third_address_connects : fst <$> third_address = Some (Val 9).
Proof. vm_compute. reflexivity. Qed.
Lemma returned_spec {A B} (o : option (A * B)) a d : fst <$> o = Some a -> o = Some (a, default d (snd <$> o)).
Proof. destruct o as [[x y]|]; [|done]. cbn. by intros [= ->]. Qed.
Lemma connect_first_address_witness :
  exists before last n1, (before ++ [last]) `prefix_of` [refused; pending; accepting] /\
    try_address 20 1000000000 last n1 = Some (Val 9, default quiet_net (snd <$> third_address)).
Proof.
  destruct (connect_first_address 20 1000000000 refused [pending; accepting] quiet_net _ _
    (returned_spec _ _ quiet_net third_address_connects))
    as (before & last & n1 & Hp & Ht & _).
  exists before, last, n1. split; [exact Hp|exact Ht].
Defined.
