(* ===== verification/Client.v ===== *)
(** * The protocol client

    Models include/icf/client/client.hpp and src/client/client.cpp, the synchronous client of the command-line tool: the
    handshake, sending through partial writes, waiting for a frame, and matching replies to requests. The operations
    are functions on the client; [None] is a loop that has not ended within its fuel. *)
From S2P Require Import Prelude Status Utf8 Bytes Ids Types Registry Hash Time Canonical Decision Engine Fencing Wal Frame Messages Sockets.

Record ClientOptions := mkClientOptions {
  co_host : string;
  co_port : Z;
  co_role : PeerRole;
  co_cluster : string;
  co_domain : string;
  co_channel_key : bytes;
  co_connect_deadline : Z;
  co_reply_deadline : Z;
  co_send_hello : bool;
}.

Record Client := mkClient {
  ct_options : ClientOptions;
  ct_net : Net;
  ct_valid : bool;
  ct_parser : FrameParser;
  ct_hello_ack : HelloAckMessage;
  ct_verify_key : bytes;
  ct_signing : bool;
  ct_sent : bytes;
}.
Definition with_net (n : Net) (c : Client) : Client :=
  mkClient (ct_options c) n (ct_valid c) (ct_parser c) (ct_hello_ack c) (ct_verify_key c) (ct_signing c) (ct_sent c).
Definition with_parser (p : FrameParser) (c : Client) : Client :=
  mkClient (ct_options c) (ct_net c) (ct_valid c) p (ct_hello_ack c) (ct_verify_key c) (ct_signing c) (ct_sent c).
Definition with_sent (sent : bytes) (c : Client) : Client :=
  mkClient (ct_options c) (ct_net c) (ct_valid c) (ct_parser c) (ct_hello_ack c) (ct_verify_key c) (ct_signing c) sent.
Definition with_ack (ack : HelloAckMessage) (signing : bool) (c : Client) : Client :=
  mkClient (ct_options c) (ct_net c) (ct_valid c) (ct_parser c) ack (ct_verify_key c) signing (ct_sent c).
Definition client_close (c : Client) : Client :=
  mkClient (ct_options c) (ct_net c) false (ct_parser c) (ct_hello_ack c) (ct_verify_key c) (ct_signing c) (ct_sent c).

(** ** Operations that may wait *)
Definition CM (A : Type) : Type := Client -> option (Result A * Client).
#[export] Instance CM_ret : MRet CM := fun A a c => Some (Val a, c).
#[export] Instance CM_bind : MBind CM := fun A B f m c =>
  match m c with
  | Some (Val a, c') => f a c'
  | Some (Err s, c') => Some (Err s, c')
  | Some (Throw, c') => Some (Throw, c')
  | None => None
  end.
Definition cm_lift {A} (r : Result A) : CM A := fun c => Some (r, c).
Definition cm_gets {A} (f : Client -> A) : CM A := fun c => Some (Val (f c), c).
Definition cm_modify (f : Client -> Client) : CM unit := fun c => Some (Val tt, f c).
Definition cm_net {A} (f : Net -> A * Net) : CM A := fun c => let '(a, n) := f (ct_net c) in Some (Val a, with_net n c).
(** The result of a call, which the caller inspects. *)
Definition cm_attempt {A} (m : CM A) : CM (Result A) := fun c =>
  match m c with Some (r, c') => Some (Val r, c') | None => None end.
Definition cm_clock : CM Z := cm_net monotonic_nanos.
Definition cm_poll : CM (Z * Revents) := r ← cm_net poll_one; cm_lift r.

(** ** Sending *)
Fixpoint send_loop (fuel : nat) (deadline : Z) (data : bytes) : CM unit :=
  match fuel with
  | O => fun _ => None
  | S fuel =>
      if bool_decide (data = []) then mret tt
      else
        written ← cm_net (socket_send data);
        match written with
        | Val n =>
            _ ← cm_modify (fun c => with_sent (ct_sent c ++ take (Z.to_nat n) data) c);
            send_loop fuel deadline (drop (Z.to_nat n) data)
        | Err s =>
            if negb (bool_decide (st_outcome s = Outcome_Busy)) then cm_lift (Err s)
            else
              _ ← cm_poll;
              clock ← cm_clock;
              if deadline <? clock then cm_lift (fail Outcome_Unreachable "the send deadline expired")
              else send_loop fuel deadline data
        | Throw => cm_lift Throw
        end
  end.
Definition send_raw (fuel : nat) (data : bytes) : CM unit :=
  clock ← cm_clock;
  options ← cm_gets ct_options;
  send_loop fuel (clock + co_reply_deadline options) data.

Definition send_frame (fuel : nat) (type : MessageType) (payload : bytes) : CM unit :=
  valid ← cm_gets ct_valid;
  if negb valid then cm_lift (fail Outcome_Unreachable "the client is not connected")
  else
    signing ← cm_gets ct_signing;
    options ← cm_gets ct_options;
    let sign := signing && negb (bool_decide (co_channel_key options = [])) in
    let header := mkFrameHeader limits.kProtocolVersionMax type (if sign then kFlagSigned else 0) 0 in
    encoded ← cm_lift (append_frame [] header payload (if sign then co_channel_key options else []));
    send_raw fuel encoded.
Definition send_request (fuel : nat) (message : Message) : CM unit :=
  send_frame fuel (message_type message) (encode_message message).
Definition send_consent (fuel : nat) (consent : ContractConsentMessage) : CM unit := send_request fuel (MContractConsent consent).
Definition send_withdraw (fuel : nat) (withdraw : WithdrawMessage) : CM unit := send_request fuel (MWithdraw withdraw).

(** ** Receiving *)
Fixpoint readable_loop (fuel : nat) (limit : Z) : CM unit :=
  match fuel with
  | O => fun _ => None
  | S fuel =>
      '(ready, events) ← cm_poll;
      if ev_failed events then cm_lift (fail Outcome_Unreachable "the peer closed the connection")
      else if 0 <? ready then mret tt
      else
        clock ← cm_clock;
        if limit <? clock then cm_lift (fail Outcome_Unreachable "the reply deadline expired") else readable_loop fuel limit
  end.
Definition wait_readable (fuel : nat) (deadline : Z) : CM unit := clock ← cm_clock; readable_loop fuel (clock + deadline).

Definition kReceiveBuffer : nat := Z.to_nat (16 * 1024).
Fixpoint receive_loop (fuel : nat) (limit : Z) : CM Frame :=
  match fuel with
  | O => fun _ => None
  | S fuel =>
      key ← cm_gets ct_verify_key;
      parser ← cm_gets ct_parser;
      '(frame, parser) ← cm_lift (parser_next key parser);
      _ ← cm_modify (with_parser parser);
      match frame with
      | Some frame => mret frame
      | None =>
          _ ← wait_readable fuel 250000000;
          clock ← cm_clock;
          if limit <? clock then cm_lift (fail Outcome_Unreachable "the reply deadline expired")
          else
            received ← cm_net (socket_receive kReceiveBuffer);
            match received with
            | Err s => if bool_decide (st_outcome s = Outcome_Busy) then receive_loop fuel limit else cm_lift (Err s)
            | Throw => cm_lift Throw
            | Val [] => cm_lift (fail Outcome_Unreachable "the peer closed the connection")
            | Val data =>
                parser ← cm_gets ct_parser;
                parser ← cm_lift (parser_push data parser);
                _ ← cm_modify (with_parser parser);
                receive_loop fuel limit
            end
      end
  end.
Definition receive_frame (fuel : nat) (deadline : Z) : CM Frame := clock ← cm_clock; receive_loop fuel (clock + deadline).
Definition receive_reply (fuel : nat) : CM Frame := options ← cm_gets ct_options; receive_frame fuel (co_reply_deadline options).
(** A decoder and then [expect_end] on the same reader. *)
Definition decode_reply {A} (p : Parser A) (payload : bytes) : Result A :=
  '(a, rest) ← p payload; '(_, _) ← expect_end rest; Val a.

(** ** The handshake *)
Definition client_incarnation : string := match uuid_parse "11111111-2222-4333-8444-555555555555" with Val u => u | _ => nil_uuid end.
Definition client_hello (started_at : Z) (options : ClientOptions) : HelloMessage :=
  mkHello (co_role options) (co_cluster options) (co_domain options) client_incarnation 1 1 1 limits.kProtocolVersionMin
    limits.kProtocolVersionMax (if bool_decide (co_role options = PeerRole_Agent) then kCapabilityAll else 0) zero_digest started_at.
Definition blank_ack : HelloAckMessage := mkHelloAck nil_uuid nil_uuid 0 Outcome_Internal 0 zero_digest [] "".

Definition handshake_refused (reply : Frame) : string :=
  let type := fh_type (fr_header reply) in
  ("the peer answered the handshake with " ++ message_type_to_string type ++
   (if bool_decide (type = MessageType_Error) then
      match decode_error (fr_payload reply) with
      | Val (error, _) => ": " ++ outcome_to_string (em_outcome error) ++ " (" ++ em_detail error ++ ")"
      | _ => ""
      end
    else ""))%string.

Definition handshake (fuel : nat) (started_at : Z) : CM unit :=
  options ← cm_gets ct_options;
  _ ← send_request fuel (MHello (client_hello started_at options));
  reply ← receive_reply fuel;
  if negb (bool_decide (fh_type (fr_header reply) = MessageType_HelloAck))
  then cm_lift (fail Outcome_Invalid (handshake_refused reply))
  else
    ack ← cm_lift (decode_reply decode_hello_ack (fr_payload reply));
    cm_modify (fun c => with_ack ack (negb (bool_decide (ct_verify_key c = []))) c).

(** [Client::connect]; [network] is what [Socket::connect] answers. *)
Definition client_connect (fuel : nat) (options : ClientOptions) (network : Result Z) (started_at : Z) (n : Net) :
    option (Result Client) :=
  if co_port options =? 0 then Some (invalid "a client requires a port")
  else
    match network with
    | Err s => Some (Err s)
    | Throw => Some Throw
    | Val _ =>
        let client := mkClient options n true (frame_parser limits.kMaxFramePayload) blank_ack (co_channel_key options) false [] in
        if negb (co_send_hello options) then Some (Val client)
        else
          match handshake fuel started_at client with
          | Some (Val _, client) => Some (Val client)
          | Some (Err s, _) => Some (Err s)
          | Some (Throw, _) => Some Throw
          | None => None
          end
    end.

(** ** Requests *)
(** The answer to a ping; its own failures are ignored. *)
Definition answer_ping (fuel : nat) (frame : Frame) : CM unit :=
  match decode_ping (fr_payload frame) with
  | Val (ping, _) => _ ← cm_attempt (send_request fuel (MPong (mkPong (pi_sequence ping)))); mret tt
  | _ => mret tt
  end.

Fixpoint query_loop (fuel : nat) (limit : Z) (request : string) : CM QueryResultMessage :=
  match fuel with
  | O => fun _ => None
  | S fuel =>
      frame ← receive_reply fuel;
      let type := fh_type (fr_header frame) in
      if bool_decide (type = MessageType_Ping) then _ ← answer_ping fuel frame; query_loop fuel limit request
      else if negb (bool_decide (type = MessageType_QueryResult))
      then cm_lift (fail Outcome_Invalid "unexpected message while waiting for a query result")
      else
        result ← cm_lift (decode_reply decode_query_result (fr_payload frame));
        if negb (bool_decide (qr_request result = request)) then
          clock ← cm_clock;
          if limit <? clock
          then cm_lift (fail Outcome_Indeterminate "a reply for a different request arrived after the deadline")
          else query_loop fuel limit request
        else mret result
  end.
Definition query (fuel : nat) (request : QueryMessage) : CM QueryResultMessage :=
  _ ← send_request fuel (MQuery request);
  clock ← cm_clock;
  options ← cm_gets ct_options;
  query_loop fuel (clock + co_reply_deadline options) (qm_request request).

Fixpoint admin_loop (fuel : nat) (request : string) : CM AdminResultMessage :=
  match fuel with
  | O => fun _ => None
  | S fuel =>
      frame ← receive_reply fuel;
      let type := fh_type (fr_header frame) in
      if bool_decide (type = MessageType_Ping) then admin_loop fuel request
      else if negb (bool_decide (type = MessageType_AdminResult))
      then cm_lift (fail Outcome_Invalid "unexpected message while waiting for an administrative result")
      else
        result ← cm_lift (decode_reply decode_admin_result (fr_payload frame));
        if negb (bool_decide (ar_request result = request)) then admin_loop fuel request else mret result
  end.
Definition admin (fuel : nat) (request : AdminMessage) : CM AdminResultMessage :=
  _ ← send_request fuel (MAdmin request);
  admin_loop fuel (am_request request).

(** ** What the operations leave alone *)
Definition same_session (c c' : Client) : Prop :=
  ct_options c' = ct_options c /\ ct_verify_key c' = ct_verify_key c /\ ct_valid c' = ct_valid c /\
  nt_clock (ct_net c') = nt_clock (ct_net c) /\ nt_poll (ct_net c') = nt_poll (ct_net c) /\
  nt_send (ct_net c') = nt_send (ct_net c) /\ nt_receive (ct_net c') = nt_receive (ct_net c) /\
  (nt_clocks (ct_net c) <= nt_clocks (ct_net c'))%nat.
#[export] Instance same_session_po : PreOrder same_session.
Proof. unfold same_session. split; [by intros ?|]. intros a b c H1 H2. destruct_and?. split_and!; congruence || lia. Qed.

Definition stays {A} (m : CM A) : Prop := forall c r c', m c = Some (r, c') -> same_session c c'.

Lemma stays_bind {A B} (m : CM A) (f : A -> CM B) : stays m -> (forall a, stays (f a)) -> stays (m ≫= f).
Proof.
  intros Hm Hf c r c' H. unfold mbind, CM_bind in H. destruct (m c) as [[[a|s|] c1]|] eqn:E; [|by injection H as <- <-; eapply Hm..|done].
  transitivity c1; [by eapply Hm|by eapply Hf].
Qed.
Lemma stays_ret {A} (a : A) : stays (mret a).
Proof. intros c r c' [= <- <-]. done. Qed.
Lemma stays_lift {A} (r : Result A) : stays (cm_lift r).
Proof. intros c r' c' [= <- <-]. done. Qed.
Lemma stays_gets {A} (f : Client -> A) : stays (cm_gets f).
Proof. intros c r c' [= <- <-]. done. Qed.
Lemma stays_parser p : stays (cm_modify (with_parser p)).
Proof. intros c r c' [= <- <-]. done. Qed.
Lemma stays_sent f : stays (cm_modify (fun c => with_sent (f c) c)).
Proof. intros c r c' [= <- <-]. done. Qed.
Lemma stays_clock : stays cm_clock.
Proof. intros c r c' [= <- <-]. unfold same_session. cbn. split_and!; done || lia. Qed.
Lemma stays_poll : stays cm_poll.
Proof. intros c r c' [= <- <-]. done. Qed.
Lemma stays_send data : stays (cm_net (socket_send data)).
Proof. intros c r c' H. unfold cm_net, socket_send in H. case_bool_decide; by injection H as <- <-. Qed.
Lemma stays_receive n : stays (cm_net (socket_receive n)).
Proof. intros c r c' H. unfold cm_net, socket_receive in H. destruct (n =? 0)%nat; by injection H as <- <-. Qed.
Lemma stays_none {A} : stays (fun _ => None : option (Result A * Client)).
Proof. by intros c r c' H. Qed.
Lemma stays_attempt {A} (m : CM A) : stays m -> stays (cm_attempt m).
Proof.
  intros Hm c r c' H. unfold cm_attempt in H. destruct (m c) as [[r1 c1]|] eqn:E; [|done]. injection H as <- <-. by eapply Hm.
Qed.

Create HintDb client.
#[export] Hint Resolve stays_ret stays_lift stays_gets stays_parser stays_sent stays_clock stays_poll stays_send stays_receive
  @stays_none : client.
Ltac stay :=
  repeat first
    [ progress intros
    | solve [eauto 1 with client]
    | apply stays_bind
    | match goal with
      | |- stays (if ?b then _ else _) => destruct b
      | |- stays (match ?x with _ => _ end) => destruct x
      | |- stays (let '(_, _) := ?x in _) => destruct x
      end ].

Lemma stays_send_loop fuel deadline data : stays (send_loop fuel deadline data).
Proof. revert data. induction fuel as [|fuel IH]; intros data; cbn [send_loop]; stay; apply IH. Qed.
#[export] Hint Resolve stays_send_loop : client.
Lemma stays_send_frame fuel type payload : stays (send_frame fuel type payload).
Proof. unfold send_frame, send_raw. stay. Qed.
#[export] Hint Resolve stays_send_frame : client.
Lemma stays_send_request fuel message : stays (send_request fuel message).
Proof. unfold send_request. generalize (encode_message message). intros payload. apply stays_send_frame. Qed.
#[export] Hint Resolve stays_send_request : client.
Lemma stays_readable_loop fuel limit : stays (readable_loop fuel limit).
Proof. induction fuel as [|fuel IH]; cbn [readable_loop]; stay; apply IH. Qed.
#[export] Hint Resolve stays_readable_loop : client.
Lemma stays_wait_readable fuel deadline : stays (wait_readable fuel deadline).
Proof. unfold wait_readable. stay. Qed.
#[export] Hint Resolve stays_wait_readable : client.
Lemma stays_receive_loop fuel limit : stays (receive_loop fuel limit).
Proof. induction fuel as [|fuel IH]; cbn [receive_loop]; stay; try apply IH. Qed.
#[export] Hint Resolve stays_receive_loop : client.
Lemma stays_receive_reply fuel : stays (receive_reply fuel).
Proof. unfold receive_reply, receive_frame. stay. Qed.
#[export] Hint Resolve stays_receive_reply : client.
Lemma stays_answer_ping fuel frame : stays (answer_ping fuel frame).
Proof. unfold answer_ping. destruct (decode_ping _) as [[ping rest]|s|]; stay. apply stays_attempt. stay. Qed.
#[export] Hint Resolve stays_answer_ping : client.

Lemma cm_bind_inv {A B} (m : CM A) (f : A -> CM B) c b c' :
  (m ≫= f) c = Some (Val b, c') -> exists a c1, m c = Some (Val a, c1) /\ f a c1 = Some (Val b, c').
Proof. unfold mbind, CM_bind. destruct (m c) as [[[a|s|] c1]|]; [eauto|done..]. Qed.

(** ** Sending: every byte once, in order *)
Lemma send_loop_sent fuel deadline data c r c' :
  send_loop fuel deadline data c = Some (r, c') ->
  exists sent rest, data = sent ++ rest /\ ct_sent c' = ct_sent c ++ sent /\ (r = Val tt -> rest = []) /\ ct_parser c' = ct_parser c.
Proof.
  revert data c. induction fuel as [|fuel IH]; intros data c H; [done|]. cbn [send_loop] in H. case_bool_decide as Hd.
  { subst. injection H as <- <-. exists [], []. by rewrite !app_nil_r. }
  unfold mbind, CM_bind, cm_net in H. destruct (socket_send data (ct_net c)) as [w n]. destruct w as [k|s|].
  - cbn [cm_modify] in H. apply IH in H as (sent & rest & Hs & Hc & Hr & Hp). exists (take (Z.to_nat k) data ++ sent), rest.
    split; [by rewrite <- app_assoc, <- Hs, take_drop|]. split; [|done]. rewrite Hc. cbn. by rewrite <- app_assoc.
  - destruct (negb _); [injection H as <- <-; exists [], data; by rewrite app_nil_r|].
    assert (Hnet : forall n', ct_sent (with_net n' c) = ct_sent c) by done.
    unfold cm_poll, cm_clock, mbind, CM_bind, cm_net, cm_lift in H.
    destruct (poll_one _) as [[p|s'|] n1]; [|injection H as <- <-; exists [], data; by rewrite app_nil_r..].
    destruct (monotonic_nanos _) as [clock n2]. destruct (deadline <? clock).
    + injection H as <- <-. exists [], data. by rewrite app_nil_r.
    + by apply IH in H.
  - injection H as <- <-. exists [], data. by rewrite app_nil_r.
Qed.

Lemma send_frame_sent fuel type payload c r c' :
  send_frame fuel type payload c = Some (r, c') ->
  exists sent, ct_sent c' = ct_sent c ++ sent /\
    let sign := ct_signing c && negb (bool_decide (co_channel_key (ct_options c) = [])) in
    let header := mkFrameHeader limits.kProtocolVersionMax type (if sign then kFlagSigned else 0) 0 in
    let wire := frame_bytes header payload (if sign then co_channel_key (ct_options c) else []) in
    (sent `prefix_of` wire /\ (r = Val tt -> sent = wire /\ zlen payload <= limits.kMaxFramePayload)) /\ ct_parser c' = ct_parser c.
Proof.
  unfold send_frame, send_raw, cm_lift, cm_clock, cm_net, monotonic_nanos. unfold mbind at 1 2 3 4 5 6, CM_bind at 1 2 3 4 5 6, cm_gets.
  cbv beta iota zeta. destruct (ct_valid c); cbn [negb].
  2:{ intros [= <- <-]. exists []. rewrite app_nil_r. split; [done|]. split; [split; [apply prefix_nil|done]|done]. }
  set (sign := ct_signing c && _). set (header := mkFrameHeader _ _ _ _).
  destruct (append_frame [] header payload _) as [encoded|s|] eqn:E.
  2,3: intros [= <- <-]; exists []; rewrite app_nil_r; split; [done|]; split; [split; [apply prefix_nil|done]|done].
  unfold append_frame in E. apply bind_Val in E as ([] & Hsize & E). apply bind_Val in E as ([] & _ & E).
  apply bind_Val in E as (total & _ & E). injection E as <-. apply reject_if_Val in Hsize. apply Z.ltb_ge in Hsize.
  cbn [app cm_clock cm_net monotonic_nanos]. intros H. apply send_loop_sent in H as (sent & rest & Hw & Hs & Hr & Hp).
  exists sent. cbn [ct_sent with_net] in Hs. split; [done|]. split; [|exact Hp]. split; [by exists rest|].
  intros Hv. split; [|done]. rewrite (Hr Hv), app_nil_r in Hw. done.
Qed.

(** Sending a frame: whatever the socket accepts at a time, what the client has put on the connection is a prefix of
    the one frame of the message, and when the call succeeds it is exactly that frame; the frame is
    signed under the channel key exactly when the handshake is over and a key is configured. *)
Theorem send_frame_exact fuel type payload c r c' :
  send_frame fuel type payload c = Some (r, c') ->
  exists sent, ct_sent c' = ct_sent c ++ sent /\
    let sign := ct_signing c && negb (bool_decide (co_channel_key (ct_options c) = [])) in
    let header := mkFrameHeader limits.kProtocolVersionMax type (if sign then kFlagSigned else 0) 0 in
    let wire := frame_bytes header payload (if sign then co_channel_key (ct_options c) else []) in
    sent `prefix_of` wire /\ (r = Val tt -> sent = wire /\ zlen payload <= limits.kMaxFramePayload).
Proof. intros H. apply send_frame_sent in H as (sent & Hs & Hw & _). exists sent. split; [exact Hs|exact Hw]. Qed.

(** ** Replies *)
(** The frame came out of the parser under the verification key. *)
Definition received (c : Client) (frame : Frame) : Prop :=
  exists p p', parser_next (ct_verify_key c) p = Val (Some frame, p').

Lemma received_same c c' frame : same_session c c' -> received c' frame -> received c frame.
Proof. intros (_ & Hk & _) (p & p' & H). exists p, p'. by rewrite <- Hk. Qed.

Lemma receive_loop_received fuel limit c frame c' : receive_loop fuel limit c = Some (Val frame, c') -> received c frame.
Proof.
  revert c. induction fuel as [|fuel IH]; intros c H; [done|]. cbn [receive_loop] in H.
  apply cm_bind_inv in H as (key & c1 & [= <- <-] & H). apply cm_bind_inv in H as (p & c1 & [= <- <-] & H).
  apply cm_bind_inv in H as ([found p'] & c1 & Hn & H). unfold cm_lift in Hn. injection Hn as Hn <-.
  apply cm_bind_inv in H as ([] & c2 & [= <-] & H). destruct found as [f|].
  { injection H as <- <-. by exists (ct_parser c), p'. }
  apply cm_bind_inv in H as ([] & c3 & Hw & H). apply stays_wait_readable in Hw.
  apply cm_bind_inv in H as (clock & c4 & Hc & H). apply stays_clock in Hc. destruct (limit <? clock); [done|].
  apply cm_bind_inv in H as (data & c5 & Hr & H). apply stays_receive in Hr.
  assert (Hs : same_session c c5) by (transitivity c3; [exact Hw|]; by transitivity c4).
  destruct data as [[|x data]|s|]; [done| | |done].
  - apply cm_bind_inv in H as (p2 & c6 & [= <- <-] & H). apply cm_bind_inv in H as (p3 & c6 & Hp & H).
    unfold cm_lift in Hp. injection Hp as _ <-. apply cm_bind_inv in H as ([] & c7 & [= <-] & H).
    apply IH in H. eapply received_same; [exact Hs|]. exact H.
  - case_bool_decide; [|done]. apply IH in H. by eapply received_same.
Qed.

Lemma receive_reply_received fuel c frame c' : receive_reply fuel c = Some (Val frame, c') -> received c frame.
Proof.
  unfold receive_reply, receive_frame. intros H. apply cm_bind_inv in H as (options & c1 & [= <- <-] & H).
  apply cm_bind_inv in H as (clock & c2 & Hc & H). apply stays_clock in Hc. apply receive_loop_received in H. by eapply received_same.
Qed.

Lemma query_loop_matches fuel limit request c result c' :
  query_loop fuel limit request c = Some (Val result, c') ->
  qr_request result = request /\
  exists frame, received c frame /\ fh_type (fr_header frame) = MessageType_QueryResult /\
    decode_reply decode_query_result (fr_payload frame) = Val result.
Proof.
  revert c. induction fuel as [|fuel IH]; intros c H; [done|]. cbn [query_loop] in H.
  apply cm_bind_inv in H as (frame & c1 & Hr & H). pose proof (receive_reply_received _ _ _ _ Hr) as Hf. apply stays_receive_reply in Hr.
  assert (Hback : forall c2 f, same_session c1 c2 -> received c2 f -> received c f).
  { intros c2 f Hs. apply received_same. by transitivity c1. }
  case_bool_decide as Hp.
  { apply cm_bind_inv in H as ([] & c2 & Ha & H). apply stays_answer_ping in Ha. apply IH in H as (Hid & f & Hrec & Hx).
    split; [exact Hid|]. exists f. split; [exact (Hback c2 f Ha Hrec)|exact Hx]. }
  case_bool_decide as Hq; cbn [negb] in H; [|done]. apply cm_bind_inv in H as (res & c2 & Hd & H).
  unfold cm_lift in Hd. injection Hd as Hd <-. case_bool_decide as Hid; cbn [negb] in H.
  - injection H as <- <-. split; [done|]. eauto.
  - apply cm_bind_inv in H as (clock & c3 & Hc & H). apply stays_clock in Hc. destruct (limit <? clock); [done|].
    apply IH in H as (Hid' & f & Hrec & Hx). split; [exact Hid'|]. exists f. split; [exact (Hback c3 f Hc Hrec)|exact Hx].
Qed.

Lemma admin_loop_matches fuel request c result c' :
  admin_loop fuel request c = Some (Val result, c') ->
  ar_request result = request /\
  exists frame, received c frame /\ fh_type (fr_header frame) = MessageType_AdminResult /\
    decode_reply decode_admin_result (fr_payload frame) = Val result.
Proof.
  revert c. induction fuel as [|fuel IH]; intros c H; [done|]. cbn [admin_loop] in H.
  apply cm_bind_inv in H as (frame & c1 & Hr & H). pose proof (receive_reply_received _ _ _ _ Hr) as Hf. apply stays_receive_reply in Hr.
  assert (Hback : forall f, received c1 f -> received c f) by (intros f; by apply received_same).
  case_bool_decide as Hp.
  { apply IH in H as (Hid & f & Hrec & Hx). split; [exact Hid|]. exists f. split; [exact (Hback f Hrec)|exact Hx]. }
  case_bool_decide as Hq; cbn [negb] in H; [|done]. apply cm_bind_inv in H as (res & c2 & Hd & H).
  unfold cm_lift in Hd. injection Hd as Hd <-. case_bool_decide as Hid; cbn [negb] in H.
  - injection H as <- <-. split; [done|]. eauto.
  - apply IH in H as (Hid' & f & Hrec & Hx). split; [exact Hid'|]. exists f. split; [exact (Hback f Hrec)|exact Hx].
Qed.

Lemma query_matches fuel request c result c' :
  query fuel request c = Some (Val result, c') ->
  qr_request result = qm_request request /\
  exists frame, received c frame /\ fh_type (fr_header frame) = MessageType_QueryResult /\
    decode_reply decode_query_result (fr_payload frame) = Val result.
Proof.
  intros H. unfold query in H. apply cm_bind_inv in H as ([] & c1 & Hs & H). apply stays_send_request in Hs.
  apply cm_bind_inv in H as (clock & c2 & Hc & H). apply stays_clock in Hc. apply cm_bind_inv in H as (o & c3 & [= <- <-] & H).
  apply query_loop_matches in H as (Hid & f & Hr & Hx). split; [done|]. exists f. split; [|done].
  eapply received_same; [|exact Hr]. by transitivity c1.
Qed.
Lemma admin_matches fuel request c result c' :
  admin fuel request c = Some (Val result, c') ->
  ar_request result = am_request request /\
  exists frame, received c frame /\ fh_type (fr_header frame) = MessageType_AdminResult /\
    decode_reply decode_admin_result (fr_payload frame) = Val result.
Proof.
  intros H. unfold admin in H. apply cm_bind_inv in H as ([] & c1 & Hs & H). apply stays_send_request in Hs.
  apply admin_loop_matches in H as (Hid & f & Hr & Hx). split; [done|]. exists f. split; [|done]. by eapply received_same.
Qed.


(** A connection of the client that is up: the acknowledgement was accepted under the key of the options. *)
Lemma client_connect_acknowledged fuel options network started_at n c :
  client_connect fuel options network started_at n = Some (Val c) -> co_send_hello options = true ->
  ct_verify_key c = co_channel_key options /\
  exists frame, received c frame /\ fh_type (fr_header frame) = MessageType_HelloAck /\
    decode_reply decode_hello_ack (fr_payload frame) = Val (ct_hello_ack c).
Proof.
  unfold client_connect. intros H Hh. rewrite Hh in H. cbn [negb] in H. destruct (co_port options =? 0); [done|].
  destruct network as [v|s|]; [|done..]. set (c0 := mkClient _ _ _ _ _ _ _ _) in H.
  destruct (handshake fuel started_at c0) as [[[[]|s|] c']|] eqn:E; [|done..]. injection H as ->.
  unfold handshake in E. apply cm_bind_inv in E as (o & c1 & [= <- <-] & E).
  apply cm_bind_inv in E as ([] & c1 & Hs & E). apply stays_send_request in Hs.
  apply cm_bind_inv in E as (frame & c2 & Hr & E). pose proof (receive_reply_received _ _ _ _ Hr) as Hrec.
  apply stays_receive_reply in Hr. case_bool_decide as Ht; cbn [negb] in E; [|done].
  apply cm_bind_inv in E as (ack & c3 & Hd & E). unfold cm_lift in Hd. injection Hd as Hd <-. injection E as <-.
  cbn [ct_verify_key with_ack ct_hello_ack]. destruct Hs as (_ & Hk1 & _). destruct Hr as (_ & Hk2 & _).
  split; [rewrite Hk2, Hk1; done|]. exists frame. split; [|done]. destruct Hrec as (p & p' & Hp). exists p, p'.
  cbn [ct_verify_key with_ack]. rewrite Hk2. exact Hp.
Qed.

(** ** Receiving ends *)
(** From some fuel on, the operation returns, always the same. *)
Definition ends {A} (m : nat -> CM A) (c : Client) : Prop :=
  exists fuel r c', same_session c c' /\ forall fuel', (fuel <= fuel')%nat -> m fuel' c = Some (r, c').

Lemma ends_now {A} (m : nat -> CM A) c r c' :
  same_session c c' -> (forall fuel, m (S fuel) c = Some (r, c')) -> ends m c.
Proof. intros Hs H. exists 1%nat, r, c'. split; [done|]. intros [|fuel] Hf; [lia|done]. Qed.
Lemma ends_later {A} (m m' : nat -> CM A) c c1 :
  same_session c c1 -> (forall fuel, m (S fuel) c = m' fuel c1) -> ends m' c1 -> ends m c.
Proof.
  intros Hs H (fuel & r & c' & Hs' & Hr). exists (S fuel), r, c'. split; [by transitivity c1|].
  intros [|fuel'] Hf; [lia|]. rewrite H. apply Hr. lia.
Qed.
Lemma ends_bind {A B} (m : nat -> CM A) (f : nat -> A -> CM B) c :
  ends m c -> (forall a c1, same_session c c1 -> (exists fuel, m fuel c = Some (Val a, c1)) -> ends (fun fuel => f fuel a) c1) ->
  ends (fun fuel => m fuel ≫= f fuel) c.
Proof.
  intros (fuel & r & c1 & Hs & Hr) Hf. destruct r as [a|s|].
  - destruct (Hf a c1 Hs) as (fuel2 & r2 & c2 & Hs2 & Hr2); [eauto|]. exists (max fuel fuel2), r2, c2.
    split; [by transitivity c1|]. intros fuel' Hle. unfold mbind, CM_bind. rewrite Hr by lia. apply Hr2. lia.
  - exists fuel, (Err s), c1. split; [done|]. intros fuel' Hle. unfold mbind, CM_bind. by rewrite Hr.
  - exists fuel, Throw, c1. split; [done|]. intros fuel' Hle. unfold mbind, CM_bind. by rewrite Hr.
Qed.

Lemma readable_loop_ends k limit c :
  (forall j, (k <= j)%nat -> limit < nt_clock (ct_net c) j) -> ends (fun fuel => readable_loop fuel limit) c.
Proof.
  intros Hk. remember (k - nt_clocks (ct_net c))%nat as m eqn:Em. revert c Hk Em.
  induction m as [m IH] using lt_wf_ind. intros c Hk Em.
  destruct (cm_poll c) as [[r c1]|] eqn:Ep; [|done]. pose proof (stays_poll _ _ _ Ep) as Hs.
  assert (Hc1 : nt_clocks (ct_net c1) = nt_clocks (ct_net c)) by (by injection Ep as _ <-).
  destruct r as [[ready events]|s|].
  2,3: eapply ends_now; [exact Hs|]; intros fuel; cbn [readable_loop]; unfold mbind, CM_bind; rewrite Ep; done.
  destruct (ev_failed events) eqn:Ef; [eapply ends_now; [exact Hs|]; intros fuel; cbn [readable_loop]; unfold mbind, CM_bind; rewrite Ep, Ef; done|].
  destruct (0 <? ready) eqn:Er; [eapply ends_now; [exact Hs|]; intros fuel; cbn [readable_loop]; unfold mbind, CM_bind; rewrite Ep, Ef, Er; done|].
  destruct (cm_clock c1) as [[r c2]|] eqn:Ec; [|done]. pose proof (stays_clock _ _ _ Ec) as Hs2.
  assert (Hr : r = Val (nt_clock (ct_net c1) (nt_clocks (ct_net c1))) /\ nt_clocks (ct_net c2) = S (nt_clocks (ct_net c1)))
    by (by injection Ec as <- <-). destruct Hr as [-> Hc2].
  assert (Hss : same_session c c2) by (by transitivity c1).
  set (clock := nt_clock (ct_net c1) (nt_clocks (ct_net c1))) in *.
  destruct (limit <? clock) eqn:El.
  { eapply ends_now; [exact Hss|]. intros fuel. cbn [readable_loop]. unfold mbind, CM_bind. by rewrite Ep, Ef, Er, Ec, El. }
  eapply (ends_later _ (fun fuel => readable_loop fuel limit)); [exact Hss| |].
  - intros fuel. cbn [readable_loop]. unfold mbind at 1, CM_bind at 1. rewrite Ep, Ef, Er. unfold mbind, CM_bind. by rewrite Ec, El.
  - assert (Hlt : (nt_clocks (ct_net c) < k)%nat).
    { destruct (Nat.lt_ge_cases (nt_clocks (ct_net c)) k) as [|Hge]; [done|]. apply Z.ltb_ge in El. specialize (Hk _ Hge).
      unfold clock in El. rewrite Hc1 in El. destruct Hs as (_ & _ & _ & Hclk & _). rewrite Hclk in El. lia. }
    apply (IH (k - nt_clocks (ct_net c2))%nat); [lia| |done]. destruct Hss as (_ & _ & _ & Hclk & _). by rewrite Hclk.
Qed.

Lemma wait_readable_ends deadline c : clock_advances (ct_net c) -> ends (fun fuel => wait_readable fuel deadline) c.
Proof.
  intros H. apply (ends_bind (fun _ => cm_clock) (fun fuel clock => readable_loop fuel (clock + deadline))).
  - destruct (cm_clock c) as [[r c']|] eqn:E; [|done]. exists 0%nat, r, c'. split; [by apply stays_clock in E|]. by intros.
  - intros clock c1 (_ & _ & _ & Hclk & _) _. destruct (H (clock + deadline)) as [k Hk]. apply (readable_loop_ends k).
    by rewrite Hclk.
Qed.

Lemma receive_loop_ends k limit c :
  clock_advances (ct_net c) -> (forall j, (k <= j)%nat -> limit < nt_clock (ct_net c) j) -> ends (fun fuel => receive_loop fuel limit) c.
Proof.
  intros Hadv Hk. remember (k - nt_clocks (ct_net c))%nat as m eqn:Em. revert c Hadv Hk Em.
  induction m as [m IH] using lt_wf_ind. intros c Hadv Hk Em.
  destruct (parser_next (ct_verify_key c) (ct_parser c)) as [[found p]|s|] eqn:En.
  2,3: eapply ends_now; [reflexivity|]; intros fuel; cbn [receive_loop]; unfold mbind, CM_bind, cm_gets, cm_lift; rewrite En; done.
  destruct found as [frame|].
  { eapply (ends_now _ _ (Val frame) (with_parser p c)); [done|]. intros fuel. cbn [receive_loop].
    unfold mbind, CM_bind, cm_gets, cm_lift. by rewrite En. }
  set (next (fuel : nat) (_ : unit) := clock ← cm_clock;
    if limit <? clock then cm_lift (fail Outcome_Unreachable "the reply deadline expired")
    else received ← cm_net (socket_receive kReceiveBuffer);
      match received with
      | Err s => if bool_decide (st_outcome s = Outcome_Busy) then receive_loop fuel limit else cm_lift (Err s)
      | Throw => cm_lift Throw
      | Val [] => cm_lift (fail Outcome_Unreachable "the peer closed the connection")
      | Val data => parser ← cm_gets ct_parser; parser ← cm_lift (parser_push data parser);
          _ ← cm_modify (with_parser parser); receive_loop fuel limit
      end).
  eapply (ends_later _ (fun fuel => wait_readable fuel 250000000 ≫= next fuel) c (with_parser p c)); [done| |].
  { intros fuel. cbn [receive_loop]. unfold mbind at 1 2 3 4, CM_bind at 1 2 3 4, cm_gets, cm_lift. by rewrite En. }
  apply ends_bind; [by apply wait_readable_ends|]. intros [] c3 Hs3 _.
  destruct (cm_clock c3) as [[r c4]|] eqn:Ec; [|done]. pose proof (stays_clock _ _ _ Ec) as Hs4.
  assert (Hr : r = Val (nt_clock (ct_net c3) (nt_clocks (ct_net c3))) /\ nt_clocks (ct_net c4) = S (nt_clocks (ct_net c3)))
    by (by injection Ec as <- <-). destruct Hr as [-> Hc4].
  set (clock := nt_clock (ct_net c3) (nt_clocks (ct_net c3))) in *.
  destruct (limit <? clock) eqn:El.
  { exists 0%nat. eexists _, c4. split; [done|]. intros fuel _. unfold next, mbind, CM_bind. rewrite Ec, El. done. }
  destruct (cm_net (socket_receive kReceiveBuffer) c4) as [[r c5]|] eqn:Er; [|unfold cm_net in Er; by destruct (socket_receive _ _)].
  pose proof (stays_receive _ _ _ _ Er) as Hs5. assert (Hs45 : same_session c3 c5) by (by transitivity c4).
  assert (Hrv : exists received, r = Val received) by (unfold cm_net in Er; destruct (socket_receive _ _); injection Er as <- _; eauto).
  destruct Hrv as [received ->].
  assert (Hclk : nt_clock (ct_net c5) = nt_clock (ct_net c)).
  { destruct Hs3 as (_ & _ & _ & H3 & _), Hs45 as (_ & _ & _ & H5 & _). by rewrite H5, H3. }
  assert (Hrec : forall p', ends (fun fuel => receive_loop fuel limit) (with_parser p' c5)).
  { intros p'. apply (IH (k - nt_clocks (ct_net c5))%nat); [|unfold clock_advances; cbn; by rewrite Hclk|cbn; by rewrite Hclk|done].
    assert (Hlt : (nt_clocks (ct_net c3) < k)%nat).
    { destruct (Nat.lt_ge_cases (nt_clocks (ct_net c3)) k) as [|Hge]; [done|]. apply Z.ltb_ge in El. specialize (Hk _ Hge).
      unfold clock in El. destruct Hs3 as (_ & _ & _ & H3 & _). rewrite H3 in El. cbn in El. lia. }
    destruct Hs3 as (_ & _ & _ & _ & _ & _ & _ & Hle3), Hs5 as (_ & _ & _ & _ & _ & _ & _ & Hle5). cbn in Hle3. lia. }
  assert (Hnext : forall fuel, next fuel tt c3 =
    (match received with
      | Err s => if bool_decide (st_outcome s = Outcome_Busy) then receive_loop fuel limit else cm_lift (Err s)
      | Throw => cm_lift Throw
      | Val [] => cm_lift (fail Outcome_Unreachable "the peer closed the connection")
      | Val data => parser ← cm_gets ct_parser; parser ← cm_lift (parser_push data parser);
          _ ← cm_modify (with_parser parser); receive_loop fuel limit
      end) c5).
  { intros fuel. unfold next. unfold mbind at 1 2, CM_bind at 1 2. rewrite Ec, El. by rewrite Er. }
  assert (Hstop : forall r : Result Frame, (forall fuel, next fuel tt c3 = Some (r, c5)) -> ends (fun fuel => next fuel tt) c3).
  { intros r H. exists 0%nat, r, c5. split; [done|]. intros; apply H. }
  assert (Hgo : forall p', (forall fuel, next fuel tt c3 = receive_loop fuel limit (with_parser p' c5)) -> ends (fun fuel => next fuel tt) c3).
  { intros p' H. destruct (Hrec p') as (fuel & r & c' & Hs & Hr). exists fuel, r, c'. split; [by transitivity c5|].
    intros fuel' Hf. rewrite H. by apply Hr. }
  destruct received as [[|x data]|s|].
  - eapply Hstop. intros fuel. by rewrite Hnext.
  - destruct (parser_push (x :: data) (ct_parser c5)) as [p'|s|] eqn:Epush.
    + apply (Hgo p'). intros fuel. rewrite Hnext. unfold mbind, CM_bind, cm_gets, cm_lift. by rewrite Epush.
    + eapply Hstop. intros fuel. rewrite Hnext. unfold mbind, CM_bind, cm_gets, cm_lift. by rewrite Epush.
    + eapply Hstop. intros fuel. rewrite Hnext. unfold mbind, CM_bind, cm_gets, cm_lift. by rewrite Epush.
  - destruct (bool_decide (st_outcome s = Outcome_Busy)) eqn:Eb.
    + apply (Hgo (ct_parser c5)). intros fuel. rewrite Hnext. by destruct c5.
    + eapply Hstop. intros fuel. by rewrite Hnext.
  - eapply Hstop. intros fuel. by rewrite Hnext.
Qed.

(** C31. Waiting for a frame ends: if the clock keeps advancing, [receive_frame] returns a frame or an error after finitely
    many turns of its two loops, whatever the peer sends and whatever the system calls answer. *)
Theorem receive_frame_terminates deadline c :
  clock_advances (ct_net c) ->
  exists fuel r c', forall fuel', (fuel <= fuel')%nat -> receive_frame fuel' deadline c = Some (r, c').
Proof.
  intros H. assert (He : ends (fun fuel => receive_frame fuel deadline) c).
  { apply (ends_bind (fun _ => cm_clock) (fun fuel clock => receive_loop fuel (clock + deadline))).
    - destruct (cm_clock c) as [[r c']|] eqn:E; [|done]. exists 0%nat, r, c'. split; [by apply stays_clock in E|]. by intros.
    - intros clock c1 (_ & _ & _ & Hclk & _) _. destruct (H (clock + deadline)) as [k Hk].
      apply (receive_loop_ends k); [unfold clock_advances; by rewrite Hclk|by rewrite Hclk]. }
  destruct He as (fuel & r & c' & _ & Hr). eauto.
Qed.

(** ** Concrete peers *)
(** A connected client without a key whose peer sends the same bytes again and again; the clock advances by a tenth of a
    second at every look. *)
Definition sample_client_options : ClientOptions :=
  mkClientOptions "127.0.0.1" 7000 PeerRole_Observer "" "ops" [] 5000000000 10000000000 true.
Definition repeating (data : bytes) : Net :=
  mkNet (fun k => 100000000 * Z.of_nat k) (fun _ => inr (mkRevents true true false)) (fun _ => Errno0) (fun _ => inr 4096)
    (fun _ => inr data) 0 0 0 0.
Definition client_of (n : Net) : Client :=
  mkClient sample_client_options n true (frame_parser limits.kMaxFramePayload) blank_ack [] false [].
Definition plain_frame (m : Message) : bytes :=
  frame_bytes (mkFrameHeader 1 (message_type m) 0 0) (encode_message m) [].

Definition ping_message : PingMessage := mkPing 7 0.
Definition ping_bytes : bytes := plain_frame (MPing ping_message).
Definition ping_frame : Frame :=
  mkFrame (mkFrameHeader 1 MessageType_Ping 0 (zlen (encode_ping ping_message))) (encode_ping ping_message) false.

(** The client between two frames of a peer that only pings. *)
Definition pinged (c : Client) : Prop :=
  ct_options c = sample_client_options /\ ct_verify_key c = [] /\
  (forall k, nt_clock (ct_net c) k = 100000000 * Z.of_nat k) /\ (forall k, nt_poll (ct_net c) k = inr (mkRevents true true false)) /\
  (forall k, nt_receive (ct_net c) k = inr ping_bytes) /\ ct_parser c = frame_parser limits.kMaxFramePayload.

Lemma ping_parses :
  parser_next [] (frame_parser limits.kMaxFramePayload) = Val (None, frame_parser limits.kMaxFramePayload) /\
  parser_push ping_bytes (frame_parser limits.kMaxFramePayload) = Val (mkParser ping_bytes limits.kMaxFramePayload) /\
  parser_next [] (mkParser ping_bytes limits.kMaxFramePayload) = Val (Some ping_frame, frame_parser limits.kMaxFramePayload).
Proof. vm_compute. split_and!; reflexivity. Qed.

Lemma ping_fits : take kReceiveBuffer ping_bytes = ping_bytes.
Proof. vm_compute. reflexivity. Qed.
Lemma ping_cons : exists x l, ping_bytes = x :: l.
Proof. eexists _, _. vm_compute. reflexivity. Qed.
Lemma ping_decodes : decode_ping (fr_payload ping_frame) = Val (ping_message, []).
Proof. vm_compute. reflexivity. Qed.
#[local] Opaque ping_bytes ping_frame.

Lemma pinged_poll c : pinged c -> exists c', cm_poll c = Some (Val (1, mkRevents true true false), c') /\ pinged c' /\
  nt_clocks (ct_net c') = nt_clocks (ct_net c).
Proof.
  intros (H1 & H2 & H3 & H4 & H5 & H6). unfold cm_poll, cm_net, mbind, CM_bind, cm_lift, poll_one. rewrite H4. eexists.
  split; [reflexivity|]. done.
Qed.
Lemma pinged_clock c : pinged c -> exists c', cm_clock c = Some (Val (100000000 * Z.of_nat (nt_clocks (ct_net c))), c') /\ pinged c' /\
  nt_clocks (ct_net c') = S (nt_clocks (ct_net c)).
Proof.
  intros (H1 & H2 & H3 & H4 & H5 & H6). unfold cm_clock, cm_net, monotonic_nanos. rewrite H3. eexists. split; [reflexivity|]. done.
Qed.
Lemma pinged_receive c : pinged c -> exists c', cm_net (socket_receive kReceiveBuffer) c = Some (Val (Val ping_bytes), c') /\ pinged c' /\
  nt_clocks (ct_net c') = nt_clocks (ct_net c).
Proof.
  intros (H1 & H2 & H3 & H4 & H5 & H6). unfold cm_net, socket_receive. change (kReceiveBuffer =? 0)%nat with false. rewrite H5.
  rewrite ping_fits. eexists.
  split; [reflexivity|]. done.
Qed.

(** Running the first operation of a sequence. *)
Lemma cm_bind_val {A B} (m : CM A) (f : A -> CM B) c a c1 : m c = Some (Val a, c1) -> (m ≫= f) c = f a c1.
Proof. intros H. unfold mbind, CM_bind. by rewrite H. Qed.
Lemma cm_bind_none {A B} (m : CM A) (f : A -> CM B) c : m c = None -> (m ≫= f) c = None.
Proof. intros H. unfold mbind, CM_bind. by rewrite H. Qed.
Lemma cm_bind_gets {A B} (g : Client -> A) (f : A -> CM B) c : (cm_gets g ≫= f) c = f (g c) c.
Proof. done. Qed.
Lemma cm_bind_modify {B} g (f : unit -> CM B) c : (cm_modify g ≫= f) c = f tt (g c).
Proof. done. Qed.
Lemma cm_bind_lift {A B} (r : Result A) (f : A -> CM B) c a : r = Val a -> (cm_lift r ≫= f) c = f a c.
Proof. by intros ->. Qed.

Lemma pinged_wait fuel c : pinged c -> wait_readable fuel 250000000 c = None \/
  exists c', wait_readable fuel 250000000 c = Some (Val tt, c') /\ pinged c' /\ nt_clocks (ct_net c') = S (nt_clocks (ct_net c)).
Proof.
  intros H. destruct (pinged_clock c H) as (c1 & E1 & H1 & N1). unfold wait_readable. rewrite (cm_bind_val _ _ _ _ _ E1).
  destruct fuel as [|fuel]; [by left|]. right. cbn [readable_loop]. destruct (pinged_poll c1 H1) as (c2 & E2 & H2 & N2).
  rewrite (cm_bind_val _ _ _ _ _ E2). exists c2. split; [done|]. split; [done|]. by rewrite N2.
Qed.

Lemma pinged_parser c : pinged c -> pinged (with_parser (frame_parser limits.kMaxFramePayload) c).
Proof. intros (?&?&?&?&?&?). done. Qed.

Lemma receive_ping fuel c : pinged c -> receive_reply fuel c = None \/
  exists c', receive_reply fuel c = Some (Val ping_frame, c') /\ pinged c'.
Proof.
  intros H. destruct ping_parses as (P1 & P2 & P3). unfold receive_reply, receive_frame. rewrite cm_bind_gets.
  destruct (pinged_clock c H) as (c1 & E1 & H1 & N1). rewrite (cm_bind_val _ _ _ _ _ E1).
  assert (Hd : co_reply_deadline (ct_options c) = 10000000000) by (destruct H as (-> & _); done). rewrite Hd.
  destruct fuel as [|fuel]; [by left|]. cbn [receive_loop]. pose proof H1 as (_ & K1 & _ & _ & _ & Q1).
  rewrite !cm_bind_gets, K1, Q1, (cm_bind_lift _ _ _ _ P1), cm_bind_modify. apply pinged_parser in H1.
  destruct (pinged_wait fuel _ H1) as [E2|(c2 & E2 & H2 & N2)]; [left; by apply cm_bind_none|].
  rewrite (cm_bind_val _ _ _ _ _ E2). destruct (pinged_clock c2 H2) as (c3 & E3 & H3 & N3). rewrite (cm_bind_val _ _ _ _ _ E3).
  cbn [ct_net with_parser] in N2. rewrite (proj2 (Z.ltb_ge _ _)) by (rewrite N2, N1; lia).
  destruct (pinged_receive c3 H3) as (c4 & E4 & H4 & N4). rewrite (cm_bind_val _ _ _ _ _ E4).
  destruct ping_cons as (x & l & Hp). rewrite Hp. cbv iota. rewrite <- Hp.
  pose proof H4 as (_ & K4 & _ & _ & _ & Q4). rewrite cm_bind_gets, Q4, (cm_bind_lift _ _ _ _ P2), cm_bind_modify.
  destruct fuel as [|fuel]; [by left|]. right. cbn [receive_loop]. rewrite !cm_bind_gets. cbn [ct_verify_key ct_parser with_parser].
  rewrite K4, (cm_bind_lift _ _ _ _ P3), cm_bind_modify. eexists. split; [reflexivity|]. exact (pinged_parser _ H4).
Qed.

(** The ping is answered, or its answer fails: the peer goes on. *)
Lemma answered_ping fuel c : pinged c -> answer_ping fuel ping_frame c = None \/
  exists c', answer_ping fuel ping_frame c = Some (Val tt, c') /\ pinged c'.
Proof.
  intros H. unfold answer_ping. rewrite ping_decodes. change (pi_sequence ping_message) with 7. destruct (send_request fuel (MPong (mkPong 7)) c) as [[r c1]|] eqn:E.
  - right. rewrite (cm_bind_val _ _ c r c1) by (unfold cm_attempt; by rewrite E). exists c1. split; [done|].
    pose proof (stays_send_request _ _ _ _ _ E) as (S1 & S2 & S3 & S4 & S5 & S6 & S7 & _).
    assert (Hp : ct_parser c1 = ct_parser c).
    { unfold send_request in E. revert E. generalize (encode_message (MPong (mkPong 7))). intros payload E.
      by apply send_frame_sent in E as (sent & _ & _ & Hp). }
    destruct H as (H1 & H2 & H3 & H4 & H5 & H6). unfold pinged. rewrite S1, S2, S4, S5, S7, Hp. split_and!; assumption.
  - left. apply cm_bind_none. unfold cm_attempt. by rewrite E.
Qed.

Lemma query_starves fuel limit request c : pinged c -> query_loop fuel limit request c = None.
Proof.
  revert c. induction fuel as [|fuel IH]; intros c H; [done|]. cbn [query_loop].
  destruct (receive_ping fuel c H) as [E|(c1 & E & H1)]; [by apply cm_bind_none|]. rewrite (cm_bind_val _ _ _ _ _ E).
  change (bool_decide (fh_type (fr_header ping_frame) = MessageType_Ping)) with true. cbv iota zeta.
  destruct (answered_ping fuel c1 H1) as [E2|(c2 & E2 & H2)]; [by apply cm_bind_none|]. rewrite (cm_bind_val _ _ _ _ _ E2). by apply IH.
Qed.
Lemma admin_starves fuel request c : pinged c -> admin_loop fuel request c = None.
Proof.
  revert c. induction fuel as [|fuel IH]; intros c H; [done|]. cbn [admin_loop].
  destruct (receive_ping fuel c H) as [E|(c1 & E & H1)]; [by apply cm_bind_none|]. rewrite (cm_bind_val _ _ _ _ _ E).
  change (bool_decide (fh_type (fr_header ping_frame) = MessageType_Ping)) with true. by apply IH.
Qed.

Lemma client_of_pinged : pinged (client_of (repeating ping_bytes)).
Proof. done. Qed.

(** The reply deadline of a request is not enforced against a peer that pings: the clock goes past every deadline, but
    once the request is sent the loops of [query] and [admin] never return, because every ping starts a new wait and only
    a reply to another request is compared with the deadline (and in [admin] not even that). A single wait of the
    same client ends at once. *)
Theorem pings_starve_requests :
  clock_advances (repeating ping_bytes) /\
  (forall fuel limit request, query_loop fuel limit request (client_of (repeating ping_bytes)) = None) /\
  (forall fuel request, admin_loop fuel request (client_of (repeating ping_bytes)) = None) /\
  is_Some (receive_reply 3 (client_of (repeating ping_bytes))).
Proof.
  split_and!.
  - intros t. exists (Z.to_nat (Z.max 0 t) + 1)%nat. intros j Hj. cbn. lia.
  - intros. apply query_starves, client_of_pinged.
  - intros. apply admin_starves, client_of_pinged.
  - apply (bool_decide_eq_true_1 (is_Some (receive_reply 3 (client_of (repeating ping_bytes))))). vm_compute. reflexivity.
Qed.

(** A coordinator that refuses the session. *)
Definition refused_ack : HelloAckMessage := mkHelloAck nil_uuid nil_uuid 3 Outcome_Refused 1 zero_digest [] "the cluster is refused".
Definition refusing_net : Net := repeating (plain_frame (MHelloAck refused_ack)).
Definition refused_client : option (Result Client) := client_connect 8 sample_client_options (Val 5) 0 refusing_net.

(** [Client::connect] does not look at the outcome of the handshake: a peer that acknowledges the handshake with a refusal
    gives a connected client, whose only trace of it is in the stored acknowledgement. *)
Theorem connect_ignores_refusal :
  exists client, refused_client = Some (Val client) /\ ct_valid client = true /\ ha_outcome (ct_hello_ack client) = Outcome_Refused.
Proof. vm_compute. eexists. split_and!; reflexivity. Qed.

(** ** The other theorems at concrete clients *)
Definition status_query : QueryMessage :=
  mkQueryMessage (bytes_str (repeat (byte_of 9) 16)) QueryKind_Status "" "" "" "" nil_uuid nil_uuid "" "" 0 false 0 false 0 false 0 0.
Definition status_result : QueryResultMessage :=
  mkQueryResult (qm_request status_query) QueryKind_Status Outcome_Ok "" [] [] [] [] [] [] [] [] [] None None None.
Definition answering_net : Net :=
  mkNet (fun k => 100000000 * Z.of_nat k) (fun _ => inr (mkRevents true true false)) (fun _ => Errno0) (fun _ => inr 100)
    (fun k => inr (if (k =? 0)%nat then ping_bytes else plain_frame (MQueryResult status_result))) 0 0 0 0.
Abbreviation queried := (query 10 status_query (client_of answering_net)).
Lemma queried_returns : fst <$> queried = Some (Val status_result).
Proof. vm_compute. reflexivity. Qed.

Abbreviation sent_ping := (send_frame 4 MessageType_Ping (encode_ping ping_message) (client_of answering_net)).
Lemma sent_ping_returns : fst <$> sent_ping = Some (Val tt).
Proof. vm_compute. reflexivity. Qed.
Lemma send_frame_exact_witness :
  exists sent, ct_sent (default (client_of answering_net) (snd <$> sent_ping)) = ct_sent (client_of answering_net) ++ sent.
Proof.
  destruct (send_frame_exact _ _ _ _ _ _ (returned_spec _ _ (client_of answering_net) sent_ping_returns)) as (sent & Hs & _).
  exists sent. exact Hs.
Defined.

Lemma answering_net_advances : clock_advances (ct_net (client_of answering_net)).
Proof. intros t. exists (Z.to_nat (Z.max 0 t) + 1)%nat. intros j Hj. cbn. lia. Qed.
Lemma receive_frame_terminates_witness :
  exists fuel r c', forall fuel', (fuel <= fuel')%nat -> receive_frame fuel' 1000000000 (client_of answering_net) = Some (r, c').
Proof. exact (receive_frame_terminates 1000000000 (client_of answering_net) answering_net_advances). Defined.
