(* ===== verification/Serve.v ===== *)
(** * Serving

    Models the rest of the event loop of src/net/reactor.cpp ([EventLoop::add_listener], [pump] and [run]) and what the two
    daemons put into it: the listeners, the timers, [serve] and [stop] of src/runtime/coordinator.cpp and
    src/runtime/agent.cpp. What poll and accept answer is an argument, one answer for every turn. *)
From S2P Require Import Prelude Status Utf8 Bytes Ids Types Registry Hash Time Canonical Decision Engine Fencing Mutation Files Wal Snapshot.
From S2P Require Import DurableStore Recovery Frame Messages Connection Reactor Effects Logic EventLoop.
From S2P Require Import Agent AgentHandlers Enforcement AgentGuarantees Coordinator Handlers Admin Protocol CoordinatorLogic Refinement Reachability.
From S2P Require Import Guarantees Sample StoreSample FabricRun System.

(** ** One turn *)
(** A host whose event loop is [Loop]. *)
Class LoopHost (S T : Type) `{Host S} := {
  lh_loop : S -> Loop T;
  lh_set_loop : S -> Loop T -> S;
}.

(** What poll says about a listener, and what [accept] answers one call after the other. *)
Record ListenerPoll := mkListenerPoll { lq_readable : bool; lq_failed : bool; lq_accepts : list (Result unit) }.
(** What [poll_sockets] answers in one turn. *)
Record PollAnswer := mkPollAnswer {
  pw_ready : Result Z;
  pw_listeners : list ListenerPoll;
  pw_item : Z -> PollItem;
}.

Definition kMaxListeners : Z := 4.

Section turns.
Context {S T : Type} `{LoopHost S T}.

(** [add_listener]: the handlers of the listeners, in order. *)
Definition add_listener (valid : bool) (handler : ST S unit) (listeners : list (ST S unit)) : Result (list (ST S unit)) :=
  if negb valid then fail Outcome_Invalid "listener is not bound"
  else if kMaxListeners <=? zlen listeners then fail Outcome_CapacityExceeded "too many listeners registered"
  else Val (listeners ++ [handler]).

Context (on_frame : Z -> Frame -> ST S unit) (on_close : Z -> Status -> ST S unit) (fire_timers : ST S unit)
  (listeners : list (ST S unit)).

Definition in_event_loop {A} (f : ST (Loop T) A) : ST S A := fun s =>
  match f (lh_loop s) with (r, l) => (r, lh_set_loop s l) end.
Definition pending_erase : ST S (list Z) := gets (fun s => lp_pending_erase (lh_loop s)).
Definition set_pending_erase (ids : list Z) : ST S unit := modify (fun s => lh_set_loop s (with_pending_erase ids (lh_loop s))).

(** A connection that the handler refuses is logged and closed; any failure of [accept] ends the burst. *)
Fixpoint accept_burst (n : nat) (answers : list (Result unit)) (handler : ST S unit) : ST S unit :=
  match n, answers with
  | Datatypes.S n, Val _ :: answers => _ ← attempt handler; accept_burst n answers handler
  | _, _ => mret tt
  end.
Definition poll_listener (entry : ST S unit * ListenerPoll) : ST S unit :=
  if lq_readable entry.2 || lq_failed entry.2 then accept_burst (Z.to_nat limits.kMaxAcceptBurst) (lq_accepts entry.2) entry.1 else mret tt.

Definition connection_closed (s : S) (id : Z) : bool := from_option cn_closed false (host_connections s !! id).
Definition pump (poll : PollAnswer) : ST S unit :=
  ids ← gets connection_ids;
  closed ← gets (fun s => filter (fun id => connection_closed s id = true) ids);
  open ← gets (fun s => filter (fun id => connection_closed s id = false) ids);
  pending ← pending_erase;
  _ ← set_pending_erase (pending ++ closed);
  ready ← st_lift (pw_ready poll);
  if ready =? 0 then mret tt
  else
    _ ← each poll_listener (zip listeners (pw_listeners poll));
    each (fun id =>
      pending ← pending_erase;
      pending ← pump_connection on_frame pending id (pw_item poll id);
      set_pending_erase pending) open.

Definition sweep : ST S unit :=
  pending ← pending_erase;
  _ ← sweep_connections on_close pending;
  set_pending_erase [].

(** The body of the loop of [run]; nothing in it stops the loop. *)
Definition turn (polls : Z -> PollAnswer) : ST S unit :=
  _ ← fire_timers;
  _ ← sweep;
  at_time ← now;
  timeout ← gets (fun s => compute_timeout at_time (lh_loop s));
  pump (polls timeout).

(** [running_], [iterations_] and the host. *)
Record Running := mkRunning { rn_host : S; rn_running : bool; rn_iterations : Z }.
Fixpoint event_loop (fuel : nat) (polls : nat -> Z -> PollAnswer) (r : Running) : option (Result unit * Running) :=
  match fuel with
  | O => None
  | Datatypes.S fuel =>
      if negb (rn_running r) then Some (Val tt, r)
      else
        match turn (polls O) (rn_host r) with
        | (Val _, s) => event_loop fuel (fun k => polls (Datatypes.S k)) (mkRunning s (rn_running r) (inc (rn_iterations r)))
        | (Err e, s) => Some (Err e, mkRunning s false (inc (rn_iterations r)))
        | (Throw, s) => Some (Throw, mkRunning s (rn_running r) (inc (rn_iterations r)))
        end
  end.
Definition run_event_loop (fuel : nat) (polls : nat -> Z -> PollAnswer) (s : S) (iterations : Z) : option (Result unit * Running) :=
  event_loop fuel polls (mkRunning s true iterations).
Definition loop_stop (r : Running) : Running := mkRunning (rn_host r) false (rn_iterations r).

(** The state after some turns, whatever they returned. *)
Fixpoint turns (n : nat) (polls : nat -> Z -> PollAnswer) (s : S) : S :=
  match n with
  | O => s
  | Datatypes.S n => turns n (fun k => polls (Datatypes.S k)) (turn (polls O) s).2
  end.
End turns.

(** ** The agent *)
#[export] Instance agent_loop_host : LoopHost Agent AgentTimer := { lh_loop := a_loop; lh_set_loop := a_set_loop }.
Definition agent_turn : (Z -> PollAnswer) -> AM unit :=
  turn agent_handle_message (fun id _ => agent_handle_disconnect id) fire_due_timers [accept_control].
Definition agent_serve (fuel : nat) (polls : nat -> Z -> PollAnswer) (a : Agent) (iterations : Z) : option (Result unit * Running) :=
  run_event_loop agent_handle_message (fun id _ => agent_handle_disconnect id) fire_due_timers [accept_control] fuel polls a iterations.
Definition agent_turns : nat -> (nat -> Z -> PollAnswer) -> Agent -> Agent :=
  turns agent_handle_message (fun id _ => agent_handle_disconnect id) fire_due_timers [accept_control].

(** ** The coordinator

    Its connections are a member of [Coordinator]; the rest of the event loop is kept beside it. *)
Record CoordinatorDaemon := mkDaemon { cd_coordinator : Coordinator; cd_loop : Loop unit }.
Definition on_coordinator (f : Coordinator -> Coordinator) (d : CoordinatorDaemon) : CoordinatorDaemon :=
  mkDaemon (f (cd_coordinator d)) (cd_loop d).

#[export] Instance daemon_host : Host CoordinatorDaemon := {
  host_registry d := c_registry (cd_coordinator d);
  host_set_registry d r := on_coordinator (fun c => set_registry c r) d;
  host_store d := c_store (cd_coordinator d);
  host_disk d := c_disk (cd_coordinator d);
  host_set_store d ds disk := on_coordinator (fun c => set_store c ds disk) d;
  host_connections d := c_connections (cd_coordinator d);
  host_set_connections d m := on_coordinator (fun c => set_connections c m) d;
  host_world d := c_world (cd_coordinator d);
  host_set_world d w := on_coordinator (fun c => set_world c w) d;
}.
#[export] Instance daemon_loop_host : LoopHost CoordinatorDaemon unit := {
  lh_loop d := with_connections (c_connections (cd_coordinator d)) (cd_loop d);
  lh_set_loop d l := mkDaemon (set_connections (cd_coordinator d) (lp_connections l)) l;
}.
Abbreviation DM := (ST CoordinatorDaemon).
Definition lift {A} (m : M A) : DM A := fun d => match m (cd_coordinator d) with (r, c) => (r, mkDaemon c (cd_loop d)) end.

Definition kTickInterval : Z := 500 * 1000000.
(** The callback of the only timer. *)
Definition fire_tick : DM unit :=
  at_time ← lift tick_at;
  _ ← in_event_loop (schedule (timestamp_plus at_time kTickInterval) tt);
  mret tt.
Definition daemon_fire_due_timers : DM unit :=
  at_time ← now;
  due ← in_event_loop (fun l => let '(due, later) := take_due at_time (lp_timers l) in (Val due, with_timers later l));
  each (fun _ => fire_tick) due.

(** The handler of the listener: signing starts with the answer to the handshake. *)
Definition accept_peer (idle_deadline : Z) : DM unit :=
  at_time ← now;
  _ ← in_event_loop (adopt (mkConnectionConfig limits.kMaxFramePayload limits.kMaxSendQueueBytes limits.kMaxPendingSends idle_deadline [] false)
                       at_time);
  mret tt.

(** [install_timers], on the loop that [listen] has prepared. *)
Definition install_timers : DM unit := at_time ← now; _ ← in_event_loop (schedule at_time tt); mret tt.
(** A coordinator that [start] has started, with the listener bound. *)
Definition daemon_of (max_connections : Z) (c : Coordinator) : CoordinatorDaemon :=
  (install_timers (mkDaemon c (mkLoop (c_connections c) [] [] 1 1 max_connections))).2.

(** The lines of the readiness file. *)
Definition readiness (address : string) (port : Z) (c : Coordinator) : list string :=
  ["address=" ++ address; "port=" ++ num port; "domain=" ++ cf_domain (c_config c); "term=" ++ num (c_term c);
   "incarnation=" ++ uuid_to_string (c_incarnation c); "view_digest=" ++ digest_hex (registry_digest (c_registry c))]%string.
Definition agent_readiness (address : string) (port : Z) (a : Agent) : list string :=
  ["address=" ++ address; "port=" ++ num port; "cluster=" ++ ac_cluster (a_config a);
   "incarnation=" ++ uuid_to_string (id_incarnation (a_identity a)); "generation=" ++ num (id_generation (a_identity a));
   "term=" ++ num (id_term (a_identity a))]%string.

(** [listen] and [listen_control]: the listener of [TcpListener::bind] is moved into the loop, then the readiness file is
    written if one is configured and it can be opened. The port, the listeners and the lines written. *)
Definition listen_with {H : Type} (bound : Result (Z * Z)) (add : bool -> list H -> Result (list H)) (listeners : list H) (ready : bool)
    (lines : Z -> list string) : Result (Z * list H * list string) :=
  '(handle, port) ← bound;
  listeners ← add (negb (handle =? -1)) listeners;
  Val (port, listeners, if ready then lines port else []).
Definition listen (bound : Result (Z * Z)) (address : string) (ready : bool) (idle_deadline : Z) (listeners : list (DM unit)) (c : Coordinator) :
    Result (Z * list (DM unit) * list string) :=
  listen_with bound (fun valid => add_listener valid (accept_peer idle_deadline)) listeners ready (fun port => readiness address port c).
Definition listen_control (bound : Result (Z * Z)) (address : string) (ready : bool) (listeners : list (AM unit)) (a : Agent) :
    Result (Z * list (AM unit) * list string) :=
  listen_with bound (fun valid => add_listener valid accept_control) listeners ready (fun port => agent_readiness address port a).

Definition daemon_turn (idle_deadline : Z) : (Z -> PollAnswer) -> DM unit :=
  turn (fun id frame => lift (handle_message id frame)) (fun id reason => lift (handle_disconnect id reason)) daemon_fire_due_timers
    [accept_peer idle_deadline].
Definition serve (idle_deadline : Z) (fuel : nat) (polls : nat -> Z -> PollAnswer) (d : CoordinatorDaemon) (iterations : Z) :
    option (Result unit * Running) :=
  run_event_loop (fun id frame => lift (handle_message id frame)) (fun id reason => lift (handle_disconnect id reason)) daemon_fire_due_timers
    [accept_peer idle_deadline] fuel polls d iterations.
Definition daemon_turns (idle_deadline : Z) : nat -> (nat -> Z -> PollAnswer) -> CoordinatorDaemon -> CoordinatorDaemon :=
  turns (fun id frame => lift (handle_message id frame)) (fun id reason => lift (handle_disconnect id reason)) daemon_fire_due_timers
    [accept_peer idle_deadline].

(** ** A turn does what the handlers do *)
Section turn_rules.
Context {S T : Type} `{LoopHost S T} (on_frame : Z -> Frame -> ST S unit) (on_close : Z -> Status -> ST S unit) (fire_timers : ST S unit)
  (listeners : list (ST S unit)).
Context (R : S -> S -> Prop) {HR : HostFrame R} (Hpending : forall s ids, R s (lh_set_loop s (with_pending_erase ids (lh_loop s)))).
Context (Hframe : forall s id frame, runs R s (on_frame id frame)) (Hclose : forall s id reason, runs R s (on_close id reason))
  (Hfire : forall s, runs R s fire_timers) (Hlisten : forall s handler, handler ∈ listeners -> runs R s handler).
Implicit Types (s : S).

Lemma runs_set_pending_erase s ids : runs R s (set_pending_erase ids).
Proof. apply (runs_modify _), Hpending. Qed.
Lemma runs_pending_erase s : runs R s pending_erase.
Proof. unfold pending_erase. walk. Qed.
#[local] Hint Resolve runs_set_pending_erase runs_pending_erase : runs.

Lemma runs_accept_burst s n answers handler : (forall s, runs R s handler) -> runs R s (accept_burst n answers handler).
Proof.
  intros Hh. revert s answers. induction n as [|n IH]; intros s answers; cbn [accept_burst]; [walk|].
  destruct answers as [|[[]|e|] answers]; walk.
Qed.
Lemma runs_pump s poll : runs R s (pump on_frame listeners poll).
Proof.
  unfold pump. walk.
  - unfold poll_listener. walk. apply runs_accept_burst. intros s'. apply Hlisten.
    match goal with Hin : (_ ∈ zip _ _) |- _ => destruct x as [handler q]; apply elem_of_zip_l in Hin; exact Hin end.
  - by apply runs_pump_connection.
Qed.
Lemma runs_sweep_pending s : runs R s (sweep on_close).
Proof. unfold sweep. walk. by apply runs_sweep. Qed.
#[local] Hint Resolve runs_pump runs_sweep_pending : runs.
Lemma runs_turn s polls : runs R s (turn on_frame on_close fire_timers listeners polls).
Proof. unfold turn. walk. Qed.
Lemma runs_turns n polls s : R s (turns on_frame on_close fire_timers listeners n polls s).
Proof.
  revert polls s. induction n as [|n IH]; intros polls s; cbn [turns]; [reflexivity|].
  transitivity (turn on_frame on_close fire_timers listeners (polls 0%nat) s).2; [apply runs_turn|apply IH].
Qed.
End turn_rules.

(** ** The daemons only make the steps of their reachability relations *)
Definition daemon_steps (d d' : CoordinatorDaemon) : Prop := rtc step (cd_coordinator d) (cd_coordinator d').
#[export] Instance daemon_steps_frame : HostFrame daemon_steps.
Proof.
  split.
  - split; [intros d; apply rtc_refl|]. intros d1 d2 d3 H1 H2. unfold daemon_steps in *. by transitivity (cd_coordinator d2).
  - intros d m. apply rtc_once, step_network.
  - intros d w. apply rtc_once, step_world.
Qed.
Lemma daemon_steps_loop d l : daemon_steps d (lh_set_loop d l).
Proof. apply rtc_once, step_network. Qed.
Lemma runs_in_daemon_loop {A} d (f : ST (Loop unit) A) : runs daemon_steps d (in_event_loop f).
Proof. unfold runs, in_event_loop. destruct (f _) as [r l]. apply daemon_steps_loop. Qed.
Lemma runs_in_coordinator {A} d (m : M A) : (forall c, rtc step c (m c).2) -> runs daemon_steps d (lift m).
Proof. intros H. unfold runs, lift, daemon_steps. specialize (H (cd_coordinator d)). by destruct (m _). Qed.
#[local] Hint Resolve runs_in_daemon_loop : runs.

Lemma tick_at_steps c : rtc step c (tick_at c).2.
Proof.
  apply rtc_once. replace (tick_at c).2 with (tick c).2; [apply step_tick|].
  unfold tick, mbind, ST_bind. by destruct (tick_at c) as [[t|e|] c'].
Qed.
Lemma runs_daemon_timers d : runs daemon_steps d daemon_fire_due_timers.
Proof. unfold daemon_fire_due_timers, fire_tick. walk. apply runs_in_coordinator, tick_at_steps. Qed.
Lemma runs_accept_peer d idle : runs daemon_steps d (accept_peer idle).
Proof. unfold accept_peer. walk. Qed.
Lemma daemon_turns_step idle n polls d : daemon_steps d (daemon_turns idle n polls d).
Proof.
  apply (runs_turns _ _ _ _ daemon_steps (fun d ids => daemon_steps_loop d _)).
  - intros d' id frame. apply runs_in_coordinator. intros c. apply rtc_once, step_message.
  - intros d' id reason. apply runs_in_coordinator. intros c. apply rtc_once, step_disconnect.
  - apply runs_daemon_timers.
  - intros d' handler ->%list_elem_of_singleton. apply runs_accept_peer.
Qed.

Lemma agent_steps_loop (a : Agent) (l : Loop AgentTimer) : rtc agent_step a (lh_set_loop a l).
Proof. apply rtc_once, as_network. Qed.
Lemma runs_in_agent_loop {A} a (f : ST (Loop AgentTimer) A) : runs (rtc agent_step) a (in_loop f).
Proof. unfold runs, in_loop. destruct (f _) as [r l]. apply agent_steps_loop. Qed.
#[local] Hint Resolve runs_in_agent_loop : runs.
Lemma runs_agent_timers a : runs (rtc agent_step) a fire_due_timers.
Proof. unfold fire_due_timers. walk. apply rtc_once, as_timer. Qed.
Lemma agent_turns_step n polls a : rtc agent_step a (agent_turns n polls a).
Proof.
  apply (runs_turns _ _ _ _ (rtc agent_step) (fun a ids => agent_steps_loop a _)).
  - intros a' id frame. apply rtc_once, as_message.
  - intros a' id _. apply rtc_once, as_disconnect.
  - apply runs_agent_timers.
  - intros a' handler ->%list_elem_of_singleton. apply rtc_once, as_accept.
Qed.

Lemma daemon_of_coordinator max c : rtc step c (cd_coordinator (daemon_of max c)).
Proof.
  change (runs daemon_steps (mkDaemon c (mkLoop (c_connections c) [] [] 1 1 max)) install_timers).
  unfold install_timers. walk.
Qed.


(** ** The loop runs until poll fails *)
Section stopping.
Context {S T : Type} `{LoopHost S T} (on_frame : Z -> Frame -> ST S unit) (on_close : Z -> Status -> ST S unit) (fire_timers : ST S unit)
  (listeners : list (ST S unit)).
Lemma event_loop_ends fuel polls r result r' :
  event_loop on_frame on_close fire_timers listeners fuel polls r = Some (result, r') -> rn_running r = true ->
  (exists e, result = Err e) \/ result = Throw.
Proof.
  revert polls r. induction fuel as [|fuel IH]; intros polls r Hr Hrun; [done|]. cbn [event_loop] in Hr. rewrite Hrun in Hr. cbn [negb] in Hr.
  destruct (turn _ _ _ _ _ _) as [[[]|e|] s]; [by eapply IH|injection Hr as <- <-; eauto..].
Qed.
End stopping.

(** ** The tick recurs *)
(** An operation that does not return an error. *)
Definition unfailing {S A} (m : ST S A) : Prop := forall s e, (m s).1 <> Err e.
Lemma quiet_bind {S A B} (m : ST S A) (f : A -> ST S B) : unfailing m -> (forall a, unfailing (f a)) -> unfailing (m ≫= f).
Proof.
  intros Hm Hf s e. unfold mbind, ST_bind. pose proof (Hm s) as H. destruct (m s) as [[a|e'|] s']; cbn in *; [apply Hf|by destruct (H e')|done].
Qed.
Lemma quiet_ret {S A} (a : A) : unfailing (mret a : ST S A).
Proof. done. Qed.
Lemma quiet_gets {S A} (f : S -> A) : unfailing (gets f).
Proof. done. Qed.
Lemma quiet_modify {S} (f : S -> S) : unfailing (modify f).
Proof. done. Qed.
Lemma quiet_now {S} `{Host S} : unfailing (now : ST S Z).
Proof. done. Qed.
Lemma quiet_attempt {S A} (m : ST S A) : unfailing (attempt m).
Proof. intros s e. unfold attempt. by destruct (m s) as [[]]. Qed.
Lemma quiet_ignore {S A} (m : ST S A) : unfailing (ignore m).
Proof. apply quiet_bind; [apply quiet_attempt|]. intros. apply quiet_ret. Qed.
Lemma quiet_each {S A} (body : A -> ST S unit) l : (forall x, unfailing (body x)) -> unfailing (each body l).
Proof. intros Hb. induction l as [|x l IH]; cbn [each]; [apply quiet_ret|]. by apply quiet_bind. Qed.
Create HintDb unfailing.
#[export] Hint Resolve quiet_ret quiet_gets quiet_modify quiet_now quiet_attempt quiet_ignore : unfailing.
Ltac quieten :=
  repeat first
    [ progress intros
    | solve [eauto 1 with unfailing]
    | apply quiet_bind
    | apply quiet_each
    | match goal with
      | |- unfailing (if ?b then _ else _) => destruct b
      | |- unfailing (match ?x with _ => _ end) => destruct x
      end ].
Lemma quiet_tick_at : unfailing tick_at.
Proof. unfold tick_at, expire_grants, retry_pending_flows, resend_prepare. quieten. Qed.

(** Only the timer callback touches the timers. *)
Definition same_timers (d d' : CoordinatorDaemon) : Prop := lp_timers (cd_loop d') = lp_timers (cd_loop d).
#[export] Instance same_timers_frame : HostFrame same_timers.
Proof. split; [|done..]. split; [done|]. intros d1 d2 d3 H1 H2. unfold same_timers in *. congruence. Qed.
Lemma same_timers_pending (d : CoordinatorDaemon) ids : same_timers d (lh_set_loop d (with_pending_erase ids (lh_loop d))).
Proof. reflexivity. Qed.
Lemma runs_lift_timers {A} d (m : M A) : runs same_timers d (lift m).
Proof. unfold runs, lift, same_timers. by destruct (m _). Qed.
Lemma runs_accept_timers d idle : runs same_timers d (accept_peer idle).
Proof.
  unfold accept_peer. walk. unfold runs, in_event_loop, same_timers, adopt. destruct (_ <=? _); [done|]. done.
Qed.

Definition one_timer (d : CoordinatorDaemon) : Prop := exists key, lp_timers (cd_loop d) = [(key, tt)].

(** [tick] and its rescheduling. *)
Lemma fire_tick_timers d :
  lp_timers (cd_loop d) = [] ->
  (fire_tick d).1 = Throw \/
  exists t d', fire_tick d = (Val tt, d') /\ cd_coordinator d' = (tick (cd_coordinator d)).2 /\
    lp_timers (cd_loop d') = [((timestamp_plus t kTickInterval, lp_next_timer_id (cd_loop d)), tt)].
Proof.
  intros Ht. unfold fire_tick, lift, tick. unfold mbind, ST_bind. pose proof (quiet_tick_at (cd_coordinator d)) as Hq.
  destruct (tick_at (cd_coordinator d)) as [[t|e|] c']; [|by destruct (Hq e)|by left]. right.
  unfold in_event_loop, schedule. cbn. rewrite Ht. cbn. eexists t, _. split; [reflexivity|]. cbn. split; [|done]. by destruct c'.
Qed.

Lemma daemon_fire_timers d key :
  lp_timers (cd_loop d) = [(key, tt)] ->
  let at_time := wl_now (c_world (cd_coordinator d)) (wl_next (c_world (cd_coordinator d))) in
  let woken := set_world (cd_coordinator d) (world_step (c_world (cd_coordinator d))) in
  (daemon_fire_due_timers d).1 = Throw \/
  exists d', daemon_fire_due_timers d = (Val tt, d') /\ one_timer d' /\
    (key.1 <= at_time -> cd_coordinator d' = (tick woken).2) /\ (at_time < key.1 -> cd_coordinator d' = woken).
Proof.
  intros Ht at_time woken.
  set (woken_with ts := mkDaemon (set_connections woken (c_connections (cd_coordinator d)))
                          (with_timers ts (with_connections (c_connections (cd_coordinator d)) (cd_loop d)))).
  assert (Hw : forall ts, cd_coordinator (woken_with ts) = woken) by (intros ts; unfold woken_with, woken; by destruct (cd_coordinator d)).
  assert (E : daemon_fire_due_timers d =
    (if key.1 <=? at_time then each (fun _ => fire_tick) [tt] (woken_with []) else (Val tt, woken_with [(key, tt)]))).
  { unfold daemon_fire_due_timers, mbind, ST_bind, in_event_loop. cbn. rewrite Ht. cbn [take_due]. fold at_time.
    by destruct (key.1 <=? at_time). }
  rewrite E. destruct (Z.leb_spec key.1 at_time) as [Hdue|Hlater].
  - cbn [each]. destruct (fire_tick_timers (woken_with []) eq_refl) as [Hthrow|(t & d' & Hf & Hc & Hl)].
    + left. unfold mbind, ST_bind. by destruct (fire_tick _) as [[]].
    + right. exists d'. unfold mbind, ST_bind. rewrite Hf. split; [done|]. split; [by eexists|]. split; [|lia].
      intros _. by rewrite Hc, Hw.
  - right. eexists. split; [reflexivity|]. split; [by exists key|]. split; [lia|]. intros _. apply Hw.
Qed.

(** C39. The housekeeping of the coordinator recurs for ever: exactly one timer is pending when the daemon starts to serve and
    after every turn that does not end in an exception, whatever happened in it; and a turn whose time has reached the
    deadline of the timer runs [tick] (which expires grants, retries the pending flows and pings the agents) exactly once. *)
Theorem tick_recurs :
  (forall max c, one_timer (daemon_of max c)) /\
  (forall idle polls d, one_timer d -> (daemon_turn idle polls d).1 = Throw \/ one_timer (daemon_turn idle polls d).2) /\
  (forall d key, lp_timers (cd_loop d) = [(key, tt)] -> (daemon_fire_due_timers d).1 <> Throw ->
     let world := c_world (cd_coordinator d) in
     key.1 <= wl_now world (wl_next world) ->
     cd_coordinator (daemon_fire_due_timers d).2 = (tick (set_world (cd_coordinator d) (world_step world))).2).
Proof.
  split_and!.
  - intros max c. by eexists.
  - intros idle polls d [key Hk]. unfold daemon_turn, turn. destruct (daemon_fire_timers d key Hk) as [Hthrow|(d' & Hf & [key' Hk'] & _)].
    + left. unfold mbind, ST_bind. by destruct (daemon_fire_due_timers d) as [[]].
    + right. unfold mbind at 1, ST_bind at 1. rewrite Hf. exists key'. rewrite <- Hk'.
      cbv beta iota. match goal with |- lp_timers (cd_loop (?m d').2) = _ => change (runs same_timers d' m) end. walk.
      * apply runs_sweep_pending; [apply _|exact same_timers_pending|]. intros. apply runs_lift_timers.
      * apply runs_pump; [apply _|exact same_timers_pending|intros; apply runs_lift_timers|]. intros d2 handler ->%list_elem_of_singleton. apply runs_accept_timers.
  - intros d key Hk Hthrow world Hdue. destruct (daemon_fire_timers d key Hk) as [H|(d' & Hf & _ & Htick & _)]; [done|].
    rewrite Hf. apply Htick. exact Hdue.
Qed.

(** Nothing stops a daemon but a failure of poll: [run] returns only with an error of a turn (or an exception), for both
    daemons; no handler clears [running_], and the signal handlers of the programs set a flag that the loop does not
    read. *)
Theorem serve_ends_only_on_error :
  (forall idle fuel polls d iterations result r', serve idle fuel polls d iterations = Some (result, r') ->
     (exists e, result = Err e) \/ result = Throw) /\
  (forall fuel polls a iterations result r', agent_serve fuel polls a iterations = Some (result, r') ->
     (exists e, result = Err e) \/ result = Throw).
Proof.
  split.
  - intros idle fuel polls d iterations result r' H. exact (event_loop_ends _ _ _ _ _ _ _ _ _ H eq_refl).
  - intros fuel polls a iterations result r' H. exact (event_loop_ends _ _ _ _ _ _ _ _ _ H eq_refl).
Qed.
