(* ===== verification/Ctl.v ===== *)
(** * The command-line tool

    Models apps/icfctl/main.cpp: from a command line to the one request it sends (or the usage error it exits with), the
    request over the client of Client.v, and from the reply to the lines on the standard output and the exit code.
    The version string is generated by the build and is an argument; so are the network and the seed of the request
    identities. *)
From S2P Require Import Prelude Status Utf8 Bytes Ids Types Registry Hash Time Canonical Decision Engine Fencing Frame Messages.
From S2P Require Import Effects ConfigFile Rng Log AppSupport Sockets Client.

(** ** Output

    A line is the text of one [printf] up to its newline. *)
Definition fmt (parts : list string) : string := String.concat "" parts.
(** [%s] of [c_str()]: what precedes the first NUL. *)
Definition cs (text : string) : string := bytes_str (c_str (str_bytes text)).
Definition snum (v : Z) : string := bytes_str (dec_signed v).
Definition yes_no (b : bool) : string := if b then "true" else "false".
Definition or_dash (text : string) : string := if bool_decide (text = ""%string) then "-" else cs text.
Definition or_star (text : string) : string := if bool_decide (text = ""%string) then "*" else cs text.
Definition uuid_or_dash (u : string) : string := if uuid_is_nil u then "-" else uuid_to_string u.

Fixpoint join_from (separator : string) (index : nat) (values : list string) : string :=
  match values with
  | [] => ""
  | value :: values => ((if (0 <? index)%nat then separator else "") ++ value ++ join_from separator (S index) values)%string
  end.
Definition join (values : list string) (separator : string) : string := join_from separator 0 values.

(** [printf("outcome=%s\ndetail=%s\n", ...)], as both of [run_query] and [run_admin] report failures. *)
Definition report (outcome : Outcome) (detail : string) : list string :=
  [fmt ["outcome="; outcome_to_string outcome]; fmt ["detail="; cs detail]].

Definition print_endpoint (endpoint : EndpointRecord) : string :=
  fmt ["  endpoint="; cs (ep_id endpoint); " scope="; cs (ep_scope endpoint); " state="; endpoint_state_to_string (ep_state endpoint);
       " capacity="; num (ep_capacity endpoint); " reserved="; num (ep_reserved endpoint);
       " inter_cluster="; if ep_inter_cluster_allowed endpoint then "allowed" else "refused";
       " degraded="; if ep_permits_degraded endpoint then "permitted" else "not-permitted"]%string.
Definition print_cluster (cluster : ClusterRecord) : list string :=
  fmt ["cluster="; cs (cl_id cluster); " domain="; cs (cl_domain cluster); " state="; cluster_state_to_string (cl_state cluster);
       " generation="; num (cl_generation cluster); " policy_generation="; num (cl_policy_generation cluster);
       " incarnation="; uuid_to_string (cl_incarnation cluster)]%string ::
  fmt ["  endpoints="; num (zlen (cl_endpoints cluster)); " incarnation_changes="; num (cl_incarnation_changes cluster);
       " generation_conflict="; yes_no (cl_generation_conflict cluster); " consent_withdrawn="; yes_no (cl_consent_withdrawn cluster)]%string ::
  (print_endpoint <$> cl_endpoints cluster).

Definition print_link (link : LinkRecord) : string :=
  fmt ["link="; cs (lk_id link); " a="; cs (lk_a link); " b="; cs (lk_b link); " kind="; link_kind_to_string (lk_kind link);
       " state="; link_state_to_string (lk_state link); " capacity="; num (lk_capacity link);
       " provenance="; evidence_source_to_string (pv_source (lk_provenance link)); "/";
       verification_state_to_string (pv_verification (lk_provenance link))]%string.

Definition print_path (path : PathRecord) : string :=
  fmt ["path="; cs (pa_id path); " a="; cs (pa_a path); " b="; cs (pa_b path); " state="; path_state_to_string (pa_state path);
       " bottleneck="; num (pa_bottleneck path); " hops="; cs (join (pa_hops path) ",");
       " unsupported_edge="; yes_no (pa_contains_unsupported_edge path)]%string.

Definition print_policy (rule : PolicyRule) : string :=
  fmt ["policy="; cs (pr_id rule); " owner="; cs (pr_owner rule); " effect="; if pr_allow rule then "allow" else "refuse";
       " a="; or_star (pr_cluster_a rule); " b="; or_star (pr_cluster_b rule); " endpoint_a="; or_star (pr_endpoint_a rule);
       " endpoint_b="; or_star (pr_endpoint_b rule); " generation="; num (pr_generation rule);
       " degraded="; if pr_allow_degraded rule then "permitted" else "not-permitted"]%string.

Definition print_consent (consent : option ConsentRecord) : string :=
  match consent with
  | Some consent =>
      fmt ["    consent="; consent_decision_to_string (cs_decision consent); " generation="; num (cs_generation consent);
           " policy_generation="; num (cs_policy_generation consent); " incarnation="; uuid_to_string (cs_incarnation consent);
           " authenticity="; transport_authenticity_to_string (cs_authenticity consent)]%string
  | None => "    consent=absent"
  end.
Definition print_party (side : Z) (party : PartyRef) : string :=
  fmt ["  party"; num side; " cluster="; cs (py_cluster party); " endpoint="; cs (py_endpoint party); " domain="; cs (py_domain party)].
Definition print_contract (contract : ContractRecord) : list string :=
  [fmt ["contract="; uuid_to_string (ct_id contract); " state="; contract_state_to_string (ct_state contract);
        " capacity="; num (ct_capacity contract); " lease_ms="; snum (Z.quot (ct_lease_duration contract) 1000000)];
   fmt ["  terms_digest="; digest_hex (ct_terms_digest contract)];
   print_party 0 (ct_parties contract).1; print_consent (ct_consents contract).1;
   print_party 1 (ct_parties contract).2; print_consent (ct_consents contract).2]%string.

Definition print_grant (grant : GrantRecord) : list string :=
  [fmt ["grant="; uuid_to_string (gr_id grant); " contract="; uuid_to_string (gr_contract grant);
        " state="; grant_state_to_string (gr_state grant); " attempt="; uuid_to_string (gr_attempt grant);
        " capacity="; num (gr_capacity grant)];
   fmt ["  coordinator_term="; num (gr_coordinator_term grant); " coordinator="; uuid_to_string (gr_coordinator grant);
        " valid_until="; to_iso8601 (gr_valid_until grant)];
   fmt ["  acknowledged_a="; yes_no (gr_acknowledged grant).1; " acknowledged_b="; yes_no (gr_acknowledged grant).2;
        " note="; cs (gr_note grant)]]%string.

Definition print_decision (decision : Decision) : list string :=
  let list_text values := match values with [] => "-"%string | _ => join values "," end in
  [fmt ["outcome="; outcome_to_string (de_outcome decision)];
   fmt ["detail="; cs (de_detail decision)];
   fmt ["degraded="; yes_no (de_degraded decision)];
   fmt ["contract="; uuid_or_dash (de_contract decision)];
   fmt ["grant="; uuid_or_dash (de_grant decision)];
   fmt ["authorities="; or_dash (de_authorities decision).1; ","; or_dash (de_authorities decision).2];
   fmt ["paths="; cs (list_text (de_paths decision))];
   fmt ["reasons="; cs (list_text (reason_code_to_string <$> de_reasons decision))];
   fmt ["view_digest="; digest_hex (de_view_digest decision)];
   fmt ["term="; num (de_term decision)]]%string.

Definition print_action (action : FenceAction) : string :=
  fmt ["  action="; fence_target_to_string (fa_target action); " grant="; uuid_or_dash (fa_grant action);
       " contract="; uuid_or_dash (fa_contract action); " reservation="; uuid_or_dash (fa_reservation action);
       " reason="; reason_code_to_string (fa_reason action)]%string.
Definition print_fence_plan (plan : FencePlan) : list string :=
  fmt ["trigger="; fence_trigger_to_string (fp_trigger plan)]%string ::
  fmt ["actions="; num (zlen (fp_actions plan))]%string :: (print_action <$> fp_actions plan).

Definition print_status (status : CoordinatorStatus) (role : string) : list string :=
  [fmt ["role="; role]; fmt ["domain="; cs (Decision.co_domain status)];
   fmt ["incarnation="; uuid_to_string (co_incarnation status)]; fmt ["term="; num (co_term status)];
   fmt ["started_at="; to_iso8601 (co_started_at status)]; fmt ["view_digest="; digest_hex (co_view_digest status)];
   fmt ["recovered_from_store="; yes_no (co_recovered_from_store status); " recovered_records="; num (co_recovered_records status);
        " truncations="; num (co_truncations_recovered status)];
   fmt ["clusters="; num (co_clusters status); " endpoints="; num (co_endpoints status); " links="; num (co_links status);
        " paths="; num (co_paths status); " contracts="; num (co_contracts status); " grants="; num (co_grants status);
        " reservations="; num (co_reservations status); " policies="; num (co_policies status)];
   fmt ["commits="; num (co_commits status); " fences="; num (co_fences status); " refusals="; num (co_refusals status);
        " revalidations="; num (co_revalidations status); " rejected_replays="; num (co_rejected_replays status);
        " rejected_frames="; num (co_rejected_frames status)];
   fmt ["connected_agents="; num (co_connected_agents status)]; fmt ["store="; cs (co_store_path status)]]%string.

Definition count_line {A} (l : list A) : string := fmt ["count="; num (zlen l)]%string.
Definition print_accounting (entry : AccountingEntry) : string :=
  fmt ["grant="; uuid_to_string (ac_grant entry); " contract="; uuid_to_string (ac_contract entry); " endpoint="; cs (ac_endpoint entry);
       " cluster="; cs (ac_cluster entry); " reserved="; num (ac_reserved entry); " released="; num (ac_released entry);
       " closed="; yes_no (ac_closed entry)]%string.
Definition print_audit (record : AuditRecord) : string :=
  fmt ["seq="; num (au_sequence record); " at="; to_iso8601 (au_at record); " actor="; cs (au_actor record);
       " action="; cs (au_action record); " subject="; cs (au_subject record); " outcome="; outcome_to_string (au_outcome record);
       " detail="; cs (au_detail record)]%string.
Definition print_agent_audit (record : AuditRecord) : string :=
  fmt ["seq="; num (au_sequence record); " action="; cs (au_action record); " subject="; cs (au_subject record);
       " outcome="; outcome_to_string (au_outcome record); " detail="; cs (au_detail record)]%string.
(** [print_outcome] *)
Definition print_outcome (status : Status) : list string :=
  fmt ["outcome="; outcome_to_string (st_outcome status)]%string ::
  (if bool_decide (st_message status = ""%string) then [] else [fmt ["detail="; cs (st_message status)]%string]).

Definition exit_code_for (outcome : Outcome) : Z :=
  if bool_decide (outcome = Outcome_Ok) then 0
  else if bool_decide (outcome = Outcome_DegradedAuthorized) then 3
  else if is_indeterminate_family outcome then 4
  else 4.

Definition print_usage : list string :=
  ["usage: icfctl --connect <host:port> [--shared-key <key>] <command> [options]";
   "commands:";
   "  status";
   "  clusters [list|show <cluster>]";
   "  links [list|add <edge> --a <endpoint> --b <endpoint> [--kind loopback|synthetic|optical] [--capacity N]|fail <edge>|restore <edge>|degrade <edge>]";
   "  paths [list|add <path> --a <endpoint> --b <endpoint> --hops <e1,e2>|delete <path>]";
   "  policies [list|allow <rule> --owner <domain> [--a <cluster>] [--b <cluster>] [--degraded] [--max-capacity N]|refuse <rule> --owner <domain> [--a <cluster>] [--b <cluster>]|delete <rule>]";
   "  contracts [list|show <contract>]";
   "  propose --a <cluster> --endpoint <endpoint> --b <cluster> --endpoint-b <endpoint> [--capacity N] [--lease 60s]";
   "  grants [list|show <grant>]";
   "  grant --contract <contract> [--capacity N]";
   "  revalidate --grant <grant>";
   "  fence --grant <grant>";
   "  decide --src <endpoint> --dst <endpoint> [--capacity N] [--allow-degraded] [--expect-src-generation N] [--expect-dst-generation N]";
   "  fence-plan --cluster <cluster> [--trigger manual|reincarnation|withdrawal|policy|coordinator]";
   "  withdraw --cluster <cluster> [--reason <text>]";
   "  resolve --cluster <cluster> --generation N";
   "  accounting [--limit N]";
   "  audit [--limit N]";
   "  agent-status --agent <host:port>";
   "  agent-grants --agent <host:port>";
   "  agent-show --agent <host:port> --grant <grant>";
   "  agent-withdraw --agent <host:port> [--reason <text>]";
   "  agent-state --agent <host:port> --state active|suspended|draining";
   "  agent-bump --agent <host:port> [--reason <text>]";
   "  agent-fence --agent <host:port> --grant <grant>";
   "  agent-audit --agent <host:port> [--limit N]";
   "  version"]%string.

(** ** From a command line to a request *)
Inductive Request :=
  | VersionRequest
  | QueryRequest (address key : string) (query : QueryMessage) (print : QueryResultMessage -> list string)
  | AdminRequest (address key : string) (message : AdminMessage).

(** [fprintf(stderr, "icfctl: ...\n"); return 1;] *)
Definition usage_error {A} (message : string) : Launch A := Exited 1 [("icfctl: " ++ message)%string].
Definition require {A} (r : Result A) (message : string) : Launch A := or_exit "icfctl" 1 (fun _ => message) r.
(** [Result::value] of a result that may hold an error: [std::get] throws and nothing catches it. *)
Definition must {A} (r : Result A) : Launch A := match r with Val a => Launched a | _ => Undefined end.
(** [result.has_value() ? ... : ...] and [value_or] of an option. *)
Definition u64_or (fallback : Z) (key : string) (a : Arguments) : Z := value_or fallback (args_get_u64 key a).

Definition positional_or (index : nat) (fallback : string) (a : Arguments) : string := default fallback (ar_positional a !! index).
Definition subcommand (a : Arguments) : string := positional_or 1 "list" a.

Definition name_arg (a : Arguments) (name : string) : Result string :=
  let text := args_get name "" a in
  if bool_decide (text = ""%string) then invalid ("missing --" ++ name) else name_parse IdTag text.
Definition cluster_arg : Arguments -> string -> Result string := name_arg.
Definition endpoint_arg : Arguments -> string -> Result string := name_arg.

Definition admin_provenance : Provenance :=
  mkProvenance EvidenceSource_AdminConfigured VerificationState_Verified 0 0 nil_uuid zero_digest.

(** A [QueryMessage] and an [AdminMessage] with the members of the command set, the others as they are declared. *)
Definition query_for (kind : QueryKind) (cluster contract grant : string) (limit : Z) : QueryMessage :=
  mkQueryMessage nil_uuid kind cluster "" "" "" contract grant "" "" 0 false limit false 0 false 0 0.
Definition plain_query (kind : QueryKind) : QueryMessage := query_for kind "" nil_uuid nil_uuid 0.
Definition topology_admin (action : AdminAction) (link : option LinkRecord) (path : option PathRecord) (policy : option PolicyRule)
    (edge policy_id : string) (link_state : LinkState) : AdminMessage :=
  mkAdmin nil_uuid action None link path policy "" "" "" "" nil_uuid nil_uuid edge policy_id 0 ClusterState_Unknown link_state 0 0 "".
Definition grant_admin (action : AdminAction) (contract grant : string) (capacity : Z) (reason : string) : AdminMessage :=
  mkAdmin nil_uuid action None None None None "" "" "" "" contract grant "" "" 0 ClusterState_Unknown LinkState_Unknown capacity 0 reason.
Definition cluster_admin (action : AdminAction) (cluster : string) (generation : Z) (state : ClusterState) (reason : string) :
    AdminMessage :=
  mkAdmin nil_uuid action None None None None cluster "" "" "" nil_uuid nil_uuid "" "" generation state LinkState_Unknown 0 0 reason.

Section Commands.
Context (a : Arguments) (command address key : string).

Definition ask (query : QueryMessage) (print : QueryResultMessage -> list string) : Launch Request :=
  Launched (QueryRequest address key query print).
Definition tell (message : AdminMessage) : Launch Request := Launched (AdminRequest address key message).

Definition ctl_status : Launch Request :=
  ask (plain_query QueryKind_Status) (fun result =>
    match qr_status result with
    | Some status => print_status status "coordinator"
    | None => ["outcome=UNKNOWN"; "detail=the coordinator returned no status"]
    end)%string.

Definition ctl_clusters : Launch Request :=
  query ← (if bool_decide (subcommand a = "show"%string) then
             let cluster := match cluster_arg a "cluster" with
                            | Val cluster => Val cluster
                            | Err s => match ar_positional a !! 2%nat with Some text => name_parse IdTag text | None => Err s end
                            | Throw => Throw
                            end in
             cluster ← require cluster "clusters show requires a cluster identity";
             Launched (query_for QueryKind_ShowCluster cluster nil_uuid nil_uuid 0)
           else Launched (plain_query QueryKind_ListClusters));
  ask query (fun result => concat (print_cluster <$> qr_clusters result) ++ [count_line (qr_clusters result)]).

Definition link_kind_option (kind : string) : option LinkKind :=
  if bool_decide (kind = "loopback"%string) then Some LinkKind_LoopbackTcp
  else if bool_decide (kind = "synthetic"%string) then Some LinkKind_SyntheticModel
  else if bool_decide (kind = "optical"%string) then Some LinkKind_OpticalInterconnect
  else None.
Definition link_state_option (sub : string) : option LinkState :=
  if bool_decide (sub = "fail"%string) then Some LinkState_Down
  else if bool_decide (sub = "restore"%string) then Some LinkState_Up
  else if bool_decide (sub = "degrade"%string) then Some LinkState_Degraded
  else None.
Definition ctl_links_add (edge : string) : Launch Request :=
  endpoint_a ← require (endpoint_arg a "a") "links add requires --a and --b endpoint scopes";
  endpoint_b ← require (endpoint_arg a "b") "links add requires --a and --b endpoint scopes";
  match link_kind_option (args_get "kind" "synthetic" a) with
  | None => usage_error "--kind must be loopback, synthetic, or optical"
  | Some kind =>
      tell (topology_admin AdminAction_UpsertLink
              (Some (mkLink edge endpoint_a endpoint_b kind LinkState_Up (u64_or 1000 "capacity" a) 0 0 0 admin_provenance))
              None None "" "" LinkState_Unknown)
  end.
Definition ctl_links : Launch Request :=
  let sub := subcommand a in
  if bool_decide (sub = "list"%string)
  then ask (plain_query QueryKind_ListLinks) (fun result => (print_link <$> qr_links result) ++ [count_line (qr_links result)])
  else
    edge ← require (name_parse IdTag (positional_or 2 (args_get "edge" "" a) a)) ("links " ++ cs sub ++ " requires a link identity");
    if bool_decide (sub = "add"%string) then ctl_links_add edge
    else
      let action := match link_state_option sub with Some _ => AdminAction_SetLinkState | None => AdminAction_DeleteLink end in
      let message := topology_admin action None None None edge "" (default LinkState_Unknown (link_state_option sub)) in
      if negb (bool_decide (is_Some (link_state_option sub))) && negb (bool_decide (sub = "delete"%string))
      then usage_error ("unknown links subcommand '" ++ cs sub ++ "'")
      else tell message.

(** The loop over the hop list; [None] when the fuel does not suffice. *)
Definition comma_char : byte := byte_of 44.
Fixpoint hop_loop (fuel : nat) (text : bytes) (begin : nat) (hops : list string) : option (Launch (list string)) :=
  match fuel with
  | O => None
  | S fuel =>
      if (length text <? begin)%nat then Some (Launched hops)
      else
        let comma := find_from comma_char text begin in
        let token := match comma with Some comma => take (comma - begin) (drop begin text) | None => drop begin text end in
        let next hops := match comma with Some comma => hop_loop fuel text (S comma) hops | None => Some (Launched hops) end in
        if bool_decide (token = []) then next hops
        else
          match name_parse IdTag (bytes_str token) with
          | Val hop => next (hops ++ [hop])
          | Err _ => Some (usage_error ("invalid hop '" ++ cs (bytes_str token) ++ "'"))
          | Throw => Some Undefined
          end
  end.
Definition hop_list (hops : string) : Launch (list string) :=
  default Undefined (hop_loop (S (String.length hops)) (str_bytes hops) 0 []).

Definition ctl_paths : Launch Request :=
  let sub := subcommand a in
  if bool_decide (sub = "list"%string)
  then ask (plain_query QueryKind_ListPaths) (fun result => (print_path <$> qr_paths result) ++ [count_line (qr_paths result)])
  else
    path ← require (name_parse IdTag (positional_or 2 "" a)) ("paths " ++ cs sub ++ " requires a path identity");
    if bool_decide (sub = "delete"%string)
    then tell (topology_admin AdminAction_DeletePath None None None path "" LinkState_Unknown)
    else
      endpoint_a ← require (endpoint_arg a "a") "paths add requires --a and --b endpoint scopes";
      endpoint_b ← require (endpoint_arg a "b") "paths add requires --a and --b endpoint scopes";
      let text := args_get "hops" "" a in
      if bool_decide (text = ""%string) then usage_error "paths add requires --hops e1,e2"
      else
        hops ← hop_list text;
        tell (topology_admin AdminAction_UpsertPath None
                (Some (mkPath path endpoint_a endpoint_b hops 0 PathState_Unknown 0 admin_provenance false)) None "" "" LinkState_Unknown).

(** An option that may be absent; a malformed one ends the command. *)
Definition optional_arg (name : string) (errors : list string) : Launch string :=
  let text := args_get name "" a in
  if bool_decide (text = ""%string) then Launched ""%string
  else match name_parse IdTag text with Val id => Launched id | Err _ => Exited 1 errors | Throw => Undefined end.
Definition ctl_policy_rule (sub id : string) : Launch Request :=
  owner ← require (name_parse IdTag (args_get "owner" "" a)) ("policies " ++ cs sub ++ " requires --owner <domain>");
  cluster_a ← optional_arg "a" ["icfctl: invalid --a cluster"%string];
  cluster_b ← optional_arg "b" ["icfctl: invalid --b cluster"%string];
  endpoint_a ← optional_arg "endpoint" [];
  endpoint_b ← optional_arg "endpoint-b" [];
  tell (topology_admin AdminAction_UpsertPolicy None None
          (Some (mkPolicy id owner cluster_a cluster_b endpoint_a endpoint_b (u64_or 1 "generation" a) (bool_decide (sub = "allow"%string))
                   (bool_decide (args_get "degraded" "false" a = "true"%string)) (u64_or 0 "max-capacity" a) 0 admin_provenance))
          "" "" LinkState_Unknown).
Definition ctl_policies : Launch Request :=
  let sub := subcommand a in
  if bool_decide (sub = "list"%string)
  then ask (plain_query QueryKind_ListPolicies) (fun result => (print_policy <$> qr_policies result) ++ [count_line (qr_policies result)])
  else
    let id := positional_or 2 "" a in
    if bool_decide (sub = "delete"%string) then
      if bool_decide (id = ""%string) then usage_error "policies delete requires a rule identity"
      else tell (topology_admin AdminAction_DeletePolicy None None None "" id LinkState_Unknown)
    else if bool_decide (id = ""%string) then usage_error ("policies " ++ cs sub ++ " requires a rule identity")
    else if negb (bool_decide (sub = "allow"%string)) && negb (bool_decide (sub = "refuse"%string))
    then usage_error ("unknown policies subcommand '" ++ cs sub ++ "'")
    else ctl_policy_rule sub id.

Definition ctl_contracts : Launch Request :=
  query ← (if bool_decide (subcommand a = "show"%string) then
             contract ← require (uuid_parse (positional_or 2 (args_get "contract" "" a) a)) "contracts show requires a contract identity";
             Launched (query_for QueryKind_ShowContract "" contract nil_uuid 0)
           else Launched (plain_query QueryKind_ListContracts));
  ask query (fun result => concat (print_contract <$> qr_contracts result) ++ [count_line (qr_contracts result)]).
Definition print_grants (result : QueryResultMessage) : list string :=
  concat (print_grant <$> qr_grants result) ++ [count_line (qr_grants result)].
Definition ctl_grants : Launch Request :=
  query ← (if bool_decide (subcommand a = "show"%string) then
             grant ← require (uuid_parse (positional_or 2 (args_get "grant" "" a) a)) "grants show requires a grant identity";
             Launched (query_for QueryKind_ShowGrant "" nil_uuid grant 0)
           else Launched (plain_query QueryKind_ListGrants));
  ask query print_grants.

(** [if (!capacity.empty()) message.capacity = CapacityUnits(get_u64("capacity").value());] *)
Definition capacity_arg (fallback : Z) : Launch Z :=
  if bool_decide (args_get "capacity" "" a = ""%string) then Launched fallback else must (args_get_u64 "capacity" a).
Definition ctl_propose : Launch Request :=
  let message := "propose requires --a, --endpoint, --b, and --endpoint-b"%string in
  cluster_a ← require (cluster_arg a "a") message;
  cluster_b ← require (cluster_arg a "b") message;
  endpoint_a ← require (endpoint_arg a "endpoint") message;
  endpoint_b ← require (endpoint_arg a "endpoint-b") message;
  capacity ← capacity_arg 0;
  lease ← (let text := args_get "lease" "" a in
           if bool_decide (text = ""%string) then Launched (120 * 1000000000)
           else or_exit "icfctl" 1 (fun s => cs (st_message s)) (duration_parse text));
  tell (mkAdmin nil_uuid AdminAction_AuthorizeContract None None None None cluster_a cluster_b endpoint_a endpoint_b nil_uuid nil_uuid
          "" "" 0 ClusterState_Unknown LinkState_Unknown capacity lease "").
Definition ctl_grant : Launch Request :=
  contract ← require (uuid_parse (args_get "contract" "" a)) "grant requires --contract <id>";
  capacity ← capacity_arg 0;
  tell (grant_admin AdminAction_IssueGrant contract nil_uuid capacity "").
Definition ctl_grant_action (action : AdminAction) : Launch Request :=
  grant ← require (uuid_parse (args_get "grant" "" a)) (cs command ++ " requires --grant <id>");
  tell (grant_admin action nil_uuid grant 0 "").

Definition expected_generation (name : string) : Launch (bool * Z) :=
  if args_has name a then generation ← must (args_get_u64 name a); Launched (true, generation) else Launched (false, 0).
Definition ctl_decide : Launch Request :=
  let message := "decide requires --src and --dst endpoint scopes"%string in
  source ← require (endpoint_arg a "src") message;
  target ← require (endpoint_arg a "dst") message;
  capacity ← capacity_arg 1;
  expect_source ← expected_generation "expect-src-generation";
  expect_target ← expected_generation "expect-dst-generation";
  ask (mkQueryMessage nil_uuid QueryKind_Decide "" "" source target nil_uuid nil_uuid "" "" capacity
         (bool_decide (args_get "allow-degraded" "false" a = "true"%string)) 0 expect_source.1 expect_source.2 expect_target.1
         expect_target.2 0)
      (fun result => match qr_decision result with Some decision => print_decision decision | None => [] end).

Definition trigger_option (trigger : string) : Z :=
  if bool_decide (trigger = "reincarnation"%string) then 1
  else if bool_decide (trigger = "withdrawal"%string) then 2
  else if bool_decide (trigger = "policy"%string) then 3
  else if bool_decide (trigger = "coordinator"%string) then 4
  else 0.
Definition ctl_fence_plan : Launch Request :=
  cluster ← require (cluster_arg a "cluster") "fence-plan requires --cluster <id>";
  ask (query_for QueryKind_FencePlan cluster nil_uuid nil_uuid (trigger_option (args_get "trigger" "manual" a)))
      (fun result => match qr_fence_plan result with Some plan => print_fence_plan plan | None => [] end).

Definition reason_arg : string := args_get "reason" "operator request" a.
Definition ctl_withdraw : Launch Request :=
  cluster ← require (cluster_arg a "cluster") (cs command ++ " requires --cluster <id>");
  tell (if bool_decide (command = "withdraw"%string)
        then cluster_admin AdminAction_WithdrawConsent cluster 0 ClusterState_Unknown reason_arg
        else cluster_admin AdminAction_ResolveConflict cluster (u64_or 0 "generation" a) ClusterState_Unknown reason_arg).

(** [static_cast<std::uint32_t>] *)
Definition limit_arg : Z := u64_or 64 "limit" a mod 2 ^ 32.
Definition ctl_records : Launch Request :=
  let accounting := bool_decide (command = "accounting"%string) in
  ask (query_for (if accounting then QueryKind_Accounting else QueryKind_ListAudit) "" nil_uuid nil_uuid limit_arg)
      (fun result => if accounting then (print_accounting <$> qr_accounting result) ++ [count_line (qr_accounting result)]
                     else (print_audit <$> qr_audit result) ++ [count_line (qr_audit result)]).
End Commands.

(** *** Commands that address an agent; the control channel is not keyed. *)
Definition cluster_state_arg (state : string) : option ClusterState :=
  if bool_decide (state = "active"%string) then Some ClusterState_Active
  else if bool_decide (state = "suspended"%string) then Some ClusterState_Suspended
  else if bool_decide (state = "draining"%string) then Some ClusterState_Draining
  else None.

Definition print_agent_status (result : QueryResultMessage) : list string :=
  match qr_status result with Some status => print_status status "cluster-agent" | None => [] end.
Definition print_agent_grant (result : QueryResultMessage) : list string :=
  concat (print_grant <$> qr_grants result) ++
  (if bool_decide (qr_detail result = ""%string) then [] else [fmt ["detail="; cs (qr_detail result)]%string]).

Definition ctl_agent_queries (a : Arguments) (command address : string) : option (Launch Request) :=
  let asks kind print := Some (ask address "" (query_for kind "" nil_uuid nil_uuid (limit_arg a)) print) in
  if bool_decide (command = "agent-status"%string) then asks QueryKind_Status print_agent_status
  else if bool_decide (command = "agent-grants"%string) then asks QueryKind_ListGrants print_grants
  else if bool_decide (command = "agent-audit"%string)
  then asks QueryKind_ListAudit (fun result => (print_agent_audit <$> qr_audit result) ++ [count_line (qr_audit result)])
  else None.

Definition ctl_agent_other (a : Arguments) (command address : string) : Launch Request :=
  if bool_decide (command = "agent-show"%string) then
    grant ← require (uuid_parse (args_get "grant" "" a)) "agent-show requires --grant <id>";
    ask address "" (query_for QueryKind_ShowGrant "" nil_uuid grant 0) print_agent_grant
  else if bool_decide (command = "agent-withdraw"%string)
  then tell address "" (cluster_admin AdminAction_WithdrawConsent "" 0 ClusterState_Unknown (reason_arg a))
  else if bool_decide (command = "agent-state"%string) then
    match cluster_state_arg (args_get "state" "" a) with
    | Some state => tell address "" (cluster_admin AdminAction_SetClusterState "" 0 state "")
    | None => usage_error "--state must be active, suspended, or draining"
    end
  else if bool_decide (command = "agent-bump"%string)
  then usage_error "agent-bump is not exposed over the wire; bump the generation by restarting the agent with --generation"
  else if bool_decide (command = "agent-fence"%string) then
    grant ← require (uuid_parse (args_get "grant" "" a)) "agent-fence requires --grant <id>";
    tell address "" (grant_admin AdminAction_FenceGrant nil_uuid grant 0 (reason_arg a))
  else usage_error ("unknown agent command '" ++ cs command ++ "'").

Definition ctl_agent (a : Arguments) (command : string) : Launch Request :=
  let address := args_get "agent" "" a in
  if bool_decide (address = ""%string) then usage_error (cs command ++ " requires --agent <host:port>")
  else default (ctl_agent_other a command address) (ctl_agent_queries a command address).

Definition ctl_unknown (command : string) : Launch Request :=
  Exited 1 (("icfctl: unknown command '" ++ cs command ++ "'")%string :: print_usage).

(** The commands in the order of [main]; each test is the name of the command. *)
Definition ctl_table (a : Arguments) (command address key : string) : list (list string * Launch Request) :=
  [(["status"], ctl_status address key);
   (["clusters"], ctl_clusters a address key);
   (["links"], ctl_links a address key);
   (["paths"], ctl_paths a address key);
   (["policies"], ctl_policies a address key);
   (["contracts"], ctl_contracts a address key);
   (["grants"], ctl_grants a address key);
   (["propose"], ctl_propose a address key);
   (["grant"], ctl_grant a address key);
   (["revalidate"], ctl_grant_action a command address key AdminAction_RevalidateGrant);
   (["fence"], ctl_grant_action a command address key AdminAction_FenceGrant);
   (["decide"], ctl_decide a address key);
   (["fence-plan"], ctl_fence_plan a address key);
   (["withdraw"; "resolve"], ctl_withdraw a command address key);
   (["accounting"; "audit"], ctl_records a command address key)]%string.
Definition ctl_dispatch (a : Arguments) (command : string) : Launch Request :=
  let address := args_get "connect" "" a in
  let key := args_get "shared_key" "" a in
  let agent_command := String.prefix "agent-" command in
  if bool_decide (address = ""%string) && negb agent_command then usage_error "--connect is required"
  else
    match list_find (fun entry => command ∈ entry.1) (ctl_table a command address key) with
    | Some (_, entry) => entry.2
    | None => if agent_command then ctl_agent a command else ctl_unknown command
    end.

(** [main] up to the request. *)
Definition ctl_command (argv : list string) : Launch Request :=
  a ← or_exit "icfctl" 1 (fun s => cs (st_message s)) (parse_arguments argv);
  match ar_positional a with
  | [] => Exited (if args_has "help" a then 0 else 1) print_usage
  | command :: _ =>
      if args_has "help" a then Exited 0 print_usage
      else if bool_decide (command = "version"%string) then Launched VersionRequest
      else ctl_dispatch a command
  end.

(** ** From a request to an exit code *)
(** How a run of the program ends: its exit code with the lines of the two streams, or an exception nothing catches. *)
Inductive Run := Finished (code : Z) (output errors : list string) | Terminated.

(** The network the tool sees: what connecting to an address answers, and the connection it gives. *)
Record CtlNet := mkCtlNet { cn_connect : string -> Z -> Result Z; cn_net : Net; cn_started_at : Z }.

Definition ctl_options (host : string) (port : Z) (key : string) : ClientOptions :=
  mkClientOptions host port PeerRole_Observer "" "" (str_bytes key) (5000 * 1000000) (10 * 1000000000) true.
Definition connect_client (fuel : nat) (net : CtlNet) (address key : string) : option (Result Client) :=
  match parse_endpoint address with
  | Err s => Some (Err s)
  | Throw => Some Throw
  | Val (host, port) => client_connect fuel (ctl_options host port key) (cn_connect net host port) (cn_started_at net) (cn_net net)
  end.

Definition query_with (request : string) (q : QueryMessage) : QueryMessage :=
  mkQueryMessage request (qm_kind q) (qm_cluster q) (qm_cluster_b q) (qm_endpoint q) (qm_endpoint_b q) (qm_contract q) (qm_grant q)
    (qm_edge q) (qm_policy_id q) (qm_capacity q) (qm_allow_degraded q) (qm_limit q) (qm_expect_source_generation q)
    (qm_source_generation q) (qm_expect_target_generation q) (qm_target_generation q) (qm_at q).
Definition admin_with (request : string) (m : AdminMessage) : AdminMessage :=
  mkAdmin request (am_action m) (am_cluster m) (am_link m) (am_path m) (am_policy m) (am_cluster_id m) (am_cluster_b m)
    (am_endpoint m) (am_endpoint_b m) (am_contract m) (am_grant m) (am_edge m) (am_policy_id m) (am_generation m)
    (am_cluster_state m) (am_link_state m) (am_capacity m) (am_lease_duration m) (am_reason m).

Definition new_request (rng : Rng) : string := (uuid_random rng).1.
Definition transport_failed (s : Status) : Run := Finished 2 (report (st_outcome s) (st_message s)) [].

(** A reply to a query, and to an administrative request, on the screen. *)
Definition query_answer (print : QueryResultMessage -> list string) (result : QueryResultMessage) : Run :=
  if negb (bool_decide (qr_outcome result = Outcome_Ok)) && negb (bool_decide (is_Some (qr_decision result)))
  then Finished (exit_code_for (qr_outcome result)) (report (qr_outcome result) (qr_detail result)) []
  else Finished (match qr_decision result with Some decision => exit_code_for (de_outcome decision) | None => 0 end) (print result) [].
Definition admin_answer (result : AdminResultMessage) : Run :=
  Finished (exit_code_for (ar_outcome result))
    (report (ar_outcome result) (ar_detail result) ++ [fmt ["view_digest="; digest_hex (ar_view_digest result)]%string]) [].

(** The common part of [run_query] and [run_admin]. *)
Definition run_request {A} (fuel : nat) (net : CtlNet) (address key : string) (exchange : CM A) (answer : A -> Run) : option Run :=
  client ← connect_client fuel net address key;
  match client with
  | Err s => Some (transport_failed s)
  | Throw => Some Terminated
  | Val client =>
      '(result, _) ← exchange client;
      Some (match result with Val a => answer a | Err s => transport_failed s | Throw => Terminated end)
  end.
Definition run_query (fuel : nat) (net : CtlNet) (rng : Rng) (address key : string) (q : QueryMessage)
    (print : QueryResultMessage -> list string) : option Run :=
  run_request fuel net address key (query fuel (query_with (new_request rng) q)) (query_answer print).
Definition run_admin (fuel : nat) (net : CtlNet) (rng : Rng) (address key : string) (message : AdminMessage) : option Run :=
  run_request fuel net address key (admin fuel (admin_with (new_request rng) message)) admin_answer.

Definition icfctl_main (fuel : nat) (net : CtlNet) (rng : Rng) (version : string) (argv : list string) : option Run :=
  match ctl_command argv with
  | Exited code errors => Some (Finished code [] errors)
  | Undefined => Some Terminated
  | Launched VersionRequest => Some (Finished 0 [("icfctl " ++ version)%string] [])
  | Launched (QueryRequest address key q print) => run_query fuel net rng address key q print
  | Launched (AdminRequest address key message) => run_admin fuel net rng address key message
  end.

(** ** Exit codes *)
(** What the peer answered: the decision when there is one, else the outcome of the reply. *)
Definition query_verdict (result : QueryResultMessage) : Outcome :=
  match qr_decision result with Some decision => de_outcome decision | None => qr_outcome result end.

Lemma exit_code_for_spec outcome :
  exit_code_for outcome = if bool_decide (outcome = Outcome_Ok) then 0 else if bool_decide (outcome = Outcome_DegradedAuthorized) then 3 else 4.
Proof. unfold exit_code_for. destruct (is_indeterminate_family outcome); repeat case_bool_decide; done. Qed.

Lemma query_answer_code print result :
  exists output, query_answer print result = Finished (exit_code_for (query_verdict result)) output [].
Proof.
  unfold query_answer, query_verdict. destruct (qr_decision result) as [d|].
  - rewrite (bool_decide_true (is_Some (Some d))) by eauto. rewrite andb_false_r. eauto.
  - rewrite (bool_decide_false (is_Some None)) by (by intros [? ?]). rewrite andb_true_r. case_bool_decide as Ho; cbn [negb]; [|eauto].
    rewrite Ho. eauto.
Qed.

(** A request either failed on the way, with code 2, or was answered. *)
Lemma run_request_inv {A} fuel net address key (exchange : CM A) answer code output errors :
  run_request fuel net address key exchange answer = Some (Finished code output errors) ->
  (code = 2 /\ exists s, output = report (st_outcome s) (st_message s)) \/
  exists client c' a, connect_client fuel net address key = Some (Val client) /\ exchange client = Some (Val a, c') /\
    answer a = Finished code output errors.
Proof.
  unfold run_request. destruct (connect_client fuel net address key) as [[client|s|]|] eqn:Ec; cbn [mbind option_bind]; [| |done..].
  - destruct (exchange client) as [[[a|s|] c']|] eqn:Ex; cbn [mbind option_bind]; [| |done..].
    + intros [= H]. right. by exists client, c', a.
    + intros [= <- <- <-]. left. split; [done|]. by exists s.
  - intros [= <- <- <-]. left. split; [done|]. by exists s.
Qed.

Lemma connect_client_acknowledged fuel net address key client :
  connect_client fuel net address key = Some (Val client) ->
  ct_verify_key client = str_bytes key /\ exists frame, received client frame /\ fh_type (fr_header frame) = MessageType_HelloAck.
Proof.
  unfold connect_client. destruct (parse_endpoint address) as [[host port]|s|]; [|done..]. intros H.
  apply client_connect_acknowledged in H as (Hk & frame & Hr & Ht & _); [|done]. split; [exact Hk|]. eauto.
Qed.

(** The reply on which a run of the tool reports. *)
Definition answered (fuel : nat) (net : CtlNet) (rng : Rng) (request : Request) (verdict : Outcome) : Prop :=
  match request with
  | VersionRequest => False
  | QueryRequest address key q _ =>
      exists client frame result, connect_client fuel net address key = Some (Val client) /\ ct_verify_key client = str_bytes key /\
        received client frame /\ fh_type (fr_header frame) = MessageType_QueryResult /\
        decode_reply decode_query_result (fr_payload frame) = Val result /\ qr_request result = new_request rng /\ verdict = query_verdict result
  | AdminRequest address key _ =>
      exists client frame result, connect_client fuel net address key = Some (Val client) /\ ct_verify_key client = str_bytes key /\
        received client frame /\ fh_type (fr_header frame) = MessageType_AdminResult /\
        decode_reply decode_admin_result (fr_payload frame) = Val result /\ ar_request result = new_request rng /\ verdict = ar_outcome result
  end.

Lemma request_codes fuel net rng request code output errors :
  match request with
  | VersionRequest => False
  | QueryRequest address key q print => run_query fuel net rng address key q print = Some (Finished code output errors)
  | AdminRequest address key m => run_admin fuel net rng address key m = Some (Finished code output errors)
  end ->
  (code = 2 /\ exists s, output = report (st_outcome s) (st_message s)) \/
  exists verdict, answered fuel net rng request verdict /\ code = exit_code_for verdict.
Proof.
  destruct request as [|address key q print|address key m]; [done|..]; intros H; apply run_request_inv in H as [H|H]; eauto; right;
    destruct H as (client & c' & result & Hc & Hx & Ha); pose proof (connect_client_acknowledged _ _ _ _ _ Hc) as [Hk _].
  - apply query_matches in Hx as (Hid & frame & Hr & Ht & Hd). exists (query_verdict result). split.
    + exists client, frame, result. auto 10.
    + destruct (query_answer_code print result) as (out & E). rewrite E in Ha. by injection Ha.
  - apply admin_matches in Hx as (Hid & frame & Hr & Ht & Hd). exists (ar_outcome result). split.
    + exists client, frame, result. auto 10.
    + unfold admin_answer in Ha. by injection Ha.
Qed.


(** ** What is sent *)
(** Whatever a step goes on with satisfies [P]; when it ends the program it does so with the code of a usage error. *)
Definition launch_ok {A} (P : A -> Prop) (l : Launch A) : Prop :=
  match l with Launched x => P x | Exited code _ => code = 1 | Undefined => True end.

Lemma launch_ok_bind {A B} (Q : A -> Prop) (P : B -> Prop) (l : Launch A) (f : A -> Launch B) :
  launch_ok Q l -> (forall x, Q x -> launch_ok P (f x)) -> launch_ok P (l ≫= f).
Proof. destruct l as [x|code errors|]; cbn; auto. Qed.
Lemma launch_ok_or_exit {A} (P : A -> Prop) show (r : Result A) : (forall x, r = Val x -> P x) -> launch_ok P (or_exit "icfctl" 1 show r).
Proof. destruct r; cbn; auto. Qed.

Lemma name_parse_id text id : name_parse IdTag text = Val id -> wf_id id.
Proof.
  intros H. assert (id = text) as ->; [|exact H]. unfold name_parse in H. destruct (str_bytes text); [done|].
  destruct (_ <? _); [done|]. destruct (_ && _); [done|]. destruct (existsb _ _); [done|]. by injection H.
Qed.
Lemma uuid_parse_loop_length text : forall written high u, uuid_parse_loop written high text = Val u -> wf_uuid u.
Proof.
  induction text as [|c text IH]; intros written high u H; cbn [uuid_parse_loop] in H.
  - destruct high; [done|]. destruct (Z.eqb_spec (zlen written) kUuidSize) as [E|]; [|done]. injection H as <-.
    unfold wf_uuid, slen. rewrite <- E. unfold zlen. by rewrite <- length_str_bytes, str_bytes_str.
  - case_bool_decide; [by eapply IH|]. destruct (hex_value c); [|done]. destruct high; [|by eapply IH].
    destruct (_ <=? _); [done|]. by eapply IH.
Qed.
Lemma uuid_parse_uuid text u : uuid_parse text = Val u -> wf_uuid u.
Proof. apply uuid_parse_loop_length. Qed.
Lemma duration_digits_nonneg text : forall digits m digits' m' rest,
  duration_digits digits m text = Val (digits', m', rest) -> 0 <= m -> 0 <= m'.
Proof.
  induction text as [|c text IH]; intros digits m digits' m' rest H Hm; cbn [duration_digits] in H; [by injection H as <- <- <-|].
  destruct (is_digit c) eqn:Ed; [|by injection H as <- <- <-]. unfold is_digit in Ed. bool_prop. unfold mul_u64, add_u64 in H.
  destruct (_ && _); [done|]. destruct (_ <? _); [done|]. apply IH in H; lia.
Qed.
Lemma unit_multiplier_pos unit k : unit_multiplier unit = Some k -> 0 < k.
Proof.
  unfold unit_multiplier. intros (x & Hx & ->)%fmap_Some. destruct x as [i x]. apply list_find_Some in Hx as (Hx & _ & _).
  apply list_elem_of_lookup_2 in Hx. unfold duration_units in Hx. set_unfold in Hx. destruct_or? Hx; subst; done.
Qed.
Lemma duration_parse_range text n : duration_parse text = Val n -> 0 <= n <= limits.kMaxDurationNanos.
Proof.
  unfold duration_parse. intros H. apply bind_Val in H as ([] & _ & H). apply bind_Val in H as ([[digits m] rest] & Hd & H).
  apply duration_digits_nonneg in Hd; [|done]. apply bind_Val in H as ([] & _ & H).
  destruct (unit_multiplier _) as [k|] eqn:Ek; [|done]. apply unit_multiplier_pos in Ek. unfold mul_u64 in H.
  destruct (_ && _); [done|]. destruct (Z.ltb_spec limits.kMaxDurationNanos (m * k)); [done|]. injection H as <-. nia.
Qed.

(** *** The hop list *)
(** The reference: the identities between the commas, in order; empty pieces are skipped. *)
Fixpoint parse_hops (pieces : list bytes) : Launch (list string) :=
  match pieces with
  | [] => Launched []
  | piece :: pieces =>
      if bool_decide (piece = []) then parse_hops pieces
      else
        hop ← or_exit "icfctl" 1 (fun _ => ("invalid hop '" ++ cs (bytes_str piece) ++ "'")%string) (name_parse IdTag (bytes_str piece));
        hops ← parse_hops pieces;
        Launched (hop :: hops)
  end.

Lemma bind_cons_hops (hop : string) hops (l : Launch (list string)) :
  (rest ← l; Launched ((hops ++ [hop]) ++ rest)) = (rest ← (rest ← l; Launched (hop :: rest)); Launched (hops ++ rest)).
Proof. destruct l as [rest|code errors|]; cbn; [|done..]. by rewrite <- app_assoc. Qed.

Lemma hop_loop_spec fuel text begin hops :
  (begin <= length text)%nat -> (length text - begin < fuel)%nat ->
  hop_loop fuel text begin hops =
    Some (rest ← parse_hops (split_on comma_char (drop begin text)); Launched (hops ++ rest)).
Proof.
  revert begin hops. induction fuel as [|fuel IH]; intros begin hops Hb Hf; [lia|].
  cbn [hop_loop]. rewrite (proj2 (Nat.ltb_ge _ _) Hb), split_on_find. unfold find_from. cbv zeta.
  destruct (list_find _ (drop begin text)) as [[i x]|] eqn:F; cbn [fmap option_fmap option_map fst parse_hops].
  - apply list_find_Some in F as (Hi & -> & _). apply lookup_lt_Some in Hi. rewrite length_drop in Hi.
    replace (begin + i - begin)%nat with i by lia. rewrite drop_drop.
    assert (Hnext : forall hops, hop_loop fuel text (S (begin + i)) hops =
              Some (rest ← parse_hops (split_on comma_char (drop (begin + S i) text)); Launched (hops ++ rest))).
    { intros hops'. rewrite IH by lia. by rewrite Nat.add_succ_r. }
    case_bool_decide; [apply Hnext|]. destruct (name_parse IdTag _) as [hop|s|]; [|done..].
    rewrite Hnext. cbn [or_exit mbind Launch_bind]. by rewrite bind_cons_hops.
  - case_bool_decide as Hd; [cbn; by rewrite app_nil_r|]. by destruct (name_parse IdTag _).
Qed.

Lemma hop_list_pieces text : hop_list text = parse_hops (split_on comma_char (str_bytes text)).
Proof.
  unfold hop_list. rewrite hop_loop_spec by (rewrite ?length_str_bytes; lia). rewrite drop_0. cbn [default].
  destruct (parse_hops _) as [hops|code errors|]; done.
Qed.

Lemma id_no_comma id : wf_id id -> comma_char ∉ str_bytes id.
Proof.
  intros (front & rest & Hs & _ & _ & Hf)%valid_name_spec Hin. rewrite Forall_forall in Hf. specialize (Hf _ Hin).
  destruct Hf as [Hf|Hf]; by vm_compute in Hf.
Qed.
Lemma id_nonempty id : wf_id id -> str_bytes id <> [].
Proof. intros (front & rest & Hs & _)%valid_name_spec. by rewrite Hs. Qed.

Lemma parse_hops_ids ids : Forall wf_id ids -> parse_hops (str_bytes <$> ids) = Launched ids.
Proof.
  induction 1 as [|id ids Hid _ IH]; [done|]. cbn [fmap list_fmap parse_hops].
  rewrite bool_decide_false by (by apply id_nonempty). rewrite bytes_str_bytes. rewrite Hid. cbn [or_exit mbind Launch_bind].
  change (list_fmap _ _ str_bytes ids) with (str_bytes <$> ids). by rewrite IH.
Qed.
Lemma join_pieces id ids :
  Forall wf_id (id :: ids) -> split_on comma_char (str_bytes (join (id :: ids) ",")) = str_bytes <$> (id :: ids).
Proof.
  unfold join. cbn [join_from Nat.ltb Nat.leb].
  enough (forall n id, (0 < n)%nat -> Forall wf_id (id :: ids) ->
            split_on comma_char (str_bytes id ++ str_bytes (join_from "," n ids)) = str_bytes <$> (id :: ids)) as H.
  { intros Hids. rewrite (str_bytes_app ""), str_bytes_app. apply (H 1%nat); [lia|done]. }
  clear id. induction ids as [|id' ids IH]; intros n id Hn [Hid Hids]%Forall_cons; cbn [join_from].
  - rewrite app_nil_r. by apply split_on_plain, id_no_comma.
  - rewrite (proj2 (Nat.ltb_lt _ _) Hn). rewrite !str_bytes_app. change (str_bytes ",") with [comma_char]. cbn [app].
    rewrite split_on_snoc by (by apply id_no_comma). rewrite IH by (done || lia). done.
Qed.

(** The hop list of "paths add": the loop ends for every text within one turn per byte and one more, and its result is
    that of the pieces between the commas taken in order; and a list of valid identities joined by commas, as the tool
    prints the hops of a path, is read back as that list. *)
Theorem hop_list_splits :
  (forall fuel text, (String.length text < fuel)%nat ->
     hop_loop fuel (str_bytes text) 0 [] = Some (parse_hops (split_on comma_char (str_bytes text)))) /\
  (forall ids, Forall wf_id ids -> hop_list (join ids ",") = Launched ids).
Proof.
  split.
  - intros fuel text Hf. rewrite hop_loop_spec by (rewrite ?length_str_bytes; lia). rewrite drop_0.
    by destruct (parse_hops _).
  - intros [|id ids] Hids; [done|]. rewrite hop_list_pieces, join_pieces by done. by apply parse_hops_ids.
Qed.

(** *** Requests *)
(** The numbers and free texts of a request that the tool takes from the command line as they are. *)
Definition link_limits (l : LinkRecord) : Prop := wf_cap (lk_capacity l).
Definition path_limits (p : PathRecord) : Prop := zlen (pa_hops p) <= limits.kMaxPathHops.
Definition policy_limits (p : PolicyRule) : Prop :=
  text_ok limits.kMaxNameLength (pr_id p) /\ wf_gen (pr_generation p) /\ wf_cap (pr_max_capacity p).
Definition admin_limits (m : AdminMessage) : Prop :=
  option_wf link_limits (am_link m) /\ option_wf path_limits (am_path m) /\ option_wf policy_limits (am_policy m) /\
  wf_text (am_policy_id m) /\ wf_gen (am_generation m) /\ wf_cap (am_capacity m) /\ wf_text (am_reason m).
Definition query_limits (q : QueryMessage) : Prop :=
  wf_cap (qm_capacity q) /\ qm_limit q <= limits.kMaxQueryResults /\ wf_gen (qm_source_generation q) /\ wf_gen (qm_target_generation q).

Definition request_ok (r : Request) : Prop :=
  match r with
  | VersionRequest => True
  | QueryRequest _ _ q _ => forall u, wf_uuid u -> query_limits q -> query_wf (query_with u q)
  | AdminRequest _ _ m => forall u, wf_uuid u -> admin_limits m -> admin_wf (admin_with u m)
  end.

Lemma wf_uuid_nil : wf_uuid nil_uuid.
Proof. done. Qed.
Lemma wf_optional_none : wf_optional_id "".
Proof. by left. Qed.
Lemma wf_optional_some id : wf_id id -> wf_optional_id id.
Proof. by right. Qed.
Lemma wf_text_none : wf_text "".
Proof. done. Qed.
Lemma admin_provenance_wf : provenance_wf admin_provenance.
Proof. done. Qed.
Lemma limit_arg_range a : 0 <= limit_arg a < 2 ^ 32.
Proof. apply Z.mod_pos_bound. lia. Qed.
Lemma trigger_option_range t : 0 <= trigger_option t < 2 ^ 32.
Proof. unfold trigger_option. repeat case_bool_decide; lia. Qed.

Lemma zero_u32 : 0 <= 0 < 2 ^ 32.
Proof. lia. Qed.

Create HintDb ctl.
#[export] Hint Resolve wf_uuid_nil wf_optional_none wf_optional_some wf_text_none admin_provenance_wf limit_arg_range trigger_option_range zero_u32 : ctl.

Ltac in_range :=
  first [done | unfold wf_counter, is_i64, i64_min, i64_max, limits.kMaxGeneration, limits.kMaxCapacity, limits.kMaxDurationNanos, limits.kMaxQueryResults in *; lia].

Lemma query_for_ok address key kind cluster contract grant limit print :
  wf_optional_id cluster -> wf_uuid contract -> wf_uuid grant -> 0 <= limit < 2 ^ 32 ->
  request_ok (QueryRequest address key (query_for kind cluster contract grant limit) print).
Proof.
  intros Hc Hk Hg Hl u Hu (_ & Hm & _). unfold query_wf, query_with, query_for. cbn -[Z.pow option_wf] in Hm |- *. split_and!; auto with ctl; in_range.
Qed.
Lemma plain_query_ok address key kind print : request_ok (QueryRequest address key (plain_query kind) print).
Proof. apply query_for_ok; auto with ctl. Qed.
Lemma topology_admin_ok address key action link path policy edge policy_id link_state :
  (option_wf link_limits link -> option_wf link_wf link) -> (option_wf path_limits path -> option_wf path_wf path) ->
  (option_wf policy_limits policy -> option_wf policy_wf policy) -> wf_optional_id edge ->
  request_ok (AdminRequest address key (topology_admin action link path policy edge policy_id link_state)).
Proof.
  intros Hl Hp Hr He u Hu (Hl' & Hp' & Hr' & Hi & _). unfold admin_wf, admin_with, topology_admin. cbn -[Z.pow option_wf] in *.
  split_and!; auto with ctl; in_range.
Qed.
Lemma grant_admin_ok address key action contract grant capacity reason :
  wf_uuid contract -> wf_uuid grant -> request_ok (AdminRequest address key (grant_admin action contract grant capacity reason)).
Proof.
  intros Hc Hg u Hu (_ & _ & _ & _ & _ & Hk & Hr). unfold admin_wf, admin_with, grant_admin. cbn -[Z.pow option_wf] in *.
  split_and!; auto with ctl; in_range.
Qed.
Lemma cluster_admin_ok address key action cluster generation state reason :
  wf_optional_id cluster -> request_ok (AdminRequest address key (cluster_admin action cluster generation state reason)).
Proof.
  intros Hc u Hu (_ & _ & _ & _ & Hg & _ & Hr). unfold admin_wf, admin_with, cluster_admin. cbn -[Z.pow option_wf] in *.
  split_and!; auto with ctl; in_range.
Qed.
#[export] Hint Resolve query_for_ok plain_query_ok grant_admin_ok cluster_admin_ok : ctl.

Lemma launch_ok_require {A} (P : A -> Prop) (r : Result A) message : (forall x, r = Val x -> P x) -> launch_ok P (require r message).
Proof. apply launch_ok_or_exit. Qed.
Lemma launch_ok_name text message : launch_ok wf_id (require (name_parse IdTag text) message).
Proof. apply launch_ok_require. intros x. apply name_parse_id. Qed.
Lemma name_arg_id a name id : name_arg a name = Val id -> wf_id id.
Proof. unfold name_arg. case_bool_decide; [done|]. apply name_parse_id. Qed.
Lemma launch_ok_name_arg a name message : launch_ok wf_id (require (name_arg a name) message).
Proof. apply launch_ok_require. intros x. apply name_arg_id. Qed.
Lemma launch_ok_uuid text message : launch_ok wf_uuid (require (uuid_parse text) message).
Proof. apply launch_ok_require. intros x. apply uuid_parse_uuid. Qed.
Lemma launch_ok_optional a name errors : launch_ok wf_optional_id (optional_arg a name errors).
Proof.
  unfold optional_arg. case_bool_decide; [by left|]. destruct (name_parse IdTag _) as [id|s|] eqn:E; [|done..]. right. by eapply name_parse_id.
Qed.
Lemma launch_ok_capacity a fallback : launch_ok (fun _ => True) (capacity_arg a fallback).
Proof. unfold capacity_arg. case_bool_decide; [done|]. by destruct (args_get_u64 _ _). Qed.
Lemma launch_ok_expected a name : launch_ok (fun _ => True) (expected_generation a name).
Proof. unfold expected_generation. destruct (args_has name a); [|done]. by destruct (args_get_u64 _ _). Qed.
Lemma parse_hops_ok pieces : launch_ok (Forall wf_id) (parse_hops pieces).
Proof.
  induction pieces as [|piece pieces IH]; cbn [parse_hops]; [constructor|]. case_bool_decide; [exact IH|].
  eapply launch_ok_bind; [apply launch_ok_or_exit; intros x; apply name_parse_id|]. intros hop Hhop.
  eapply launch_ok_bind; [exact IH|]. intros hops Hhops. by constructor.
Qed.
Lemma launch_ok_hops text : launch_ok (Forall wf_id) (hop_list text).
Proof. rewrite hop_list_pieces. apply parse_hops_ok. Qed.
Lemma launch_ok_lease text :
  launch_ok (fun lease => 0 <= lease <= limits.kMaxDurationNanos)
    (if bool_decide (text = ""%string) then Launched (120 * 1000000000) else or_exit "icfctl" 1 (fun s => cs (st_message s)) (duration_parse text)).
Proof.
  case_bool_decide; [cbn; unfold limits.kMaxDurationNanos; lia|]. apply launch_ok_or_exit. intros x. apply duration_parse_range.
Qed.
#[export] Hint Resolve launch_ok_name launch_ok_name_arg launch_ok_uuid launch_ok_optional launch_ok_capacity launch_ok_expected
  launch_ok_hops launch_ok_lease : ctl.

(** One step of a command: what it reads satisfies the lemma of the reader. *)
Ltac launch := repeat (eapply launch_ok_bind; [solve [eauto 1 with ctl]|]; intros).

Lemma ctl_clusters_ok a address key : launch_ok request_ok (ctl_clusters a address key).
Proof.
  unfold ctl_clusters. eapply (launch_ok_bind (fun q => forall print, request_ok (QueryRequest address key q print))); [|intros q Hq; apply Hq].
  case_bool_decide; [|intros print; auto with ctl]. eapply launch_ok_bind.
  - apply (launch_ok_require wf_id). intros x. destruct (cluster_arg a "cluster") as [id|s|] eqn:E; [|destruct (_ !! _); [apply name_parse_id|done]|done].
    intros [= <-]. by eapply name_arg_id.
  - intros id Hid print. cbn beta. auto with ctl.
Qed.
Lemma ctl_links_ok a address key : launch_ok request_ok (ctl_links a address key).
Proof.
  unfold ctl_links. cbv zeta. case_bool_decide; [apply plain_query_ok|]. launch. case_bool_decide.
  - unfold ctl_links_add. launch. destruct (link_kind_option _); [|done]. apply topology_admin_ok; auto with ctl; done.
  - destruct (negb _ && negb _); [done|]. apply topology_admin_ok; auto with ctl; done.
Qed.
Lemma ctl_paths_ok a address key : launch_ok request_ok (ctl_paths a address key).
Proof.
  unfold ctl_paths. cbv zeta. case_bool_decide; [apply plain_query_ok|]. launch. case_bool_decide.
  { apply topology_admin_ok; auto with ctl; done. }
  launch. case_bool_decide; [done|]. launch. apply topology_admin_ok; auto with ctl; done.
Qed.
Lemma ctl_policies_ok a address key : launch_ok request_ok (ctl_policies a address key).
Proof.
  unfold ctl_policies. cbv zeta. case_bool_decide; [apply plain_query_ok|]. case_bool_decide.
  { case_bool_decide; [done|]. apply topology_admin_ok; auto with ctl; done. }
  case_bool_decide as Hid; [done|]. destruct (negb _ && negb _); [done|]. unfold ctl_policy_rule. launch.
  apply topology_admin_ok; auto with ctl; try done. unfold option_wf, policy_limits, policy_wf. cbn -[Z.pow]. intros ([Hl Hu] & Hg & Hc).
  assert (0 < slen (positional_or 2 "" a)) by (destruct (positional_or 2 "" a); [done|]; unfold slen; cbn; lia).
  split_and!; auto with ctl; try in_range.
  split; [|done]. unfold limits.kMaxNameLength in Hl. unfold kMaxText, limits.kMaxStringField. lia.
Qed.
Lemma ctl_shows_ok a address key : launch_ok request_ok (ctl_contracts a address key) /\ launch_ok request_ok (ctl_grants a address key).
Proof.
  split; unfold ctl_contracts, ctl_grants;
    (eapply (launch_ok_bind (fun q => forall print, request_ok (QueryRequest address key q print))); [|intros q Hq; apply Hq]);
    (case_bool_decide; [|intros print; auto with ctl]; launch; intros print; apply query_for_ok; auto with ctl).
Qed.
Lemma ctl_propose_ok a address key : launch_ok request_ok (ctl_propose a address key).
Proof.
  unfold ctl_propose. cbv zeta. launch. intros u Hu (_ & _ & _ & _ & _ & Hcap & _). unfold admin_wf, admin_with. cbn -[Z.pow option_wf] in *.
  split_and!; auto with ctl; try in_range; by destruct_and?.
Qed.
Lemma ctl_decide_ok a address key : launch_ok request_ok (ctl_decide a address key).
Proof.
  unfold ctl_decide. cbv zeta. launch. intros u Hu (Hcap & _ & Hs & Ht). unfold query_wf, query_with. cbn -[Z.pow option_wf] in *.
  split_and!; auto with ctl; in_range.
Qed.
Lemma ctl_agent_ok a command : launch_ok request_ok (ctl_agent a command).
Proof.
  unfold ctl_agent. cbv zeta. case_bool_decide; [done|]. unfold ctl_agent_queries. cbv zeta.
  do 3 (case_bool_decide; [cbn [default]; apply query_for_ok; auto with ctl|]). cbn [default]. unfold ctl_agent_other.
  case_bool_decide; [launch; apply query_for_ok; auto with ctl|]. case_bool_decide; [apply cluster_admin_ok; auto with ctl|].
  case_bool_decide; [destruct (cluster_state_arg _); [apply cluster_admin_ok; auto with ctl|done]|]. case_bool_decide; [done|].
  case_bool_decide; [|done]. launch. apply grant_admin_ok; auto with ctl.
Qed.

Lemma ctl_table_ok a command address key : Forall (fun entry => launch_ok request_ok entry.2) (ctl_table a command address key).
Proof.
  unfold ctl_table. repeat first [apply Forall_nil_2 | apply Forall_cons_2]; cbn [snd];
    try solve [auto using ctl_clusters_ok, ctl_links_ok, ctl_paths_ok, ctl_policies_ok, ctl_propose_ok, ctl_decide_ok | apply ctl_shows_ok].
  - apply plain_query_ok.
  - unfold ctl_grant. launch. apply grant_admin_ok; auto with ctl.
  - unfold ctl_grant_action. launch. apply grant_admin_ok; auto with ctl.
  - unfold ctl_grant_action. launch. apply grant_admin_ok; auto with ctl.
  - unfold ctl_fence_plan. launch. apply query_for_ok; auto with ctl.
  - unfold ctl_withdraw. launch. unfold tell. case_bool_decide; apply cluster_admin_ok; auto with ctl.
  - unfold ctl_records. cbv zeta. apply query_for_ok; auto with ctl.
Qed.
Lemma ctl_dispatch_ok a command : launch_ok request_ok (ctl_dispatch a command).
Proof.
  unfold ctl_dispatch. cbv zeta. destruct (bool_decide _ && negb _); [done|].
  destruct (list_find _ _) as [[i entry]|] eqn:F.
  - apply list_find_Some in F as (He & _ & _). exact (Forall_lookup_1 _ _ _ _ (ctl_table_ok _ _ _ _) He).
  - destruct (String.prefix _ _); [apply ctl_agent_ok|done].
Qed.

Lemma ctl_command_ok argv :
  match ctl_command argv with
  | Launched r => request_ok r
  | Exited code errors => code = 1 \/ (code = 0 /\ errors = print_usage)
  | Undefined => True
  end.
Proof.
  unfold ctl_command. destruct (parse_arguments argv) as [a|s|]; [|by left|done]. cbn [or_exit mbind Launch_bind].
  destruct (ar_positional a) as [|command rest].
  { destruct (args_has "help" a); [by right|by left]. }
  destruct (args_has "help" a); [by right|]. case_bool_decide; [done|].
  pose proof (ctl_dispatch_ok a command) as Hd. destruct (ctl_dispatch a command); [exact Hd|by left|done].
Qed.

Lemma new_request_uuid rng : wf_uuid (new_request rng).
Proof.
  unfold new_request, uuid_random. pose proof (length_fill_random 16 rng) as Hl. destruct (fill_random 16 rng) as [raw r'].
  cbn [fst] in *. unfold wf_uuid, slen. rewrite length_bytes_str. unfold set_version. by rewrite !length_insert, Hl.
Qed.

