(* ===== verification/CtlRun.v ===== *)
(** * The command-line tool and the coordinator

    Runs of icfctl whose peer is the coordinator of Coordinator.v: the bytes the tool sends reach the coordinator's
    event loop, and what the coordinator queues reaches the tool. *)
From S2P Require Import Prelude Status Utf8 Bytes Ids Types Registry Hash Time Canonical Decision Engine Fencing Wal Frame Messages Connection.
From S2P Require Import Files DurableStore Effects EventLoop Coordinator Handlers Admin Reachability Reactor Sample StoreSample FabricRun System Serve.
From S2P Require Import ConfigFile Rng Log AppSupport Sockets Client Ctl.

(** ** Keys *)
Lemma channel_keys_named config : channel_keys config !! ""%string = None.
Proof.
  unfold channel_keys. assert (H : forall entries (keys : gmap string string), keys !! ""%string = None ->
    foldl (fun keys (entry : string * string) => match after_prefix "domain_key." entry.1 with
                           | Some domain => <[domain := entry.2]> keys
                           | None => keys
                           end) keys entries !! ""%string = None); [|by apply H].
  induction entries as [|[key value] entries IH]; intros keys Hk; [done|]. cbn [foldl fst snd]. apply IH.
  destruct (after_prefix "domain_key." key) as [domain|] eqn:E; [|done]. rewrite lookup_insert_ne; [done|].
  intros ->. unfold after_prefix in E. destruct (_ && _) eqn:Ep; [|done]. bool_prop. injection E as E.
  apply (f_equal String.length) in E. rewrite length_bytes_str, length_drop, length_str_bytes in E. unfold slen in *. cbn in *. lia.
Qed.

Lemma client_hello_wf started_at host port key : is_i64 started_at -> hello_wf (client_hello started_at (ctl_options host port key)).
Proof. intros H. unfold hello_wf, client_hello. cbn -[Z.pow client_incarnation]. split_and!; auto with ctl; in_range. Qed.

(** What an observer's handshake without a key leaves on its connection: at most one frame more, unsigned. *)
Definition queues_unsigned (before after : Connection) : Prop :=
  nc_sign_outbound (cn_config after) = false /\
  (cn_queue after = cn_queue before \/
   exists header payload, fh_flags header = 0 /\ cn_queue after = cn_queue before ++ [frame_bytes header payload []]).

Lemma queue_frame_unsigned type payload cn :
  nc_sign_outbound (cn_config cn) = false -> queues_unsigned cn (queue_frame type payload false cn).2.
Proof.
  intros Hs. unfold queue_frame. cbv zeta. cbn [andb].
  destruct (cn_closed cn); [by split; auto|]. destruct (_ <? _); [by split; auto|]. destruct (_ <=? _); [by split; auto|].
  destruct (append_frame [] _ payload []) as [encoded|e|] eqn:E; [|by split; auto..].
  destruct (_ <? _); [by split; auto|]. split; [done|]. right. cbn [cn_queue snd].
  unfold append_frame in E. apply bind_Val in E as ([] & _ & E). apply bind_Val in E as ([] & _ & E).
  apply bind_Val in E as (total & _ & E). injection E as <-. eexists _, payload. split; [|reflexivity]. done.
Qed.

Lemma send_to_unsigned id message c cn :
  connection_for c id = Some cn -> nc_sign_outbound (cn_config cn) = false ->
  exists cn', connection_for (send_to id message c).2 id = Some cn' /\ queues_unsigned cn cn'.
Proof.
  intros Hc Hs. unfold send_to. rewrite Hc, Hs. pose proof (queue_frame_unsigned (message_type message) (encode_message message) cn Hs) as H.
  destruct (queue_frame _ _ _ cn) as [r cn']. exists cn'. split; [|exact H]. unfold connection_for in *.
  destruct (id =? kVirtualConnection); [done|]. cbn. by rewrite lookup_insert_eq.
Qed.

Lemma observer_hello_unsigned config c id cn frame started_at host port key :
  cf_domain_keys (c_config c) = channel_keys config -> connection_for c id = Some cn -> nc_sign_outbound (cn_config cn) = false ->
  is_i64 started_at -> fr_payload frame = encode_hello (client_hello started_at (ctl_options host port key)) ->
  exists cn', connection_for (on_hello id frame c).2 id = Some cn' /\ queues_unsigned cn cn'.
Proof.
  intros Hk Hc Hs Ht Hp. unfold on_hello, Handlers.with_message. rewrite Hp.
  rewrite (whole_roundtrip (dec := decode_hello)) by (by apply client_hello_wf).
  unfold mbind at 1, ST_bind at 1, gets at 1. cbv iota beta zeta.
  change (Z.min (he_protocol_max _) _ <? Z.max (he_protocol_min _) _) with false. cbv iota.
  unfold mbind at 1, ST_bind at 1, gets at 1. cbv iota beta.
  assert (Hkey : channel_key_for c (he_domain (client_hello started_at (ctl_options host port key))) = []).
  { unfold channel_key_for. cbn [he_domain client_hello ctl_options co_domain]. by rewrite Hk, channel_keys_named. }
  rewrite Hkey. rewrite (bool_decide_true ([] = [])) by done.
  unfold mbind at 1, ST_bind at 1, modify at 1. cbv iota beta. rewrite Hc.
  change (bool_decide (he_role _ = PeerRole_Observer)) with true. cbv iota.
  unfold random_uuid, now, ask. do 3 (unfold mbind at 1, ST_bind at 1; cbv iota beta). unfold modify. cbv iota beta.
  apply send_to_unsigned; [|exact Hs]. exact Hc.
Qed.


(** ** Runs against a coordinator *)
(** A coordinator with the tool's connection, and the bytes it queues for what it receives on it. *)
Definition tool_port : Z := 3.
Definition with_tool (c : Coordinator) : Coordinator :=
  set_connections c (<[tool_port := connection_new tool_port config_default]> (c_connections c)).
Definition serve_bytes (data : bytes) (c : Coordinator) : bytes * Coordinator :=
  match drain_connection tool_port (receive_at handle_message tool_port data c) with
  | (Val reply, c) => (reply, c)
  | (_, c) => ([], c)
  end.

Definition tool_rng : Rng := rng_new 42.
Definition request_bytes (request : Launch Request) : bytes :=
  match request with
  | Launched (QueryRequest _ _ q _) => plain_frame (MQuery (query_with (new_request tool_rng) q))
  | Launched (AdminRequest _ _ m) => plain_frame (MAdmin (admin_with (new_request tool_rng) m))
  | _ => []
  end.
Definition hello_bytes : bytes := plain_frame (MHello (client_hello 0 (ctl_options "127.0.0.1" 7000 ""))).

(** A run of the tool: the coordinator answers the handshake, then the request. *)
Definition tool_net (ack reply : bytes) : CtlNet :=
  mkCtlNet (fun _ _ => Val 3)
    (mkNet (fun k => 100000000 * Z.of_nat k) (fun _ => inr (mkRevents true true false)) (fun _ => Errno0) (fun _ => inr 4096)
       (fun k => inr (if (k =? 0)%nat then ack else reply)) 0 0 0 0) 0.
Definition tool_run (argv : list string) (c : Coordinator) : option Run * Coordinator :=
  let argv := "--connect"%string :: "127.0.0.1:7000"%string :: argv in
  let '(ack, c) := serve_bytes hello_bytes (with_tool c) in
  let '(reply, c) := serve_bytes (request_bytes (ctl_command argv)) c in
  (icfctl_main 40 (tool_net ack reply) tool_rng "1.0.0" argv, c).

Definition fresh : Coordinator := coordinator_on 1 ∅.
Definition add_policy : list string := ["policies"; "allow"; "r1"; "--owner"; "dom-a"; "--a"; "a"]%string.

(** The operator sees what it set: on a coordinator that has just started on an empty directory, a rule added with
    icfctl is acknowledged with OK and code 0 and is what a second run lists, while a decision about endpoints nobody
    registered is reported as NOT_FOUND with code 4; all through the bytes of the protocol, both ways. *)
Theorem operator_sees_what_it_set :
  let added := tool_run add_policy fresh in
  added.1 = Some (Finished 0 ["outcome=OK"; "detail=";
    "view_digest=7aa56a6ac719e9fcb8618703ac54ab3772dae5fd27bdb66c90660c234b817984"]%string []) /\
  (tool_run ["policies"]%string added.2).1 = Some (Finished 0
    ["policy=r1 owner=dom-a effect=allow a=a b=* endpoint_a=* endpoint_b=* generation=1 degraded=not-permitted"; "count=1"]%string []) /\
  (tool_run ["policies"]%string fresh).1 = Some (Finished 0 ["count=0"%string] []) /\
  exists lines, (tool_run ["decide"; "--src"; "a1"; "--dst"; "b1"]%string fresh).1 = Some (Finished 4
    ("outcome=NOT_FOUND" :: "detail=source endpoint is not registered" :: lines)%string []).
Proof. vm_compute. split_and!; [reflexivity..|]. eexists. reflexivity. Qed.

(** With a key the tool does not get past the handshake. *)
Example keyed_run_fails :
  (tool_run ["status"; "--shared-key"; "secret"]%string fresh).1 = Some (Finished 2
    ["outcome=INVALID"; "detail=received an unsigned frame on a channel that requires signing"]%string []).
Proof. vm_compute. reflexivity. Qed.

(** A malformed number ends the program with an exception for the commands that use [value()], and is replaced by the
    default for the others. *)
Example malformed_capacity :
  (tool_run ["grant"; "--contract"; "00000000-0000-4000-8000-000000000000"; "--capacity"; "many"]%string fresh).1 = Some Terminated /\
  match ctl_command ["links"; "add"; "e1"; "--connect"; "h:1"; "--a"; "a1"; "--b"; "b1"; "--capacity"; "many"]%string with
  | Launched (AdminRequest _ _ m) => lk_capacity <$> am_link m = Some 1000
  | _ => False
  end.
Proof. vm_compute. split; reflexivity. Qed.

(** A subcommand of "paths" that does not exist adds a path. *)
Example unknown_paths_subcommand :
  match ctl_command ["paths"; "remove"; "p1"; "--connect"; "h:1"; "--a"; "a1"; "--b"; "b1"; "--hops"; "e1,e2"]%string with
  | Launched (AdminRequest _ _ m) => am_action m = AdminAction_UpsertPath /\ pa_hops <$> am_path m = Some ["e1"; "e2"]%string
  | _ => False
  end.
Proof. vm_compute. split; reflexivity. Qed.

(** The identity of a rule is free text and is printed as it is: a rule whose identity contains a newline adds a line to
    the listing. *)
Definition newline_text : string := bytes_str [newline].
Definition forged_rule : string := ("r1" ++ newline_text ++ "policy=r2 owner=dom-b effect=allow")%string.
Definition printed (r : option Run) : string :=
  match r with Some (Finished _ output _) => String.concat newline_text output | _ => "" end.
Example listing_is_forged :
  let c := (tool_run ["policies"; "refuse"; forged_rule; "--owner"; "dom-a"]%string fresh).2 in
  take 2 (bytes_str <$> lines_of (str_bytes (printed (tool_run ["policies"]%string c).1))) =
    ["policy=r1"; "policy=r2 owner=dom-b effect=allow owner=dom-a effect=refuse a=* b=* endpoint_a=* endpoint_b=* generation=1 degraded=not-permitted"]%string.
Proof. vm_compute. reflexivity. Qed.


(** ** The daemon serves the tool

    The listener reports a peer, then the peer's handshake and its request arrive, then nothing happens. *)
Definition quiet_item : PollItem := mkPollItem false false false [] [] [].
Definition data_item (data : bytes) : PollItem := mkPollItem true true false [Val data] (replicate 8 (fun n => Val n)) [].
Definition quiet_poll : PollAnswer := mkPollAnswer (Val 0) [mkListenerPoll false false []] (fun _ => quiet_item).
Definition tool_polls (request : bytes) (k : nat) (timeout : Z) : PollAnswer :=
  match k with
  | 0%nat => mkPollAnswer (Val 1) [mkListenerPoll true false [Val tt; fail Outcome_Busy "no pending connection"]] (fun _ => quiet_item)
  | 1%nat => mkPollAnswer (Val 1) [mkListenerPoll false false []] (fun _ => data_item hello_bytes)
  | 2%nat => mkPollAnswer (Val 1) [mkListenerPoll false false []] (fun _ => data_item request)
  | _ => quiet_poll
  end.
Definition fresh_start : Result Coordinator * Disk := start store_io fabric_config (run_world 1) ∅.
Definition fresh_daemon : CoordinatorDaemon := daemon_of 512 fresh.
Definition served (n : nat) : CoordinatorDaemon :=
  daemon_turns 0 n (tool_polls (request_bytes (ctl_command ("--connect" :: "h:1" :: add_policy)%string))) fresh_daemon.

(** The peer is adopted, gets its session, and its rule is in the registry; the tick stays scheduled all along. *)
Example daemon_serves_tool :
  size (c_connections (cd_coordinator (served 1))) = 1%nat /\ size (c_sessions (cd_coordinator (served 1))) = 0%nat /\
  size (c_sessions (cd_coordinator (served 2))) = 1%nat /\
  (pr_id <$> values (rg_policies (c_registry (cd_coordinator (served 3))))) = ["r1"]%string /\
  length (lp_timers (cd_loop (served 5))) = 1%nat /\
  (fst <$> serve 0 9 (fun k _ => if (k =? 5)%nat then mkPollAnswer (fail Outcome_Internal "poll failed") [] (fun _ => quiet_item) else quiet_poll)
     fresh_daemon 0) = Some (fail Outcome_Internal "poll failed").
Proof. vm_compute. split_and!; reflexivity. Qed.

Lemma fresh_starts : fresh_start = (Val fresh, fresh_start.2).
Proof.
  assert (H : is_val fresh_start.1 = true) by (vm_compute; reflexivity). unfold fresh, coordinator_on. fold fresh_start.
  destruct fresh_start as [[c|e|] d]; [reflexivity|discriminate H..].
Qed.
