(* ===== verification/Programs.v ===== *)
(** * The example programs

    Models examples/inspect_authority/main.cpp and examples/downstream/main.cpp, which build a small registry with the
    library and ask the decision engine: with the definitions of this development in the place of the library, they
    compute what they print. The clock of the first one is an argument. *)
From S2P Require Import Prelude Status Utf8 Bytes Ids Types Registry Hash Time Canonical Terms Policy Decision Engine Effects ConfigFile Rng Log AppSupport Ctl.

(** [Provenance{}] with source and verification set. *)
Definition verified (source : EvidenceSource) : Provenance :=
  mkProvenance source VerificationState_Verified 0 0 nil_uuid zero_digest.
(** [X::parse(literal).value()] *)
Definition known (tag : NameTag) (text : string) : string := value_or "" (name_parse tag text).
(** [(void)registry.put_...(record)] *)
Definition put_ignored (put : Registry -> Result Registry) (r : Registry) : Registry := value_or r (put r).

(** [Uuid::random] several times. *)
Fixpoint random_uuids (n : nat) (rng : Rng) : list string :=
  match n with
  | O => []
  | S n => let '(u, rng) := uuid_random rng in u :: random_uuids n rng
  end.

(** ** inspect_authority *)
Definition make_cluster (id domain : string) (generation policy_generation : Z) (incarnation : string) (endpoints : list EndpointRecord) :
    ClusterRecord :=
  mkCluster (known IdTag id) (known IdTag domain) incarnation generation policy_generation ClusterState_Active false 0 endpoints zero_digest
    false None 0 (verified EvidenceSource_AdminConfigured) 0.
Definition make_endpoint (id cluster scope : string) (capacity policy_generation : Z) : EndpointRecord :=
  mkEndpoint (known IdTag id) (known IdTag cluster) (known ScopeNameTag scope) capacity 0 policy_generation EndpointState_Active true false
    (verified EvidenceSource_AdminConfigured).
Definition make_link (id a b : string) (kind : LinkKind) : LinkRecord :=
  mkLink (known IdTag id) a b kind LinkState_Up 1000 0 0 0 (verified EvidenceSource_AdminConfigured).
Definition make_path (id : string) (link : LinkRecord) : PathRecord :=
  mkPath (known IdTag id) (lk_a link) (lk_b link) [lk_id link] 0 PathState_Unknown 0 (verified EvidenceSource_DerivedFromTopology) false.
Definition allow_rule (id owner : string) (generation : Z) (a b : ClusterRecord) : PolicyRule :=
  mkPolicy id (known IdTag owner) (cl_id a) (cl_id b) "" "" generation true false 0 0 (verified EvidenceSource_AdminConfigured).

Definition first_endpoint (c : ClusterRecord) : string := from_option ep_id ""%string (head (cl_endpoints c)).
Definition party_of (c : ClusterRecord) : PartyRef := mkParty (cl_id c) (first_endpoint c) (cl_domain c).
Definition terms_of (a b : ClusterRecord) (capacity lease at_time : Z) : ContractTerms :=
  mkTerms (party_of a, party_of b) capacity lease (cl_incarnation a, cl_incarnation b) (cl_generation a, cl_generation b)
    (cl_policy_generation a, cl_policy_generation b) at_time.
Definition example_consent (c : ClusterRecord) (agent_term at_time : Z) (digest reason : string) : ConsentRecord :=
  mkConsent (cl_id c) (first_endpoint c) (cl_incarnation c) (cl_generation c) (cl_policy_generation c) agent_term digest
    ConsentDecision_Accepted at_time nil_uuid TransportAuthenticity_None reason.
Definition contract_of (id : string) (a b : ClusterRecord) (capacity lease at_time : Z) (terms : Z * Z) (reason : string) : ContractRecord :=
  let digest := terms_digest (terms_of a b capacity lease at_time) in
  mkContract id (party_of a, party_of b) capacity lease digest ContractState_Consented
    (Some (example_consent a terms.1 at_time digest reason), Some (example_consent b terms.2 at_time digest reason)) at_time at_time 0
    (verified EvidenceSource_DerivedFromTopology).
Definition grant_of (id coordinator attempt : string) (contract : ContractRecord) (a b : ClusterRecord) (term capacity at_time lease : Z) :
    GrantRecord :=
  mkGrant id (ct_id contract) (ct_terms_digest contract) term coordinator attempt (cl_incarnation a, cl_incarnation b)
    (cl_generation a, cl_generation b) (cl_policy_generation a, cl_policy_generation b) capacity at_time (timestamp_plus at_time lease)
    GrantState_Active (true, true) (zero_digest, zero_digest) 0 "" 0 (verified EvidenceSource_DerivedFromTopology).

Definition five_minutes : Z := 5 * 60 * 1000000000.
Definition one_minute : Z := 60 * 1000000000.

(** [printf("%-34s -> %s (%s)\n", ...)] *)
Definition pad (width : nat) (text : string) : string := (text ++ bytes_str (repeat (byte_of 32) (width - String.length text)))%string.
Definition report_decision (label : string) (decision : Decision) : string :=
  fmt [pad 34 label; " -> "; outcome_to_string (de_outcome decision); " ("; cs (de_detail decision); ")"]%string.

(** [main], with the generations of the two rules as an argument. *)
Definition inspect_with (generations : Z * Z) (at_time : Z) : list string :=
  match random_uuids 8 (rng_new 0x5EED) with
  | [incarnation_a; incarnation_b; contract_id; grant_id; coordinator; attempt; fenced_incarnation; new_incarnation] =>
      let a := make_cluster "cluster-alpha" "domain-north" 4 2 incarnation_a [make_endpoint "alpha-scope" "cluster-alpha" "/accelerator/a" 1000 2] in
      let b := make_cluster "cluster-beta" "domain-south" 7 3 incarnation_b [make_endpoint "beta-scope" "cluster-beta" "/accelerator/b" 1000 3] in
      let link := make_link "edge-alpha-beta" (known IdTag "alpha-scope") (known IdTag "beta-scope") LinkKind_SyntheticModel in
      let r := put_ignored (put_link link) (put_ignored (put_cluster b) (put_ignored (put_cluster a) empty_registry)) in
      let r := recompute_path_states (put_ignored (put_path (make_path "path-alpha-beta" link)) r) in
      let r := put_ignored (put_policy (allow_rule "allow-domain-north" "domain-north" generations.1 a b)) r in
      let r := put_ignored (put_policy (allow_rule "allow-domain-south" "domain-south" generations.2 a b)) r in
      let contract := contract_of contract_id a b 500 five_minutes at_time (11, 22) "example consent" in
      let grant := grant_of grant_id coordinator attempt contract a b 3 400 at_time five_minutes in
      let r := put_ignored (put_grant grant) (put_ignored (put_contract contract) r) in
      let view := mkView 3 coordinator at_time in
      let query capacity expect := mkQuery (first_endpoint a) (first_endpoint b) capacity at_time false expect (if expect then 3 else 0) false 0 in
      let degraded := mkLink (lk_id link) (lk_a link) (lk_b link) (lk_kind link) LinkState_Degraded (lk_capacity link) (lk_reserved link)
                        (lk_latency_micros link) (lk_revision link) (lk_provenance link) in
      let r2 := recompute_path_states (put_ignored (put_link degraded) r) in
      let plan := plan_fence r2 FenceTrigger_ClusterReincarnation (cl_id b) fenced_incarnation (cl_incarnation b) 8 3 in
      let reincarnated := mkCluster (cl_id b) (cl_domain b) new_incarnation 8 (cl_policy_generation b) (cl_state b) (cl_consent_withdrawn b)
                            (cl_last_seen b) (cl_endpoints b) (cl_content_digest b) (cl_generation_conflict b) (cl_conflicting_generation b)
                            (cl_revision b) (cl_provenance b) (cl_incarnation_changes b) in
      let r3 := put_ignored (put_cluster reincarnated) r2 in
      [report_decision "authorized pair" (decide r (query 100 false) view);
       report_decision "capacity above the grant" (decide r (query 900 false) view);
       report_decision "caller expects generation 3" (decide r (query 100 true) view);
       report_decision "degraded link" (decide r2 (query 100 false) view);
       fmt ["fence plan for cluster-beta: "; num (zlen (fp_actions plan)); " action(s)"];
       report_decision "after the peer reincarnated" (decide r3 (query 100 false) view)]%string
  | _ => []
  end.
(** The program gives both rules the generation 1. *)
Definition inspect_authority : Z -> list string := inspect_with (1, 1).

(** The example does not show what it announces: its rules carry the policy generation 1 while the clusters are at 2 and
    3, so the engine answers STALE to the pair that is labelled authorized, and to every other question that gets as
    far as the policies. *)
Theorem example_is_stale :
  inspect_authority 1800000000000000000 =
    ["authorized pair                    -> STALE (matching policy rules belong to a superseded policy generation)";
     "capacity above the grant           -> STALE (matching policy rules belong to a superseded policy generation)";
     "caller expects generation 3        -> STALE (the source cluster generation does not match the caller's expectation)";
     "degraded link                      -> STALE (matching policy rules belong to a superseded policy generation)";
     "fence plan for cluster-beta: 2 action(s)";
     "after the peer reincarnated        -> STALE (matching policy rules belong to a superseded policy generation)"]%string.
Proof. vm_compute. reflexivity. Qed.

(** ** downstream *)
(** One [expect]: the messages of the checks that fail. *)
Definition expect (condition : bool) (what : string) : list string :=
  if condition then [] else [("consumer: FAILED: " ++ what)%string].
(** [expect(registry.put_...(record).is_ok(), what)] *)
Definition put_expected (put : Registry -> Result Registry) (what : string) (state : Registry * list string) : Registry * list string :=
  (put_ignored put state.1, state.2 ++ expect (is_val (put state.1)) what).

Definition cluster_with_endpoint (cluster_id domain endpoint_id : string) (generation policy_generation : Z) (incarnation : string) :
    ClusterRecord :=
  make_cluster cluster_id domain generation policy_generation incarnation
    [make_endpoint endpoint_id cluster_id ("/" ++ endpoint_id) 1000 policy_generation].

(** The exit code, the lines of the standard output and those of the error stream. *)
Definition downstream_main (version : string) : Z * list string * list string :=
  match random_uuids 6 (rng_new 20260101) with
  | [incarnation_a; incarnation_b; coordinator; contract_id; grant_id; attempt] =>
      let a := cluster_with_endpoint "downstream-a" "domain-north" "downstream-a-scope" 3 1 incarnation_a in
      let b := cluster_with_endpoint "downstream-b" "domain-south" "downstream-b-scope" 4 1 incarnation_b in
      let s := put_expected (put_cluster a) "cluster a registers" (empty_registry, []) in
      let s := put_expected (put_cluster b) "cluster b registers" s in
      let link := make_link "downstream-edge" (first_endpoint a) (first_endpoint b) LinkKind_LoopbackTcp in
      let s := put_expected (put_link link) "link registers" s in
      let s := put_expected (put_path (make_path "downstream-path" link)) "path registers" s in
      let s := (recompute_path_states s.1, s.2) in
      let s := put_expected (put_policy (allow_rule "downstream-allow-domain-north" "domain-north" 1 a b)) "policy rule registers" s in
      let s := put_expected (put_policy (allow_rule "downstream-allow-domain-south" "domain-south" 1 a b)) "policy rule registers" s in
      let at_time := 1800000000000000000 in
      let contract := contract_of contract_id a b 100 one_minute at_time (1, 2) "" in
      let s := put_expected (put_contract contract) "contract registers" s in
      let grant := grant_of grant_id coordinator attempt contract a b 7 100 at_time one_minute in
      let s := put_expected (put_grant grant) "grant registers" s in
      let view := mkView 7 coordinator at_time in
      let query := mkQuery (first_endpoint a) (first_endpoint b) 10 at_time false false 0 false 0 in
      let decision := decide s.1 query view in
      let failures := s.2 ++ expect (bool_decide (de_outcome decision = Outcome_Ok)) "the pair is authorized" ++
        expect (bool_decide (de_grant decision = gr_id grant)) "the decision names the committed grant" ++
        expect (bool_decide ((de_authorities decision).1 = "domain-north"%string)) "the first authority is reported" ++
        expect (bool_decide ((de_authorities decision).2 = "domain-south"%string)) "the second authority is reported" in
      let output :=
        [fmt ["consumer: linked against Inter-Cluster Fabric "; version; " (protocol "; num limits.kProtocolVersionMin; "..";
              num limits.kProtocolVersionMax; ")"];
         fmt ["consumer: decision outcome="; outcome_to_string (de_outcome decision); " detail="; cs (de_detail decision)]]%string in
      if negb (bool_decide (failures = [])) then (1, output, failures ++ [fmt ["consumer: "; num (zlen failures); " check(s) failed"]%string])
      else (0, output ++ ["consumer: all checks passed"%string], [])
  | _ => (0, [], [])
  end.

(** The programs that come with the library: the package consumer passes all its checks and exits with 0; and the
    example, once its rules carry the generations of the clusters their owners govern, gives the answers its comments
    announce: authorized, over capacity, stale expectation, degraded path refused, two actions to fence, stale consent
    after the peer came back as a new incarnation. *)
Theorem programs_answer_as_announced :
  (downstream_main "1.0.0").1 = (0,
    ["consumer: linked against Inter-Cluster Fabric 1.0.0 (protocol 1..1)";
     "consumer: decision outcome=OK detail=connectivity is authorized by both authority domains"; "consumer: all checks passed"]%string) /\
  inspect_with (2, 3) 1800000000000000000 =
    ["authorized pair                    -> OK (connectivity is authorized by both authority domains)";
     "capacity above the grant           -> CAPACITY_EXCEEDED (the requested capacity exceeds the granted capacity)";
     "caller expects generation 3        -> STALE (the source cluster generation does not match the caller's expectation)";
     "degraded link                      -> UNAUTHORIZED (only a degraded path exists and degraded connectivity is not permitted for this pair)";
     "fence plan for cluster-beta: 2 action(s)";
     "after the peer reincarnated        -> STALE (a consent was issued by a superseded cluster incarnation)"]%string.
Proof. vm_compute. split; reflexivity. Qed.
