(* ===== verification/Directories.v ===== *)
(** * Directories

    Models the rest of src/store/file_util.cpp (its POSIX branch): [ensure_directory], which creates a directory and the
    missing ones above it, [remove_file] and [flush_path]. The calls [mkdir] and [stat] are the operating system's: they
    are the operations of a class, with what POSIX documents of them as its laws, and a small file system is an
    instance. *)
From S2P Require Import Prelude Status Utf8 Bytes Files.

(** ** The code *)
(** How [mkdir] ends: 0, [EEXIST], or another error. *)
Inductive Mkdir := MkdirDone | MkdirExists | MkdirFailed.
#[export] Instance Mkdir_eq_dec : EqDecision Mkdir.
Proof. solve_decision. Defined.

Class DirectoryOps (S : Type) := {
  mkdir : string -> S -> Mkdir * S;
  is_directory : S -> string -> bool;
}.

(** [path.substr(0, path.find_last_of('/'))] when the separator is there and not the first character. *)
Fixpoint before_last_slash (path : string) : option string :=
  match path with
  | EmptyString => None
  | String c rest =>
      match before_last_slash rest with
      | Some p => Some (String c p)
      | None => if bool_decide (c = "/"%char) then Some EmptyString else None
      end
  end.
Definition parent_path (path : string) : option string :=
  match before_last_slash path with
  | Some EmptyString => None
  | other => other
  end.

Section ensure.
Context {S : Type} `{DirectoryOps S}.

(** [None] when the fuel does not suffice. *)
Fixpoint ensure_directory (fuel : nat) (path : string) (s : S) : option (Result unit * S) :=
  match fuel with
  | O => None
  | Datatypes.S fuel =>
      if bool_decide (path = ""%string) then Some (fail Outcome_Invalid "directory path is empty", s)
      else
        match mkdir path s with
        | (MkdirDone, s) => Some (Val tt, s)
        | (MkdirExists, s) =>
            if is_directory s path then Some (Val tt, s)
            else Some (fail Outcome_AlreadyExists ("path exists and is not a directory: " ++ path), s)
        | (MkdirFailed, s) =>
            match parent_path path with
            | None => Some (to_status "cannot create directory" path, s)
            | Some parent =>
                match ensure_directory fuel parent s with
                | Some (Val _, s) =>
                    match mkdir path s with
                    | (MkdirDone, s) => Some (Val tt, s)
                    | (_, s) => Some (to_status "cannot create directory" path, s)
                    end
                | other => other
                end
            end
        end
  end.
Definition enough (path : string) : nat := Datatypes.S (String.length path).
End ensure.

Definition remove_file (unlinked : bool) (path : string) : ST Disk unit := fun d =>
  if negb (file_exists d path) then (Val tt, d)
  else if negb unlinked then (to_status "cannot remove file" path, d)
  else (Val tt, delete path d).

(** [fopen] with [rb+] and [fsync] succeed. *)
Definition flush_path (opened synced : bool) (path : string) : Result unit :=
  if negb opened then to_status "cannot open file to flush" path
  else if negb synced then to_status "flush failed" path
  else Val tt.

(** ** Termination *)
Lemma before_last_slash_app path p : before_last_slash path = Some p -> exists rest, path = (p ++ String "/" rest)%string.
Proof.
  revert p. induction path as [|c path IH]; intros p Hp; [done|]. cbn in Hp.
  destruct (before_last_slash path) as [q|].
  - injection Hp as <-. destruct (IH q eq_refl) as [rest ->]. by exists rest.
  - case_bool_decide; [|done]. injection Hp as <-. subst c. by exists path.
Qed.
Lemma parent_path_app path p : parent_path path = Some p -> p <> ""%string /\ exists rest, path = (p ++ String "/" rest)%string.
Proof.
  unfold parent_path. destruct (before_last_slash path) as [[|c q]|] eqn:E; [done| |done].
  intros [= <-]. split; [done|]. by apply before_last_slash_app.
Qed.
Lemma string_length_app (a b : string) : String.length (a ++ b) = (String.length a + String.length b)%nat.
Proof. induction a as [|c a IH]; [done|]. change (S (String.length (a ++ b)) = S (String.length a + String.length b)). by rewrite IH. Qed.
Lemma parent_path_shorter path p : parent_path path = Some p -> (String.length p < String.length path)%nat.
Proof. intros [_ [rest ->]]%parent_path_app. rewrite string_length_app. cbn. lia. Qed.

Section termination.
Context {S : Type} `{DirectoryOps S}.
Lemma ensure_directory_total fuel path s :
  (String.length path < fuel)%nat -> exists r s', ensure_directory fuel path s = Some (r, s').
Proof.
  revert path s. induction fuel as [|fuel IH]; intros path s Hf; [lia|]. cbn [ensure_directory].
  case_bool_decide; [eauto|]. destruct (mkdir path s) as [[] s1]; [eauto|destruct (is_directory s1 path); eauto|].
  destruct (parent_path path) as [parent|] eqn:E; [|eauto]. apply parent_path_shorter in E.
  destruct (IH parent s1 ltac:(lia)) as (r & s2 & ->). destruct r; [|eauto..]. destruct (mkdir path s2) as [[] s3]; eauto.
Qed.
End termination.

(** ** What POSIX says of the calls

    A plain path does not end in a separator and neither do the paths that are left when its last components are cut off;
    [occupied] means that the name stands for a file of any kind. *)
Fixpoint plain (fuel : nat) (path : string) : bool :=
  match fuel with
  | O => false
  | Datatypes.S fuel =>
      negb (bool_decide (path = ""%string)) && negb (bool_decide (last (str_bytes path) = Some "/"%char)) &&
      match parent_path path with Some p => plain fuel p | None => true end
  end.
Definition plain_path (path : string) : bool := plain (enough path) path.

Class DirectoryLaws (S : Type) `{DirectoryOps S} := {
  occupied : S -> string -> bool;
  mkdir_done : forall p s s', mkdir p s = (MkdirDone, s') -> is_directory s' p = true;
  mkdir_keeps : forall p s q, is_directory s q = true -> is_directory (mkdir p s).2 q = true;
  mkdir_no_effect : forall p s a s', mkdir p s = (a, s') -> a <> MkdirDone -> s' = s;
  mkdir_only : forall p s q, plain_path p = true -> plain_path q = true -> q <> p -> occupied (mkdir p s).2 q = occupied s q;
  mkdir_creates : forall p s, plain_path p = true -> occupied s p = false ->
    (match parent_path p with Some d => is_directory s d = true | None => True end) -> (mkdir p s).1 = MkdirDone;
  mkdir_exists : forall p s, plain_path p = true -> occupied s p = true ->
    (match parent_path p with Some d => is_directory s d = true | None => True end) -> (mkdir p s).1 = MkdirExists;
  mkdir_missing : forall p s d, plain_path p = true -> parent_path p = Some d -> is_directory s d = false -> (mkdir p s).1 = MkdirFailed;
}.

(** ** Correctness *)
Definition above (path parent : string) : Prop := parent_path path = Some parent.
Lemma plain_fuel n m path : (String.length path < n)%nat -> (String.length path < m)%nat -> plain n path = plain m path.
Proof.
  revert m path. induction n as [|n IH]; intros [|m] path Hn Hm; [lia..|]. cbn [plain]. f_equal.
  destruct (parent_path path) as [p|] eqn:E; [|done]. apply parent_path_shorter in E. apply IH; lia.
Qed.
Lemma plain_parent path p : plain_path path = true -> parent_path path = Some p -> plain_path p = true.
Proof.
  unfold plain_path, enough. intros Hp E. cbn [plain] in Hp. rewrite E in Hp. apply andb_true_iff in Hp as [_ Hp].
  rewrite <- Hp. apply parent_path_shorter in E. apply plain_fuel; lia.
Qed.
Lemma plain_nonempty path : plain_path path = true -> path <> ""%string.
Proof. intros H ->. discriminate H. Qed.

Section correctness.
Context {S : Type} `{DirectoryLaws S}.

(** Whatever is in the way of the path is a directory, and lies in one. *)
Definition unobstructed (s : S) (path : string) : Prop :=
  forall q, rtc above path q -> occupied s q = true ->
    is_directory s q = true /\ (forall d, parent_path q = Some d -> is_directory s d = true).

Lemma ensure_directory_sound fuel path s s' :
  ensure_directory fuel path s = Some (Val tt, s') -> is_directory s' path = true.
Proof.
  revert path s. destruct fuel as [|fuel]; intros path s He; [done|]. cbn [ensure_directory] in He.
  case_bool_decide; [done|]. destruct (mkdir path s) as [[] s1] eqn:E; [injection He as <-; by eapply mkdir_done| |].
  - destruct (is_directory s1 path) eqn:Ed; [|done]. by injection He as <-.
  - destruct (parent_path path) as [parent|]; [|done]. destruct (ensure_directory fuel parent s1) as [[[[]| |] s2]|]; [|done..].
    destruct (mkdir path s2) as [[] s3] eqn:E2; [|done..]. injection He as <-. by eapply mkdir_done.
Qed.
Lemma ensure_directory_keeps fuel path s r s' q :
  ensure_directory fuel path s = Some (r, s') -> is_directory s q = true -> is_directory s' q = true.
Proof.
  revert path s r s'. induction fuel as [|fuel IH]; intros path s r s' He Hq; [done|]. cbn [ensure_directory] in He.
  case_bool_decide; [by injection He as _ <-|]. pose proof (mkdir_keeps path s q Hq) as Hk.
  destruct (mkdir path s) as [[] s1]; [by injection He as _ <-|destruct (is_directory s1 path); by injection He as _ <-|].
  destruct (parent_path path) as [parent|]; [|by injection He as _ <-].
  destruct (ensure_directory fuel parent s1) as [[r2 s2]|] eqn:Ep; [|done].
  specialize (IH _ _ _ _ Ep Hk). destruct r2 as [[]| |]; [|by injection He as _ <-..].
  pose proof (mkdir_keeps path s2 q IH) as Hk2. destruct (mkdir path s2) as [[] s3]; by injection He as _ <-.
Qed.
Lemma ensure_directory_only fuel path s r s' q :
  plain_path path = true -> plain_path q = true -> (String.length path < String.length q)%nat ->
  ensure_directory fuel path s = Some (r, s') -> occupied s' q = occupied s q.
Proof.
  revert path s r s'. induction fuel as [|fuel IH]; intros path s r s' Hp Hq Hl He; [done|]. cbn [ensure_directory] in He.
  assert (Hm : forall s, occupied (mkdir path s).2 q = occupied s q) by (intros; apply mkdir_only; [done..|intros ->; lia]).
  case_bool_decide; [by injection He as _ <-|]. pose proof (Hm s) as Hk.
  destruct (mkdir path s) as [[] s1]; [by injection He as _ <-|destruct (is_directory s1 path); by injection He as _ <-|].
  destruct (parent_path path) as [parent|] eqn:E; [|by injection He as _ <-].
  pose proof (parent_path_shorter _ _ E). destruct (ensure_directory fuel parent s1) as [[r2 s2]|] eqn:Ep; [|done].
  pose proof (IH _ _ _ _ (plain_parent _ _ Hp E) Hq ltac:(lia) Ep) as Hs. cbn in Hk.
  destruct r2 as [[]| |]; [|injection He as _ <-; congruence..].
  pose proof (Hm s2) as Hk2. destruct (mkdir path s2) as [[] s3]; injection He as _ <-; cbn in Hk2; congruence.
Qed.
Lemma ensure_directory_complete fuel path s :
  (String.length path < fuel)%nat -> plain_path path = true ->
  unobstructed s path ->
  exists s', ensure_directory fuel path s = Some (Val tt, s').
Proof.
  revert path s. induction fuel as [|fuel IH]; intros path s Hf Hp Hfree; [lia|]. cbn [ensure_directory].
  rewrite bool_decide_eq_false_2 by (by apply plain_nonempty). destruct (occupied s path) eqn:Ho.
  - assert (Hx : (mkdir path s).1 = MkdirExists).
    { apply mkdir_exists; [done..|]. destruct (parent_path path) as [d|] eqn:E; [|done]. by apply (Hfree path (rtc_refl _ _) Ho). }
    destruct (mkdir path s) as [a s1] eqn:Em. cbn in Hx. subst a. apply mkdir_no_effect in Em as ->; [|done].
    rewrite (proj1 (Hfree path (rtc_refl _ _) Ho)). eauto.
  - destruct (parent_path path) as [d|] eqn:E.
    + destruct (is_directory s d) eqn:Ed.
      * pose proof (mkdir_creates path s Hp Ho) as Hc. rewrite E in Hc. specialize (Hc Ed).
        destruct (mkdir path s) as [a s1]. cbn in Hc. subst a. eauto.
      * pose proof (mkdir_missing path s d Hp E Ed) as Hm. destruct (mkdir path s) as [a s1] eqn:Em. cbn in Hm. subst a.
        apply mkdir_no_effect in Em as ->; [|done]. pose proof (parent_path_shorter _ _ E).
        destruct (IH d s) as [s2 Hs2]; [lia|by eapply plain_parent| |].
        { intros q Hq. apply Hfree. by eapply rtc_l. }
        rewrite Hs2. pose proof (mkdir_creates path s2 Hp) as Hc. rewrite E in Hc.
        rewrite (ensure_directory_only _ _ _ _ _ path (plain_parent _ _ Hp E) Hp ltac:(lia) Hs2) in Hc.
        specialize (Hc Ho (ensure_directory_sound _ _ _ _ Hs2)). destruct (mkdir path s2) as [a s3]. cbn in Hc. subst a. eauto.
    + pose proof (mkdir_creates path s Hp Ho) as Hc. rewrite E in Hc. specialize (Hc I).
      destruct (mkdir path s) as [a s1]. cbn in Hc. subst a. eauto.
Qed.
End correctness.


(** ** A file system

    The names in use, each a directory ([true]) or not; separators at the end of a path do not matter. *)
Abbreviation Tree := (gmap string bool).
Fixpoint strip_slashes (path : string) : string :=
  match path with
  | EmptyString => EmptyString
  | String c rest =>
      match strip_slashes rest with
      | EmptyString => if bool_decide (c = "/"%char) then EmptyString else String c EmptyString
      | rest => String c rest
      end
  end.
Definition in_directory (t : Tree) (name : string) : bool :=
  match parent_path name with Some d => bool_decide (t !! strip_slashes d = Some true) | None => true end.
Definition tree_mkdir (path : string) (t : Tree) : Mkdir * Tree :=
  let name := strip_slashes path in
  if in_directory t name
  then match t !! name with Some _ => (MkdirExists, t) | None => (MkdirDone, <[name := true]> t) end
  else (MkdirFailed, t).
#[export] Instance tree_ops : DirectoryOps Tree := {
  mkdir := tree_mkdir;
  is_directory t path := bool_decide (t !! strip_slashes path = Some true);
}.

(** With a separator at the end the new directory and its parents are created, but the call reports an error: the last
    [mkdir] finds the directory that the recursion has just made; the same call succeeds when it is repeated. Without the
    separator, or when the parent exists, it succeeds at once. *)
Theorem trailing_slash_fails :
  let ensured path (t : Tree) := (fun '(r, t) => (r, map_to_list t)) <$> ensure_directory (enough path) path t in
  let both := [("store/a", true); ("store", true)]%string in
  ensured "store/a/"%string ∅ = Some (to_status "cannot create directory" "store/a/", both) /\
  ensured "store/a/"%string (list_to_map both) = Some (Val tt, both) /\
  ensured "store/a"%string ∅ = Some (Val tt, both) /\
  ensured "store/"%string ∅ = Some (Val tt, [("store", true)]%string) /\
  ensured "file/a"%string (list_to_map [("file", false)]%string) =
    Some (fail Outcome_AlreadyExists "path exists and is not a directory: file", [("file", false)]%string).
Proof. vm_compute. split_and!; reflexivity. Qed.

Lemma strip_slashes_plain path : plain_path path = true -> strip_slashes path = path.
Proof.
  unfold plain_path, enough. cbn [plain]. intros [[_ Hl%negb_true_iff%bool_decide_eq_false]%andb_true_iff _]%andb_true_iff.
  revert Hl. induction path as [|c path IH]; intros Hl; [done|]. cbn [strip_slashes]. destruct path as [|c' path].
  - cbn. case_bool_decide; [subst c; by destruct Hl|done].
  - rewrite IH; [done|exact Hl].
Qed.
Lemma tree_parent p (t : Tree) :
  plain_path p = true ->
  in_directory t (strip_slashes p) = true <->
  (match parent_path p with Some d => is_directory t d = true | None => True end).
Proof. intros Hp. unfold in_directory. rewrite (strip_slashes_plain p Hp). by destruct (parent_path p). Qed.
#[export] Program Instance tree_laws : DirectoryLaws Tree := { occupied t path := bool_decide (is_Some (t !! strip_slashes path)) }.
Next Obligation.
  intros p t t' E. cbn in *. unfold tree_mkdir in E. destruct (in_directory _ _); [|done].
  destruct (t !! strip_slashes p); [done|]. injection E as <-. by rewrite bool_decide_eq_true, lookup_insert_eq.
Qed.
Next Obligation.
  intros p t q. cbn. unfold tree_mkdir. rewrite !bool_decide_eq_true. intros Hq. destruct (in_directory _ _); [|done].
  destruct (t !! strip_slashes p) eqn:E; [done|]. cbn. rewrite lookup_insert_ne; congruence.
Qed.
Next Obligation.
  intros p t a t' E Ha. cbn in E. unfold tree_mkdir in E. destruct (in_directory _ _); [|by injection E].
  destruct (t !! strip_slashes p); [by injection E|]. injection E as <- _. done.
Qed.
Next Obligation.
  intros p t q Hp Hq Hne. cbn. unfold tree_mkdir. rewrite !strip_slashes_plain by done. destruct (in_directory _ _); [|done].
  destruct (t !! p) eqn:E; [done|]. cbn. by rewrite lookup_insert_ne by done.
Qed.
Next Obligation.
  intros p t Hp Hn Hd. cbn in *. apply (tree_parent p t Hp) in Hd. unfold tree_mkdir. rewrite Hd.
  apply bool_decide_eq_false, eq_None_not_Some in Hn. by rewrite Hn.
Qed.
Next Obligation.
  intros p t Hp Hn Hd. cbn in *. apply (tree_parent p t Hp) in Hd. unfold tree_mkdir. rewrite Hd.
  apply bool_decide_eq_true in Hn as [x Hx]. by rewrite Hx.
Qed.
Next Obligation.
  intros p t d Hp Hpar Hd. cbn in *. unfold tree_mkdir, in_directory. rewrite (strip_slashes_plain p Hp), Hpar, Hd. done.
Qed.


(** A removed file is gone and every other file stays; a file that cannot be removed stays, and it is an error. *)
Lemma remove_file_spec unlinked path d :
  (forall q, q <> path -> (remove_file unlinked path d).2 !! q = d !! q) /\
  ((remove_file unlinked path d).1 = Val tt <-> file_exists (remove_file unlinked path d).2 path = false).
Proof.
  unfold remove_file, file_exists. destruct (d !! path) as [c|] eqn:E; cbn.
  - destruct unlinked; cbn; split.
    + intros q Hq. by rewrite lookup_delete_ne.
    + by rewrite lookup_delete_eq.
    + done.
    + rewrite E. cbn. split; discriminate.
  - split; [done|]. by rewrite E.
Qed.
