(* ===== verification/Handles.v ===== *)
(** * Ownership of the socket handles

    Models the special members of [Socket] and [TcpListener] (src/net/socket.cpp): construction from a handle, moving, closing
    and destruction, and the calls that set options. The objects of a program are named by numbers; a run is any sequence
    of the operations that the compiler accepts (an object is used while it lives, and moves keep the type). *)
From S2P Require Import Prelude Status Utf8 Sockets.

Definition kInvalidSocket : Z := -1.

Inductive Object :=
  | OSocket (handle : Z)
  | OListener (handle port : Z).
#[export] Instance Object_eq_dec : EqDecision Object.
Proof. solve_decision. Defined.
Definition handle_of (o : Object) : Z := match o with OSocket handle => handle | OListener handle _ => handle end.
Definition valid_object (o : Object) : bool := negb (handle_of o =? kInvalidSocket).
(** What a move or [close] leaves. *)
Definition emptied (o : Object) : Object :=
  match o with OSocket _ => OSocket kInvalidSocket | OListener _ _ => OListener kInvalidSocket 0 end.
Definition same_type (o o' : Object) : bool :=
  match o, o' with OSocket _, OSocket _ => true | OListener _ _, OListener _ _ => true | _, _ => false end.

(** The objects, the descriptors that the process has open, and the descriptors handed out and passed to [::close], the
    latest first. *)
Record Process := mkProcess { ps_objects : gmap nat Object; ps_open : gset Z; ps_opened : list Z; ps_closed : list Z }.
Definition process_start : Process := mkProcess ∅ ∅ [] [].
Definition with_object (v : nat) (o : Object) (p : Process) : Process :=
  mkProcess (<[v := o]> (ps_objects p)) (ps_open p) (ps_opened p) (ps_closed p).
Definition close_handle (handle : Z) (p : Process) : Process :=
  if handle =? kInvalidSocket then p
  else mkProcess (ps_objects p) (ps_open p ∖ {[handle]}) (ps_opened p) (handle :: ps_closed p).

Inductive Operation :=
  | ODefault (v : nat) (o : Object)                (** [Socket s;] or [TcpListener l;] *)
  | OAdopt (v : nat) (o : Object)                  (** the handle of [::socket] or [::accept] is put into an object *)
  | OMoveConstruct (v w : nat)
  | OMoveAssign (v w : nat)
  | OClose (v : nat)
  | ODestroy (v : nat).

Definition close_object (v : nat) (o : Object) (p : Process) : Process := with_object v (emptied o) (close_handle (handle_of o) p).

(** [None] for an operation that does not compile, uses an object outside its life, or a handle that the system would not
    hand out. *)
Definition operate_on (op : Operation) (p : Process) : option Process :=
  match op with
  | ODefault v o =>
      match ps_objects p !! v with
      | None => Some (with_object v (emptied o) p)
      | Some _ => None
      end
  | OAdopt v o =>
      match ps_objects p !! v with
      | None =>
          if valid_object o && bool_decide (handle_of o ∉ ps_open p)
          then Some (mkProcess (<[v := o]> (ps_objects p)) ({[handle_of o]} ∪ ps_open p) (handle_of o :: ps_opened p) (ps_closed p))
          else None
      | Some _ => None
      end
  | OMoveConstruct v w =>
      match ps_objects p !! v, ps_objects p !! w with
      | None, Some other => Some (with_object w (emptied other) (with_object v other p))
      | _, _ => None
      end
  | OMoveAssign v w =>
      match ps_objects p !! v, ps_objects p !! w with
      | Some this, Some other =>
          if negb (same_type this other) then None
          else if negb (v =? w)%nat then Some (with_object w (emptied other) (with_object v other (close_object v this p)))
          else Some p
      | _, _ => None
      end
  | OClose v => o ← ps_objects p !! v; Some (close_object v o p)
  | ODestroy v =>
      o ← ps_objects p !! v;
      let p := close_object v o p in
      Some (mkProcess (delete v (ps_objects p)) (ps_open p) (ps_opened p) (ps_closed p))
  end.
Fixpoint operations (ops : list Operation) (p : Process) : option Process :=
  match ops with
  | [] => Some p
  | op :: ops => p ← operate_on op p; operations ops p
  end.

(** Options of a socket; the argument is the answer of [setsockopt]. *)
Definition set_socket_option (what : string) (o : Object) (answer : Call unit) : Result unit :=
  if negb (valid_object o) then fail Outcome_Invalid "socket is closed"
  else checked ("setsockopt(" ++ what ++ ")") answer.
Definition set_no_delay : Object -> Call unit -> Result unit := set_socket_option "TCP_NODELAY".
Definition set_keep_alive : Object -> Call unit -> Result unit := set_socket_option "SO_KEEPALIVE".
Definition set_reuse_address : Object -> Call unit -> Result unit := set_socket_option "SO_REUSEADDR".
(** The port of [getsockname], and the texts of [getnameinfo] on the answer of [getpeername]. *)
Inductive SocketName := NameV4 (port : Z) | NameV6 (port : Z) | NameOther.
Definition local_port (answer : option SocketName) : Z :=
  match answer with Some (NameV4 port) | Some (NameV6 port) => port | _ => 0 end.
Definition peer_endpoint (answer : option (string * string)) : string :=
  match answer with Some (host, service) => (host ++ ":" ++ service)%string | None => "" end.

(** ** Every open handle has exactly one owner *)
Definition holds (p : Process) (v : nat) (h : Z) : Prop := exists o, ps_objects p !! v = Some o /\ handle_of o = h /\ h <> kInvalidSocket.
Record owned (p : Process) : Prop := mkOwned {
  ow_open : forall h, h ∈ ps_open p <-> exists v, holds p v h;
  ow_unique : forall v w h, holds p v h -> holds p w h -> v = w;
  ow_balance : ps_opened p ≡ₚ ps_closed p ++ elements (ps_open p);
}.

Lemma holds_with_object v o p x h :
  holds (with_object v o p) x h <-> (x = v /\ handle_of o = h /\ h <> kInvalidSocket) \/ (x <> v /\ holds p x h).
Proof.
  unfold holds. cbn. destruct (decide (x = v)) as [->|Hne].
  - rewrite lookup_insert_eq. naive_solver.
  - rewrite lookup_insert_ne by done. naive_solver.
Qed.
Lemma holds_emptied v o p x h : holds (with_object v (emptied o) p) x h <-> x <> v /\ holds p x h.
Proof. rewrite holds_with_object. assert (handle_of (emptied o) = kInvalidSocket) by (by destruct o). naive_solver. Qed.
Lemma holds_object p v o : ps_objects p !! v = Some o -> valid_object o = true -> holds p v (handle_of o).
Proof. intros Ho Hv%negb_true_iff%Z.eqb_neq. by exists o. Qed.
Lemma holds_close_handle h p x h' : holds (close_handle h p) x h' <-> holds p x h'.
Proof. unfold close_handle. by destruct (h =? kInvalidSocket). Qed.

(** Only what the objects hold matters. *)
Lemma owned_same p p' :
  owned p -> (forall v h, holds p' v h <-> holds p v h) -> ps_open p' = ps_open p -> ps_opened p' = ps_opened p -> ps_closed p' = ps_closed p ->
  owned p'.
Proof.
  intros [Ho Hu Hb] Hh Eo Ep Ec. split.
  - intros h. rewrite Eo, Ho. by setoid_rewrite Hh.
  - intros v w h. rewrite !Hh. apply Hu.
  - by rewrite Eo, Ep, Ec.
Qed.
Lemma owned_close p v o : owned p -> ps_objects p !! v = Some o -> owned (close_object v o p).
Proof.
  intros Hp Hv. unfold close_object, close_handle. destruct (Z.eqb_spec (handle_of o) kInvalidSocket) as [E|E].
  - apply (owned_same p); [done| |done..]. intros x h. rewrite holds_emptied. split; [naive_solver|]. intros H. split; [|done].
    intros ->. destruct H as (o' & Ho' & He & Hn). congruence.
  - assert (Hh : holds p v (handle_of o)) by (by exists o). destruct Hp as [Ho Hu Hb]. split.
    + intros h. cbn. rewrite elem_of_difference, elem_of_singleton, Ho. setoid_rewrite holds_emptied. split.
      * intros [[x Hx] Hne]. exists x. split; [|done]. intros ->. destruct Hx as (o' & Ho' & He & _). congruence.
      * intros (x & Hne & Hx). split; [by exists x|]. intros ->. by apply Hne, (Hu x v (handle_of o)).
    + intros x y h. rewrite !holds_emptied. intros [_ Hx] [_ Hy]. by apply (Hu x y h).
    + cbn. rewrite Hb. assert (Hin : handle_of o ∈ ps_open p) by (apply Ho; by exists v).
      rewrite (union_difference_singleton_L _ _ Hin) at 1. rewrite elements_union_singleton by set_solver. by rewrite Permutation_middle.
Qed.
Lemma owned_move p v w other :
  owned p -> v <> w -> ps_objects p !! w = Some other -> (forall h, ~ holds p v h) ->
  owned (with_object w (emptied other) (with_object v other p)).
Proof.
  intros [Ho Hu Hb] Hvw Hw Hv.
  assert (Hh : forall x h, holds (with_object w (emptied other) (with_object v other p)) x h <->
    (x = v /\ holds p w h) \/ (x <> v /\ x <> w /\ holds p x h)).
  { intros x h. rewrite holds_emptied, holds_with_object. assert (holds p w h <-> handle_of other = h /\ h <> kInvalidSocket) as ->.
    { unfold holds. rewrite Hw. naive_solver. } naive_solver. }
  split; [|intros x y h; rewrite !Hh; naive_solver|done].
  intros h. cbn. rewrite Ho. setoid_rewrite Hh. split.
  - intros [x Hx]. destruct (decide (x = w)) as [->|]; [exists v; by left|]. exists x. right. split_and!; [|done..]. intros ->. by apply (Hv h).
  - naive_solver.
Qed.
Lemma owned_adopt p v o :
  owned p -> ps_objects p !! v = None -> valid_object o = true -> handle_of o ∉ ps_open p ->
  owned (mkProcess (<[v := o]> (ps_objects p)) ({[handle_of o]} ∪ ps_open p) (handle_of o :: ps_opened p) (ps_closed p)).
Proof.
  intros [Ho Hu Hb] Hv Hval%negb_true_iff%Z.eqb_neq Hin.
  assert (Hh : forall x h, holds (mkProcess (<[v := o]> (ps_objects p)) ({[handle_of o]} ∪ ps_open p) (handle_of o :: ps_opened p) (ps_closed p)) x h
    <-> (x = v /\ handle_of o = h) \/ (x <> v /\ holds p x h)).
  { intros x h. change (holds (with_object v o p) x h <-> (x = v /\ handle_of o = h) \/ (x <> v /\ holds p x h)).
    rewrite holds_with_object. naive_solver. }
  assert (Hnone : forall h, ~ holds p v h) by (intros h (o' & Ho' & _); congruence).
  split.
  - intros h. cbn [ps_open]. rewrite elem_of_union, elem_of_singleton, Ho. setoid_rewrite Hh. split.
    + intros [->|[x Hx]]; [exists v; by left|]. exists x. right. split; [|done]. intros ->. by apply (Hnone h).
    + naive_solver.
  - intros x y h. rewrite !Hh. intros [[-> E]|[Hx Hx']] [[-> E']|[Hy Hy']]; [done| | |by apply (Hu x y h)].
    + subst h. destruct Hin. apply Ho. by exists y.
    + subst h. destruct Hin. apply Ho. by exists x.
  - cbn. rewrite Hb, elements_union_singleton by done. by rewrite Permutation_middle.
Qed.
Lemma emptied_holds_none p v o h : ~ holds (close_object v o p) v h.
Proof. unfold close_object. rewrite holds_emptied. naive_solver. Qed.

Lemma operate_on_owned op p p' : owned p -> operate_on op p = Some p' -> owned p'.
Proof.
  intros Hp. destruct op as [v o|v o|v w|v w|v|v]; cbn; intros E.
  - destruct (ps_objects p !! v) eqn:Hv; [done|]. injection E as <-. apply (owned_same p); [done| |done..].
    intros x h. rewrite holds_emptied. split; [naive_solver|]. intros H. split; [|done]. intros ->. destruct H as (o' & Ho' & _). congruence.
  - destruct (ps_objects p !! v) eqn:Hv; [done|]. destruct (valid_object o) eqn:Hval; cbn in E; [|done].
    case_bool_decide; [|done]. injection E as <-. by apply owned_adopt.
  - destruct (ps_objects p !! v) eqn:Hv; [done|]. destruct (ps_objects p !! w) as [other|] eqn:Hw; [|done]. injection E as <-.
    apply owned_move; [done| |done|]; [congruence|]. intros h (o' & Ho' & _). congruence.
  - destruct (ps_objects p !! v) as [this|] eqn:Hv; [|done]. destruct (ps_objects p !! w) as [other|] eqn:Hw; [|done].
    destruct (same_type this other); [|done]. destruct (Nat.eqb_spec v w) as [->|Hne]; injection E as <-; [done|].
    apply owned_move; [by apply owned_close|done| |apply emptied_holds_none].
    unfold close_object, close_handle. destruct (handle_of this =? kInvalidSocket); cbn; by rewrite lookup_insert_ne.
  - destruct (ps_objects p !! v) as [o|] eqn:Hv; [|done]. injection E as <-. by apply owned_close.
  - destruct (ps_objects p !! v) as [o|] eqn:Hv; [|done]. injection E as <-.
    apply (owned_same (close_object v o p)); [by apply owned_close| |done..]. intros x h. unfold close_object. rewrite holds_emptied.
    unfold holds at 1. cbn. rewrite delete_insert_eq. destruct (decide (x = v)) as [->|Hne]; [rewrite lookup_delete_eq; naive_solver|].
    rewrite lookup_delete_ne by done. unfold holds. naive_solver.
Qed.

(** C37. The socket classes neither leak a handle nor close one twice: after any sequence of constructions, moves, closes
    and destructions, a handle is open exactly when an object holds it, no two objects hold the same handle, and every
    handle that was obtained has been closed once for each time it was obtained, unless it is still open; so when all
    objects are gone nothing is open. *)
Theorem handles_owned_once (ops : list Operation) (p : Process) (Hrun : operations ops process_start = Some p) :
  (forall h, h ∈ ps_open p <-> exists v, holds p v h) /\
  (forall v w h, holds p v h -> holds p w h -> v = w) /\
  ps_opened p ≡ₚ ps_closed p ++ elements (ps_open p) /\
  (ps_objects p = ∅ -> ps_opened p ≡ₚ ps_closed p).
Proof.
  assert (Hp : owned p).
  { assert (H0 : owned process_start).
    { split; [|by intros v w h (o & Ho & _)|done]. intros h. cbn. split; [set_solver|]. by intros (v & o & Ho & _). }
    revert H0 Hrun. generalize process_start. induction ops as [|op ops IH]; intros q Hq Hrun; [by injection Hrun as <-|].
    cbn in Hrun. destruct (operate_on op q) as [q'|] eqn:E; [|done]. apply (IH q'); [by eapply operate_on_owned|exact Hrun]. }
  destruct Hp as [Ho Hu Hb]. split_and!; [done..|]. intros Hnone. rewrite Hb.
  assert (ps_open p = ∅) as ->.
  { apply set_eq. intros h. split; [|set_solver]. rewrite Ho. intros (v & o & Ho' & _). by rewrite Hnone, lookup_empty in Ho'. }
  by rewrite elements_empty, app_nil_r.
Qed.

(** A listener is bound and moved into the loop; a peer is accepted, moved into its connection and dropped; the number of
    its handle is used again for the next peer, which replaces an open socket by assignment. *)
Definition sample_operations : list Operation :=
  [OAdopt 0 (OListener 3 7000); OMoveConstruct 1 0; ODestroy 0; OAdopt 2 (OSocket 4); OMoveConstruct 3 2; ODestroy 2; OClose 3; ODestroy 3;
   OAdopt 2 (OSocket 4); OAdopt 4 (OSocket 5); OMoveAssign 4 2; ODestroy 2; ODestroy 4; OMoveAssign 1 1; ODestroy 1]%nat.
Lemma handles_owned_once_witness : exists p, operations sample_operations process_start = Some p /\ ps_opened p ≡ₚ ps_closed p /\ ps_closed p = [3; 4; 5; 4].
Proof.
  destruct (operations sample_operations process_start) as [p|] eqn:E; [|vm_compute in E; discriminate E].
  assert (Hc : ps_objects <$> operations sample_operations process_start = Some ∅ /\
               ps_closed <$> operations sample_operations process_start = Some [3; 4; 5; 4]) by (vm_compute; split; reflexivity).
  rewrite E in Hc. destruct Hc as [Ho Hl]. injection Ho as Ho. injection Hl as Hl.
  exists p. split_and!; [reflexivity| |exact Hl]. exact (proj2 (proj2 (proj2 (handles_owned_once sample_operations p E))) Ho).
Defined.
